(* ===== verification/_CoqProject ===== *)
-Q . S2P
Prelude.v
Chainbase.v
Ints.v
Uint128.v
Config.v
Asset.v
Authority.v
Headers.v
Operations.v
State.v
Blocks.v
ForkDb.v
BlockLog.v
Store.v
Ledger.v
Balances.v
Vesting.v
Conserve.v
Frames.v
Rows.v
Drain.v
EvalFunds.v
Market.v
EvalAccounts.v
Proxy.v
Reward.v
EvalContent.v
Evaluators.v
Invariants.v
Genesis.v
BlockProc.v
Withdrawals.v
Expiry.v
Payout.v
Schedule.v
Chain.v
Loops.v
AccountFrame.v
Sound.v
Solvent.v
BlockSupply.v
Heads.v
Termination.v
Due.v
Node.v
Impacted.v
Bandwidth.v
Producer.v
KeyLookup.v
MarketHistory.v
Sync.v
Raw.v
Wire.v
Signing.v
History.v
Independent.v
Replay.v
Restart.v
