(* ===== verification/Prelude.v ===== *)
(** * Verification of the Zattera chain

    Zattera is a delegated-proof-of-stake blockchain.  Its core, under
    src/src/core, is a state machine: [database::push_block] and
    [database::push_transaction] change a set of object tables (chainbase)
    through evaluators, one for each operation, and through the periodic
    processing that ends every block.  This library translates that state
    machine into Rocq functions and proves what makes it correct.

    ** Reading the model

    The state is the record [database] (State.v): one [table] per index of
    src/src/core/chain/include/zattera/chain/*.hpp (rows by id and the next
    id), the singleton objects as fields, and the list of virtual operations
    pushed.  Code that reads or changes the state is a computation of the type
    [C A] (Store.v), a state and error monad: an exception ([FC_ASSERT],
    overflow, a failed [get], a duplicate key) is a value of [exn] and carries
    no state, because every caller runs inside a session that is undone.
    Integers keep their width: [safe.add] and the like throw as [fc::safe]
    does, [wrap_u32], [wrap_i64] and [wrap_u128] wrap as the machine does.
    Names follow the source; the evaluator of operation X is [X_do_apply].

    ** Files

    Foundations:
    - Prelude.v: exceptions, the monad, inversion tactics, record update.
    - Chainbase.v: the undo stack of chainbase (chainbase.hpp), object by
      object, and sessions over several indexes.
    - Ints.v, Uint128.v: fc/safe.hpp and fc/uint128.hpp, with the 32-bit limb
      arithmetic of the latter proved equivalent to arithmetic modulo 2^128.
    - Config.v: the constants of the live network (config.hpp).

    Protocol:
    - Asset.v: assets, prices, symbols and the Damm check digit (asset.cpp).
    - Authority.v: weighted authorities, [sign_state] and [verify_authority].
    - Headers.v: block headers, their ids, digests and signing keys
      (block_header.hpp, block.cpp); operations that report blocks carry them.
    - Operations.v: the 41 operations a transaction can have, their validation
      and the authorities they require (zattera_operations.hpp and .cpp).
    - Blocks.v: ids, digests and signing of transactions, and the merkle root of
      a block (block.cpp, transaction.cpp), after State.v.
    - Raw.v: the binary encodings of fc::raw (fc/io/raw.hpp) with their laws.
    - Wire.v: the wire format of all operations, transactions and blocks (the
      FC_REFLECT declarations of the protocol headers), and the bytes that
      are hashed for a signature.

    State and evaluators:
    - State.v, Store.v: the objects, tables, unique keys and ordered indexes.
    - Ledger.v, Balances.v, Vesting.v: the balance primitives of database.cpp,
      each with its effect on the ledger.
    - Conserve.v: what it is to conserve the ledger, and its proof automation.
    - Drain.v: loops over an index that shrinks.
    - EvalFunds.v, Market.v, EvalAccounts.v, Proxy.v, Reward.v, EvalContent.v:
      the evaluators of zattera_evaluator.cpp, the order book and the reward
      curves (utils/reward.cpp).
    - Evaluators.v: the dispatch over all operations.
    - Invariants.v: [validate_invariants] and the recounting functions.
    - Genesis.v: [init_genesis].

    Blocks:
    - BlockProc.v, Withdrawals.v, Expiry.v, Payout.v: the periodic processing.
    - Schedule.v: slots and the election of witnesses (witness_schedule.cpp).
    - Chain.v: applying transactions and blocks to the tables.
    - Heads.v: nothing but the block itself moves the head of the chain.

    Invariants of a whole chain:
    - Frames.v, Rows.v, Loops.v: relations between the states before and after a
      computation, closed under the combinators and the loops of the code, with
      the tactic [respects]; the instances are below.
    - AccountFrame.v: what a write may do to an account ([evolves]); a relation
      that admits these writes (class [AccountFrame]) is respected by every
      evaluator, and with the credits of vesting rewards (class [RewardFrame]) by
      every periodic step.
    - Sound.v: accounts, proxies and routes stay sound; the graph of proxies
      never has a cycle.
    - Solvent.v: no transaction makes a balance negative, too large for 64 bits
      or an amount of another asset.
    - BlockSupply.v: the books of a chain, from genesis on.
    - Termination.v: the loops at the end of a block end.
    - Due.v: nothing that is due survives a block.

    The node:
    - ForkDb.v: the tree of recent blocks (fork_database.cpp), on a heap with
      weak pointers.
    - BlockLog.v: the two files of irreversible blocks (block_log.cpp).
    - Node.v: pushing, popping and producing blocks, switching forks, pending
      transactions and checkpoints (the rest of database.cpp around
      [_apply_block], db_with.hpp).  Here an exception leaves a state behind,
      so a computation ([N]) returns its outcome and the node in either case.
      The undo stack of a node is a stack of complete copies of the tables:
      [generic_index_refines] shows that this is what the undo states of
      chainbase implement.
    - Independent.v, Replay.v: nothing but the duplicate check and the clean-up
      reads the recorded transactions, and a block applied with fewer checks
      does the same.
    - Restart.v: opening, closing and replaying the data directory, and the
      start of the chain plugin (chain_plugin.cpp).

    Plugins, each a state of its own beside the chain:
    - Producer.v: the block production loop of the witness plugin
      (witness_plugin.cpp), over the node of Node.v.
    - Bandwidth.v: the rate limit, the reserve ratio and the content rules of the
      same plugin; Impacted.v: the accounts an operation concerns (impacted.cpp).
    - KeyLookup.v: the index of accounts by key (account_by_key_plugin.cpp).
    - MarketHistory.v: the candles of the internal market
      (market_history_plugin.cpp).
    - Sync.v: what the p2p plugin does with received blocks and transactions and
      how it answers the network (p2p_plugin.cpp, [accept_block] of
      chain_plugin.cpp).
    - Signing.v: which keys a transaction is signed with
      ([get_required_signatures] and [minimize_required_signatures] of
      transaction.cpp), and the calls of the database API and the wallet around
      them (database_api.cpp, wallet.cpp).
    - History.v: the account history plugin, with the operations in their wire
      format, and the calls that serve it (account_history_plugin.cpp,
      account_history_api.cpp).

    ** What is proved

    The central property is conservation.  [gap] (Ledger.v) is, per symbol,
    what all rows hold less what the supply records, with two further channels
    for pending vesting rewards and for votes; a state is [balanced] when all
    gaps are zero.  Each primitive has an effect lemma, each evaluator and each
    periodic step is shown to leave the gaps as they were, and a transaction
    therefore takes balanced states to balanced states
    ([transaction_preserves_supply]).  [validate_invariants_sound] ties the gap
    to the check the code makes itself and [init_genesis_balanced] starts the
    chain in a balanced state.  The payout of comments conserves too, but for
    rewards too small for a share ([cashout_preserves_supply]).
    [chain_keeps_books] puts all of it together: from genesis and through any
    blocks, the dollar supply, the vesting shares and the votes are exactly what
    accounts hold, with the invariants this needs ([sound]) proved on the way.
    Its one hypothesis about transactions is that the null account, which no key
    can sign for, names no proxy.

    Further groups:
    - accounts never overdraw ([accounts_stay_solvent]); the end of a block ends
      ([close_block_terminates]) and leaves nothing undone ([due_work_is_done]);
    - rollback: the undo stack refines a stack of copies
      ([generic_index_refines], [session_rollback]); a block that fails leaves
      the chain as it was ([extend_chain_atomic]); the tables are always those
      of the head block with the pending transactions applied
      ([reachable_pending_ok]);
    - authorization ([verify_authority_sound], [applied_transaction_authorized])
      and replay ([replay_refused], [reference_block_round_trip]);
    - consensus: slots, shuffle, schedule, the participation window, the last
      irreversible block before and after witnesses vote
      ([irreversible_block_confirmed]), the head ([block_becomes_head]);
    - blocks: the merkle root ([merkle_root_equiv], [merkle_root_binding]), the
      fork database ([reachable_fork_ok], [push_block_outcome],
      [fetch_branch_from_spec]) and how it is left behind by an invalid block
      ([invalid_block_hides_fork]), the log after any sequence of appends
      ([read_back], [open_restores]);
    - bytes: a block is read back from its bytes and from no part of them
      ([block_round_trip]), which is what BlockLog.v assumes of its packing;
      what is signed determines the transaction ([signed_bytes_binding]);
    - signing: a transaction signed with the keys the API chooses is accepted by
      the chain ([chosen_signatures_accepted]; [minimize_keeps_authority] for
      leaving keys out);
    - restarts: replaying the log ends in the state the chain was in
      ([reindex_reproduces]); a new process goes back to the last irreversible
      block ([restart_rewinds]);
    - synchronization: a node can summarize its chain
      ([synopsis_covers_chain]), and a peer answers with blocks that continue
      from one both have ([sync_finds_common_block]);
    - plugins: a node produces only the blocks that are due from it, each for a
      later slot than those before it unless the chain went back
      ([produces_only_own_slots], [one_block_per_slot]); the bandwidth limit and
      the exact course of the reserve ratio ([bandwidth_limit_enforced],
      [reserve_ratio_stays_bounded]); the indexes
      follow the chain ([key_lookup_follows], [buckets_are_candles]) and the
      history of an account is served as it happened
      ([account_history_served]);
    - arithmetic: the uint128 product, the accuracy of the integer square root,
      conversions at a price.

    Theorems that show defects: [median_feed_needs_dollars],
    [merkle_exception_unsigned], [failed_modify_breaks_undo],
    [dust_reward_counted_twice], [one_block_index_lost],
    [switch_leaves_fork_head_behind], [invalid_block_hides_fork] (and the run
    [invalid_block_hides_longer_fork]), [claimed_account_not_indexed],
    [const_sign_signs_other_bytes], [api_refuses_multisig],
    [verify_signatures_takes_active_key], [extra_signature_refused],
    [op_in_trx_lost], [average_block_size_overflows] and
    [resync_fallback_fails].  Examples that a comment or a document promises
    otherwise: [not_the_minimal_subset] and [seven_tenths_are_not_enough].

    ** Bounds and fuel

    Loops over an index that the body changes ([drain], [walk],
    [cashout_due], [walk_parents]) carry fuel: one more than the number of rows
    of the table, or the maximal comment depth; running out is the exception
    [out_of_fuel], so no theorem can hold because a loop was cut short
    ([close_block_terminates] shows that the fuel of all loops at the end of a
    block is enough).
    Recursion over proxies and authorities is bounded in the code itself
    (depths 4 and 2) and the model recurses over these bounds.  Walks through
    the fork database follow pointers to older items and are bounded by the
    address they start from; the levels of a merkle tree and the scan of a log
    are bounded by the length of their input; popping blocks is bounded by the
    address of the head of the fork database, and a replay by the length of the log.  A varint has at most five bytes,
    as its value has 32 bits; the loop of a synopsis halves a 32-bit distance
    and gets one round for each bit and one more.

    ** Not modelled

    The build configuration is the live network: no test mode, not low-memory,
    votes cleared after payout, no hardfork beyond the first.  Hashes,
    key recovery and the text patching library are parameters (classes [Codec],
    [DiffPatch], [HeaderCrypto], [Crypto], [KeyDerivation]), and so are the sizes
    of C++ types that bound containers on the wire ([Abi]).  BlockLog.v and
    Node.v are proved against the interface [Packing], which Wire.v discharges.
    The future extensions of operations and transactions have no alternative
    with a content: they are lists of units, read and written as sets of [void_t]
    and refused by validation where the code does so.  Left out: shared memory, file streams and locking, the network beneath the p2p plugin, the other plugins and most of the
    query APIs and of the wallet, notifications to observers other than the order of virtual operations
    and the handlers of the plugins above, and vendored code. *)
From stdpp Require Export base gmap list strings sorting numbers.
From Stdlib Require Export ZArith Lia.

#[export] Set Default Goal Selector "!".
Open Scope Z_scope.

(** ** Exceptions and fallible computations

    Every failure of the C++ code is an exception ([FC_ASSERT],
    [ZATTERA_ASSERT], the overflow checks of [fc::safe], a failed [get] or
    uniqueness check of chainbase). *)

Inductive exn : Set :=
| assert_exception (msg : string)
| overflow_exception
| underflow_exception
| divide_by_zero_exception
| key_not_found (what : string)
| uniqueness_violated (what : string)
| out_of_fuel.
#[export] Instance exn_eq_dec : EqDecision exn.
Proof. solve_decision. Defined.

Inductive res (A : Type) : Type :=
| Ok (a : A)
| Throw (e : exn).
Arguments Ok {A} a.
Arguments Throw {A} e.

Definition res_bind {A B} (r : res A) (k : A → res B) : res B :=
  match r with Ok a => k a | Throw e => Throw e end.

Definition res_assert (c : bool) (msg : string) : res unit :=
  if c then Ok tt else Throw (assert_exception msg).

Definition of_option {A} (o : option A) (e : exn) : res A :=
  match o with Some a => Ok a | None => Throw e end.

Definition is_ok {A} (r : res A) : bool :=
  match r with Ok _ => true | Throw _ => false end.

Declare Scope chain_scope.
Delimit Scope chain_scope with chain.
Open Scope chain_scope.

Notation "'let?' x ':=' r 'in' k" := (res_bind r (fun x => k))
  (at level 10, x pattern, r at level 200, k at level 200,
   format "'[v' 'let?'  x  ':='  r  'in' '/' k ']'") : chain_scope.

(** The state and error monad of the chain code.  A throw carries no state:
    callers run inside a chainbase session that is undone when an exception
    escapes. *)

Definition M (S A : Type) : Type := S → res (A * S).

Definition ret {S A} (a : A) : M S A := fun s => Ok (a, s).
Definition bind {S A B} (m : M S A) (k : A → M S B) : M S B :=
  fun s => match m s with Ok (a, s') => k a s' | Throw e => Throw e end.
Definition throw {S A} (e : exn) : M S A := fun _ => Throw e.
Definition get {S} : M S S := fun s => Ok (s, s).
Definition gets {S A} (f : S → A) : M S A := fun s => Ok (f s, s).
Definition put {S} (s' : S) : M S unit := fun _ => Ok (tt, s').
Definition modify {S} (f : S → S) : M S unit := fun s => Ok (tt, f s).
Definition lift {S A} (r : res A) : M S A :=
  fun s => match r with Ok a => Ok (a, s) | Throw e => Throw e end.
Definition fc_assert {S} (c : bool) (msg : string) : M S unit :=
  lift (res_assert c msg).
Definition when {S} (c : bool) (m : M S unit) : M S unit :=
  if c then m else ret tt.

Notation "'let*' x ':=' m 'in' k" := (bind m (fun x => k))
  (at level 10, x pattern, m at level 200, k at level 200,
   format "'[v' 'let*'  x  ':='  m  'in' '/' k ']'") : chain_scope.
Notation "'let!' x ':=' r 'in' k" := (bind (lift r) (fun x => k))
  (at level 10, x pattern, r at level 200, k at level 200,
   format "'[v' 'let!'  x  ':='  r  'in' '/' k ']'") : chain_scope.
Notation "m ;; k" := (bind m (fun _ => k))
  (at level 100, k at level 200, right associativity) : chain_scope.

Arguments bind : simpl never.
Arguments ret : simpl never.
Arguments get : simpl never.
Arguments gets : simpl never.
Arguments put : simpl never.
Arguments modify : simpl never.
Arguments lift : simpl never.
Arguments throw : simpl never.
Arguments fc_assert : simpl never.

(** Iteration over a sequence that is fixed when the loop starts. *)
Fixpoint for_each {S A} (l : list A) (f : A → M S unit) : M S unit :=
  match l with
  | [] => ret tt
  | x :: l' => f x ;; for_each l' f
  end.

Fixpoint fold_m {S A B} (f : B → A → M S B) (b : B) (l : list A) : M S B :=
  match l with
  | [] => ret b
  | x :: l' => let* b' := f b x in fold_m f b' l'
  end.

Fixpoint res_fold {A B} (f : B → A → res B) (b : B) (l : list A) : res B :=
  match l with
  | [] => Ok b
  | x :: l' => let? b' := f b x in res_fold f b' l'
  end.

Lemma res_fold_app {A B} (f : B → A → res B) b l l' b' :
  res_fold f b l = Ok b' → res_fold f b (l ++ l') = res_fold f b' l'.
Proof.
  revert b. induction l as [|x l IH]; intros b; cbn; [by intros [= ->]|].
  destruct (f b x); cbn; [apply IH|done].
Qed.

(** ** Inversion of successful runs *)

Lemma bind_ok {S A B} (m : M S A) (k : A → M S B) s b s' :
  bind m k s = Ok (b, s') ↔ ∃ a s1, m s = Ok (a, s1) ∧ k a s1 = Ok (b, s').
Proof.
  unfold bind. destruct (m s) as [[a s1]|e]; split.
  - eauto.
  - intros (? & ? & [= <- <-] & ?). done.
  - done.
  - intros (? & ? & ? & ?). done.
Qed.

Lemma bind_run {S A B} (m : M S A) (k : A → M S B) s a s1 : m s = Ok (a, s1) → bind m k s = k a s1.
Proof. unfold bind. by intros ->. Qed.

Lemma bind_assoc {S A B C} (m : M S A) (k : A → M S B) (k' : B → M S C) s :
  bind (bind m k) k' s = bind m (fun a => bind (k a) k') s.
Proof. unfold bind. by destruct (m s) as [[]|]. Qed.

Lemma lift_ok {S A} (r : res A) (s : S) a s' :
  lift r s = Ok (a, s') ↔ r = Ok a ∧ s' = s.
Proof. unfold lift. destruct r; naive_solver. Qed.

Lemma res_bind_ok {A B} (r : res A) (k : A → res B) b :
  res_bind r k = Ok b ↔ ∃ a, r = Ok a ∧ k a = Ok b.
Proof. destruct r; naive_solver. Qed.

Lemma res_assert_ok c msg u : res_assert c msg = Ok u ↔ c = true.
Proof. unfold res_assert. destruct c, u; naive_solver. Qed.

Lemma of_option_ok {A} (o : option A) e a : of_option o e = Ok a ↔ o = Some a.
Proof. destruct o; naive_solver. Qed.

Lemma ret_ok {S A} (a b : A) (s s' : S) : ret a s = Ok (b, s') ↔ b = a ∧ s' = s.
Proof. unfold ret. naive_solver. Qed.
Lemma gets_ok {S A} (f : S → A) a (s s' : S) : gets f s = Ok (a, s') ↔ a = f s ∧ s' = s.
Proof. unfold gets. naive_solver. Qed.
Lemma get_ok {S} (s x s' : S) : get s = Ok (x, s') ↔ x = s ∧ s' = s.
Proof. unfold get. naive_solver. Qed.
Lemma put_ok {S} (s x s' : S) u : put x s = Ok (u, s') ↔ s' = x.
Proof. unfold put. destruct u. naive_solver. Qed.
Lemma modify_ok {S} (f : S → S) s s' u : modify f s = Ok (u, s') ↔ s' = f s.
Proof. unfold modify. destruct u. naive_solver. Qed.

(** [inv_ok] splits every hypothesis that says a computation succeeded. *)
Ltac inv_ok_step :=
  match goal with
  | H : bind (lift _) _ _ = Ok (_, _) |- _ =>
      apply bind_ok in H as (? & ? & [? ?]%lift_ok & H); subst
  | H : bind _ _ _ = Ok (_, _) |- _ =>
      apply bind_ok in H as (? & ? & ? & H)
  | H : lift _ _ = Ok (_, _) |- _ => apply lift_ok in H as [H ?]; subst
  | H : fc_assert _ _ _ = Ok (_, _) |- _ =>
      apply lift_ok in H as [H%res_assert_ok ?]; subst
  | H : res_bind _ _ = Ok _ |- _ => apply res_bind_ok in H as (? & ? & H)
  | H : res_assert _ _ = Ok _ |- _ => apply res_assert_ok in H
  | H : of_option _ _ = Ok _ |- _ => apply of_option_ok in H
  | H : ret _ _ = Ok (_, _) |- _ => apply ret_ok in H as [? ?]; subst
  | H : gets _ _ = Ok (_, _) |- _ => apply gets_ok in H as [? ?]; subst
  | H : get _ = Ok (_, _) |- _ => apply get_ok in H as [? ?]; subst
  | H : put _ _ = Ok (_, _) |- _ => apply put_ok in H; subst
  | H : modify _ _ = Ok (_, _) |- _ => apply modify_ok in H; subst
  | H : throw _ _ = Ok _ |- _ => discriminate H
  | H : Throw _ = Ok _ |- _ => discriminate H
  | H : Ok _ = Ok _ |- _ => injection H as ?; subst
  | H : (_, _) = (_, _) |- _ => apply pair_equal_spec in H as [? ?]; subst
  | u : unit |- _ => destruct u
  end.
Ltac inv_ok := repeat inv_ok_step.

(** Booleans of the code's conditions as propositions. *)
Ltac bool_prop :=
  repeat match goal with
  | H : (_ && _)%bool = true |- _ => apply andb_true_iff in H as [? ?]
  | H : negb _ = true |- _ => apply negb_true_iff in H
  | H : negb _ = false |- _ => apply negb_false_iff in H
  | H : (_ =? _) = true |- _ => apply Z.eqb_eq in H
  | H : (_ =? _) = false |- _ => apply Z.eqb_neq in H
  | H : (_ <=? _) = true |- _ => apply Z.leb_le in H
  | H : (_ <=? _) = false |- _ => apply Z.leb_gt in H
  | H : (_ <? _) = true |- _ => apply Z.ltb_lt in H
  | H : (_ <? _) = false |- _ => apply Z.ltb_ge in H
  | H : (_ >=? _) = _ |- _ => rewrite Z.geb_leb in H
  | H : (_ >? _) = _ |- _ => rewrite Z.gtb_ltb in H
  | H : bool_decide _ = true |- _ => apply bool_decide_eq_true in H
  | H : bool_decide _ = false |- _ => apply bool_decide_eq_false in H
  end.

(** ** Record update

    [r <| field ::= f |>] and [r <| field := v |>], derived from an
    eta-expansion of the record that each record type declares once. *)

Class Eta (R : Type) := eta : R → R.
Class Setter {R T : Type} (proj : R → T) := upd : (T → T) → R → R.
Arguments upd {R T} proj {_} f r.

Ltac derive_setter p :=
  lazymatch type of p with
  | ?R → ?T =>
      let inst := constr:(_ : Eta R) in
      let f := fresh "f" in let r := fresh "r" in
      refine (fun (f : T → T) (r : R) => _);
      let t := eval hnf in (@eta R inst r) in
      lazymatch eval pattern (p r) in t with
      | ?g _ => let b := eval cbv beta in (g (f (p r))) in exact b
      end
  end.
#[export] Hint Extern 1 (Setter ?p) => derive_setter p : typeclass_instances.

Notation "r <| p ::= f |>" := (upd p f r)
  (at level 1, left associativity, p at level 1, f at level 200) : chain_scope.
Notation "r <| p := v |>" := (upd p (fun _ => v) r)
  (at level 1, left associativity, p at level 1, v at level 200) : chain_scope.

(** ** Loops *)

(** A loop over a list keeps an invariant and establishes a fact per element. *)
Lemma for_each_inv {S A} (I : S → Prop) (P : A → Prop) (f : A → M S unit) l s s' :
  (∀ x s s', x ∈ l → I s → f x s = Ok (tt, s') → I s' ∧ P x) →
  I s → for_each l f s = Ok (tt, s') → I s' ∧ ∀ x, x ∈ l → P x.
Proof.
  intros Hf. revert s. induction l as [|x l IH]; intros s Hs H; cbn in H.
  - inv_ok. split; [done|]. intros x Hx. inversion Hx.
  - inv_ok. destruct (Hf x _ _ ltac:(apply list_elem_of_here) Hs H0) as [Hs1 Hx].
    destruct (IH ltac:(intros; eapply Hf; [by apply list_elem_of_further|..]; eauto) _ Hs1 H)
      as [Hs' Hl].
    split; [done|]. intros y [->|Hy]%elem_of_cons; auto.
Qed.

Lemma for_each_pres {S A} (I : S → Prop) (f : A → M S unit) l s s' :
  (∀ x s s', x ∈ l → I s → f x s = Ok (tt, s') → I s') →
  I s → for_each l f s = Ok (tt, s') → I s'.
Proof.
  intros Hf Hs H. eapply (for_each_inv I (fun _ => True)) in H as [? _]; eauto.
Qed.

Lemma fold_m_pres {S A B} (I : B → S → Prop) (f : B → A → M S B) l b s b' s' :
  (∀ x b s b' s', x ∈ l → I b s → f b x s = Ok (b', s') → I b' s') →
  I b s → fold_m f b l s = Ok (b', s') → I b' s'.
Proof.
  revert b s. induction l as [|x l IH]; intros b s Hf Hs H; cbn in H; inv_ok; [done|].
  eapply IH; [|eapply Hf; [apply list_elem_of_here| |]|]; eauto.
  intros. eapply Hf; [by apply list_elem_of_further|..]; eauto.
Qed.
