(* ===== verification/Chainbase.v ===== *)
(** * The undo stack of chainbase

    [generic_index] of src/src/core/chainbase/include/chainbase/chainbase.hpp: a
    multi-index container with a stack of undo states.  Each undo state
    records, for the session it belongs to, the previous values of modified
    objects, the removed objects and the ids of new ones.

    [Module generic_index] translates the operations, failures included: a
    boost multi-index container erases an element whose modification collides
    with another, and an iterator obtained by a failed [find] is used without a
    check.  [Module snapshots] is the abstract specification, a stack of
    complete copies of the table, and the theorems show that the undo stack
    implements it as long as modifications keep the unique keys of an object. *)
From S2P Require Import Prelude.

(** The outcome of an operation that changes an index: completed, an exception
    that leaves a (partly changed) index, or undefined behaviour. *)
Inductive outcome (A : Type) : Type :=
| done (a : A)
| threw (a : A)
| undefined.
Arguments done {A} a.
Arguments threw {A} a.
Arguments undefined {A}.

Definition outcome_bind {A B} (o : outcome A) (on_throw : A → B) (k : A → outcome B)
  : outcome B :=
  match o with
  | done a => k a
  | threw a => threw (on_throw a)
  | undefined => undefined
  end.

(** What the container knows of its value type: the id field and the keys of
    the unique indexes other than the one by id, in the order of the indexes. *)
Class Indexed (V : Type) := {
  get_id : V → Z;
  unique_keys : V → list string;
}.

Section container.
Context `{Indexed V}.

Record undo_state := mk_undo_state {
  old_values : gmap Z V;
  removed_values : gmap Z V;
  new_ids : gset Z;
  old_next_id : Z;
  undo_revision : Z;
}.

Record index_state := mk_index_state {
  (** the most recent session first: the back of the deque is the head here *)
  stack : list undo_state;
  revision : Z;
  next_id : Z;
  indices : gmap Z V;
}.

End container.
Arguments undo_state V : clear implicits.
Arguments index_state V : clear implicits.
#[export] Instance eta_undo_state V : Eta (undo_state V) := fun r =>
  mk_undo_state (old_values r) (removed_values r) (new_ids r) (old_next_id r)
    (undo_revision r).
#[export] Instance eta_index_state V : Eta (index_state V) := fun r =>
  mk_index_state (stack r) (revision r) (next_id r) (indices r).

(** ** The multi-index container *)

Section multi_index.
Context `{Indexed V}.

(** Two elements collide in a unique index other than the one by id. *)
Definition clash (v w : V) : bool :=
  existsb (fun p => bool_decide (p.1 = p.2)) (zip (unique_keys v) (unique_keys w)).

Definition collides (m : gmap Z V) (v : V) : bool :=
  bool_decide (is_Some (m !! get_id v))
  || existsb (fun p => clash v p.2) (map_to_list m).

(** [emplace] of the container: nothing is inserted on a collision. *)
Definition mi_emplace (m : gmap Z V) (v : V) : outcome (gmap Z V) :=
  if collides m v then threw m else done (<[get_id v := v]> m).

(** [modify] of the container erases the element on a collision. *)
Definition mi_modify (m : gmap Z V) (id : Z) (f : V → V) : outcome (gmap Z V) :=
  match m !! id with
  | None => undefined
  | Some v =>
      let m' := delete id m in
      if collides m' (f v) then threw m' else done (<[get_id (f v) := f v]> m')
  end.

Definition mi_erase (m : gmap Z V) (id : Z) : outcome (gmap Z V) :=
  match m !! id with None => undefined | Some _ => done (delete id m) end.

Fixpoint for_items {A} (step : gmap Z V → A → outcome (gmap Z V))
    (m : gmap Z V) (l : list A) : outcome (gmap Z V) :=
  match l with
  | [] => done m
  | x :: l' => outcome_bind (step m x) id (fun m' => for_items step m' l')
  end.

(** The items of an id map in the order of their ids. *)
Definition id_le (p q : Z * V) : Prop := p.1 ≤ q.1.
#[global] Instance id_le_dec p q : Decision (id_le p q).
Proof. unfold id_le. apply _. Defined.
Definition items (m : gmap Z V) : list (Z * V) := merge_sort id_le (map_to_list m).
Definition sorted_ids (s : gset Z) : list Z := merge_sort Z.le (elements s).

End multi_index.

(** ** The operations of generic_index *)

Module generic_index.
Section ops.
Context `{Indexed V}.
Implicit Types idx : index_state V.

Definition enabled idx : bool := bool_decide (stack idx ≠ []).

Definition with_head (f : undo_state V → undo_state V) idx : index_state V :=
  match stack idx with
  | [] => idx
  | u :: st => idx <| stack := f u :: st |>
  end.

Definition on_modify (v : V) : index_state V → index_state V :=
  with_head (fun head =>
    if bool_decide (get_id v ∈ new_ids head) then head
    else if bool_decide (is_Some (old_values head !! get_id v)) then head
    else head <| old_values ::= <[get_id v := v]> |>).

Definition on_remove (v : V) : index_state V → index_state V :=
  with_head (fun head =>
    if bool_decide (get_id v ∈ new_ids head) then
      head <| new_ids ::= fun s => s ∖ {[get_id v]} |>
    else match old_values head !! get_id v with
    | Some old =>
        head <| removed_values ::= fun m => m ∪ {[get_id v := old]} |>
             <| old_values ::= delete (get_id v) |>
    | None =>
        if bool_decide (is_Some (removed_values head !! get_id v)) then head
        else head <| removed_values ::= <[get_id v := v]> |>
    end).

Definition on_create (v : V) : index_state V → index_state V :=
  with_head (fun head => head <| new_ids ::= fun s => {[get_id v]} ∪ s |>).

(** [c id] is the object after [v.id = new_id; c(v)]. *)
Definition emplace (c : Z → V) idx : outcome (index_state V) :=
  let v := c (next_id idx) in
  outcome_bind (mi_emplace (indices idx) v) (fun _ => idx)
    (fun m => done (on_create v (idx <| indices := m |> <| next_id ::= Z.succ |>))).

Definition modify (id : Z) (f : V → V) idx : outcome (index_state V) :=
  match indices idx !! id with
  | None => undefined
  | Some v =>
      let idx := on_modify v idx in
      outcome_bind (mi_modify (indices idx) id f) (fun m => idx <| indices := m |>)
        (fun m => done (idx <| indices := m |>))
  end.

Definition remove (id : Z) idx : outcome (index_state V) :=
  match indices idx !! id with
  | None => undefined
  | Some v =>
      let idx := on_remove v idx in
      outcome_bind (mi_erase (indices idx) id) (fun m => idx <| indices := m |>)
        (fun m => done (idx <| indices := m |>))
  end.

Definition start_undo_session idx : index_state V :=
  let r := revision idx + 1 in
  idx <| stack ::= cons (mk_undo_state ∅ ∅ ∅ (next_id idx) r) |> <| revision := r |>.

Definition undo idx : outcome (index_state V) :=
  match stack idx with
  | [] => done idx
  | head :: st =>
      let partial m := idx <| indices := m |> in
      outcome_bind
        (for_items (fun m it => mi_modify m (get_id it.2) (fun _ => it.2))
           (indices idx) (items (old_values head))) partial (fun m1 =>
      outcome_bind (for_items mi_erase m1 (sorted_ids (new_ids head))) partial (fun m2 =>
      let idx := idx <| next_id := old_next_id head |> in
      outcome_bind
        (for_items (fun m it => mi_emplace m it.2) m2 (items (removed_values head)))
        (fun m => idx <| indices := m |>) (fun m3 =>
      done (idx <| indices := m3 |> <| stack := st |> <| revision ::= Z.pred |>))))
  end.

(** The three loops of [squash] that merge [state] into [prev]. *)
Definition squash_old (prev : undo_state V) (item : Z * V) : undo_state V :=
  let id := get_id item.2 in
  if bool_decide (id ∈ new_ids prev) then prev
  else if bool_decide (is_Some (old_values prev !! id)) then prev
  else prev <| old_values ::= fun m => m ∪ {[item.1 := item.2]} |>.

Definition squash_new (prev : undo_state V) (id : Z) : undo_state V :=
  prev <| new_ids ::= fun s => {[id]} ∪ s |>.

Definition squash_removed (prev : undo_state V) (item : Z * V) : undo_state V :=
  let id := get_id item.2 in
  if bool_decide (id ∈ new_ids prev) then
    prev <| new_ids ::= fun s => s ∖ {[id]} |>
  else match old_values prev !! id with
  | Some old =>
      prev <| removed_values ::= fun m => m ∪ {[id := old]} |>
           <| old_values ::= delete id |>
  | None => prev <| removed_values ::= fun m => m ∪ {[item.1 := item.2]} |>
  end.

Definition merge (prev state : undo_state V) : undo_state V :=
  let prev := foldl squash_old prev (items (old_values state)) in
  let prev := foldl squash_new prev (sorted_ids (new_ids state)) in
  foldl squash_removed prev (items (removed_values state)).

Definition squash idx : index_state V :=
  match stack idx with
  | [] => idx
  | [_] => idx <| stack := [] |>
  | state :: prev :: st =>
      idx <| stack := merge prev state :: st |> <| revision ::= Z.pred |>
  end.

(** [commit] drops from the front of the deque (the end of the list) the
    states of revisions up to [r]. *)
Fixpoint commit_stack (r : Z) (st : list (undo_state V)) : list (undo_state V) :=
  match st with
  | [] => []
  | u :: st' =>
      match commit_stack r st' with
      | [] => if undo_revision u <=? r then [] else [u]
      | kept => u :: kept
      end
  end.

Definition commit (r : Z) idx : index_state V := idx <| stack ::= commit_stack r |>.

Fixpoint undo_n (n : nat) idx : outcome (index_state V) :=
  match n with
  | O => done idx
  | S n' => outcome_bind (undo idx) id (undo_n n')
  end.

(** Every [undo] that returns pops one state, so the loop of [undo_all] runs
    once per state of the stack. *)
Definition undo_all idx : outcome (index_state V) := undo_n (length (stack idx)) idx.

Definition set_revision (r : Z) idx : outcome (index_state V) :=
  if enabled idx then threw idx else done (idx <| revision := r |>).

Definition find (id : Z) idx : option V := indices idx !! id.

End ops.
End generic_index.

(** ** The specification: a stack of copies *)

Module snapshots.
Section spec.
Context {V : Type}.

Record snapshot := mk_snapshot {
  saved_objects : gmap Z V;
  saved_next_id : Z;
  saved_revision : Z;
}.

Record table := mk_table {
  objects : gmap Z V;
  fresh_id : Z;
  current_revision : Z;
  history : list snapshot;
}.

End spec.
Arguments snapshot V : clear implicits.
Arguments table V : clear implicits.
#[export] Instance eta_table V : Eta (table V) := fun r =>
  mk_table (objects r) (fresh_id r) (current_revision r) (history r).

Section spec_ops.
Context {V : Type}.
Implicit Types t : table V.

Definition create (c : Z → V) t : table V :=
  t <| objects ::= <[fresh_id t := c (fresh_id t)]> |> <| fresh_id ::= Z.succ |>.
Definition alter (id : Z) (f : V → V) t : table V :=
  t <| objects ::= base.alter f id |>.
Definition erase (id : Z) t : table V := t <| objects ::= delete id |>.

Definition save t : table V :=
  t <| history ::= cons (mk_snapshot (objects t) (fresh_id t) (current_revision t + 1)) |>
    <| current_revision ::= Z.succ |>.

Definition restore t : table V :=
  match history t with
  | [] => t
  | s :: h => mk_table (saved_objects s) (saved_next_id s) (current_revision t - 1) h
  end.

Definition forget t : table V :=
  match history t with
  | [] => t
  | [_] => t <| history := [] |>
  | _ :: h => t <| history := h |> <| current_revision ::= Z.pred |>
  end.

Definition finalize (r : Z) t : table V :=
  t <| history ::= base.filter (fun s => r < saved_revision s) |>.

End spec_ops.
End snapshots.

(** ** The copy that an undo state describes *)

(** What an undo state says of one id: its old value, its removed value and
    whether it is new. *)
Definition cell (V : Type) : Type := option V * option V * bool.

Section refinement.
Context `{Indexed V}.
Implicit Types (u : undo_state V) (m : gmap Z V) (v w : V) (idx : index_state V).

Definition view (k : Z) u : cell V :=
  (old_values u !! k, removed_values u !! k, bool_decide (k ∈ new_ids u)).

(** The table before the session of [u], when [m] is the table after it. *)
Definition revert u m : gmap Z V :=
  removed_values u ∪ (old_values u ∪ base.filter (fun p => p.1 ∉ new_ids u) m).

Definition cell_before (c : cell V) (now : option V) : option V :=
  match c with
  | (_, Some v, _) => Some v
  | (Some v, None, _) => Some v
  | (None, None, true) => None
  | (None, None, false) => now
  end.

(** An object is untouched, updated, removed or new; an update keeps the unique
    keys and a new object has an id the session gave out. *)
Definition cell_ok (base k : Z) (c : cell V) (now : option V) : Prop :=
  match c with
  | (None, None, false) => True
  | (Some v, None, false) => ∃ w, now = Some w ∧ unique_keys w = unique_keys v
  | (None, Some _, false) => now = None
  | (None, None, true) => is_Some now ∧ base ≤ k
  | _ => False
  end.

Definition keyed m : Prop := ∀ k v, m !! k = Some v → get_id v = k.
Definition clash_free m : Prop :=
  ∀ i j v w, m !! i = Some v → m !! j = Some w → i ≠ j → clash v w = false.
Definition table_ok m (n : Z) : Prop :=
  keyed m ∧ clash_free m ∧ ∀ k, is_Some (m !! k) → k < n.
Definition delta_ok m (n : Z) u : Prop :=
  old_next_id u ≤ n ∧ ∀ k, cell_ok (old_next_id u) k (view k u) (m !! k).

Fixpoint stack_ok m (n r : Z) (st : list (undo_state V)) : Prop :=
  table_ok m n ∧
  match st with
  | [] => True
  | u :: st' =>
      delta_ok m n u ∧ undo_revision u = r ∧
      stack_ok (revert u m) (old_next_id u) (r - 1) st'
  end.

Definition index_ok idx : Prop :=
  stack_ok (indices idx) (next_id idx) (revision idx) (stack idx).

Fixpoint copies m (st : list (undo_state V)) : list (snapshots.snapshot V) :=
  match st with
  | [] => []
  | u :: st' =>
      let m0 := revert u m in
      snapshots.mk_snapshot m0 (old_next_id u) (undo_revision u) :: copies m0 st'
  end.

(** The abstraction function: the table and the copies its undo states stand
    for. *)
Definition abs idx : snapshots.table V :=
  snapshots.mk_table (indices idx) (next_id idx) (revision idx)
    (copies (indices idx) (stack idx)).

(** ** Uniqueness *)

Lemma clash_keys v v' w w' :
  unique_keys v = unique_keys v' → unique_keys w = unique_keys w' →
  clash v w = clash v' w'.
Proof. unfold clash. by intros -> ->. Qed.

Lemma clash_sym v w : clash v w = clash w v.
Proof.
  unfold clash. generalize (unique_keys v) (unique_keys w).
  induction l as [|a l IH]; intros [|b l']; cbn; auto.
  rewrite IH. f_equal. apply bool_decide_ext. naive_solver.
Qed.

Lemma collides_false m v :
  m !! get_id v = None → (∀ k w, m !! k = Some w → clash v w = false) →
  collides m v = false.
Proof.
  intros Hk Hc. unfold collides. rewrite Hk. rewrite bool_decide_eq_false_2 by naive_solver.
  cbn. apply not_true_iff_false. rewrite existsb_exists.
  intros ([k w] & Hin & Hcl). apply list_elem_of_In, elem_of_map_to_list in Hin.
  cbn in Hcl. by rewrite (Hc k w Hin) in Hcl.
Qed.

Lemma clash_free_insert m k v :
  clash_free m → (∀ j w, m !! j = Some w → j ≠ k → clash v w = false) →
  clash_free (<[k := v]> m).
Proof.
  intros Hm Hv i j a b Ha Hb Hne.
  apply lookup_insert_Some in Ha as [[<- <-]|[? Ha]];
    apply lookup_insert_Some in Hb as [[<- <-]|[? Hb]].
  - done.
  - eauto.
  - rewrite clash_sym. eauto.
  - eauto.
Qed.

Lemma clash_free_subseteq m m' : m ⊆ m' → clash_free m' → clash_free m.
Proof. intros Hs Hm i j a b Ha Hb. eapply Hm; eapply lookup_weaken; eauto. Qed.

(** ** The cells of an undo state *)

Lemma revert_lookup u m k : revert u m !! k = cell_before (view k u) (m !! k).
Proof.
  unfold revert, view, cell_before.
  destruct (removed_values u !! k) as [v|] eqn:Hr.
  { rewrite (lookup_union_Some_l _ _ _ _ Hr). by destruct (old_values u !! k). }
  rewrite lookup_union_r by done.
  destruct (old_values u !! k) as [v|] eqn:Ho.
  { by rewrite (lookup_union_Some_l _ _ _ _ Ho). }
  rewrite lookup_union_r by done. case_bool_decide as Hn.
  - apply map_lookup_filter_None. right. intros x _. cbn. tauto.
  - apply option_eq. intros x. rewrite map_lookup_filter_Some. cbn. tauto.
Qed.

Lemma foldl_view_out {A} (step : undo_state V → A → undo_state V) (key : A → Z) l u k :
  (∀ u a, a ∈ l → k ≠ key a → view k (step u a) = view k u) →
  k ∉ key <$> l → view k (foldl step u l) = view k u.
Proof.
  revert u. induction l as [|a l IH]; intros u Hs Hk; cbn in *; [done|].
  apply not_elem_of_cons in Hk as [Hne Hk].
  rewrite IH; [|intros; apply Hs; [by right|done]|done]. apply Hs; [by left|done].
Qed.

Lemma foldl_view_in {A} (step : undo_state V → A → undo_state V) (key : A → Z)
    (f : A → cell V → cell V) l u a :
  (∀ u a, a ∈ l → view (key a) (step u a) = f a (view (key a) u)) →
  (∀ u a k, a ∈ l → k ≠ key a → view k (step u a) = view k u) →
  NoDup (key <$> l) → a ∈ l →
  view (key a) (foldl step u l) = f a (view (key a) u).
Proof.
  revert u. induction l as [|b l IH]; intros u Hat Hoff Hnd Ha; [by inversion Ha|].
  inversion Hnd as [|? ? Hb Hnd']; subst. clear Hnd. rename Hnd' into Hnd. cbn. apply elem_of_cons in Ha as [->|Ha].
  - rewrite (foldl_view_out _ key); [apply Hat; by left| |done].
    intros. apply Hoff; [by right|done].
  - rewrite IH; [| | |done|done].
    + f_equal. apply Hoff; [by left|]. intros Heq. apply Hb. rewrite <- Heq.
      by apply list_elem_of_fmap_2.
    + intros. apply Hat. by right.
    + intros. apply Hoff; [by right|done].
Qed.

Lemma items_spec m k v : (k, v) ∈ items m ↔ m !! k = Some v.
Proof. unfold items. rewrite merge_sort_Permutation. apply elem_of_map_to_list. Qed.

Lemma items_NoDup m : NoDup ((items m).*1).
Proof. unfold items. rewrite merge_sort_Permutation. apply NoDup_fst_map_to_list. Qed.

Lemma sorted_ids_spec (s : gset Z) k : k ∈ sorted_ids s ↔ k ∈ s.
Proof. unfold sorted_ids. rewrite merge_sort_Permutation. apply elem_of_elements. Qed.

Lemma sorted_ids_NoDup (s : gset Z) : NoDup (sorted_ids s).
Proof. unfold sorted_ids. rewrite merge_sort_Permutation. apply NoDup_elements. Qed.

(** ** Squashing two undo states *)

Definition merge_old (o : option V) (c : cell V) : cell V :=
  match o, c with
  | Some v, (None, r, false) => (Some v, r, false)
  | _, _ => c
  end.
Definition merge_new (b : bool) (c : cell V) : cell V :=
  if b then (c.1, true) else c.
Definition merge_removed (o : option V) (c : cell V) : cell V :=
  match o, c with
  | None, _ => c
  | Some _, (x, r, true) => (x, r, false)
  | Some _, (Some x, r, false) =>
      (None, match r with Some _ => r | None => Some x end, false)
  | Some v, (None, r, false) =>
      (None, match r with Some _ => r | None => Some v end, false)
  end.

Lemma lookup_union_single m k v :
  (m ∪ {[k := v]}) !! k = match m !! k with Some w => Some w | None => Some v end.
Proof.
  destruct (m !! k) as [w|] eqn:Hk.
  - by apply lookup_union_Some_l.
  - by rewrite lookup_union_r, lookup_singleton_eq.
Qed.

Lemma view_off_old u k it :
  get_id it.2 = it.1 → k ≠ it.1 → view k (generic_index.squash_old u it) = view k u.
Proof.
  intros Hid Hk. unfold generic_index.squash_old. repeat case_bool_decide; try done.
  unfold view, upd; cbn. f_equal. f_equal.
  rewrite lookup_union_l; [done|]. by apply lookup_singleton_ne.
Qed.

Lemma view_on_old u k v :
  get_id v = k →
  view k (generic_index.squash_old u (k, v)) = merge_old (Some v) (view k u).
Proof.
  intros Hid. unfold generic_index.squash_old; cbn. rewrite Hid.
  case_bool_decide as Hn; unfold view, merge_old.
  { rewrite (bool_decide_eq_true_2 _ Hn). by destruct (old_values u !! k). }
  case_bool_decide as Ho; unfold upd; cbn; rewrite (bool_decide_eq_false_2 _ Hn).
  { by destruct (old_values u !! k) as [w|]; [|destruct Ho]. }
  apply eq_None_not_Some in Ho. by rewrite insert_empty, lookup_union_single, Ho.
Qed.

Lemma view_off_new u k i : k ≠ i → view k (generic_index.squash_new u i) = view k u.
Proof.
  intros Hk. unfold view, generic_index.squash_new, upd; cbn. f_equal.
  apply bool_decide_ext. set_solver.
Qed.

Lemma view_on_new u k :
  view k (generic_index.squash_new u k) = merge_new true (view k u).
Proof.
  unfold view, generic_index.squash_new, upd; cbn. f_equal.
  apply bool_decide_eq_true_2. set_solver.
Qed.

Lemma view_off_removed u k it :
  get_id it.2 = it.1 → k ≠ it.1 → view k (generic_index.squash_removed u it) = view k u.
Proof.
  intros Hid Hk. unfold generic_index.squash_removed. rewrite Hid.
  case_bool_decide; [|destruct (old_values u !! it.1)]; unfold view, upd; cbn.
  - f_equal. apply bool_decide_ext. set_solver.
  - rewrite lookup_delete_ne by done. f_equal. f_equal.
    rewrite lookup_union_l; [done|]. by apply lookup_singleton_ne.
  - f_equal. f_equal. rewrite lookup_union_l; [done|]. by apply lookup_singleton_ne.
Qed.

Lemma view_on_removed u k v :
  get_id v = k →
  view k (generic_index.squash_removed u (k, v)) = merge_removed (Some v) (view k u).
Proof.
  intros Hid. unfold generic_index.squash_removed; cbn [fst snd]. rewrite Hid.
  case_bool_decide as Hn; unfold view, merge_removed.
  { rewrite (bool_decide_eq_true_2 _ Hn). unfold upd; cbn.
    rewrite (bool_decide_eq_false_2 (k ∈ _ ∖ _)) by set_solver.
    by destruct (old_values u !! k). }
  destruct (old_values u !! k) as [w|] eqn:Ho; unfold upd; cbn;
    rewrite (bool_decide_eq_false_2 _ Hn), ?insert_empty, lookup_union_single.
  - rewrite lookup_delete_eq. by destruct (removed_values u !! k).
  - rewrite Ho. by destruct (removed_values u !! k).
Qed.

Lemma fold_items_view (step : undo_state V → Z * V → undo_state V)
    (f : option V → cell V → cell V) m u k :
  keyed m → (∀ c, f None c = c) →
  (∀ u k v, get_id v = k → view k (step u (k, v)) = f (Some v) (view k u)) →
  (∀ u k it, get_id it.2 = it.1 → k ≠ it.1 → view k (step u it) = view k u) →
  view k (foldl step u (items m)) = f (m !! k) (view k u).
Proof.
  intros Hm Hnone Hon Hoff.
  assert (∀ it, it ∈ items m → get_id it.2 = it.1) as Hid.
  { intros [i v] Hin%items_spec. by apply Hm in Hin. }
  destruct (m !! k) as [v|] eqn:Hk.
  - apply (foldl_view_in step fst (fun it => f (Some it.2)) (items m) u (k, v)).
    + intros u' [i w] Hin. apply Hon. by apply Hid in Hin.
    + intros. auto.
    + apply items_NoDup.
    + by apply items_spec.
  - rewrite Hnone. apply (foldl_view_out step fst).
    + intros. auto.
    + intros ([i w] & -> & Hin%items_spec)%list_elem_of_fmap. cbn in *. congruence.
Qed.

Lemma fold_new_view (s : gset Z) u k :
  view k (foldl generic_index.squash_new u (sorted_ids s))
  = merge_new (bool_decide (k ∈ s)) (view k u).
Proof.
  case_bool_decide as Hk.
  - apply (foldl_view_in generic_index.squash_new id (fun _ => merge_new true)).
    + intros. apply view_on_new.
    + intros. by apply view_off_new.
    + rewrite list_fmap_id. apply sorted_ids_NoDup.
    + by apply sorted_ids_spec.
  - apply (foldl_view_out generic_index.squash_new id).
    + intros. by apply view_off_new.
    + by rewrite list_fmap_id, sorted_ids_spec.
Qed.

(** The cell of the merged undo state, as in the table of the source: the four
    kinds of the later state against those of the earlier one. *)
Definition merge_cell (prev state : cell V) : cell V :=
  merge_removed state.1.2 (merge_new state.2 (merge_old state.1.1 prev)).

Lemma merge_view prev state k :
  keyed (old_values state) → keyed (removed_values state) →
  view k (generic_index.merge prev state) = merge_cell (view k prev) (view k state).
Proof.
  intros Ho Hr. unfold generic_index.merge, merge_cell.
  rewrite (fold_items_view _ merge_removed); [|done|done|..].
  - rewrite fold_new_view, (fold_items_view _ merge_old); [done|done|..].
    + intros [[[?|] ?] []]; done.
    + intros. by apply view_on_old.
    + intros. by apply view_off_old.
  - intros. by apply view_on_removed.
  - intros. by apply view_off_removed.
Qed.

Lemma foldl_keeps {A} (step : undo_state V → A → undo_state V) l u :
  (∀ u a, old_next_id (step u a) = old_next_id u ∧
          undo_revision (step u a) = undo_revision u) →
  old_next_id (foldl step u l) = old_next_id u ∧
  undo_revision (foldl step u l) = undo_revision u.
Proof.
  intros Hs. revert u. induction l as [|a l IH]; intros u; cbn; [done|].
  destruct (IH (step u a)) as [-> ->]. apply Hs.
Qed.

Lemma merge_keeps prev state :
  old_next_id (generic_index.merge prev state) = old_next_id prev ∧
  undo_revision (generic_index.merge prev state) = undo_revision prev.
Proof.
  unfold generic_index.merge.
  destruct (foldl_keeps generic_index.squash_removed (items (removed_values state))
    (foldl generic_index.squash_new
       (foldl generic_index.squash_old prev (items (old_values state)))
       (sorted_ids (new_ids state)))) as [-> ->].
  { intros. unfold generic_index.squash_removed. repeat case_match; done. }
  destruct (foldl_keeps generic_index.squash_new (sorted_ids (new_ids state))
    (foldl generic_index.squash_old prev (items (old_values state)))) as [-> ->].
  { done. }
  apply foldl_keeps. intros. unfold generic_index.squash_old. repeat case_match; done.
Qed.

(** The composition of two changes of one object: the later one, [c2], happened
    after [c1]; ids below [b1] existed before both. *)
Lemma merge_cell_ok b1 b2 k c1 c2 now :
  b1 ≤ b2 → cell_ok b2 k c2 now →
  cell_ok b1 k c1 (cell_before c2 now) →
  (∀ v, cell_before c1 (cell_before c2 now) = Some v → k < b1) →
  cell_ok b1 k (merge_cell c1 c2) now ∧
  cell_before (merge_cell c1 c2) now = cell_before c1 (cell_before c2 now).
Proof.
  intros Hb H2 H1 Hlt.
  destruct c1 as [[[o1|] [r1|]] []], c2 as [[[o2|] [r2|]] []];
    cbn in *; try done.
  all: repeat match goal with
    | H : ∃ _, _ |- _ => destruct H
    | H : _ ∧ _ |- _ => destruct H
    | H : is_Some _ |- _ => destruct H
    end; simplify_eq; try done.
  all: try (split; [|done]; eauto; fail).
  - split; [|done]. eexists. split; [done|]. congruence.
  - exfalso. specialize (Hlt _ eq_refl). lia.
  - split; [|done]. split; [done|]. lia.
Qed.

(** ** The loops of undo *)

Lemma restore_old_items (l : list (Z * V)) m :
  NoDup (l.*1) → clash_free m → keyed m →
  (∀ k v, (k, v) ∈ l →
    get_id v = k ∧ ∃ w, m !! k = Some w ∧ unique_keys w = unique_keys v) →
  for_items (fun m it => mi_modify m (get_id it.2) (fun _ => it.2)) m l
  = done (list_to_map l ∪ m).
Proof.
  revert m. induction l as [|[k v] l IH]; intros m Hnd Hcf Hkey Hl; cbn -[union].
  { by rewrite (left_id_L ∅ (∪)). }
  inversion Hnd as [|? ? Hk Hnd']; subst.
  destruct (Hl k v ltac:(by left)) as (Hid & w & Hw & Huk).
  assert (∀ j x, m !! j = Some x → j ≠ k → clash v x = false) as Hcl.
  { intros j x Hx Hne. rewrite <- (clash_keys w v x x) by done. by eapply Hcf. }
  unfold mi_modify. rewrite Hid, Hw. rewrite collides_false; cbn -[union].
  - rewrite insert_delete_eq, IH.
    + f_equal. rewrite <- insert_union_r; [by rewrite insert_union_l|].
      by apply not_elem_of_list_to_map_1.
    + done.
    + by apply clash_free_insert.
    + intros j x [[<- <-]|[? ?]]%lookup_insert_Some; auto.
    + intros j x Hj. destruct (Hl j x ltac:(by right)) as (? & y & ? & ?).
      split; [done|]. exists y. rewrite lookup_insert_ne; [done|].
      intros ->. apply Hk. by apply (list_elem_of_fmap_2 fst _ (j, x)).
  - by rewrite Hid, lookup_delete_eq.
  - intros j x [? ?]%lookup_delete_Some. by apply (Hcl j).
Qed.

Lemma erase_items (l : list Z) m :
  NoDup l → (∀ k, k ∈ l → is_Some (m !! k)) →
  for_items mi_erase m l = done (base.filter (fun p => p.1 ∉ l) m).
Proof.
  revert m. induction l as [|k l IH]; intros m Hnd Hl; cbn.
  { f_equal. symmetry. apply map_filter_id. intros. apply not_elem_of_nil. }
  inversion Hnd; subst. unfold mi_erase. destruct (Hl k ltac:(by left)) as [w ->]; cbn.
  rewrite IH; [|done|].
  - f_equal. apply map_eq. intros j. apply option_eq. intros x.
    rewrite !map_lookup_filter_Some, lookup_delete_Some, not_elem_of_cons. cbn. naive_solver.
  - intros j Hj. rewrite lookup_delete_ne; [apply Hl; by right|]. by intros ->.
Qed.

Lemma emplace_items (l : list (Z * V)) m :
  NoDup (l.*1) → clash_free (list_to_map l ∪ m) →
  (∀ k v, (k, v) ∈ l → get_id v = k ∧ m !! k = None) →
  for_items (fun m it => mi_emplace m it.2) m l = done (list_to_map l ∪ m).
Proof.
  revert m. induction l as [|[k v] l IH]; intros m Hnd Hcf Hl; cbn -[union].
  { by rewrite (left_id_L ∅ (∪)). }
  inversion Hnd as [|? ? Hk Hnd']; subst.
  destruct (Hl k v ltac:(by left)) as (Hid & Hnone).
  assert (@list_to_map Z V (gmap Z V) _ _ l !! k = None) as Hlk
    by by apply not_elem_of_list_to_map_1.
  assert (<[k := v]> (list_to_map l) ∪ m = list_to_map l ∪ <[k := v]> m) as Heq.
  { by rewrite <- insert_union_l, insert_union_r. }
  unfold mi_emplace. rewrite collides_false; cbn -[union].
  - rewrite Hid, IH; [by rewrite Heq|done| |].
    + cbn -[union] in Hcf. by rewrite Heq in Hcf.
    + intros j x Hj. destruct (Hl j x ltac:(by right)) as (? & ?).
      split; [done|]. rewrite lookup_insert_ne; [done|].
      intros ->. apply Hk. by apply (list_elem_of_fmap_2 fst _ (j, x)).
  - by rewrite Hid.
  - intros j x Hj. apply (Hcf k j); cbn -[union].
    + apply lookup_union_Some_l, lookup_insert_eq.
    + rewrite <- insert_union_l, lookup_insert_ne by congruence.
      apply lookup_union_Some_raw. destruct (list_to_map l !! j) as [y|] eqn:Hy; [|auto].
      apply elem_of_list_to_map_2 in Hy. destruct (Hl j y ltac:(by right)). congruence.
    + congruence.
Qed.

Lemma list_to_map_items m : list_to_map (items m) = m.
Proof.
  rewrite <- (list_to_map_to_list m) at 2. apply list_to_map_proper.
  - apply items_NoDup.
  - unfold items. apply merge_sort_Permutation.
Qed.

Lemma old_keyed u m n :
  delta_ok m n u → table_ok (revert u m) (old_next_id u) → keyed (old_values u).
Proof.
  intros [_ Hc] [Hkey _] k v Ho. apply Hkey. rewrite revert_lookup.
  specialize (Hc k). unfold view in *. rewrite Ho in *. cbn in *.
  by destruct (removed_values u !! k).
Qed.

Lemma removed_keyed u m n :
  delta_ok m n u → table_ok (revert u m) (old_next_id u) → keyed (removed_values u).
Proof.
  intros [_ Hc] [Hkey _] k v Hr. apply Hkey. rewrite revert_lookup.
  unfold view. rewrite Hr. cbn. by destruct (old_values u !! k).
Qed.

Lemma revert_phases u m n :
  delta_ok m n u →
  removed_values u ∪
    base.filter (fun p => p.1 ∉ sorted_ids (new_ids u)) (old_values u ∪ m)
  = revert u m.
Proof.
  intros [_ Hc]. unfold revert. f_equal. apply map_eq. intros k.
  specialize (Hc k). unfold view in Hc. apply option_eq. intros x.
  rewrite map_lookup_filter_Some, sorted_ids_spec, !lookup_union_Some_raw,
    map_lookup_filter_Some. cbn.
  destruct (old_values u !! k) as [v|]; [|naive_solver].
  destruct (removed_values u !! k); cbn in Hc; [done|].
  case_bool_decide; naive_solver.
Qed.

Lemma stack_ok_table m n r st : stack_ok m n r st → table_ok m n.
Proof. destruct st; cbn; tauto. Qed.

Lemma undo_refines idx :
  index_ok idx →
  ∃ idx', generic_index.undo idx = done idx' ∧ index_ok idx' ∧
    abs idx' = snapshots.restore (abs idx).
Proof.
  destruct idx as [[|u st] r n m]; unfold index_ok, generic_index.undo; cbn.
  { intros Hok. eexists. split; [done|]. by split. }
  intros ((Hkey & Hcf & Hlt) & Hd & Hr & Hst). pose proof (stack_ok_table _ _ _ _ Hst) as Ht.
  pose proof (old_keyed _ _ _ Hd Ht) as Hok. pose proof (removed_keyed _ _ _ Hd Ht) as Hrk.
  rewrite restore_old_items; cbn; [|apply items_NoDup|done|done|].
  2:{ intros k v Hk%items_spec. split; [by apply Hok|].
      destruct Hd as [_ Hc]. specialize (Hc k). unfold view in Hc. rewrite Hk in Hc.
      destruct (removed_values u !! k), (bool_decide _); cbn in Hc; try done; try tauto. }
  rewrite list_to_map_items, erase_items; cbn; [|apply sorted_ids_NoDup|].
  2:{ intros k Hk%sorted_ids_spec. destruct Hd as [_ Hc]. specialize (Hc k).
      unfold view in Hc. rewrite bool_decide_eq_true_2 in Hc by done.
      destruct (old_values u !! k), (removed_values u !! k); cbn in Hc; try done.
      apply lookup_union_is_Some. tauto. }
  rewrite emplace_items; rewrite ?list_to_map_items, ?(revert_phases u m n) by done;
    [|apply items_NoDup|apply Ht|].
  - eexists. split; [done|]. unfold index_ok; cbn.
    rewrite Z.sub_1_r in Hst. done.
  - intros k v Hk%items_spec. split; [by apply Hrk|].
    apply map_lookup_filter_None. left. destruct Hd as [_ Hc]. specialize (Hc k).
    unfold view in Hc. rewrite Hk in Hc.
    destruct (old_values u !! k) eqn:?, (bool_decide _); cbn in Hc; try done.
    by apply lookup_union_None.
Qed.

Lemma squash_refines idx :
  index_ok idx →
  index_ok (generic_index.squash idx) ∧
  abs (generic_index.squash idx) = snapshots.forget (abs idx).
Proof.
  destruct idx as [[|u [|p st]] r n m]; unfold index_ok, generic_index.squash; cbn.
  { done. }
  { unfold abs; cbn. tauto. }
  intros (Ht & [Hn Hd] & Hr & Ht1 & [Hn1 Hd1] & Hr1 & Hst).
  pose proof (stack_ok_table _ _ _ _ Hst) as Ht0.
  pose proof (old_keyed _ _ _ (conj Hn Hd) Ht1) as Hok.
  pose proof (removed_keyed _ _ _ (conj Hn Hd) Ht1) as Hrk.
  assert (old_next_id (generic_index.merge p u) = old_next_id p ∧
          undo_revision (generic_index.merge p u) = undo_revision p) as [Hon Hrev].
  { apply merge_keeps. }
  assert (∀ k, cell_ok (old_next_id p) k (view k (generic_index.merge p u)) (m !! k) ∧
    revert (generic_index.merge p u) m !! k = revert p (revert u m) !! k) as Hm.
  { intros k. rewrite !revert_lookup, merge_view by done.
    apply (merge_cell_ok _ (old_next_id u)); [done|done| |].
    - specialize (Hd1 k). by rewrite revert_lookup in Hd1.
    - intros v Hv. apply Ht0. exists v. by rewrite !revert_lookup. }
  assert (revert (generic_index.merge p u) m = revert p (revert u m)) as Heq
    by (apply map_eq; intros; apply Hm).
  unfold abs; cbn. rewrite Heq, Hon, Hrev. rewrite Z.sub_1_r in *.
  split; [|done]. split; [done|]. split; [|done].
  split; [lia|]. intros k. rewrite Hon. apply Hm.
Qed.

(** ** Sessions and commits *)

Lemma commit_stack_live r st m n r0 :
  stack_ok m n r0 st → generic_index.commit_stack r st ≠ [] → r < r0.
Proof.
  revert m n r0. induction st as [|u st IH]; cbn; intros m n r0; [done|].
  intros (_ & _ & Hr & Hst) Hne.
  destruct (generic_index.commit_stack r st).
  - destruct (Z.leb_spec (undo_revision u) r); [done|lia].
  - specialize (IH _ _ _ Hst ltac:(done)). lia.
Qed.

Lemma commit_stack_ok r st m n r0 :
  stack_ok m n r0 st →
  stack_ok m n r0 (generic_index.commit_stack r st) ∧
  copies m (generic_index.commit_stack r st)
  = base.filter (fun s => r < snapshots.saved_revision s) (copies m st).
Proof.
  revert m n r0. induction st as [|u st IH]; cbn -[filter]; intros m n r0; [done|].
  intros (Ht & Hd & Hr & Hst). destruct (IH _ _ _ Hst) as [Hok Hc].
  pose proof (commit_stack_live r _ _ _ _ Hst) as Hlive.
  rewrite filter_cons; cbn -[filter]. rewrite <- Hc.
  destruct (generic_index.commit_stack r st) as [|u' st'].
  - destruct (Z.leb_spec (undo_revision u) r).
    + rewrite decide_False by lia. done.
    + rewrite decide_True by lia. pose proof (stack_ok_table _ _ _ _ Hst). done.
  - specialize (Hlive ltac:(done)). rewrite decide_True by lia. done.
Qed.

Lemma commit_refines r idx :
  index_ok idx →
  index_ok (generic_index.commit r idx) ∧
  abs (generic_index.commit r idx) = snapshots.finalize r (abs idx).
Proof.
  intros Hok. destruct (commit_stack_ok r _ _ _ _ Hok) as [Hok' Hc].
  split; [done|]. unfold abs, snapshots.finalize, generic_index.commit, upd; cbn -[filter].
  by rewrite Hc.
Qed.

Lemma revert_empty m n r : revert (mk_undo_state ∅ ∅ ∅ n r) m = m.
Proof. apply map_eq. intros k. by rewrite revert_lookup. Qed.

Lemma start_refines idx :
  index_ok idx →
  index_ok (generic_index.start_undo_session idx) ∧
  abs (generic_index.start_undo_session idx) = snapshots.save (abs idx).
Proof.
  intros Hok. pose proof (stack_ok_table _ _ _ _ Hok) as Ht.
  unfold abs, index_ok, generic_index.start_undo_session, snapshots.save, upd; cbn -[revert].
  rewrite revert_empty, Z.add_simpl_r. done.
Qed.

(** ** Changing objects *)

(** Changing the table and the head of the stack together leaves the copies as
    they were when it does so object by object. *)
Lemma touch_refines (f : undo_state V → undo_state V) idx m' n' :
  index_ok idx → table_ok m' n' → next_id idx ≤ n' →
  (∀ u, old_next_id (f u) = old_next_id u ∧ undo_revision (f u) = undo_revision u) →
  (∀ u k, table_ok (revert u (indices idx)) (old_next_id u) →
     delta_ok (indices idx) (next_id idx) u →
     cell_ok (old_next_id u) k (view k (f u)) (m' !! k) ∧
     cell_before (view k (f u)) (m' !! k) = revert u (indices idx) !! k) →
  let idx' :=
    mk_index_state (stack (generic_index.with_head f idx)) (revision idx) n' m' in
  index_ok idx' ∧
  abs idx' =
    snapshots.mk_table m' n' (revision idx) (copies (indices idx) (stack idx)).
Proof.
  destruct idx as [[|u st] r n m]; unfold index_ok, generic_index.with_head, upd; cbn.
  { done. }
  intros (Ht & Hd & Hr & Hst) Ht' Hn Hf Hcell. destruct (Hf u) as [Hn0 Hr0].
  pose proof (stack_ok_table _ _ _ _ Hst) as Ht0.
  assert (revert (f u) m' = revert u m) as Heq.
  { apply map_eq. intros k. rewrite revert_lookup. by apply Hcell. }
  unfold abs; cbn. rewrite Heq, Hn0, Hr0. split; [|done].
  split; [done|]. split; [|done]. destruct Hd as [Hle Hd].
  split; [lia|]. intros k. rewrite Hn0. by apply (Hcell u k).
Qed.

Lemma view_lookup u k :
  view k u = (old_values u !! k, removed_values u !! k, bool_decide (k ∈ new_ids u)).
Proof. done. Qed.

Lemma delta_cell u m n k :
  delta_ok m n u → cell_ok (old_next_id u) k (view k u) (m !! k) ∧
                   cell_before (view k u) (m !! k) = revert u m !! k.
Proof. intros [_ Hc]. split; [done|]. by rewrite revert_lookup. Qed.

Lemma emplace_refines c idx :
  index_ok idx → get_id (c (next_id idx)) = next_id idx →
  collides (indices idx) (c (next_id idx)) = false →
  ∃ idx', generic_index.emplace c idx = done idx' ∧ index_ok idx' ∧
    abs idx' = snapshots.create c (abs idx).
Proof.
  intros Hok Hid Hcol. unfold generic_index.emplace, mi_emplace. rewrite Hcol, Hid. cbn.
  set (n := next_id idx) in *. set (v := c n) in *. set (m := indices idx) in *.
  destruct (stack_ok_table _ _ _ _ Hok) as (Hkey & Hcf & Hlt).
  assert (m !! n = None) as Hnone.
  { destruct (m !! n) eqn:Hm; [|done]. specialize (Hlt n ltac:(eauto)). unfold n in Hlt. lia. }
  assert (∀ j w, m !! j = Some w → j ≠ n → clash v w = false) as Hcl.
  { intros j w Hj _. unfold collides in Hcol. apply orb_false_iff in Hcol as [_ Hcol].
    apply not_true_iff_false. intros Hv. apply not_true_iff_false in Hcol. apply Hcol.
    apply existsb_exists. exists (j, w). split; [|done].
    by apply list_elem_of_In, elem_of_map_to_list. }
  destruct (touch_refines
    (fun head => head <| new_ids ::= fun s => {[n]} ∪ s |>) idx (<[n := v]> m) (Z.succ n))
    as [Hok' Habs]; try done.
  - split_and!.
    + intros k w [[<- <-]|[? ?]]%lookup_insert_Some; auto.
    + by apply clash_free_insert.
    + intros k [w [[<- _]|[_ Hw]]%lookup_insert_Some]; [lia|].
      specialize (Hlt k ltac:(eauto)). lia.
  - unfold n. lia.
  - intros u k (Hk0 & _ & Hlt0) Hd. destruct (delta_cell _ _ _ k Hd) as [Hc Hb].
    fold m in Hc, Hb |- *. unfold upd; cbn. rewrite view_lookup in *. cbn in *.
    destruct (decide (k = n)) as [->|Hne].
    + rewrite (bool_decide_eq_true_2 (n ∈ {[n]} ∪ _)) by set_solver.
      rewrite lookup_insert_eq, Hnone in *. destruct Hd as [Hle _].
      assert (revert u m !! n = None) as Hr.
      { destruct (revert u m !! n) eqn:Hr; [|done]. specialize (Hlt0 n ltac:(eauto)).
        unfold n in Hlt0. lia. }
      rewrite Hr in *. by destruct (old_values u !! n), (removed_values u !! n).
    + rewrite lookup_insert_ne by done.
      by rewrite (bool_decide_ext (k ∈ {[n]} ∪ _) (k ∈ new_ids u)) by set_solver.
  - eexists. split; [done|]. unfold generic_index.on_create. rewrite Hid.
    unfold generic_index.with_head, upd in *; cbn in *. fold n m in Hok', Habs |- *.
    destruct idx as [[|u st] r n0 m0]; done.
Qed.

Lemma modify_refines id f v idx :
  index_ok idx → indices idx !! id = Some v →
  get_id (f v) = id → unique_keys (f v) = unique_keys v →
  ∃ idx', generic_index.modify id f idx = done idx' ∧ index_ok idx' ∧
    abs idx' = snapshots.alter id f (abs idx).
Proof.
  intros Hok Hv Hid Huk. destruct (stack_ok_table _ _ _ _ Hok) as (Hkey & Hcf & Hlt).
  pose proof (Hkey _ _ Hv) as Hidv.
  assert (∀ j w, indices idx !! j = Some w → j ≠ id → clash (f v) w = false) as Hcl.
  { intros j w Hj Hne. rewrite (clash_keys _ v w w) by done. by eapply Hcf. }
  unfold generic_index.modify. rewrite Hv.
  assert (indices (generic_index.on_modify v idx) = indices idx) as Hsame.
  { by destruct idx as [[] ? ? ?]. }
  unfold mi_modify. rewrite Hsame, Hv, collides_false; cbn.
  2:{ by rewrite Hid, lookup_delete_eq. }
  2:{ intros j w [? Hj]%lookup_delete_Some. by apply (Hcl j). }
  rewrite Hid, insert_delete_eq.
  destruct (touch_refines
    (fun head =>
      if bool_decide (get_id v ∈ new_ids head) then head
      else if bool_decide (is_Some (old_values head !! get_id v)) then head
      else head <| old_values ::= <[get_id v := v]> |>) idx (<[id := f v]> (indices idx))
    (next_id idx)) as [Hok' Habs]; try done.
  - split_and!.
    + intros k w [[<- <-]|[? ?]]%lookup_insert_Some; auto.
    + by apply clash_free_insert.
    + intros k [w [[<- _]|[_ Hw]]%lookup_insert_Some]; eauto.
  - intros u. by repeat case_match.
  - intros u k (Hk0 & _ & _) Hd. destruct (delta_cell _ _ _ k Hd) as [Hc Hb].
    rewrite view_lookup in *. rewrite Hidv. destruct (decide (k = id)) as [->|Hne].
    + rewrite lookup_insert_eq, Hv in *. rewrite <- Hb.
      case_bool_decide as Hn.
      { rewrite (bool_decide_eq_true_2 _ Hn) in *.
        destruct (old_values u !! id), (removed_values u !! id); cbn in *; try done.
        split; [|done]. split; [done|tauto]. }
      destruct (old_values u !! id) as [o|] eqn:Ho; cbn.
      { rewrite Ho, (bool_decide_eq_false_2 _ Hn) in *.
        destruct (removed_values u !! id); cbn in *; [done|].
        destruct Hc as (w & [= <-] & ?). split; [|done]. exists (f v). split; [done|].
        congruence. }
      rewrite (bool_decide_eq_false_2 _ Hn), lookup_insert_eq in *.
      destruct (removed_values u !! id); cbn in *; [done|]. split; [|done].
      by exists (f v).
    + rewrite lookup_insert_ne by done.
      destruct (bool_decide (id ∈ new_ids u)); [done|].
      destruct (bool_decide (is_Some (old_values u !! id))); [done|].
      unfold upd; cbn. by rewrite lookup_insert_ne.
  - eexists. split; [done|]. unfold abs, snapshots.alter, upd in *; cbn in *.
    unfold generic_index.on_modify, generic_index.with_head, upd in *.
    assert (<[id := f v]> (indices idx) = base.alter f id (indices idx)) as Halt.
    { apply map_eq. intros k. destruct (decide (k = id)) as [->|Hne].
      - by rewrite lookup_insert_eq, lookup_alter_eq, Hv.
      - by rewrite lookup_insert_ne, lookup_alter_ne. }
    rewrite <- Halt. destruct idx as [[|u st] r n m]; done.
Qed.

Lemma remove_refines id idx :
  index_ok idx → is_Some (indices idx !! id) →
  ∃ idx', generic_index.remove id idx = done idx' ∧ index_ok idx' ∧
    abs idx' = snapshots.erase id (abs idx).
Proof.
  intros Hok [v Hv]. destruct (stack_ok_table _ _ _ _ Hok) as (Hkey & Hcf & Hlt).
  pose proof (Hkey _ _ Hv) as Hidv.
  unfold generic_index.remove, mi_erase. rewrite Hv.
  assert (indices (generic_index.on_remove v idx) = indices idx) as ->
    by (by destruct idx as [[] ? ? ?]).
  rewrite Hv; cbn.
  destruct (touch_refines
    (fun head =>
      if bool_decide (get_id v ∈ new_ids head) then
        head <| new_ids ::= fun s => s ∖ {[get_id v]} |>
      else match old_values head !! get_id v with
      | Some old =>
          head <| removed_values ::= fun m => m ∪ {[get_id v := old]} |>
               <| old_values ::= delete (get_id v) |>
      | None =>
          if bool_decide (is_Some (removed_values head !! get_id v)) then head
          else head <| removed_values ::= <[get_id v := v]> |>
      end) idx (delete id (indices idx)) (next_id idx)) as [Hok' Habs]; try done.
  - split_and!.
    + intros k w [? ?]%lookup_delete_Some. auto.
    + eapply clash_free_subseteq; [apply delete_subseteq|done].
    + intros k [w [? Hw]%lookup_delete_Some]. eauto.
  - intros u. by repeat case_match.
  - intros u k (Hk0 & _ & _) Hd. destruct (delta_cell _ _ _ k Hd) as [Hc Hb].
    rewrite view_lookup in *. rewrite Hidv. destruct (decide (k = id)) as [->|Hne].
    + rewrite lookup_delete_eq, Hv in *. rewrite <- Hb.
      case_bool_decide as Hn; unfold upd; cbn.
      { rewrite (bool_decide_eq_false_2 (id ∈ _ ∖ _)) by set_solver.
        try rewrite (bool_decide_eq_true_2 _ Hn) in *.
        by destruct (old_values u !! id), (removed_values u !! id); cbn in *. }
      destruct (old_values u !! id) as [o|] eqn:Ho; cbn.
      { try rewrite (bool_decide_eq_false_2 _ Hn) in *. rewrite lookup_delete_eq.
        rewrite ?insert_empty, lookup_union_single.
        by destruct (removed_values u !! id); cbn in *. }
      case_bool_decide as Hr; cbn; try rewrite (bool_decide_eq_false_2 _ Hn) in *.
      { destruct Hr as [w Hw]. rewrite Hw in Hc. cbn in Hc. done. }
      apply eq_None_not_Some in Hr.
      rewrite Ho, lookup_insert_eq, Hr in *. done.
    + rewrite lookup_delete_ne by done.
      destruct (bool_decide (id ∈ new_ids u)); [|destruct (old_values u !! id) as [o|];
        [|destruct (bool_decide (is_Some (removed_values u !! id))); [done|]]];
        unfold upd; cbn.
      * by rewrite (bool_decide_ext (k ∈ new_ids u ∖ _) (k ∈ new_ids u)) by set_solver.
      * rewrite lookup_delete_ne, ?insert_empty by done.
        rewrite lookup_union_l by (by apply lookup_singleton_ne). done.
      * by rewrite lookup_insert_ne.
  - eexists. split; [done|]. unfold abs, snapshots.erase, upd in *; cbn in *.
    unfold generic_index.on_remove, generic_index.with_head, upd in *.
    destruct idx as [[|u st] r n m]; done.
Qed.

(** ** The refinement *)

(** A change of one object. *)
Inductive object_op : Type :=
| Create (c : Z → V)
| Modify (id : Z) (f : V → V)
| Remove (id : Z).

Inductive index_op : Type :=
| On (o : object_op)
| Start
| Undo
| Squash
| Commit (r : Z).

Definition exec_object (o : object_op) idx : outcome (index_state V) :=
  match o with
  | Create c => generic_index.emplace c idx
  | Modify id f => generic_index.modify id f idx
  | Remove id => generic_index.remove id idx
  end.

Definition exec (o : index_op) idx : outcome (index_state V) :=
  match o with
  | On o => exec_object o idx
  | Start => done (generic_index.start_undo_session idx)
  | Undo => generic_index.undo idx
  | Squash => done (generic_index.squash idx)
  | Commit r => done (generic_index.commit r idx)
  end.

Definition spec_object (o : object_op) : snapshots.table V → snapshots.table V :=
  match o with
  | Create c => snapshots.create c
  | Modify id f => snapshots.alter id f
  | Remove id => snapshots.erase id
  end.

Definition spec (o : index_op) : snapshots.table V → snapshots.table V :=
  match o with
  | On o => spec_object o
  | Start => snapshots.save
  | Undo => snapshots.restore
  | Squash => snapshots.forget
  | Commit r => snapshots.finalize r
  end.

(** What callers owe: a constructor leaves the id alone, a modifier leaves the
    id and the unique keys alone, and references denote objects of the table. *)
Definition object_pre (o : object_op) idx : Prop :=
  match o with
  | Create c => get_id (c (next_id idx)) = next_id idx
  | Modify id f =>
      ∃ v, indices idx !! id = Some v ∧ get_id (f v) = id ∧
           unique_keys (f v) = unique_keys v
  | Remove id => is_Some (indices idx !! id)
  end.

Definition creates_clash (o : object_op) idx : Prop :=
  match o with
  | Create c => collides (indices idx) (c (next_id idx)) = true
  | _ => False
  end.

Lemma exec_object_refines o idx :
  index_ok idx → object_pre o idx →
  (∃ idx', exec_object o idx = done idx' ∧ index_ok idx' ∧
     abs idx' = spec_object o (abs idx) ∧ ¬ creates_clash o idx) ∨
  (exec_object o idx = threw idx ∧ creates_clash o idx).
Proof.
  intros Hok Hpre. destruct o as [c|id f|id]; cbn in *.
  - destruct (collides (indices idx) (c (next_id idx))) eqn:Hc.
    + right. split; [|done]. unfold generic_index.emplace, mi_emplace. by rewrite Hc.
    + left. destruct (emplace_refines c idx) as (idx' & ? & ? & ?); [done..|].
      exists idx'. split_and!; try done.
  - left. destruct Hpre as (v & Hv & Hid & Huk).
    destruct (modify_refines id f v idx) as (idx' & ? & ? & ?); [done..|].
    exists idx'. split_and!; try done. tauto.
  - left. destruct (remove_refines id idx) as (idx' & ? & ? & ?); [done..|].
    exists idx'. split_and!; try done. tauto.
Qed.

(** C25: the undo stack implements a stack of copies.  Every operation of a
    well-formed index whose caller keeps ids and unique keys completes (no
    failed lookup of the undo code, no uniqueness failure), keeps the index
    well formed and does to the table and to the copies its undo states stand
    for what the specification does: a session saves a copy, [undo] goes back to
    it, [squash] forgets the latest copy, [commit] forgets the copies up to a
    revision. *)
Theorem generic_index_refines (o : index_op) idx :
  index_ok idx →
  (∀ o', o = On o' → object_pre o' idx ∧ ¬ creates_clash o' idx) →
  ∃ idx', exec o idx = done idx' ∧ index_ok idx' ∧ abs idx' = spec o (abs idx).
Proof.
  intros Hok Hpre. destruct o as [o| | | |r]; cbn.
  - destruct (Hpre o eq_refl) as [Ho Hc].
    destruct (exec_object_refines o idx Hok Ho) as [(idx' & ? & ? & ? & ?)|[_ ?]]; [|done].
    by exists idx'.
  - eexists. split; [done|]. by apply start_refines.
  - by apply undo_refines.
  - eexists. split; [done|]. by apply squash_refines.
  - eexists. split; [done|]. by apply commit_refines.
Qed.

(** ** Sessions of the whole database *)

(** The database keeps one index per object type ([_index_list]); a session
    covers all of them. *)
Notation index_list := (list (index_state V)).
Implicit Types db : index_list.

Definition db_start_undo_session db : index_list :=
  generic_index.start_undo_session <$> db.
Definition db_squash db : index_list := generic_index.squash <$> db.
Definition db_commit (r : Z) db : index_list := generic_index.commit r <$> db.

Fixpoint db_undo db : outcome index_list :=
  match db with
  | [] => done []
  | idx :: db' =>
      outcome_bind (generic_index.undo idx) (fun idx => idx :: db') (fun idx =>
      outcome_bind (db_undo db') (cons idx) (fun db' => done (idx :: db')))
  end.

(** [create], [modify] and [remove] of the database act on the index of the
    type; a missing index throws. *)
Definition db_exec (p : nat * object_op) db : outcome index_list :=
  match db !! p.1 with
  | None => threw db
  | Some idx =>
      outcome_bind (exec_object p.2 idx) (fun idx => <[p.1 := idx]> db)
        (fun idx => done (<[p.1 := idx]> db))
  end.

Fixpoint db_run (l : list (nat * object_op)) db : outcome index_list :=
  match l with
  | [] => done db
  | p :: l' => outcome_bind (db_exec p db) id (db_run l')
  end.

Fixpoint run_pre (l : list (nat * object_op)) db : Prop :=
  match l with
  | [] => True
  | p :: l' =>
      match db !! p.1 with Some idx => object_pre p.2 idx | None => True end ∧
      match db_exec p db with done db' => run_pre l' db' | _ => True end
  end.

(** The tables of [db] are [ts], up to changes of objects since the copy each
    table keeps on top. *)
Definition saved_as (t : snapshots.table V) idx : Prop :=
  index_ok idx ∧ snapshots.restore (abs idx) = t ∧ snapshots.history (abs idx) ≠ [].

Lemma saved_as_start idx :
  index_ok idx → saved_as (abs idx) (generic_index.start_undo_session idx).
Proof.
  intros Hok. destruct (start_refines idx Hok) as [Hok' Habs].
  split; [done|]. rewrite Habs. split; [|done].
  unfold snapshots.restore, snapshots.save, upd; cbn. unfold abs. f_equal. lia.
Qed.

Lemma saved_as_exec t o idx idx' :
  saved_as t idx → object_pre o idx → exec_object o idx = done idx' → saved_as t idx'.
Proof.
  intros (Hok & Ht & Hh) Hpre Hx.
  destruct (exec_object_refines o idx Hok Hpre) as [(idx1 & Hx' & Hok' & Habs & _)|[? _]];
    [|congruence].
  assert (idx1 = idx') as -> by congruence. split; [done|]. rewrite Habs.
  destruct (abs idx) as [m n r [|s h]]; [done|]. by destruct o.
Qed.

Lemma saved_as_run ts l db :
  Forall2 saved_as ts db → run_pre l db →
  ∃ db', (db_run l db = done db' ∨ db_run l db = threw db') ∧ Forall2 saved_as ts db'.
Proof.
  revert db. induction l as [|[i o] l IH]; intros db Hdb Hpre; cbn in *.
  { eexists. split; [by left|done]. }
  destruct Hpre as [Ho Hpre]. unfold db_exec in *; cbn in *.
  destruct (db !! i) as [idx|] eqn:Hi; cbn in *.
  2:{ eexists. split; [by right|done]. }
  destruct (Forall2_lookup_r _ _ _ _ _ Hdb Hi) as (t & Ht & Hs).
  destruct (exec_object_refines o idx) as [(idx' & Hx & _)|[Hx _]]; [apply Hs|done| |].
  - rewrite Hx in *; cbn in *. apply IH; [|done].
    rewrite <- (list_insert_id ts i t) by done.
    apply Forall2_insert; [done|]. by eapply saved_as_exec.
  - rewrite Hx; cbn. exists db. split; [right; by rewrite list_insert_id|done].
Qed.

Lemma saved_as_undo ts db :
  Forall2 saved_as ts db →
  ∃ db', db_undo db = done db' ∧ Forall index_ok db' ∧ abs <$> db' = ts.
Proof.
  induction 1 as [|t idx ts db (Hok & Ht & _) _ (db' & IH & Hoks & Habs)]; cbn.
  { by exists []. }
  destruct (undo_refines idx Hok) as (idx' & -> & Hok' & Habs'); cbn.
  rewrite IH; cbn. eexists. split; [done|]. split; [by constructor|].
  cbn. by rewrite Habs, Habs', Ht.
Qed.

(** C26: a session is atomic.  However the changes made inside a session end,
    normally or with the exception of a failed [create] or of an unknown index,
    undoing the session (explicitly or when the exception unwinds it) completes
    and gives back, for every index, the objects, the next id, the revision and
    the earlier sessions as they were when it was opened.  This is what lets the
    model of the chain treat an exception as carrying no state. *)
Theorem session_rollback (l : list (nat * object_op)) db :
  Forall index_ok db → run_pre l (db_start_undo_session db) →
  ∃ db1 db2,
    (db_run l (db_start_undo_session db) = done db1 ∨
     db_run l (db_start_undo_session db) = threw db1) ∧
    db_undo db1 = done db2 ∧ Forall index_ok db2 ∧ abs <$> db2 = abs <$> db.
Proof.
  intros Hok Hpre.
  destruct (saved_as_run (abs <$> db) l (db_start_undo_session db)) as (db1 & Hr & Hs).
  { clear Hpre. induction Hok; cbn; constructor; [by apply saved_as_start|done]. }
  { done. }
  destruct (saved_as_undo _ _ Hs) as (db2 & ? & ? & ?). by exists db1, db2.
Qed.

(** A [modify] that violates a unique index destroys the session it happens
    in.  The container erases the object, the undo state has recorded its old
    value as an update, and [undo] modifies the end iterator that its lookup
    returns: undefined behaviour, where the source promises to restore the
    state. *)
Theorem failed_modify_breaks_undo id f v idx :
  index_ok idx → indices idx !! id = Some v →
  collides (delete id (indices idx)) (f v) = true →
  ∃ idx', generic_index.modify id f (generic_index.start_undo_session idx) = threw idx' ∧
    generic_index.undo idx' = undefined.
Proof.
  intros Hok Hv Hc. destruct (stack_ok_table _ _ _ _ Hok) as (Hkey & _ & _).
  pose proof (Hkey _ _ Hv) as Hid. destruct idx as [st r n m]; cbn in *.
  unfold generic_index.modify, generic_index.start_undo_session,
    generic_index.on_modify, generic_index.with_head, upd; cbn.
  rewrite Hv, Hid; cbn. rewrite bool_decide_eq_false_2, lookup_empty by set_solver.
  rewrite bool_decide_eq_false_2 by (intros [? ?]; done). cbn.
  unfold mi_modify. rewrite Hv, Hc; cbn. eexists. split; [done|].
  unfold generic_index.undo; cbn. unfold items. rewrite ?insert_empty, map_to_list_singleton.
  cbn. unfold mi_modify. by rewrite Hid, lookup_delete_eq.
Qed.

End refinement.

(** ** Sample index *)

(** An object type with a unique name and a value, as the books of
    src/src/core/chainbase/tests/database_test.cpp. *)
Record book := mk_book { book_id : Z; book_name : string; book_value : Z }.
#[export] Instance book_indexed : Indexed book :=
  {| get_id := book_id; unique_keys b := [book_name b] |}.

Definition new_book (name : string) (id : Z) : book := mk_book id name 0.
Definition set_value (v : Z) (b : book) : book := mk_book (book_id b) (book_name b) v.
Definition set_name (s : string) (b : book) : book := mk_book (book_id b) s (book_value b).

Definition empty_index (V : Type) : index_state V := mk_index_state [] 0 0 ∅.

Lemma empty_index_ok `{Indexed V} : index_ok (empty_index V).
Proof.
  unfold index_ok, empty_index; cbn. split; [|done]. split_and!.
  - intros k v Hk. by rewrite lookup_empty in Hk.
  - intros i j v w Hk. by rewrite lookup_empty in Hk.
  - intros k [v Hk]. by rewrite lookup_empty in Hk.
Qed.

(** Two books, inside one open session. *)
Definition sample_index : index_state book :=
  let create name o := outcome_bind o id (generic_index.emplace (new_book name)) in
  match create "b"%string (create "a"%string
    (done (generic_index.start_undo_session (empty_index book)))) with
  | done idx => idx
  | _ => empty_index book
  end.

Lemma sample_index_ok : index_ok sample_index.
Proof.
  destruct (start_refines _ (empty_index_ok (V:=book))) as [H0 _].
  destruct (emplace_refines (new_book "a") _ H0) as (i1 & E1 & H1 & _); [done..|].
  assert (next_id i1 = 1 ∧ collides (indices i1) (new_book "b" (next_id i1)) = false)
    as [Hn Hc] by (vm_compute in E1; injection E1 as <-; done).
  destruct (emplace_refines (new_book "b") _ H1) as (i2 & E2 & H2 & _);
    [by rewrite Hn|done|].
  assert (sample_index = i2) as ->; [|done].
  unfold sample_index. cbn [outcome_bind]. rewrite E1. cbn [outcome_bind]. by rewrite E2.
Qed.

Lemma generic_index_refines_witness :
  index_ok sample_index ∧
  ∃ idx', exec (On (Modify 1 (set_value 7))) sample_index = done idx' ∧
    abs idx' = spec (On (Modify 1 (set_value 7))) (abs sample_index).
Proof.
  split; [apply sample_index_ok|].
  destruct (generic_index_refines (On (Modify 1 (set_value 7))) sample_index sample_index_ok)
    as (idx' & Hx & _ & Ha).
  - intros o' [= <-]. split; [|intros []]. exists (new_book "b" 1). split_and!; done.
  - by exists idx'.
Defined.

Lemma session_rollback_witness :
  ∃ db1 db2,
    db_run [(0%nat, Modify 0 (set_value 3)); (0%nat, Remove 1);
            (0%nat, Create (new_book "a")); (0%nat, Remove 0)]
      (db_start_undo_session [sample_index]) = threw db1 ∧
    db_undo db1 = done db2 ∧ abs <$> db2 = [abs sample_index].
Proof.
  destruct (session_rollback
    [(0%nat, Modify 0 (set_value 3)); (0%nat, Remove 1);
     (0%nat, Create (new_book "a")); (0%nat, Remove 0)] [sample_index])
    as (db1 & db2 & Hr & Hu & _ & Ha).
  - constructor; [apply sample_index_ok|constructor].
  - cbn. split_and!; try done.
    + exists (new_book "a" 0). split_and!; done.
    + vm_compute. split_and!; try done; by eexists.
  - exists db1, db2. split_and!; [|done|done].
    destruct Hr as [Hr|Hr]; [|done]. vm_compute in Hr. discriminate Hr.
Defined.

Lemma failed_modify_breaks_undo_witness :
  ∃ idx', generic_index.modify 1 (set_name "a")
      (generic_index.start_undo_session sample_index) = threw idx' ∧
    generic_index.undo idx' = undefined.
Proof.
  apply (failed_modify_breaks_undo 1 (set_name "a") (new_book "b" 1) sample_index).
  - apply sample_index_ok.
  - done.
  - done.
Defined.
