(* ===== verification/Ints.v ===== *)
(** * Machine integers of fc

    [safe] is [fc::safe<int64_t>] (src/src/base/fc/include/fc/safe.hpp): checked
    64-bit arithmetic that throws on overflow.  [u128] is [fc::uint128]
    (uint128.hpp, uint128.cpp) with its two 64-bit halves; [uval] relates it to the
    integers modulo 2^128 the chain files compute with.  Times are 32-bit
    seconds ([fc::time_point_sec], time.hpp). *)
From S2P Require Import Prelude.

Definition INT64_MAX : Z := 2 ^ 63 - 1.
Definition INT64_MIN : Z := - 2 ^ 63.
Definition in_i64 (z : Z) : Prop := INT64_MIN ≤ z ≤ INT64_MAX.
Definition wrap_i64 (z : Z) : Z := (z + 2 ^ 63) mod 2 ^ 64 - 2 ^ 63.
Definition wrap_u128 (z : Z) : Z := z mod 2 ^ 128.
Definition wrap_u64 (z : Z) : Z := z mod 2 ^ 64.
Definition wrap_u32 (z : Z) : Z := z mod 2 ^ 32.
Definition wrap_u16 (z : Z) : Z := z mod 2 ^ 16.
Definition wrap_u8 (z : Z) : Z := z mod 2 ^ 8.

(** ** fc::safe<int64_t> *)
Module safe.
Definition add (a b : Z) : res Z :=
  if (b >? 0) && (a >? INT64_MAX - b) then Throw overflow_exception
  else if (b <? 0) && (a <? INT64_MIN - b) then Throw underflow_exception
  else Ok (a + b).
Definition sub (a b : Z) : res Z :=
  if (b >? 0) && (a <? INT64_MIN + b) then Throw underflow_exception
  else if (b <? 0) && (a >? INT64_MAX + b) then Throw overflow_exception
  else Ok (a - b).
Definition mul (a b : Z) : res Z :=
  if a >? 0 then
    if b >? 0 then
      if a >? Z.quot INT64_MAX b then Throw overflow_exception else Ok (a * b)
    else if b <? Z.quot INT64_MIN a then Throw underflow_exception else Ok (a * b)
  else if b >? 0 then
    if a <? Z.quot INT64_MIN b then Throw underflow_exception else Ok (a * b)
  else if negb (a =? 0) && (b <? Z.quot INT64_MAX a) then Throw overflow_exception
  else Ok (a * b).
Definition div (a b : Z) : res Z :=
  if b =? 0 then Throw divide_by_zero_exception
  else if (a =? INT64_MIN) && (b =? -1) then Throw overflow_exception
  else Ok (Z.quot a b).
Definition rem (a b : Z) : res Z :=
  if b =? 0 then Throw divide_by_zero_exception
  else if (a =? INT64_MIN) && (b =? -1) then Throw overflow_exception
  else Ok (Z.rem a b).
Definition neg (a : Z) : res Z :=
  if a =? INT64_MIN then Throw overflow_exception else Ok (- a).
End safe.

(** ** Integers modulo 2^128

    The chain code computes with [fc::uint128_t]; these are its operations on
    the values [uval] (Uint128.v relates the limb-wise code to them).  Division
    is that of [boost::multiprecision::uint128_t], which throws on zero. *)
Definition u128_add (a b : Z) : Z := wrap_u128 (a + b).
Definition u128_sub (a b : Z) : Z := wrap_u128 (a - b).
Definition u128_mul (a b : Z) : Z := wrap_u128 (a * b).
Definition u128_div (a b : Z) : res Z :=
  if b =? 0 then Throw overflow_exception else Ok (a / b).
Definition u128_to_uint64 (a : Z) : res Z :=
  let? _ := res_assert (a <? 2 ^ 64) "hi == 0" in Ok a.

Ltac safe_case :=
  repeat match goal with
  | |- context [if ?c then _ else _] => let E := fresh "E" in destruct c eqn:E
  | H : context [if ?c then _ else _] |- _ => let E := fresh "E" in destruct c eqn:E
  end.

Lemma safe_add_ok a b c : safe.add a b = Ok c → c = a + b.
Proof. unfold safe.add. intros H. safe_case; inv_ok; lia. Qed.
Lemma safe_sub_ok a b c : safe.sub a b = Ok c → c = a - b.
Proof. unfold safe.sub. intros H. safe_case; inv_ok; lia. Qed.
Lemma safe_mul_ok a b c : safe.mul a b = Ok c → c = a * b.
Proof. unfold safe.mul. intros H. safe_case; inv_ok; lia. Qed.
Lemma safe_div_ok a b c : safe.div a b = Ok c → c = Z.quot a b ∧ b ≠ 0.
Proof. unfold safe.div. intros H. safe_case; inv_ok; bool_prop; lia. Qed.
Lemma safe_rem_ok a b c : safe.rem a b = Ok c → c = Z.rem a b ∧ b ≠ 0.
Proof. unfold safe.rem. intros H. safe_case; inv_ok; bool_prop; lia. Qed.
Lemma safe_neg_ok a c : safe.neg a = Ok c → c = - a.
Proof. unfold safe.neg. intros H. safe_case; inv_ok; lia. Qed.

Lemma safe_add_exact a b :
  in_i64 a → in_i64 b → (safe.add a b = Ok (a + b) ↔ in_i64 (a + b)).
Proof.
  unfold safe.add, in_i64, INT64_MAX, INT64_MIN. intros Ha Hb.
  safe_case; split; intros; try done; try lia.
Qed.
Lemma safe_sub_exact a b :
  in_i64 a → in_i64 b → (safe.sub a b = Ok (a - b) ↔ in_i64 (a - b)).
Proof.
  unfold safe.sub, in_i64, INT64_MAX, INT64_MIN. intros Ha Hb.
  safe_case; split; intros; try done; try lia.
Qed.

(** Truncated division of a bound: the test [safe.mul] makes. *)
Lemma quot_pos_bound m a b : 0 ≤ m → 0 < b → (a ≤ Z.quot m b ↔ a * b ≤ m).
Proof.
  intros Hm Hb. rewrite Z.quot_div_nonneg by lia. split; intros H.
  - pose proof (Z.mul_div_le m b Hb). nia.
  - apply Z.div_le_lower_bound; lia.
Qed.
Lemma quot_neg_bound m a b : m ≤ 0 → 0 < b → (Z.quot m b ≤ a ↔ m ≤ a * b).
Proof.
  intros Hm Hb.
  replace (Z.quot m b) with (- Z.quot (- m) b).
  2:{ rewrite Z.quot_opp_l by lia. lia. }
  pose proof (quot_pos_bound (- m) (- a) b ltac:(lia) Hb). lia.
Qed.

Lemma safe_mul_exact a b :
  in_i64 a → in_i64 b → (safe.mul a b = Ok (a * b) ↔ in_i64 (a * b)).
Proof.
  unfold safe.mul, in_i64, INT64_MAX, INT64_MIN. intros Ha Hb.
  destruct (a >? 0) eqn:Ea; destruct (b >? 0) eqn:Eb; bool_prop.
  - pose proof (quot_pos_bound (2 ^ 63 - 1) a b ltac:(lia) ltac:(lia)).
    safe_case; bool_prop; split; intros; try done; nia.
  - pose proof (quot_neg_bound (- 2 ^ 63) b a ltac:(lia) ltac:(lia)).
    safe_case; bool_prop; split; intros; try done; nia.
  - pose proof (quot_neg_bound (- 2 ^ 63) a b ltac:(lia) ltac:(lia)).
    safe_case; bool_prop; split; intros; try done; nia.
  - destruct (Z.eq_dec a 0) as [->|Hne]; [cbn; split; intros; [lia|done]|].
    replace (Z.quot (2 ^ 63 - 1) a) with (- Z.quot (2 ^ 63 - 1) (- a)).
    2:{ rewrite Z.quot_opp_r by lia. lia. }
    pose proof (quot_pos_bound (2 ^ 63 - 1) (- b) (- a) ltac:(lia) ltac:(lia)).
    safe_case; bool_prop; split; intros; try done; nia.
Qed.

(** [fc::safe] never wraps: for 64-bit operands a sum, a difference or a
    product is returned exactly when it is representable, and otherwise the
    operation throws. *)
Theorem safe_arithmetic_exact a b : in_i64 a → in_i64 b →
  (safe.add a b = Ok (a + b) ↔ in_i64 (a + b)) ∧ (∀ c, safe.add a b = Ok c → c = a + b) ∧
  (safe.sub a b = Ok (a - b) ↔ in_i64 (a - b)) ∧ (∀ c, safe.sub a b = Ok c → c = a - b) ∧
  (safe.mul a b = Ok (a * b) ↔ in_i64 (a * b)) ∧ (∀ c, safe.mul a b = Ok c → c = a * b).
Proof.
  intros Ha Hb. split_and!; eauto using safe_add_exact, safe_sub_exact, safe_mul_exact, safe_add_ok, safe_sub_ok, safe_mul_ok.
Qed.

Lemma safe_arithmetic_exact_witness : safe.mul (2 ^ 40) (- 2 ^ 23) = Ok (- 2 ^ 63) ∧ ¬ in_i64 (2 ^ 62 + 2 ^ 62).
Proof.
  assert (in_i64 (2 ^ 40) ∧ in_i64 (- 2 ^ 23)) as [Ha Hb] by (unfold in_i64, INT64_MIN, INT64_MAX; lia).
  destruct (safe_arithmetic_exact (2 ^ 40) (- 2 ^ 23) Ha Hb) as (_ & _ & _ & _ & Hm & _).
  split; [apply Hm; unfold in_i64, INT64_MIN, INT64_MAX; lia|unfold in_i64, INT64_MIN, INT64_MAX; lia].
Defined.
