(* ===== verification/Uint128.v ===== *)
(** * fc::uint128 refines the integers modulo 2^128

    The class of src/src/base/fc/include/fc/uint128.hpp and uint128.cpp with its two 64-bit
    halves and its operators as written: carries by comparison, negation by
    complement, shifts with masks, the product by 32-bit limbs and the
    shift-and-subtract [divide].  [uval] is the number a value denotes. *)
From S2P Require Import Prelude Ints.

Record u128 := mk_u128 { hi : Z; lo : Z }.
Definition uval (u : u128) : Z := hi u * 2 ^ 64 + lo u.
Definition wf_u128 (u : u128) : Prop := 0 ≤ hi u < 2 ^ 64 ∧ 0 ≤ lo u < 2 ^ 64.

Module uint128.
Definition of_uint64 (l : Z) : u128 := mk_u128 0 l.
Definition of_int64 (l : Z) : u128 :=
  mk_u128 (wrap_u64 (- (if l <? 0 then 1 else 0))) (wrap_u64 l).
Definition eqb (a b : u128) : bool := (hi a =? hi b) && (lo a =? lo b).
Definition ltb (a b : u128) : bool :=
  if hi a =? hi b then lo a <? lo b else hi a <? hi b.
Definition incr (u : u128) : u128 :=
  let l := wrap_u64 (lo u + 1) in
  mk_u128 (wrap_u64 (hi u + (if l =? 0 then 1 else 0))) l.
Definition compl (u : u128) : u128 :=
  mk_u128 (wrap_u64 (Z.lnot (hi u))) (wrap_u64 (Z.lnot (lo u))).
Definition neg (u : u128) : u128 := incr (compl u).
Definition add (a u : u128) : u128 :=
  let l := wrap_u64 (lo a + lo u) in
  mk_u128 (wrap_u64 (hi a + (hi u + (if l <? lo a then 1 else 0)))) l.
Definition sub (a u : u128) : u128 := add a (neg u).
(** [operator |] of the header assigns its right argument. *)
Definition bor (l r : u128) : u128 := r.

(** [operator <<=] after its test that the amount is below 128. *)
Definition shl (u : u128) (k : Z) : u128 :=
  if k >=? 128 then mk_u128 0 0 else
  let '(n, h, l) := if k >=? 64 then (k - 64, lo u, 0) else (k, hi u, lo u) in
  if n =? 0 then mk_u128 h l else
  let h := wrap_u64 (Z.shiftl h n) in
  let mask := wrap_u64 (Z.lnot (Z.shiftr (2 ^ 64 - 1) n)) in
  let h := Z.lor h (Z.shiftr (Z.land l mask) (64 - n)) in
  mk_u128 h (wrap_u64 (Z.shiftl l n)).

Definition low32 (x : Z) : Z := wrap_u32 x.

(** [operator *=]: schoolbook product of 32-bit limbs, Horner style. *)
Definition mul (a b : u128) : u128 :=
  let a0 := low32 (lo a) in let a1 := low32 (Z.shiftr (lo a) 32) in
  let a2 := low32 (hi a) in let a3 := low32 (Z.shiftr (hi a) 32) in
  let b0 := low32 (lo b) in let b1 := low32 (Z.shiftr (lo b) 32) in
  let b2 := low32 (hi b) in let b3 := low32 (Z.shiftr (hi b) 32) in
  let t := of_uint64 (wrap_u64 (a3 * b0)) in
  let t := add t (of_uint64 (wrap_u64 (a2 * b1))) in
  let t := add t (of_uint64 (wrap_u64 (a1 * b2))) in
  let t := add t (of_uint64 (wrap_u64 (a0 * b3))) in
  let t := shl t 32 in
  let t := add t (of_uint64 (wrap_u64 (a2 * b0))) in
  let t := add t (of_uint64 (wrap_u64 (a1 * b1))) in
  let t := add t (of_uint64 (wrap_u64 (a0 * b2))) in
  let t := shl t 32 in
  let t := add t (of_uint64 (wrap_u64 (a1 * b0))) in
  let t := add t (of_uint64 (wrap_u64 (a0 * b1))) in
  let t := shl t 32 in
  add t (of_uint64 (wrap_u64 (a0 * b0))).

Definition to_uint64 (u : u128) : res Z :=
  if hi u =? 0 then Ok (lo u) else Throw (assert_exception "hi == 0").

(** [_popcount_64] and [popcount]: the parallel bit count. *)
Definition popcount_masks : list Z :=
  [0x5555555555555555; 0x3333333333333333; 0x0F0F0F0F0F0F0F0F;
   0x00FF00FF00FF00FF; 0x0000FFFF0000FFFF; 0x00000000FFFFFFFF].
Fixpoint popcount_steps (ms : list Z) (w x : Z) : Z :=
  match ms with
  | [] => x
  | m :: ms' =>
      popcount_steps ms' (w + w) (wrap_u64 (Z.land x m + Z.land (Z.shiftr x w) m))
  end.
Definition popcount_64 (x : Z) : Z := wrap_u8 (popcount_steps popcount_masks 1 x).
Definition popcount (u : u128) : Z := wrap_u8 (popcount_64 (lo u) + popcount_64 (hi u)).
End uint128.

(** ** Refinement lemmas *)

Ltac unwrap := unfold wrap_u64, wrap_u32, wrap_u128, uint128.low32, wrap_u32 in *.

Lemma wf_add a b : wf_u128 a → wf_u128 b → wf_u128 (uint128.add a b).
Proof.
  intros _ _. unfold wf_u128, uint128.add. cbn. unwrap.
  split; apply Z.mod_pos_bound; lia.
Qed.
Lemma wf_of_uint64 x : wf_u128 (uint128.of_uint64 (wrap_u64 x)).
Proof.
  unfold wf_u128, uint128.of_uint64. cbn. unwrap.
  split; [lia|apply Z.mod_pos_bound; lia].
Qed.

(** Splitting a number modulo 2^128 into halves. *)
Lemma halves_mod h l : 0 ≤ l < 2 ^ 64 →
  (h mod 2 ^ 64) * 2 ^ 64 + l = (h * 2 ^ 64 + l) mod 2 ^ 128.
Proof.
  intros Hl. change (2 ^ 128) with (2 ^ 64 * 2 ^ 64).
  rewrite Z.rem_mul_r by lia.
  rewrite Z.div_add_l, (Z.div_small l) by lia.
  rewrite Z.add_comm, (Z.add_comm (h * 2 ^ 64)), Z.mod_add by lia.
  rewrite (Z.mod_small l), Z.add_0_r by lia. lia.
Qed.

Lemma uval_add a b : wf_u128 a → wf_u128 b →
  uval (uint128.add a b) = (uval a + uval b) mod 2 ^ 128.
Proof.
  intros [_ Hla] [_ Hlb]. unfold uval, uint128.add. cbn [hi lo]. unwrap.
  set (l := (lo a + lo b) mod 2 ^ 64).
  pose proof (Z.mod_pos_bound (lo a + lo b) (2 ^ 64) ltac:(lia)) as Hl. fold l in Hl.
  rewrite halves_mod by done. f_equal.
  destruct (Z_lt_le_dec (lo a + lo b) (2 ^ 64)) as [Hc|Hc].
  - assert (l = lo a + lo b) as El by (apply Z.mod_small; lia).
    destruct (l <? lo a) eqn:E; bool_prop; lia.
  - assert (l = lo a + lo b - 2 ^ 64) as El.
    { unfold l. rewrite <- (Z.mod_add _ (-1)) by lia. apply Z.mod_small. lia. }
    destruct (l <? lo a) eqn:E; bool_prop; lia.
Qed.

Lemma uval_neg a : wf_u128 a → uval (uint128.neg a) = (- uval a) mod 2 ^ 128.
Proof.
  intros [Hh Hl]. unfold uint128.neg, uint128.incr, uint128.compl, uval.
  cbn [hi lo]. unwrap.
  assert (∀ x, 0 ≤ x < 2 ^ 64 → Z.lnot x mod 2 ^ 64 = 2 ^ 64 - 1 - x) as Hc.
  { intros x Hx. unfold Z.lnot. rewrite <- (Z.mod_add _ 1), Z.mod_small by lia. lia. }
  rewrite !Hc by done.
  destruct (Z.eq_dec (lo a) 0) as [E|E].
  - rewrite E. change ((2 ^ 64 - 1 - 0 + 1) mod 2 ^ 64) with 0. cbn [Z.eqb].
    rewrite halves_mod by lia. rewrite <- (Z.mod_add _ (-1)) by lia. f_equal. lia.
  - rewrite (Z.mod_small (2 ^ 64 - 1 - lo a + 1)) by lia.
    destruct (_ =? 0) eqn:E0; bool_prop; [lia|].
    rewrite halves_mod by lia. rewrite <- (Z.mod_add _ (-1)) by lia. f_equal. lia.
Qed.

Lemma wf_neg a : wf_u128 (uint128.neg a).
Proof.
  unfold wf_u128, uint128.neg, uint128.incr. cbn. unwrap.
  split; apply Z.mod_pos_bound; lia.
Qed.

Lemma shl_carry l n : 0 ≤ l < 2 ^ 64 → 0 < n < 64 →
  Z.shiftr (Z.land l (wrap_u64 (Z.lnot (Z.shiftr (2 ^ 64 - 1) n)))) (64 - n)
  = l / 2 ^ (64 - n).
Proof.
  intros Hl Hn. rewrite <- Z.shiftr_div_pow2 by lia.
  apply Z.bits_inj'. intros i Hi. unwrap.
  rewrite !Z.shiftr_spec by lia. rewrite Z.land_spec.
  destruct (Z_lt_le_dec (i + (64 - n)) 64) as [Hlt|Hge].
  - rewrite Z.mod_pow2_bits_low by lia. rewrite Z.lnot_spec by lia.
    rewrite Z.shiftr_spec by lia.
    replace (2 ^ 64 - 1) with (Z.ones 64) by reflexivity.
    rewrite Z.ones_spec_high by lia. apply andb_true_r.
  - replace l with (l mod 2 ^ 64) by (apply Z.mod_small; lia).
    rewrite Z.mod_pow2_bits_high by lia. done.
Qed.

Lemma lor_disjoint a b n : 0 ≤ n → 0 ≤ b < 2 ^ n → Z.lor (a * 2 ^ n) b = a * 2 ^ n + b.
Proof.
  intros Hn Hb. rewrite <- Z.add_lor_land.
  replace (Z.land (a * 2 ^ n) b) with 0; [lia|].
  symmetry. apply Z.bits_inj'. intros i Hi. rewrite Z.land_spec, Z.bits_0.
  destruct (Z_lt_le_dec i n).
  - rewrite Z.mul_pow2_bits_low by lia. done.
  - replace b with (b mod 2 ^ n) by (apply Z.mod_small; lia).
    rewrite Z.mod_pow2_bits_high by lia. apply andb_false_r.
Qed.

Lemma shl_wf_uval u n : wf_u128 u → 0 < n < 64 →
  wf_u128 (uint128.shl u n) ∧ uval (uint128.shl u n) = (uval u * 2 ^ n) mod 2 ^ 128.
Proof.
  intros [Hh Hl] Hn. unfold uint128.shl, wf_u128, uval.
  replace (n >=? 128) with false by (symmetry; rewrite Z.geb_leb; apply Z.leb_gt; lia).
  replace (n >=? 64) with false by (symmetry; rewrite Z.geb_leb; apply Z.leb_gt; lia).
  replace (n =? 0) with false by (symmetry; apply Z.eqb_neq; lia). cbn [hi lo].
  rewrite shl_carry by done. unwrap. rewrite !Z.shiftl_mul_pow2 by lia.
  set (c := lo u / 2 ^ (64 - n)).
  assert (2 ^ 64 = 2 ^ (64 - n) * 2 ^ n) as E64 by (rewrite <- Z.pow_add_r by lia; f_equal; lia).
  assert (0 < 2 ^ n ∧ 0 < 2 ^ (64 - n)) as [P1 P2] by (split; apply Z.pow_pos_nonneg; lia).
  assert (0 ≤ c < 2 ^ n) as Hc.
  { unfold c. split; [apply Z.div_pos; lia|]. apply Z.div_lt_upper_bound; lia. }
  assert ((hi u * 2 ^ n) mod 2 ^ 64 = (hi u mod 2 ^ (64 - n)) * 2 ^ n) as Eh.
  { rewrite E64. apply Z.mul_mod_distr_r; lia. }
  pose proof (Z.mod_pos_bound (hi u) (2 ^ (64 - n)) P2) as Hm.
  assert (2 ^ n ≤ 2 ^ 64) as P3 by (apply Z.pow_le_mono_r; lia).
  rewrite Eh, lor_disjoint by lia.
  pose proof (Z.mod_pos_bound (lo u * 2 ^ n) (2 ^ 64) ltac:(lia)) as Hlm.
  split.
  - split; [|done]. nia.
  - replace (hi u mod 2 ^ (64 - n) * 2 ^ n + c)
      with ((hi u * 2 ^ n + c) mod 2 ^ 64).
    2:{ rewrite Z.add_mod, Eh, (Z.mod_small c) by lia. apply Z.mod_small. nia. }
    rewrite halves_mod by done. f_equal.
    pose proof (Z.div_mod (lo u * 2 ^ n) (2 ^ 64) ltac:(lia)) as Hdm.
    replace (lo u * 2 ^ n / 2 ^ 64) with c in Hdm.
    2:{ unfold c. clear Hdm. rewrite E64. rewrite Z.div_mul_cancel_r; [done|lia|lia]. }
    set (m := (lo u * 2 ^ n) mod 2 ^ 64) in *.
    transitivity (hi u * 2 ^ n * 2 ^ 64 + (2 ^ 64 * c + m)); [ring|].
    rewrite <- Hdm. ring.
Qed.

(** A value as four limbs. *)
Lemma uval_limbs a : wf_u128 a →
  let l x := uint128.low32 x in
  uval a = l (lo a) + l (Z.shiftr (lo a) 32) * 2 ^ 32
         + l (hi a) * 2 ^ 64 + l (Z.shiftr (hi a) 32) * 2 ^ 96.
Proof.
  intros [Hh Hl]. cbn. unfold uval. unwrap. rewrite !Z.shiftr_div_pow2 by lia.
  assert (∀ x, 0 ≤ x < 2 ^ 64 → x = x mod 2 ^ 32 + (x / 2 ^ 32) mod 2 ^ 32 * 2 ^ 32) as H.
  { intros x Hx. rewrite (Z.mod_small (x / 2 ^ 32)).
    - pose proof (Z.div_mod x (2 ^ 32) ltac:(lia)). lia.
    - split; [apply Z.div_pos; lia|apply Z.div_lt_upper_bound; lia]. }
  pose proof (H _ Hh). pose proof (H _ Hl). lia.
Qed.

Lemma low32_bound x : 0 ≤ uint128.low32 x < 2 ^ 32.
Proof. unwrap. apply Z.mod_pos_bound. lia. Qed.

(** One Horner step: add a 64-bit product of limbs. *)
Lemma mul_step t x y : wf_u128 t → 0 ≤ x < 2 ^ 32 → 0 ≤ y < 2 ^ 32 →
  wf_u128 (uint128.add t (uint128.of_uint64 (wrap_u64 (x * y)))) ∧
  uval (uint128.add t (uint128.of_uint64 (wrap_u64 (x * y)))) = (uval t + x * y) mod 2 ^ 128.
Proof.
  intros Ht Hx Hy. pose proof (wf_of_uint64 (x * y)) as Hw.
  split; [by apply wf_add|]. rewrite uval_add by done.
  f_equal. f_equal. unfold uval, uint128.of_uint64. cbn. unwrap.
  rewrite Z.mod_small; [lia|nia].
Qed.

Create HintDb u128.
#[export] Hint Resolve low32_bound wf_of_uint64 wf_add : u128.

(** Residues as explicit multiples, so that [ring] can carry the sums. *)
Lemma mod_multiple x y m : 0 < m → x = y mod m → ∃ k, x = y + k * m.
Proof.
  intros Hm ->. exists (- (y / m)). pose proof (Z.div_mod y m ltac:(lia)). lia.
Qed.
Lemma multiple_mod x y m k : 0 ≤ x < m → x = y + k * m → x = y mod m.
Proof.
  intros Hx ->. apply Z.mod_unique with (- k); [|ring]. left. lia.
Qed.
Lemma wf_uval_bound u : wf_u128 u → 0 ≤ uval u < 2 ^ 128.
Proof. unfold wf_u128, uval. lia. Qed.

Ltac mul_steps :=
  repeat match goal with
  | |- context [uint128.add ?t (uint128.of_uint64 (wrap_u64 (?x * ?y)))] =>
      is_var t;
      let t' := fresh "t" in
      set (t' := uint128.add t (uint128.of_uint64 (wrap_u64 (x * y))));
      let W := fresh "W" in let V := fresh "V" in let k := fresh "k" in
      destruct (mul_step t x y) as [W V]; [done|apply low32_bound|apply low32_bound|];
      change (wf_u128 t') in W; fold t' in V; clearbody t';
      apply mod_multiple in V as [k V]; [|lia]
  | |- context [uint128.shl ?t 32] =>
      is_var t;
      let t' := fresh "t" in
      set (t' := uint128.shl t 32);
      let W := fresh "W" in let V := fresh "V" in let k := fresh "k" in
      destruct (shl_wf_uval t 32) as [W V]; [done|lia|];
      change (wf_u128 t') in W; fold t' in V; clearbody t';
      apply mod_multiple in V as [k V]; [|lia]
  end.

(** C37: the limb product of [operator *=], which multiplies 32-bit limbs with
    explicit carries, equivalent to the product modulo 2^128. *)
Theorem uint128_mul_correct a b : wf_u128 a → wf_u128 b →
  wf_u128 (uint128.mul a b) ∧ uval (uint128.mul a b) = (uval a * uval b) mod 2 ^ 128.
Proof.
  intros Ha Hb. rewrite (uval_limbs a Ha), (uval_limbs b Hb). unfold uint128.mul.
  pose proof (low32_bound (Z.shiftr (hi a) 32)) as B3.
  pose proof (low32_bound (lo b)) as B0.
  set (a0 := uint128.low32 (lo a)). set (a1 := uint128.low32 (Z.shiftr (lo a) 32)).
  set (a2 := uint128.low32 (hi a)). set (a3 := uint128.low32 (Z.shiftr (hi a) 32)) in *.
  set (b0 := uint128.low32 (lo b)) in *. set (b1 := uint128.low32 (Z.shiftr (lo b) 32)).
  set (b2 := uint128.low32 (hi b)). set (b3 := uint128.low32 (Z.shiftr (hi b) 32)).
  assert (wf_u128 (uint128.of_uint64 (wrap_u64 (a3 * b0)))) as W0 by apply wf_of_uint64.
  assert (uval (uint128.of_uint64 (wrap_u64 (a3 * b0))) = a3 * b0) as V0.
  { unfold uval, uint128.of_uint64. cbn [hi lo]. unfold wrap_u64.
    rewrite Z.mod_small; [lia|nia]. }
  set (t0 := uint128.of_uint64 (wrap_u64 (a3 * b0))) in *. clearbody t0. cbv zeta.
  mul_steps. split; [done|].
  eapply multiple_mod; [by apply wf_uval_bound|].
  repeat match goal with E : uval ?t = _ |- context [uval ?t] => rewrite E; clear E end.
  instantiate (1 := (k + k0 + k1) * 2 ^ 96 + (k2 + k3 + k4 + k5) * 2 ^ 64
    + (k6 + k7 + k8) * 2 ^ 32 + k9 + k10 - (a1 * b3 + a2 * b2 + a3 * b1)
    - (a2 * b3 + a3 * b2) * 2 ^ 32 - a3 * b3 * 2 ^ 64).
  ring.
Qed.

Lemma uint128_mul_correct_witness :
  let a := mk_u128 (2 ^ 64 - 1) 5 in
  uval (uint128.mul a a) = ((2 ^ 128 - 2 ^ 64 + 5) * (2 ^ 128 - 2 ^ 64 + 5)) mod 2 ^ 128.
Proof.
  intros a. assert (wf_u128 a) as Ha by (split; cbn; lia).
  exact (proj2 (uint128_mul_correct a a Ha Ha)).
Defined.

Lemma uint128_sub_correct a b : wf_u128 a → wf_u128 b →
  uval (uint128.sub a b) = (uval a - uval b) mod 2 ^ 128.
Proof.
  intros Ha Hb. unfold uint128.sub.
  rewrite uval_add, uval_neg by auto using wf_neg.
  rewrite Z.add_mod_idemp_r by lia. f_equal.
Qed.

Lemma uint128_ltb_correct a b : wf_u128 a → wf_u128 b →
  uint128.ltb a b = (uval a <? uval b).
Proof.
  intros [? ?] [? ?]. unfold uint128.ltb, uval.
  destruct (hi a =? hi b) eqn:E; bool_prop.
  - rewrite E. destruct (lo a <? lo b) eqn:E1; bool_prop; symmetry;
      [apply Z.ltb_lt|apply Z.ltb_ge]; lia.
  - destruct (hi a <? hi b) eqn:E1; bool_prop; symmetry;
      [apply Z.ltb_lt|apply Z.ltb_ge]; nia.
Qed.
