(* ===== verification/Config.v ===== *)
(** * Protocol constants

    The macros of src/src/core/protocol/include/zattera/protocol/config.hpp for the
    live network ([IS_TEST_MODE] undefined), with durations given as
    [fc::seconds], [fc::hours] or [fc::days] expressed in seconds. *)
From S2P Require Import Prelude.

Definition ZATTERA_GENESIS_TIME : Z := 1765238400.
Definition ZATTERA_CASHOUT_WINDOW_SECONDS : Z := 60 * 60 * 24 * 7.
Definition ZATTERA_UPVOTE_LOCKOUT : Z := 12 * 3600.
Definition ZATTERA_MIN_ACCOUNT_CREATION_FEE : Z := 0.
Definition ZATTERA_OWNER_AUTH_RECOVERY_PERIOD : Z := 30 * 86400.
Definition ZATTERA_ACCOUNT_RECOVERY_REQUEST_EXPIRATION_PERIOD : Z := 86400.
Definition ZATTERA_OWNER_UPDATE_LIMIT : Z := 60 * 60.
Definition ZATTERA_OWNER_AUTH_HISTORY_TRACKING_START_BLOCK_NUM : Z := 3186477.

Definition ZATTERA_BLOCK_INTERVAL : Z := 3.
Definition ZATTERA_BLOCKS_PER_YEAR : Z := 365 * 24 * 60 * 60 / ZATTERA_BLOCK_INTERVAL.
Definition ZATTERA_BLOCKS_PER_DAY : Z := 24 * 60 * 60 / ZATTERA_BLOCK_INTERVAL.
Definition ZATTERA_START_WITNESS_VOTING_BLOCK : Z := ZATTERA_BLOCKS_PER_DAY * 7.

Definition ZATTERA_GENESIS_WITNESS_NAME : string := "genesis".
Definition ZATTERA_MAX_WITNESSES : Z := 21.
Definition ZATTERA_MAX_VOTED_WITNESSES : Z := 20.
Definition ZATTERA_MAX_RUNNER_WITNESSES : Z := 1.
Definition ZATTERA_HARDFORK_REQUIRED_WITNESSES : Z := 17.
Definition ZATTERA_MAX_TIME_UNTIL_EXPIRATION : Z := 60 * 60.
Definition ZATTERA_MAX_MEMO_SIZE : Z := 2048.
Definition ZATTERA_MAX_PROXY_RECURSION_DEPTH : nat := 4.
Definition ZATTERA_VESTING_WITHDRAW_INTERVALS : Z := 13.
Definition ZATTERA_VESTING_WITHDRAW_INTERVAL_SECONDS : Z := 60 * 60 * 24 * 7.
Definition ZATTERA_MAX_WITHDRAW_ROUTES : Z := 10.
Definition ZATTERA_SAVINGS_WITHDRAW_TIME : Z := 3 * 86400.
Definition ZATTERA_SAVINGS_WITHDRAW_REQUEST_LIMIT : Z := 100.
Definition ZATTERA_VOTE_REGENERATION_SECONDS : Z := 5 * 60 * 60 * 24.
Definition ZATTERA_VOTE_POWER_RESERVE_RATE : Z := 10.
Definition ZATTERA_MAX_VOTE_CHANGES : Z := 5.
Definition ZATTERA_REVERSE_AUCTION_WINDOW_SECONDS : Z := 60 * 30.
Definition ZATTERA_MIN_VOTE_INTERVAL_SEC : Z := 3.
Definition ZATTERA_MIN_VOTE_VESTING_SHARES : Z := 1000000.
Definition ZATTERA_VOTE_DUST_THRESHOLD : Z := 1000.
Definition ZATTERA_MIN_ROOT_COMMENT_INTERVAL : Z := 60 * 5.
Definition ZATTERA_MIN_REPLY_INTERVAL : Z := 3.
Definition ZATTERA_MAX_ACCOUNT_WITNESS_VOTES : Z := 30.

Definition ZATTERA_100_PERCENT : Z := 10000.
Definition ZATTERA_1_PERCENT : Z := ZATTERA_100_PERCENT / 100.
Definition ZATTERA_DEFAULT_DOLLAR_INTEREST_RATE : Z := 10 * ZATTERA_1_PERCENT.
Definition ZATTERA_INFLATION_RATE_START_PERCENT : Z := 978.
Definition ZATTERA_INFLATION_RATE_STOP_PERCENT : Z := 95.
Definition ZATTERA_INFLATION_NARROWING_PERIOD : Z := 250000.
Definition ZATTERA_CONTENT_REWARD_PERCENT : Z := 75 * ZATTERA_1_PERCENT.
Definition ZATTERA_VESTING_FUND_PERCENT : Z := 15 * ZATTERA_1_PERCENT.
Definition ZATTERA_MIN_REWARD_VESTING_SHARES : Z := 1000000000000.
Definition ZATTERA_BOOTSTRAP_FIXED_BLOCK_REWARD : Z := 10000.
Definition ZATTERA_BOOTSTRAP_SUPPLY_THRESHOLD : Z := 100000000000.
Definition ZATTERA_MAX_COMMENT_DEPTH : Z := 0xffff.
Definition ZATTERA_CREATE_ACCOUNT_WITH_ZATTERA_MODIFIER : Z := 30.
Definition ZATTERA_CREATE_ACCOUNT_DELEGATION_RATIO : Z := 5.
Definition ZATTERA_CREATE_ACCOUNT_DELEGATION_TIME : Z := 30 * 86400.
Definition ZATTERA_POST_REWARD_FUND_NAME : string := "post".
Definition ZATTERA_RECENT_RSHARES_DECAY_TIME : Z := 15 * 86400.
Definition ZATTERA_CONTENT_CONSTANT : Z := 2000000000000.
Definition ZATTERA_MIN_PAYOUT_DOLLAR_AMOUNT : Z := 20.
Definition ZATTERA_DOLLAR_START_PERCENT : Z := 2 * ZATTERA_1_PERCENT.
Definition ZATTERA_DOLLAR_STOP_PERCENT : Z := 5 * ZATTERA_1_PERCENT.
Definition ZATTERA_MIN_ACCOUNT_NAME_LENGTH : nat := 3.
Definition ZATTERA_MAX_ACCOUNT_NAME_LENGTH : nat := 16.
Definition ZATTERA_MIN_PERMLINK_LENGTH : nat := 0.
Definition ZATTERA_MAX_PERMLINK_LENGTH : nat := 256.
Definition ZATTERA_MAX_WITNESS_URL_LENGTH : nat := 2048.
Definition ZATTERA_MAX_SATOSHIS : Z := 4611686018427387903.
Definition ZATTERA_MAX_SIG_CHECK_DEPTH : nat := 2.
Definition ZATTERA_MAX_SIG_CHECK_ACCOUNTS : nat := 125.
Definition ZATTERA_SECONDS_PER_YEAR : Z := 60 * 60 * 24 * 365.
Definition ZATTERA_DOLLAR_INTEREST_COMPOUND_INTERVAL_SEC : Z := 60 * 60 * 24 * 30.
Definition ZATTERA_MAX_TRANSACTION_SIZE : Z := 1024 * 64.
Definition ZATTERA_MIN_BLOCK_SIZE_LIMIT : Z := ZATTERA_MAX_TRANSACTION_SIZE.
Definition ZATTERA_MAX_BLOCK_SIZE : Z :=
  ZATTERA_MAX_TRANSACTION_SIZE * ZATTERA_BLOCK_INTERVAL * 2000.
Definition ZATTERA_SOFT_MAX_BLOCK_SIZE : Z := 2 * 1024 * 1024.
Definition ZATTERA_BLOCKS_PER_HOUR : Z := 60 * 60 / ZATTERA_BLOCK_INTERVAL.
Definition ZATTERA_FEED_INTERVAL_BLOCKS : Z := ZATTERA_BLOCKS_PER_HOUR.
Definition ZATTERA_FEED_HISTORY_WINDOW : Z := 12 * 7.
Definition ZATTERA_MAX_FEED_AGE_SECONDS : Z := 60 * 60 * 24 * 7.
Definition ZATTERA_MIN_FEEDS : Z := ZATTERA_MAX_WITNESSES / 3.
Definition ZATTERA_CONVERSION_DELAY : Z := ZATTERA_FEED_HISTORY_WINDOW * 3600.
Definition ZATTERA_MAX_UNDO_HISTORY : Z := 10000.
Definition ZATTERA_MAX_AUTHORITY_MEMBERSHIP : Z := 40.
Definition ZATTERA_IRREVERSIBLE_THRESHOLD : Z := 75 * ZATTERA_1_PERCENT.
Definition ZATTERA_VIRTUAL_SCHEDULE_LAP_LENGTH2 : Z := 2 ^ 128 - 1.
Definition ZATTERA_MAX_LIMIT_ORDER_EXPIRATION : Z := 60 * 60 * 24 * 28.
Definition ZATTERA_DELEGATION_RETURN_PERIOD : Z := ZATTERA_VOTE_REGENERATION_SECONDS * 2.
Definition ZATTERA_NULL_ACCOUNT : string := "null".
Definition ZATTERA_TEMP_ACCOUNT : string := "temp".
Definition ZATTERA_PROXY_TO_SELF_ACCOUNT : string := "".
Definition ZATTERA_ROOT_POST_PARENT : string := "".

(** The hardfork table (hardfork.d/0-preamble.hf). *)
Definition ZATTERA_NUM_HARDFORKS : Z := 0.
