(* ===== verification/Asset.v ===== *)
(** * Assets and prices

    Symbols, amounts and prices of src/src/core/protocol/asset_symbol.hpp,
    asset.hpp and asset.cpp: the numeric asset identifiers with their Damm
    check digit, checked asset arithmetic, price comparison and the
    conversion [asset * price]. *)
From S2P Require Import Prelude Ints Config.

Definition ZATTERA_MAX_NAI : Z := 99999999.
Definition ZATTERA_MIN_NAI : Z := 1.
Definition ZATTERA_PRECISION_DOLLAR : Z := 3.
Definition ZATTERA_PRECISION_LIQUID : Z := 3.
Definition ZATTERA_PRECISION_VESTS : Z := 6.
Definition ZATTERA_NAI_DOLLAR : Z := 1.
Definition ZATTERA_NAI_LIQUID : Z := 2.
Definition ZATTERA_NAI_VESTS : Z := 3.
Definition ZATTERA_ASSET_NUM_DOLLAR : Z :=
  Z.lor (Z.shiftl (ZATTERA_MAX_NAI + ZATTERA_NAI_DOLLAR) 4) ZATTERA_PRECISION_DOLLAR.
Definition ZATTERA_ASSET_NUM_LIQUID : Z :=
  Z.lor (Z.shiftl (ZATTERA_MAX_NAI + ZATTERA_NAI_LIQUID) 4) ZATTERA_PRECISION_LIQUID.
Definition ZATTERA_ASSET_NUM_VESTS : Z :=
  Z.lor (Z.shiftl (ZATTERA_MAX_NAI + ZATTERA_NAI_VESTS) 4) ZATTERA_PRECISION_VESTS.
Definition ZATTERA_ASSET_MAX_DECIMALS : Z := 12.

(** A symbol is its 32-bit [asset_num]. *)
Definition asset_symbol_type : Type := Z.
Definition VESTS_SYMBOL : asset_symbol_type := Eval vm_compute in ZATTERA_ASSET_NUM_VESTS.
Definition LIQUID_SYMBOL : asset_symbol_type := Eval vm_compute in ZATTERA_ASSET_NUM_LIQUID.
Definition DOLLAR_SYMBOL : asset_symbol_type := Eval vm_compute in ZATTERA_ASSET_NUM_DOLLAR.

Definition decimals (s : asset_symbol_type) : Z := Z.land s 0x0F.

Definition damm_table : list Z :=
  [ 0; 30; 10; 70; 50; 90; 80; 60; 40; 20;
   70;  0; 90; 20; 10; 50; 40; 80; 60; 30;
   40; 20;  0; 60; 80; 70; 10; 30; 50; 90;
   10; 70; 50;  0; 90; 80; 30; 40; 20; 60;
   60; 10; 20; 30;  0; 40; 50; 90; 70; 80;
   30; 60; 70; 40; 20;  0; 90; 50; 80; 10;
   50; 80; 60; 90; 70; 20;  0; 10; 30; 40;
   80; 90; 40; 50; 30; 60; 20;  0; 10; 70;
   90; 40; 30; 80; 60; 10; 70; 20;  0; 50;
   20; 50; 80; 10; 40; 30; 60; 70; 90;  0].
Definition damm_t (i : Z) : Z := nth (Z.to_nat i) damm_table 0.

Definition damm_checksum_8digit (value : Z) : res Z :=
  let? _ := res_assert (value <? 100000000) "value < 100000000" in
  let q0 := value / 10 in let d0 := value mod 10 in
  let q1 := q0 / 10 in let d1 := q0 mod 10 in
  let q2 := q1 / 10 in let d2 := q1 mod 10 in
  let q3 := q2 / 10 in let d3 := q2 mod 10 in
  let q4 := q3 / 10 in let d4 := q3 mod 10 in
  let q5 := q4 / 10 in let d5 := q4 mod 10 in
  let d6 := q5 mod 10 in let d7 := q5 / 10 in
  let x := damm_t d7 in
  let x := damm_t (x + d6) in
  let x := damm_t (x + d5) in
  let x := damm_t (x + d4) in
  let x := damm_t (x + d3) in
  let x := damm_t (x + d2) in
  let x := damm_t (x + d1) in
  let x := damm_t (x + d0) in
  Ok (x / 10).

Definition asset_num_from_nai (nai decimal_places : Z) : res asset_symbol_type :=
  let nai_check_digit := nai mod 10 in
  let nai_data_digits := nai / 10 in
  let? _ := res_assert ((ZATTERA_MIN_NAI <=? nai_data_digits)
                        && (nai_data_digits <=? ZATTERA_MAX_NAI)) "NAI out of range" in
  let? c := damm_checksum_8digit nai_data_digits in
  let? _ := res_assert (nai_check_digit =? c) "Invalid check digit" in
  if nai_data_digits =? ZATTERA_NAI_LIQUID then
    let? _ := res_assert (decimal_places =? ZATTERA_PRECISION_LIQUID) "decimal_places" in
    Ok LIQUID_SYMBOL
  else if nai_data_digits =? ZATTERA_NAI_DOLLAR then
    let? _ := res_assert (decimal_places =? ZATTERA_PRECISION_DOLLAR) "decimal_places" in
    Ok DOLLAR_SYMBOL
  else if nai_data_digits =? ZATTERA_NAI_VESTS then
    let? _ := res_assert (decimal_places =? ZATTERA_PRECISION_VESTS) "decimal_places" in
    Ok VESTS_SYMBOL
  else
    let? _ := res_assert (decimal_places <=? ZATTERA_ASSET_MAX_DECIMALS)
                "Invalid decimal_places" in
    Ok (wrap_u32 (Z.lor (Z.lor (Z.shiftl nai_data_digits 5) 0x10) decimal_places)).

Definition to_nai (s : asset_symbol_type) : res Z :=
  let? d :=
    if s =? LIQUID_SYMBOL then Ok ZATTERA_NAI_LIQUID
    else if s =? DOLLAR_SYMBOL then Ok ZATTERA_NAI_DOLLAR
    else if s =? VESTS_SYMBOL then Ok ZATTERA_NAI_VESTS
    else Throw (assert_exception "Unknown asset symbol") in
  let? c := damm_checksum_8digit d in
  Ok (d * 10 + c).

Definition is_vesting (s : asset_symbol_type) : res bool :=
  if s =? LIQUID_SYMBOL then Ok false
  else if s =? DOLLAR_SYMBOL then Ok false
  else if s =? VESTS_SYMBOL then Ok true
  else Throw (assert_exception "Unknown asset symbol").

Definition get_paired_symbol (s : asset_symbol_type) : res asset_symbol_type :=
  if s =? LIQUID_SYMBOL then Ok VESTS_SYMBOL
  else if s =? DOLLAR_SYMBOL then Ok s
  else if s =? VESTS_SYMBOL then Ok LIQUID_SYMBOL
  else Throw (assert_exception "Unknown asset symbol").

Definition symbol_validate (s : asset_symbol_type) : res unit :=
  if (s =? LIQUID_SYMBOL) || (s =? DOLLAR_SYMBOL) || (s =? VESTS_SYMBOL) then Ok tt
  else Throw (assert_exception "Unknown asset symbol").

(** [share_type] is [safe<int64_t>]: an integer whose arithmetic is checked. *)
Abbreviation share_type := Z (only parsing).

Record asset := mk_asset { amount : share_type; symbol : asset_symbol_type }.
#[export] Instance eta_asset : Eta asset := fun r => mk_asset (amount r) (symbol r).
#[export] Instance asset_eq_dec : EqDecision asset.
Proof. solve_decision. Defined.

(** The asset operators: each asserts that the symbols agree. *)
Definition same_symbol (a b : asset) : res unit :=
  res_assert (symbol a =? symbol b) "symbol == o.symbol".
Definition asset_add (a b : asset) : res asset :=
  let? _ := same_symbol a b in
  let? x := safe.add (amount a) (amount b) in
  Ok (mk_asset x (symbol a)).
Definition asset_sub (a b : asset) : res asset :=
  let? _ := same_symbol a b in
  let? x := safe.sub (amount a) (amount b) in
  Ok (mk_asset x (symbol a)).
Definition asset_neg (a : asset) : res asset :=
  let? x := safe.neg (amount a) in Ok (mk_asset x (symbol a)).
Definition asset_eqb (a b : asset) : bool :=
  (symbol a =? symbol b) && (amount a =? amount b).
Definition asset_cmp (op : Z → Z → bool) (a b : asset) : res bool :=
  let? _ := same_symbol a b in Ok (op (amount a) (amount b)).
Definition asset_lt := asset_cmp Z.ltb.
Definition asset_le := asset_cmp Z.leb.
Definition asset_gt := asset_cmp Z.gtb.
Definition asset_ge := asset_cmp Z.geb.
Definition asset_ne := asset_cmp (fun x y => negb (x =? y)).

Definition asset_validate (a : asset) : res unit :=
  let? _ := symbol_validate (symbol a) in
  let? _ := res_assert (amount a >=? 0) "amount.value >= 0" in
  res_assert (amount a <=? ZATTERA_MAX_SATOSHIS) "amount.value <= ZATTERA_MAX_SATOSHIS".

Record price := mk_price { base : asset; quote : asset }.
#[export] Instance price_eq_dec : EqDecision price.
Proof. solve_decision. Defined.

(** [price()]: both members default to zero ZTR. *)
Definition null_price : price := mk_price (mk_asset 0 LIQUID_SYMBOL) (mk_asset 0 LIQUID_SYMBOL).

Definition price_validate (p : price) : res unit :=
  let? _ := res_assert (amount (base p) >? 0) "base.amount > share_type(0)" in
  let? _ := res_assert (amount (quote p) >? 0) "quote.amount > share_type(0)" in
  res_assert (negb (symbol (base p) =? symbol (quote p))) "base.symbol != quote.symbol".

(** The validating constructor [price( base, quote )]. *)
Definition make_price (b q : asset) : res price :=
  let p := mk_price b q in
  let? _ := price_validate p in Ok p.

(** [operator ~] goes through the validating constructor. *)
Definition price_inv (p : price) : res price := make_price (quote p) (base p).

(** The comparison operators on prices: first the pair of symbols
    lexicographically, then the cross products in 128-bit arithmetic. *)
Definition price_compare (a b : price) : comparison :=
  match (symbol (base a) ?= symbol (base b)) with
  | Eq =>
      match (symbol (quote a) ?= symbol (quote b)) with
      | Eq =>
          (wrap_u128 (wrap_u128 (amount (quote b)) * wrap_u128 (amount (base a)))
           ?= wrap_u128 (wrap_u128 (amount (quote a)) * wrap_u128 (amount (base b))))
      | c => c
      end
  | c => c
  end.
Definition price_ltb (a b : price) : bool :=
  match price_compare a b with Lt => true | _ => false end.
Definition price_gtb (a b : price) : bool :=
  match price_compare a b with Gt => true | _ => false end.
Definition price_eqb (a b : price) : bool :=
  match price_compare a b with Eq => true | _ => false end.

Definition is_null (p : price) : bool := price_eqb p null_price.

(** [operator *] of an asset and a price. *)
Definition asset_mul_price (a : asset) (p : price) : res asset :=
  if symbol a =? symbol (base p) then
    let? _ := res_assert (amount (base p) >? 0) "b.base.amount.value > 0" in
    let result := wrap_u128 (wrap_u128 (amount a) * wrap_u128 (amount (quote p))) / amount (base p) in
    let? _ := res_assert (result <? 2 ^ 64) "result.hi == 0" in
    Ok (mk_asset (wrap_i64 result) (symbol (quote p)))
  else if symbol a =? symbol (quote p) then
    let? _ := res_assert (amount (quote p) >? 0) "b.quote.amount.value > 0" in
    let result := wrap_u128 (wrap_u128 (amount a) * wrap_u128 (amount (base p))) / amount (quote p) in
    let? _ := res_assert (result <? 2 ^ 64) "result.hi == 0" in
    Ok (mk_asset (wrap_i64 result) (symbol (base p)))
  else Throw (assert_exception "invalid asset * price").

(** [price::max]: goes through [operator /], which constructs and validates. *)
Definition price_max (b q : asset_symbol_type) : res price :=
  let? _ := res_assert (negb (b =? q)) "base.symbol != quote.symbol" in
  make_price (mk_asset ZATTERA_MAX_SATOSHIS b) (mk_asset 1 q).
Definition price_min (b q : asset_symbol_type) : res price :=
  let? _ := res_assert (negb (b =? q)) "base.symbol != quote.symbol" in
  make_price (mk_asset 1 b) (mk_asset ZATTERA_MAX_SATOSHIS q).

(** ** Checked arithmetic on assets *)

(** What an asset contributes to the holdings of currency [c]. *)
Definition amt (c : asset_symbol_type) (a : asset) : Z :=
  if symbol a =? c then amount a else 0.

Lemma asset_eqb_eq a b : asset_eqb a b = true ↔ a = b.
Proof.
  unfold asset_eqb. destruct a, b. cbn. rewrite andb_true_iff, !Z.eqb_eq. split; [intros []; congruence|by intros [=]].
Qed.
Lemma asset_add_ok a b r : asset_add a b = Ok r →
  symbol a = symbol b ∧ symbol r = symbol a ∧ amount r = amount a + amount b.
Proof.
  unfold asset_add, same_symbol. intros H. inv_ok. bool_prop.
  match goal with H : safe.add _ _ = _ |- _ => apply safe_add_ok in H end. subst. done.
Qed.
Lemma asset_sub_ok a b r : asset_sub a b = Ok r →
  symbol a = symbol b ∧ symbol r = symbol a ∧ amount r = amount a - amount b.
Proof.
  unfold asset_sub, same_symbol. intros H. inv_ok. bool_prop.
  match goal with H : safe.sub _ _ = _ |- _ => apply safe_sub_ok in H end. subst. done.
Qed.
Lemma asset_neg_ok a r : asset_neg a = Ok r → symbol r = symbol a ∧ amount r = - amount a.
Proof.
  unfold asset_neg. intros H. inv_ok.
  match goal with H : safe.neg _ = _ |- _ => apply safe_neg_ok in H end. subst. done.
Qed.
Lemma asset_cmp_ok op a b r : asset_cmp op a b = Ok r →
  symbol a = symbol b ∧ r = op (amount a) (amount b).
Proof. unfold asset_cmp, same_symbol. intros H. inv_ok. by bool_prop. Qed.

Lemma amt_zero c a : amount a = 0 → amt c a = 0.
Proof. unfold amt. by case_match. Qed.
Lemma amt_add c a b r : asset_add a b = Ok r → amt c r = amt c a + amt c b.
Proof.
  intros (E1 & E2 & E3)%asset_add_ok. unfold amt. rewrite E2, <- E1, E3.
  destruct (_ =? _); lia.
Qed.
Lemma amt_sub c a b r : asset_sub a b = Ok r → amt c r = amt c a - amt c b.
Proof.
  intros (E1 & E2 & E3)%asset_sub_ok. unfold amt. rewrite E2, <- E1, E3.
  destruct (_ =? _); lia.
Qed.
Lemma amt_neg c a r : asset_neg a = Ok r → amt c r = - amt c a.
Proof.
  intros (E2 & E3)%asset_neg_ok. unfold amt. rewrite E2, E3. destruct (_ =? _); lia.
Qed.

(** ** Numeric asset identifiers *)

(** The check digit over a list of digits, most significant first. *)
Definition damm_fold (x : Z) (ds : list Z) : Z := fold_left (fun x d => damm_t (x + d)) ds x.
Definition digits_value (ds : list Z) : Z := fold_left (fun v d => 10 * v + d) ds 0.
Definition is_digit (d : Z) : Prop := 0 ≤ d < 10.
Definition damm_state (x : Z) : Prop := 0 ≤ x < 100 ∧ x mod 10 = 0.

Definition digit_list : list Z := [0; 1; 2; 3; 4; 5; 6; 7; 8; 9].
Lemma digit_in d : is_digit d → d ∈ digit_list.
Proof. unfold is_digit, digit_list. intros H. rewrite !elem_of_cons. lia. Qed.
Lemma state_in x : damm_state x → x ∈ (Z.mul 10 <$> digit_list).
Proof.
  intros [H1 H2]. apply list_elem_of_fmap. exists (x / 10).
  pose proof (Z.div_mod x 10 ltac:(lia)). split; [lia|].
  apply digit_in. split; [apply Z.div_pos|apply Z.div_lt_upper_bound]; lia.
Qed.

(** The table is a quasigroup: injective in each argument, and closed. *)
Definition damm_closed_b : bool :=
  forallb (fun x => forallb (fun d =>
    (0 <=? damm_t (x + d)) && (damm_t (x + d) <? 100) && (damm_t (x + d) mod 10 =? 0))
    digit_list) (Z.mul 10 <$> digit_list).
Definition damm_inj_b : bool :=
  forallb (fun x => forallb (fun x' => forallb (fun d => forallb (fun d' =>
    implb (damm_t (x + d) =? damm_t (x' + d')) (Bool.eqb (x =? x') (d =? d')))
    digit_list) digit_list) (Z.mul 10 <$> digit_list)) (Z.mul 10 <$> digit_list).

Lemma forallb_elem {A} (f : A → bool) l x : forallb f l = true → x ∈ l → f x = true.
Proof. intros H Hx. rewrite forallb_forall in H. apply H. by apply list_elem_of_In. Qed.

Lemma damm_t_closed x d : damm_state x → is_digit d → damm_state (damm_t (x + d)).
Proof.
  intros Hx%state_in Hd%digit_in.
  assert (damm_closed_b = true) as H by (vm_compute; reflexivity).
  pose proof (forallb_elem _ _ _ (forallb_elem _ _ _ H Hx) Hd) as E. cbn beta in E.
  bool_prop. split; lia.
Qed.
Lemma damm_t_inj x x' d d' : damm_state x → damm_state x' → is_digit d → is_digit d' →
  damm_t (x + d) = damm_t (x' + d') → (x = x' ↔ d = d').
Proof.
  intros Hx%state_in Hx'%state_in Hd%digit_in Hd'%digit_in E.
  assert (damm_inj_b = true) as H by (vm_compute; reflexivity).
  pose proof (forallb_elem _ _ _ (forallb_elem _ _ _ (forallb_elem _ _ _
    (forallb_elem _ _ _ H Hx) Hx') Hd) Hd') as E'. cbn beta in E'.
  rewrite E, Z.eqb_refl in E'. cbn in E'. apply Bool.eqb_prop in E'.
  clear -E'. destruct (x =? x') eqn:?, (d =? d') eqn:?; bool_prop; try discriminate; lia.
Qed.

Lemma damm_fold_state x ds : damm_state x → Forall is_digit ds → damm_state (damm_fold x ds).
Proof.
  intros Hx Hds. revert x Hx. induction Hds as [|d ds Hd Hds IH]; intros x Hx; [done|].
  apply IH, damm_t_closed; done.
Qed.
Lemma damm_fold_inj x x' ds : damm_state x → damm_state x' → Forall is_digit ds →
  damm_fold x ds = damm_fold x' ds → x = x'.
Proof.
  intros Hx Hx' Hds. revert x x' Hx Hx'.
  induction Hds as [|d ds Hd Hds IH]; intros x x' Hx Hx' E; [done|].
  apply IH in E; [|by apply damm_t_closed..].
  by apply damm_t_inj in E as [_ E]; [apply E|..].
Qed.

Lemma damm_checksum_digits d7 d6 d5 d4 d3 d2 d1 d0 :
  Forall is_digit [d7; d6; d5; d4; d3; d2; d1; d0] →
  damm_checksum_8digit (digits_value [d7; d6; d5; d4; d3; d2; d1; d0])
  = Ok (damm_fold 0 [d7; d6; d5; d4; d3; d2; d1; d0] / 10).
Proof.
  intros Hds. decompose_Forall_hyps. unfold is_digit in *.
  set (v := digits_value _). assert (v = 10 * (10 * (10 * (10 * (10 * (10 * (10 * d7 + d6) + d5)
    + d4) + d3) + d2) + d1) + d0) as Ev by (unfold v, digits_value; cbn; lia).
  assert (∀ q d, 0 ≤ d < 10 → (10 * q + d) / 10 = q) as Hq.
  { intros q d Hd. symmetry. apply (Z.div_unique _ _ _ d); lia. }
  assert (∀ q d, 0 ≤ d < 10 → (10 * q + d) mod 10 = d) as Hr.
  { intros q d Hd. symmetry. apply (Z.mod_unique _ _ q); lia. }
  unfold damm_checksum_8digit, res_assert.
  replace (v <? 100000000) with true by (symmetry; apply Z.ltb_lt; lia). cbn [res_bind].
  rewrite Ev. cbv zeta. repeat rewrite Hq by lia. repeat rewrite Hr by lia. reflexivity.
Qed.

(** Changing one digit changes the check digit: [damm_checksum_8digit] detects
    every single-digit error. *)
Theorem damm_detects_single_digit_errors (ds1 ds2 : list Z) (d d' : Z) :
  (length ds1 + S (length ds2))%nat = 8%nat →
  Forall is_digit ds1 → Forall is_digit ds2 → is_digit d → is_digit d' → d ≠ d' →
  damm_checksum_8digit (digits_value (ds1 ++ d :: ds2))
  ≠ damm_checksum_8digit (digits_value (ds1 ++ d' :: ds2)).
Proof.
  intros Hlen H1 H2 Hd Hd' Hne.
  assert (∀ e, is_digit e → damm_checksum_8digit (digits_value (ds1 ++ e :: ds2))
    = Ok (damm_fold 0 (ds1 ++ e :: ds2) / 10)) as Hc.
  { intros e He.
    assert (Forall is_digit (ds1 ++ e :: ds2)) as Hall by (apply Forall_app; auto).
    assert (length (ds1 ++ e :: ds2) = 8%nat) as Hl by (rewrite length_app; done).
    destruct (ds1 ++ e :: ds2) as [|? [|? [|? [|? [|? [|? [|? [|? [|]]]]]]]]]; try done.
    by apply damm_checksum_digits. }
  rewrite !Hc by done. intros [= E].
  assert (damm_state 0) as H0 by (split; [lia|done]).
  unfold damm_fold in E. rewrite !fold_left_app in E. cbn [fold_left] in E.
  fold (damm_fold 0 ds1) in E.
  set (x := damm_fold 0 ds1) in E.
  assert (damm_state x) as Hx by (by apply damm_fold_state).
  fold (damm_fold (damm_t (x + d)) ds2) (damm_fold (damm_t (x + d')) ds2) in E.
  destruct (damm_fold_state (damm_t (x + d)) ds2) as [? ?]; [by apply damm_t_closed|done|].
  destruct (damm_fold_state (damm_t (x + d')) ds2) as [? ?]; [by apply damm_t_closed|done|].
  assert (damm_fold (damm_t (x + d)) ds2 = damm_fold (damm_t (x + d')) ds2) as E2.
  { pose proof (Z.div_mod (damm_fold (damm_t (x + d)) ds2) 10 ltac:(lia)).
    pose proof (Z.div_mod (damm_fold (damm_t (x + d')) ds2) 10 ltac:(lia)). lia. }
  apply damm_fold_inj in E2; [|by apply damm_t_closed..|done].
  apply damm_t_inj in E2 as [E2 _]; [|done..]. by apply Hne, E2.
Qed.

Lemma damm_detects_single_digit_errors_witness :
  damm_checksum_8digit (digits_value ([0; 0; 0; 0; 0; 0; 0] ++ [2]))
  ≠ damm_checksum_8digit (digits_value ([0; 0; 0; 0; 0; 0; 0] ++ [3])).
Proof.
  apply (damm_detects_single_digit_errors [0; 0; 0; 0; 0; 0; 0] [] 2 3);
    [reflexivity|repeat constructor; lia|constructor|split; lia|split; lia|lia].
Defined.

(** ** Conversion at a price *)

(** On non-negative amounts the conversion is the exact quotient rounded down. *)
Lemma asset_mul_price_base a p r : 0 ≤ amount a < 2 ^ 63 → 0 ≤ amount (quote p) < 2 ^ 63 →
  symbol a = symbol (base p) → asset_mul_price a p = Ok r →
  symbol r = symbol (quote p) ∧ 0 < amount (base p) ∧
  amount r = wrap_i64 (amount a * amount (quote p) / amount (base p)).
Proof.
  intros Ha Hq Es. unfold asset_mul_price. rewrite Es, Z.eqb_refl. intros H. inv_ok. bool_prop.
  cbn. split; [done|]. split; [lia|]. unfold wrap_u128.
  rewrite (Z.mod_small (amount a)), (Z.mod_small (amount (quote p))) by lia.
  rewrite (Z.mod_small (amount a * amount (quote p))) by nia. done.
Qed.

Lemma asset_mul_price_quote a p r : 0 ≤ amount a < 2 ^ 63 → 0 ≤ amount (base p) < 2 ^ 63 →
  symbol (base p) ≠ symbol (quote p) →
  symbol a = symbol (quote p) → asset_mul_price a p = Ok r →
  symbol r = symbol (base p) ∧ 0 < amount (quote p) ∧
  amount r = wrap_i64 (amount a * amount (base p) / amount (quote p)).
Proof.
  intros Ha Hq Hne Es. unfold asset_mul_price. rewrite Es.
  destruct (_ =? _) eqn:E; bool_prop; [congruence|]. rewrite Z.eqb_refl. intros H.
  inv_ok. bool_prop. cbn. split; [done|]. split; [lia|]. unfold wrap_u128.
  rewrite (Z.mod_small (amount a)), (Z.mod_small (amount (base p))) by lia.
  rewrite (Z.mod_small (amount a * amount (base p))) by nia. done.
Qed.

Lemma wrap_i64_id z : in_i64 z → wrap_i64 z = z.
Proof.
  unfold in_i64, wrap_i64, INT64_MIN, INT64_MAX. intros H. rewrite Z.mod_small; lia.
Qed.

(** Converting an asset at a valid price and back never yields more than was
    put in, when the intermediate amount fits in 63 bits. *)
Theorem convert_round_trip_no_gain a p b a' :
  0 ≤ amount a < 2 ^ 63 → price_validate p = Ok tt →
  amount (base p) < 2 ^ 63 → amount (quote p) < 2 ^ 63 →
  symbol a = symbol (base p) → amount a * amount (quote p) / amount (base p) < 2 ^ 63 →
  asset_mul_price a p = Ok b → asset_mul_price b p = Ok a' →
  symbol a' = symbol a ∧ 0 ≤ amount a' ≤ amount a.
Proof.
  unfold price_validate. intros Ha Hp Hb Hq Es Hfit Hab Hba. inv_ok. bool_prop.
  apply asset_mul_price_base in Hab as (Eb & _ & Vb); [|lia|lia|done].
  assert (0 ≤ amount a * amount (quote p) / amount (base p)) as Hpos by (apply Z.div_pos; nia).
  rewrite wrap_i64_id in Vb by (unfold in_i64, INT64_MIN, INT64_MAX; lia).
  assert (amount b * amount (base p) ≤ amount a * amount (quote p)) as Hle.
  { rewrite Vb, Z.mul_comm. apply Z.mul_div_le. lia. }
  apply asset_mul_price_quote in Hba as (Ea & _ & Va); [|lia|lia|done|done].
  assert (amount b * amount (base p) / amount (quote p) ≤ amount a) as Hle2.
  { apply Z.div_le_upper_bound; lia. }
  assert (0 ≤ amount b * amount (base p) / amount (quote p)) by (apply Z.div_pos; nia).
  rewrite wrap_i64_id in Va by (unfold in_i64, INT64_MIN, INT64_MAX; lia).
  split; [congruence|lia].
Qed.

Lemma convert_round_trip_no_gain_witness :
  let p := mk_price (mk_asset 3 DOLLAR_SYMBOL) (mk_asset 7 LIQUID_SYMBOL) in
  asset_mul_price (mk_asset 10 DOLLAR_SYMBOL) p = Ok (mk_asset 23 LIQUID_SYMBOL) ∧
  asset_mul_price (mk_asset 23 LIQUID_SYMBOL) p = Ok (mk_asset 9 DOLLAR_SYMBOL) ∧
  0 ≤ 9 ≤ 10.
Proof.
  cbv zeta. split; [vm_compute; reflexivity|]. split; [vm_compute; reflexivity|].
  apply (convert_round_trip_no_gain (mk_asset 10 DOLLAR_SYMBOL)
    (mk_price (mk_asset 3 DOLLAR_SYMBOL) (mk_asset 7 LIQUID_SYMBOL))
    (mk_asset 23 LIQUID_SYMBOL) (mk_asset 9 DOLLAR_SYMBOL));
    first [lia | vm_compute; reflexivity | cbn; lia].
Defined.

(** Symbols round-trip through their numeric identifier: the identifier that
    [to_nai] prints, with its check digit, parses back to the symbol. *)
Theorem nai_round_trip s n : symbol_validate s = Ok tt → to_nai s = Ok n →
  asset_num_from_nai n (decimals s) = Ok s.
Proof.
  unfold symbol_validate. intros Hv Hn.
  destruct (s =? LIQUID_SYMBOL) eqn:E1; [|destruct (s =? DOLLAR_SYMBOL) eqn:E2;
    [|destruct (s =? VESTS_SYMBOL) eqn:E3; [|done]]]; bool_prop; subst s;
    vm_compute in Hn; injection Hn as <-; vm_compute; reflexivity.
Qed.

Lemma nai_round_trip_witness :
  to_nai VESTS_SYMBOL = Ok 37 ∧ asset_num_from_nai 37 6 = Ok VESTS_SYMBOL.
Proof.
  split; [vm_compute; reflexivity|].
  apply (nai_round_trip VESTS_SYMBOL 37); vm_compute; reflexivity.
Defined.
