(* ===== verification/Authority.v ===== *)
(** * Authorities and signature checking

    [authority] and its methods, [is_valid_account_name]
    (src/src/core/protocol/authority.cpp) and the recursive weight check of
    sign_state.cpp with [verify_authority] of transaction_util.hpp.  The
    specification [satisfied] says when keys and approved accounts carry an
    authority; the check is proved sound for it. *)
From S2P Require Import Prelude Ints Config.
From Stdlib Require Import Ascii.

Definition account_name_type : Type := string.
Definition public_key_type : Type := string.

(** The [flat_map]s are key-sorted association lists. *)
Record authority := mk_authority {
  weight_threshold : Z;
  account_auths : list (account_name_type * Z);
  key_auths : list (public_key_type * Z)
}.
#[export] Instance authority_eq_dec : EqDecision authority.
Proof. solve_decision. Defined.

Definition is_impossible (a : authority) : bool :=
  let w := fold_left (fun w item => wrap_u64 (w + snd item)) (account_auths a) 0 in
  let w := fold_left (fun w item => wrap_u64 (w + snd item)) (key_auths a) w in
  w <? weight_threshold a.
Definition num_auths (a : authority) : Z :=
  wrap_u32 (Z.of_nat (length (account_auths a) + length (key_auths a))).

(** ** Account names *)
Definition is_lower (c : ascii) : bool :=
  (97 <=? Z.of_N (N_of_ascii c)) && (Z.of_N (N_of_ascii c) <=? 122).
Definition is_decimal (c : ascii) : bool :=
  (48 <=? Z.of_N (N_of_ascii c)) && (Z.of_N (N_of_ascii c) <=? 57).
Definition is_alnum (c : ascii) : bool := is_lower c || is_decimal c.
Definition is_middle (c : ascii) : bool := is_alnum c || Ascii.eqb c "-".

(** One label: [name[begin, end)] of the loop body. *)
Definition valid_label (l : list ascii) : bool :=
  (3 <=? length l)%nat &&
  match l with c :: _ => is_lower c | [] => false end &&
  match reverse l with c :: _ => is_alnum c | [] => false end &&
  forallb is_middle (removelast (tail l)).

(** The labels between dots, as the loop over [find_first_of] visits them. *)
Fixpoint split_dots (cur : list ascii) (l : list ascii) : list (list ascii) :=
  match l with
  | [] => [reverse cur]
  | c :: l' => if Ascii.eqb c "." then reverse cur :: split_dots [] l'
               else split_dots (c :: cur) l'
  end.
Definition is_valid_account_name (name : string) : bool :=
  let l := String.list_ascii_of_string name in
  (ZATTERA_MIN_ACCOUNT_NAME_LENGTH <=? length l)%nat &&
  (length l <=? ZATTERA_MAX_ACCOUNT_NAME_LENGTH)%nat &&
  forallb valid_label (split_dots [] l).

Definition authority_validate (a : authority) : res unit :=
  res_assert (forallb (fun i => is_valid_account_name (fst i)) (account_auths a))
    "is_valid_account_name( item.first )".

(** ** sign_state *)
Record sign_state := mk_sign_state {
  provided_signatures : gmap public_key_type bool;
  approved_by : gset string;
  account_auth_count : Z
}.
#[export] Instance eta_sign_state : Eta sign_state := fun r =>
  mk_sign_state (provided_signatures r) (approved_by r) (account_auth_count r).

(** The parts of [sign_state] the check only reads. *)
Record sign_env := mk_sign_env {
  get_active : string → res authority;
  available_keys : gset public_key_type;
  max_membership : Z;
  max_account_auths : Z
}.

Definition signed_by (e : sign_env) (k : public_key_type) : M sign_state bool :=
  let* st := get in
  match provided_signatures st !! k with
  | None =>
      if decide (k ∈ available_keys e) then
        put (st <| provided_signatures ::= <[k := true]> |>) ;; ret true
      else ret false
  | Some _ => put (st <| provided_signatures ::= <[k := true]> |>) ;; ret true
  end.

(** A loop either returns from the function or goes on with its totals. *)
Inductive loop_result := Returned (b : bool) | Continue (total membership : Z).

Fixpoint check_keys (e : sign_env) (threshold : Z) (l : list (public_key_type * Z))
    (total membership : Z) : M sign_state loop_result :=
  match l with
  | [] => ret (Continue total membership)
  | (k, w) :: l' =>
      let* s := signed_by e k in
      let total' := if s then wrap_u32 (total + w) else total in
      if s && (threshold <=? total') then ret (Returned true) else
      let membership := membership + 1 in
      if (0 <? max_membership e) && (max_membership e <=? membership)
      then ret (Returned false)
      else check_keys e threshold l' total' membership
  end.

(** The loop over [account_auths]; [rec] is the recursive call at depth + 1, absent when
    [depth == max_recursion]. *)
Fixpoint check_accounts (e : sign_env) (rec : option (authority → M sign_state bool))
    (threshold : Z) (l : list (account_name_type * Z)) (total membership : Z)
    : M sign_state loop_result :=
  match l with
  | [] => ret (Continue total membership)
  | (a, w) :: l' =>
      let next total' :=
        let membership := membership + 1 in
        if (0 <? max_membership e) && (max_membership e <=? membership)
        then ret (Returned false)
        else check_accounts e rec threshold l' total' membership in
      let* st := get in
      if decide (a ∈ approved_by st) then
        let total' := wrap_u32 (total + w) in
        if threshold <=? total' then ret (Returned true) else next total'
      else
        match rec with
        | None => check_accounts e rec threshold l' total membership
        | Some check =>
            if (0 <? max_account_auths e)
               && (max_account_auths e <=? account_auth_count st)
            then ret (Returned false) else
            put (st <| account_auth_count ::= Z.succ |>) ;;
            let! auth := get_active e a in
            let* ok := check auth in
            if ok then
              modify (fun st => st <| approved_by ::= union {[a]} |>) ;;
              let total' := wrap_u32 (total + w) in
              if threshold <=? total' then ret (Returned true) else next total'
            else next total
        end
  end.

(** [check_authority_impl]; [depth_left] is [max_recursion - depth]. *)
Fixpoint check_authority_impl (e : sign_env) (depth_left : nat) (auth : authority)
    : M sign_state bool :=
  let* r := check_keys e (weight_threshold auth) (key_auths auth) 0 0 in
  match r with
  | Returned b => ret b
  | Continue total membership =>
      let rec := match depth_left with
                 | O => None
                 | S d => Some (check_authority_impl e d)
                 end in
      let* r := check_accounts e rec (weight_threshold auth) (account_auths auth)
                  total membership in
      match r with
      | Returned b => ret b
      | Continue total _ => ret (weight_threshold auth <=? total)
      end
  end.

Definition check_authority (e : sign_env) (max_recursion : nat) (auth : authority)
    : M sign_state bool :=
  modify (fun st => st <| account_auth_count := 0 |>) ;;
  check_authority_impl e max_recursion auth.
Definition check_authority_id (e : sign_env) (max_recursion : nat) (id : string)
    : M sign_state bool :=
  let* st := get in
  if decide (id ∈ approved_by st) then ret true else
  put (st <| account_auth_count := 1 |>) ;;
  let! auth := get_active e id in
  check_authority_impl e max_recursion auth.

Definition init_sign_state (sigs : list public_key_type) (approvals : list string) : sign_state :=
  mk_sign_state (list_to_map ((fun k => (k, false)) <$> sigs))
    (list_to_set ("temp" :: approvals)) 0.

Definition remove_unused_signatures : M sign_state bool :=
  let* st := get in
  let unused := filter (fun kb => kb.2 = false) (map_to_list (provided_signatures st)) in
  put (st <| provided_signatures ::= filter (fun kb => kb.2 = true) |>) ;;
  ret (negb (Nat.eqb (length unused) 0)).

(** ** verify_authority (transaction_util.hpp)

    [approvals] are the three approval sets, empty in the chain's own calls. *)
Record auth_getters := mk_getters {
  g_active : string → res authority;
  g_owner : string → res authority;
  g_posting : string → res authority
}.

Definition m_or (m : M sign_state bool) (k : M sign_state bool) : M sign_state bool :=
  let* b := m in if b then ret true else k.
Definition m_get_check (e : sign_env) (d : nat) (g : string → res authority) (id : string)
    : M sign_state bool :=
  let! auth := g id in check_authority e d auth.

Definition verify_required (m : M sign_state bool) (msg : string) : M sign_state unit :=
  let* ok := m in fc_assert ok msg.

Section verify.
Context (g : auth_getters) (max_recursion : nat) (membership accounts : Z).
Let env (get : string → res authority) : sign_env := mk_sign_env get ∅ membership accounts.

Definition verify_authority_run (required_active required_owner required_posting : list string)
    (other : list authority) (sigs : list public_key_type) : M sign_state unit :=
  if negb (Nat.eqb (length required_posting) 0) then
    let e := env (g_posting g) in
    fc_assert (Nat.eqb (length required_active) 0) "required_active.size() == 0" ;;
    fc_assert (Nat.eqb (length required_owner) 0) "required_owner.size() == 0" ;;
    fc_assert (Nat.eqb (length other) 0) "other.size() == 0" ;;
    put (init_sign_state sigs []) ;;
    for_each required_posting (fun id =>
      verify_required
        (m_or (check_authority_id e max_recursion id)
           (m_or (m_get_check e max_recursion (g_active g) id)
              (m_get_check e max_recursion (g_owner g) id)))
        "Missing Posting Authority") ;;
    let* unused := remove_unused_signatures in
    fc_assert (negb unused) "Unnecessary signature(s) detected"
  else
    let e := env (g_active g) in
    put (init_sign_state sigs []) ;;
    for_each other (fun a =>
      verify_required (check_authority e max_recursion a) "Missing Authority") ;;
    for_each required_active (fun id =>
      verify_required
        (m_or (check_authority_id e max_recursion id)
           (m_get_check e max_recursion (g_owner g) id))
        "Missing Active Authority") ;;
    for_each required_owner (fun id =>
      verify_required (m_get_check e max_recursion (g_owner g) id)
        "Missing Owner Authority") ;;
    let* unused := remove_unused_signatures in
    fc_assert (negb unused) "Unnecessary signature(s) detected".
End verify.

Definition verify_authority (g : auth_getters) (max_recursion : nat) (membership accounts : Z)
    (required_active required_owner required_posting : list string)
    (other : list authority) (sigs : list public_key_type) : res unit :=
  let? _ := verify_authority_run g max_recursion membership accounts required_active
              required_owner required_posting other sigs (init_sign_state sigs []) in
  Ok tt.

(** ** Specification: when signatures carry an authority *)

Definition weights {A} (l : list (A * Z)) : Z := fold_right (fun i s => snd i + s) 0 l.
Lemma weights_cons {A} (i : A * Z) l : weights (i :: l) = snd i + weights l.
Proof. done. Qed.

Section spec.
Context (get : string → res authority).
Context (signed : public_key_type → Prop) (approved : string → Prop).

(** [satisfied auth]: some entries of [auth], each counted once, reach the threshold; the
    keys among them signed and the accounts among them are approved from the
    start or have an authority that is itself satisfied. *)
Inductive satisfied : authority → Prop :=
| satisfied_intro auth ks accs :
    sublist ks (key_auths auth) → sublist accs (account_auths auth) →
    Forall (fun k => signed (fst k)) ks →
    Forall (fun a => approved (fst a) ∨
                     ∃ au, get (fst a) = Ok au ∧ satisfied au) accs →
    weight_threshold auth ≤ weights ks + weights accs →
    satisfied auth.

Definition account_ok (a : string) : Prop :=
  approved a ∨ ∃ au, get a = Ok au ∧ satisfied au.
End spec.

(** The weights of an authority are unsigned. *)
Definition wf_authority (a : authority) : Prop :=
  Forall (fun i => 0 ≤ snd i) (key_auths a) ∧ Forall (fun i => 0 ≤ snd i) (account_auths a).

(** ** Soundness of the weight check *)
Section soundness.
Context (e : sign_env) (signed : public_key_type → Prop) (approved : string → Prop).
Context (wf_get : ∀ a au, get_active e a = Ok au → wf_authority au).

Abbreviation ok_account := (account_ok (get_active e) signed approved).

Definition sign_inv (st : sign_state) : Prop :=
  (∀ k, is_Some (provided_signatures st !! k) → signed k) ∧
  (∀ k, k ∈ available_keys e → signed k) ∧
  (∀ a, a ∈ approved_by st → ok_account a).

(** Only the counter differs: the invariant does not see it. *)
Lemma sign_inv_count st n : sign_inv st → sign_inv (st <| account_auth_count := n |>).
Proof. done. Qed.

Lemma sign_inv_approve st a : sign_inv st → ok_account a →
  sign_inv (st <| approved_by ::= union {[a]} |>).
Proof.
  intros (H1 & H2 & H3) Ha. repeat split; [done|done|]. cbn. intros b.
  rewrite elem_of_union, elem_of_singleton. intros [->|Hb]; auto.
Qed.

Lemma signed_by_sound k st b st' : signed_by e k st = Ok (b, st') → sign_inv st →
  sign_inv st' ∧ (b = true → signed k).
Proof.
  unfold signed_by. intros H (H1 & H2 & H3). inv_ok.
  assert (∀ b', (put (st <| provided_signatures ::= <[k := true]> |>) ;; ret true) st = Ok (b', st')
    → signed k → sign_inv st' ∧ (b' = true → signed k)) as Hput.
  { intros b' Hp Hk. inv_ok. split; [|done]. split; [|done]. cbn. intros k'.
    destruct (decide (k = k')) as [<-|Hne]; [done|].
    rewrite lookup_insert_ne by done. apply H1. }
  destruct (provided_signatures st !! k) eqn:E.
  - apply (Hput b); eauto.
  - case_decide; [apply (Hput b); auto|]. inv_ok. done.
Qed.

Definition key_post (l : list (public_key_type * Z)) threshold total (r : loop_result) : Prop :=
  match r with
  | Returned false => True
  | Returned true => ∃ ks, sublist ks l ∧ Forall (fun k => signed (fst k)) ks ∧
                           threshold ≤ total + weights ks
  | Continue t _ => ∃ ks, sublist ks l ∧ Forall (fun k => signed (fst k)) ks ∧
                          0 ≤ t ≤ total + weights ks
  end.

Lemma key_post_skip l threshold total r i :
  key_post l threshold total r → key_post (i :: l) threshold total r.
Proof.
  destruct r as [[]|]; cbn; [|done|]; intros (ks & Hs & ?); exists ks;
    (split; [by apply sublist_cons|done]).
Qed.
Lemma key_post_take l threshold total t' r k w :
  t' ≤ total + w → signed k →
  key_post l threshold t' r → key_post ((k, w) :: l) threshold total r.
Proof.
  intros Ht Hk. destruct r as [[]|]; cbn; [|done|];
    intros (ks & Hs & Hf & Hw); exists ((k, w) :: ks);
    (split; [by apply sublist_skip|]); (split; [by apply Forall_cons|]);
    rewrite weights_cons; cbn [snd]; lia.
Qed.

Lemma wrap_u32_le x : 0 ≤ x → 0 ≤ wrap_u32 x ≤ x.
Proof.
  intros Hx. unfold wrap_u32. split; [apply Z.mod_pos_bound; lia|].
  apply Z.mod_le; lia.
Qed.

Lemma check_keys_sound threshold l : ∀ total m st r st',
  Forall (fun i => 0 ≤ snd i) l → 0 ≤ total → sign_inv st →
  check_keys e threshold l total m st = Ok (r, st') →
  sign_inv st' ∧ key_post l threshold total r.
Proof.
  induction l as [|[k w] l IH]; intros total m st r st' Hw Ht Hi H.
  - cbn in H. inv_ok. split; [done|]. exists []. cbn. repeat split; eauto using sublist; lia.
  - apply Forall_cons_1 in Hw as [Hw Hws]. cbn in H, Hw. inv_ok.
    destruct (signed_by_sound _ _ _ _ H0 Hi) as [Hi' Hs].
    pose proof (wrap_u32_le (total + w) ltac:(lia)) as Hwr.
    destruct x; cbn in H.
    + destruct (threshold <=? wrap_u32 (total + w)) eqn:Et; bool_prop.
      * inv_ok. split; [done|]. exists [(k, w)]. repeat split; [|auto|cbn; lia].
        apply sublist_skip, sublist_nil_l.
      * destruct (_ && _); inv_ok; [done|].
        destruct (IH _ _ _ _ _ Hws (proj1 Hwr) Hi' H) as [? ?].
        split; [done|]. eapply key_post_take; eauto. lia.
    + destruct (_ && _); inv_ok; [done|].
      destruct (IH _ _ _ _ _ Hws Ht Hi' H) as [? ?]. eauto using key_post_skip.
Qed.

Definition acc_post (l : list (account_name_type * Z)) threshold total (r : loop_result) : Prop :=
  match r with
  | Returned false => True
  | Returned true => ∃ accs, sublist accs l ∧ Forall (fun a => ok_account (fst a)) accs ∧
                             threshold ≤ total + weights accs
  | Continue t _ => ∃ accs, sublist accs l ∧ Forall (fun a => ok_account (fst a)) accs ∧
                            0 ≤ t ≤ total + weights accs
  end.

Lemma acc_post_skip l threshold total r i :
  acc_post l threshold total r → acc_post (i :: l) threshold total r.
Proof.
  destruct r as [[]|]; cbn; [|done|]; intros (ks & Hs & ?); exists ks;
    (split; [by apply sublist_cons|done]).
Qed.
Lemma acc_post_take l threshold total t' r a w :
  t' ≤ total + w → ok_account a →
  acc_post l threshold t' r → acc_post ((a, w) :: l) threshold total r.
Proof.
  intros Ht Ha. destruct r as [[]|]; cbn; [|done|];
    intros (ks & Hs & Hf & Hw); exists ((a, w) :: ks);
    (split; [by apply sublist_skip|]); (split; [by apply Forall_cons|]);
    rewrite weights_cons; cbn [snd]; lia.
Qed.
Lemma acc_post_done l threshold total a w : ok_account a →
  threshold ≤ wrap_u32 (total + w) ≤ total + w →
  acc_post ((a, w) :: l) threshold total (Returned true).
Proof.
  intros Ha Ht. exists [(a, w)]. split; [apply sublist_skip, sublist_nil_l|].
  split; [by apply Forall_singleton|]. rewrite weights_cons. cbn. lia.
Qed.

Definition rec_sound (rec : option (authority → M sign_state bool)) : Prop :=
  ∀ check auth st b st', rec = Some check → wf_authority auth → sign_inv st →
    check auth st = Ok (b, st') →
    sign_inv st' ∧ (b = true → satisfied (get_active e) signed approved auth).

Lemma check_accounts_sound rec threshold l : rec_sound rec → ∀ total m st r st',
  Forall (fun i => 0 ≤ snd i) l → 0 ≤ total → sign_inv st →
  check_accounts e rec threshold l total m st = Ok (r, st') →
  sign_inv st' ∧ acc_post l threshold total r.
Proof.
  intros Hrec. induction l as [|[a w] l IH]; intros total m st r st' Hw Ht Hi H.
  - cbn in H. inv_ok. split; [done|]. exists []. cbn. repeat split; eauto using sublist; lia.
  - apply Forall_cons_1 in Hw as [Hw Hws]. cbn in H, Hw.
    pose proof (wrap_u32_le (total + w) ltac:(lia)) as Hwr.
    apply bind_ok in H as (st0 & st1 & [= <- <-] & H). case_decide.
    { assert (ok_account a) as Ha by (by apply Hi).
      destruct (threshold <=? _) eqn:Et; bool_prop.
      - inv_ok. split; [done|]. apply acc_post_done; [done|lia].
      - destruct (_ && _); inv_ok; [done|].
        destruct (IH _ _ _ _ _ Hws (proj1 Hwr) Hi H) as [? ?].
        split; [done|]. eapply acc_post_take; eauto. lia. }
    destruct rec as [check|].
    2:{ destruct (IH _ _ _ _ _ Hws Ht Hi H) as [? ?]. auto using acc_post_skip. }
    destruct (_ && _); [inv_ok; done|]. inv_ok.
    match goal with H : get_active e a = Ok ?au, H' : check ?au _ = Ok (?b, _) |- _ =>
      rename H into Hget, H' into Hchk; rename b into ok end.
    destruct (Hrec check _ _ _ _ eq_refl (wf_get _ _ Hget) (sign_inv_count _ _ Hi) Hchk)
      as [Hi' Hsat].
    destruct ok.
    + assert (ok_account a) as Ha by (right; eauto). inv_ok.
      pose proof (sign_inv_approve _ _ Hi' Ha) as Hi2.
      destruct (threshold <=? _) eqn:Et; bool_prop.
      * inv_ok. split; [done|]. apply acc_post_done; [done|lia].
      * destruct (_ && _); inv_ok; [done|].
        destruct (IH _ _ _ _ _ Hws (proj1 Hwr) Hi2 H) as [? ?].
        split; [done|]. eapply acc_post_take; eauto. lia.
    + destruct (_ && _); inv_ok; [done|].
      destruct (IH _ _ _ _ _ Hws Ht Hi' H) as [? ?]. auto using acc_post_skip.
Qed.

Lemma satisfied_of_posts auth t m b :
  key_post (key_auths auth) (weight_threshold auth) 0 (Continue t m) →
  (b = true → ∃ accs, sublist accs (account_auths auth) ∧
     Forall (fun a => ok_account (fst a)) accs ∧ weight_threshold auth ≤ t + weights accs) →
  b = true → satisfied (get_active e) signed approved auth.
Proof.
  intros (ks & Hs & Hf & Hw) Hacc Hb. destruct (Hacc Hb) as (accs & Hs2 & Hf2 & Hw2).
  econstructor; eauto. lia.
Qed.

(** One call of the check, given that its recursive calls are sound. *)
Lemma check_authority_body_sound rec auth st b st' :
  rec_sound rec → wf_authority auth → sign_inv st →
  (let* r := check_keys e (weight_threshold auth) (key_auths auth) 0 0 in
   match r with
   | Returned b => ret b
   | Continue total membership =>
       let* r := check_accounts e rec (weight_threshold auth) (account_auths auth)
                   total membership in
       match r with
       | Returned b => ret b
       | Continue total _ => ret (weight_threshold auth <=? total)
       end
   end) st = Ok (b, st') →
  sign_inv st' ∧ (b = true → satisfied (get_active e) signed approved auth).
Proof.
  intros Hrec [Hwk Hwa] Hi H. apply bind_ok in H as (r & st1 & Hk & H).
  destruct (check_keys_sound _ _ _ _ _ _ _ Hwk (Z.le_refl 0) Hi Hk) as [Hi1 Hp].
  destruct r as [kb|t m].
  { inv_ok. split; [done|]. intros ->. destruct Hp as (ks & ? & ? & ?).
    apply (satisfied_intro _ _ _ _ ks []); [done|apply sublist_nil_l|done|constructor|].
    cbn. lia. }
  apply bind_ok in H as (r & st2 & Ha & H).
  assert (0 ≤ t) as Ht by (by destruct Hp as (? & ? & ? & [? ?])).
  destruct (check_accounts_sound _ _ _ Hrec _ _ _ _ _ Hwa Ht Hi1 Ha) as [Hi2 Hp2].
  destruct r as [rb|t' m']; inv_ok; (split; [done|]); apply (satisfied_of_posts _ t m); try done.
  - by intros ->.
  - intros E. bool_prop. destruct Hp2 as (accs & ? & ? & ?).
    exists accs. repeat split; [done|done|lia].
Qed.

Lemma check_authority_impl_sound d auth st b st' : wf_authority auth → sign_inv st →
  check_authority_impl e d auth st = Ok (b, st') →
  sign_inv st' ∧ (b = true → satisfied (get_active e) signed approved auth).
Proof.
  revert auth st b st'. induction d as [|d IH]; intros auth st b st' Hw Hi H;
    (eapply check_authority_body_sound; [|done|done|exact H]).
  - intros check au s b' s' [=].
  - intros check au s b' s' [= <-]. apply IH.
Qed.
End soundness.

Definition wf_getter (g : string → res authority) : Prop :=
  ∀ a au, g a = Ok au → wf_authority au.

(** Keys among the signatures sign; only the account [temp] is approved from
    the start. *)
Definition signed_with (sigs : list public_key_type) (k : public_key_type) : Prop := k ∈ sigs.
Definition is_temp (a : string) : Prop := a = "temp".

Section verify_sound.
Context (get : string → res authority) (mm ma : Z) (sigs : list public_key_type) (d : nat).
Context (wf_get : wf_getter get).
Let e := mk_sign_env get ∅ mm ma.
Abbreviation inv := (sign_inv e (signed_with sigs) is_temp).
Abbreviation sat := (satisfied get (signed_with sigs) is_temp).
Abbreviation acc := (account_ok get (signed_with sigs) is_temp).

Lemma init_sign_inv : inv (init_sign_state sigs []).
Proof.
  split; [|split].
  - cbn. intros k [b Hk]. apply elem_of_list_to_map_2, list_elem_of_fmap in Hk
      as (k' & [= -> ->] & Hk). done.
  - cbn. intros k Hk. set_solver.
  - intros a Ha. left. unfold is_temp. cbn in Ha. set_solver.
Qed.

Lemma check_authority_sound auth st b st' : wf_authority auth → inv st →
  check_authority e d auth st = Ok (b, st') → inv st' ∧ (b = true → sat auth).
Proof.
  unfold check_authority. intros Hw Hi H. inv_ok.
  eapply (check_authority_impl_sound e); [exact wf_get|exact Hw| |exact H]. done.
Qed.

Lemma check_authority_id_sound id st b st' : inv st →
  check_authority_id e d id st = Ok (b, st') → inv st' ∧ (b = true → acc id).
Proof.
  unfold check_authority_id. intros Hi H. inv_ok. case_decide; inv_ok.
  - split; [done|]. intros _. by apply Hi.
  - match goal with H : get_active e id = Ok ?au |- _ => rename H into Hg end.
    eapply (check_authority_impl_sound e) in H as [Hi' Hs]; [|done|by eapply wf_get|done].
    split; [done|]. intros Hb. right. eauto.
Qed.

Lemma m_get_check_sound g id st b st' : wf_getter g → inv st →
  m_get_check e d g id st = Ok (b, st') →
  inv st' ∧ (b = true → ∃ au, g id = Ok au ∧ sat au).
Proof.
  unfold m_get_check. intros Hg Hi H. inv_ok.
  apply check_authority_sound in H as [? ?]; [|by eapply Hg|done]. split; [done|]. eauto.
Qed.

Lemma m_or_sound (m k : M sign_state bool) (P Q : Prop) st b st' :
  (∀ st b st', inv st → m st = Ok (b, st') → inv st' ∧ (b = true → P)) →
  (∀ st b st', inv st → k st = Ok (b, st') → inv st' ∧ (b = true → Q)) →
  inv st → m_or m k st = Ok (b, st') → inv st' ∧ (b = true → P ∨ Q).
Proof.
  unfold m_or. intros Hm Hk Hi H. inv_ok.
  destruct (Hm _ _ _ Hi H0) as [Hi1 HP]. destruct x; inv_ok.
  - auto.
  - destruct (Hk _ _ _ Hi1 H) as [? ?]. auto.
Qed.

Lemma verify_required_sound m msg (P : Prop) st st' :
  (∀ st b st', inv st → m st = Ok (b, st') → inv st' ∧ (b = true → P)) →
  inv st → verify_required m msg st = Ok (tt, st') → inv st' ∧ P.
Proof.
  unfold verify_required. intros Hm Hi H. inv_ok.
  destruct (Hm _ _ _ Hi H0) as [? ?]. auto.
Qed.

Lemma required_other_sound msg auth st st' : wf_authority auth → inv st →
  verify_required (check_authority e d auth) msg st = Ok (tt, st') → inv st' ∧ sat auth.
Proof.
  intros Hw Hi H. eapply verify_required_sound; [|exact Hi|exact H].
  intros. by eapply check_authority_sound.
Qed.
Lemma required_get_sound g msg id st st' : wf_getter g → inv st →
  verify_required (m_get_check e d g id) msg st = Ok (tt, st') →
  inv st' ∧ ∃ au, g id = Ok au ∧ sat au.
Proof.
  intros Hg Hi H. eapply verify_required_sound; [|exact Hi|exact H].
  intros. by eapply m_get_check_sound.
Qed.
Lemma required_or_sound g msg id st st' : wf_getter g → inv st →
  verify_required (m_or (check_authority_id e d id) (m_get_check e d g id)) msg st
    = Ok (tt, st') →
  inv st' ∧ (acc id ∨ ∃ au, g id = Ok au ∧ sat au).
Proof.
  intros Hg Hi H. eapply verify_required_sound; [|exact Hi|exact H].
  intros. eapply m_or_sound; [| |eassumption|eassumption].
  - intros. by eapply check_authority_id_sound.
  - intros. by eapply m_get_check_sound.
Qed.
Lemma required_or_or_sound g1 g2 msg id st st' : wf_getter g1 → wf_getter g2 → inv st →
  verify_required (m_or (check_authority_id e d id)
    (m_or (m_get_check e d g1 id) (m_get_check e d g2 id))) msg st = Ok (tt, st') →
  inv st' ∧ (acc id ∨ (∃ au, g1 id = Ok au ∧ sat au) ∨ ∃ au, g2 id = Ok au ∧ sat au).
Proof.
  intros Hg1 Hg2 Hi H. eapply verify_required_sound; [|exact Hi|exact H].
  intros. eapply m_or_sound; [| |eassumption|eassumption].
  - intros. by eapply check_authority_id_sound.
  - intros. eapply m_or_sound; [| |eassumption|eassumption]; intros;
      by eapply m_get_check_sound.
Qed.
End verify_sound.

(** What a transaction that passes [verify_authority] has shown. *)
Definition authorized (g : auth_getters) (sigs : list public_key_type)
    (required_active required_owner required_posting : list string)
    (other : list authority) : Prop :=
  let sat get := satisfied get (signed_with sigs) is_temp in
  let acc get := account_ok get (signed_with sigs) is_temp in
  if decide (required_posting = []) then
    (∀ au, au ∈ other → sat (g_active g) au) ∧
    (∀ id, id ∈ required_active →
       acc (g_active g) id ∨ ∃ au, g_owner g id = Ok au ∧ sat (g_active g) au) ∧
    (∀ id, id ∈ required_owner → ∃ au, g_owner g id = Ok au ∧ sat (g_active g) au)
  else
    required_active = [] ∧ required_owner = [] ∧ other = [] ∧
    (∀ id, id ∈ required_posting →
       acc (g_posting g) id ∨
       (∃ au, g_active g id = Ok au ∧ sat (g_posting g) au) ∨
       ∃ au, g_owner g id = Ok au ∧ sat (g_posting g) au).

Lemma verify_authority_authorized g d mm ma active owner posting other sigs :
  wf_getter (g_active g) → wf_getter (g_owner g) → wf_getter (g_posting g) →
  Forall wf_authority other →
  verify_authority g d mm ma active owner posting other sigs = Ok tt →
  authorized g sigs active owner posting other.
Proof.
  intros Wa Wo Wp Wx H. unfold verify_authority in H. inv_ok. destruct x as [[] st'].
  unfold verify_authority_run in H0. unfold authorized.
  destruct posting as [|p ps]; cbn [length Nat.eqb negb] in H0; inv_ok.
  - rewrite decide_True by done.
    match goal with H1 : for_each other _ _ = _, H2 : for_each active _ _ = _,
      H3 : for_each owner _ _ = _ |- _ => rename H1 into Ho, H2 into Ha, H3 into Hw end.
    apply (for_each_inv (sign_inv (mk_sign_env (g_active g) ∅ mm ma) (signed_with sigs) is_temp)
      (satisfied (g_active g) (signed_with sigs) is_temp)) in Ho as [I1 P1];
      [|intros au s s' Hau Hs Hr; apply (required_other_sound _ mm ma sigs d Wa) in Hr;
        [exact Hr|exact (proj1 (list.Forall_forall _ _) Wx _ Hau)|exact Hs]|by apply init_sign_inv].
    apply (for_each_inv (sign_inv (mk_sign_env (g_active g) ∅ mm ma) (signed_with sigs) is_temp)
      (fun id => account_ok (g_active g) (signed_with sigs) is_temp id ∨
      ∃ au, g_owner g id = Ok au ∧ satisfied (g_active g) (signed_with sigs) is_temp au))
      in Ha as [I2 P2]; [|intros; by eapply required_or_sound|exact I1].
    apply (for_each_inv (sign_inv (mk_sign_env (g_active g) ∅ mm ma) (signed_with sigs) is_temp)
      (fun id => ∃ au, g_owner g id = Ok au ∧
      satisfied (g_active g) (signed_with sigs) is_temp au)) in Hw as [I3 P3];
      [|intros; by eapply required_get_sound|exact I2].
    done.
  - rewrite decide_False by done.
    repeat match goal with H : Nat.eqb (length ?l) 0 = true |- _ => destruct l; [clear H|done] end.
    split; [done|]. split; [done|]. split; [done|].
    match goal with H1 : for_each (p :: ps) _ _ = _ |- _ => rename H1 into Hp end.
    apply (for_each_inv (sign_inv (mk_sign_env (g_posting g) ∅ mm ma) (signed_with sigs) is_temp)
      (fun id => account_ok (g_posting g) (signed_with sigs) is_temp id ∨
       (∃ au, g_active g id = Ok au ∧ satisfied (g_posting g) (signed_with sigs) is_temp au) ∨
       ∃ au, g_owner g id = Ok au ∧ satisfied (g_posting g) (signed_with sigs) is_temp au)) in Hp
      as [I3 P3]; [done|intros; by eapply required_or_or_sound|by apply init_sign_inv].
Qed.

(** C28: a transaction that passes [verify_authority] is authorized: every required
    account's authority is carried by the signatures, directly or through accounts
    whose authorities are carried in turn. *)
Theorem verify_authority_sound g d mm ma active owner posting other sigs :
  wf_getter (g_active g) → wf_getter (g_owner g) → wf_getter (g_posting g) →
  Forall wf_authority other →
  verify_authority g d mm ma active owner posting other sigs = Ok tt →
  authorized g sigs active owner posting other.
Proof. apply verify_authority_authorized. Qed.

Lemma verify_authority_sound_witness :
  let alice := mk_authority 1 [] [("K", 1)] in
  let g := fun n => if String.eqb n "alice" then Ok alice else Throw (key_not_found n) in
  authorized (mk_getters g g g) ["K"] ["alice"] [] [] [].
Proof.
  cbv zeta.
  set (g := fun n => if String.eqb n "alice" then Ok (mk_authority 1 [] [("K", 1)])
                     else Throw (key_not_found n)).
  assert (wf_getter g) as Hg.
  { intros a au. unfold g. destruct (String.eqb a "alice"); [|done]. intros [= <-].
    split; repeat constructor. cbn. lia. }
  apply (verify_authority_sound (mk_getters g g g) 2 40 125);
    [exact Hg|exact Hg|exact Hg|constructor|vm_compute; reflexivity].
Defined.
