(* ===== verification/Headers.v ===== *)
(** * Block headers and block identifiers

    block_header.hpp and the members of its classes in block.cpp: the words of an
    identifier, the number, digest and identifier of a header and the key that
    signed it.  Operations carry headers too, so they come first.  The hashes of
    fc, the serialization they read and elliptic curve keys are the class
    [HeaderCrypto]. *)
From S2P Require Import Prelude Ints Authority.

Abbreviation digest_type := string (only parsing).

(** The extensions of a block header. *)
Inductive header_extension : Type :=
| void_t
| reported_version (v : Z)
| hardfork_version_vote (hf_version : Z) (hf_time : Z).

(** [signed_block_header]; an identifier is a list of five 32-bit words. *)
Record signed_block_header := mk_signed_block_header {
  hdr_previous : list Z;
  hdr_timestamp : Z;
  hdr_witness : account_name_type;
  hdr_transaction_merkle_root : string;
  hdr_extensions : list header_extension;
  hdr_witness_signature : string
}.
#[export] Instance eta_signed_block_header : Eta signed_block_header := fun r =>
  mk_signed_block_header (hdr_previous r) (hdr_timestamp r) (hdr_witness r)
    (hdr_transaction_merkle_root r) (hdr_extensions r) (hdr_witness_signature r).

(** A digest covers exactly its argument; [header_digest] below blanks the member
    that the packed base class does not have. *)
Class HeaderCrypto := {
  hash_header : signed_block_header → digest_type;
  sha224_header : signed_block_header → list Z;
  recover_key : string → digest_type → res public_key_type;
}.

(** ** Words of an identifier *)

Definition endian_reverse_u32 (x : Z) : Z :=
  Z.lor (Z.lor (Z.lor
    (Z.land (Z.shiftr x 24) 255)
    (Z.shiftl (Z.land (Z.shiftr x 16) 255) 8))
    (Z.shiftl (Z.land (Z.shiftr x 8) 255) 16))
    (Z.shiftl (Z.land x 255) 24).

(** [_hash[i]] of an identifier of five 32-bit words. *)
Definition id_word (i : nat) (id : list Z) : Z := nth i id 0.
Definition null_id : list Z := repeat 0 5.

Definition num_from_id (id : list Z) : Z := endian_reverse_u32 (id_word 0 id).

(** ** Headers *)

Section Headers.
Context `{HeaderCrypto}.

Definition header_num (h : signed_block_header) : Z := wrap_u32 (num_from_id (hdr_previous h) + 1).

(** The base class [block_header] has no signature. *)
Definition unsigned_header (h : signed_block_header) : signed_block_header :=
  h <| hdr_witness_signature := ""%string |>.
Definition header_digest (h : signed_block_header) : digest_type := hash_header (unsigned_header h).

Definition header_id (h : signed_block_header) : list Z :=
  take 5 (<[0%nat := endian_reverse_u32 (header_num h)]> (sha224_header h)).

Definition header_signee (h : signed_block_header) : res public_key_type :=
  recover_key (hdr_witness_signature h) (header_digest h).

End Headers.

(** ** Reversing the bytes of a word *)

Lemma byte_testbit x s n : 0 ≤ s → 0 ≤ n →
  Z.testbit (Z.land (Z.shiftr x s) 255) n = (n <? 8) && Z.testbit x (n + s).
Proof.
  intros Hs Hn. change 255 with (Z.ones 8).
  rewrite Z.land_spec, Z.shiftr_spec, Z.testbit_ones_nonneg by lia. apply andb_comm.
Qed.

Lemma shifted_byte_testbit x s t n : 0 ≤ s → 0 ≤ t → 0 ≤ n →
  Z.testbit (Z.shiftl (Z.land (Z.shiftr x s) 255) t) n
  = (t <=? n) && (n <? t + 8) && Z.testbit x (n - t + s).
Proof.
  intros Hs Ht Hn. rewrite Z.shiftl_spec by lia. destruct (Z.leb_spec t n).
  - rewrite byte_testbit by lia. do 2 f_equal. apply eq_true_iff_eq.
    rewrite !Z.ltb_lt. lia.
  - by rewrite Z.testbit_neg_r by lia.
Qed.

Lemma endian_reverse_testbit x n : 0 ≤ n →
  Z.testbit (endian_reverse_u32 x) n
  = (n <? 32) && Z.testbit x (n + 24 - 16 * (n / 8)).
Proof.
  intros Hn. unfold endian_reverse_u32. rewrite <- (Z.shiftr_0_r x) at 4.
  rewrite !Z.lor_spec, byte_testbit, !shifted_byte_testbit by lia.
  assert (n / 8 = 0 ∨ n / 8 = 1 ∨ n / 8 = 2 ∨ n / 8 = 3 ∨ 4 ≤ n / 8) as Hc
    by (pose proof (Z.div_pos n 8); lia).
  pose proof (Z.div_mod n 8 ltac:(lia)) as Hd. pose proof (Z.mod_pos_bound n 8 ltac:(lia)).
  destruct Hc as [Hc|[Hc|[Hc|[Hc|Hc]]]];
    repeat match goal with
    | |- context [?a <? ?b] =>
        first [rewrite (proj2 (Z.ltb_lt a b)) by lia|rewrite (proj2 (Z.ltb_ge a b)) by lia]
    | |- context [?a <=? ?b] =>
        first [rewrite (proj2 (Z.leb_le a b)) by lia|rewrite (proj2 (Z.leb_gt a b)) by lia]
    end; cbn [andb orb]; rewrite ?orb_false_r; try done; f_equal; lia.
Qed.

Lemma endian_reverse_involutive x : 0 ≤ x < 2 ^ 32 →
  endian_reverse_u32 (endian_reverse_u32 x) = x.
Proof.
  intros Hx. apply Z.bits_inj'. intros n Hn. rewrite endian_reverse_testbit by done.
  destruct (Z.ltb_spec n 32) as [Hlt|Hge]; cbn [andb].
  - assert (0 ≤ n / 8 ≤ 3) as Hq by (pose proof (Z.div_pos n 8); pose proof (Z.div_lt_upper_bound n 8 4); lia).
    assert ((n + 24 - 16 * (n / 8)) / 8 = 3 - n / 8) as Hq'.
    { symmetry. apply (Z.div_unique _ _ _ (n mod 8)).
      - left. apply Z.mod_pos_bound. lia.
      - pose proof (Z.div_mod n 8 ltac:(lia)). lia. }
    pose proof (Z.div_mod n 8 ltac:(lia)). pose proof (Z.mod_pos_bound n 8 ltac:(lia)).
    rewrite endian_reverse_testbit, Hq' by lia.
    rewrite (proj2 (Z.ltb_lt _ _)) by lia. cbn [andb]. f_equal. lia.
  - symmetry. rewrite <- (Z.mod_small x (2 ^ 32)) by lia. apply Z.mod_pow2_bits_high. lia.
Qed.

Lemma endian_reverse_involutive_wrap x :
  endian_reverse_u32 (endian_reverse_u32 (wrap_u32 x)) = wrap_u32 x.
Proof. apply endian_reverse_involutive, Z.mod_pos_bound. lia. Qed.
