(* ===== verification/Operations.v ===== *)
(** * Operations and their stateless validation

    The operations of zattera_operations.hpp with their fields, [validate] of
    zattera_operations.cpp for each of them, the helpers of validation.hpp, and
    the authorities each operation requires.  UTF-8 and JSON well-formedness and
    the binary unpacking of witness properties belong to the serialization
    layer and are parameters, class [Codec]. *)
From S2P Require Import Prelude Ints Config Asset Authority Headers.

(** [fc::is_utf8], [fc::json::is_valid] and [fc::raw::unpack_from_vector]. *)
Class Codec := {
  is_utf8 : string → bool;
  json_is_valid : string → bool;
  unpack_asset : string → res asset;
  unpack_uint32 : string → res Z;
  unpack_uint16 : string → res Z;
  unpack_key : string → res public_key_type;
  unpack_price : string → res price;
  unpack_string : string → res string;
}.

(** [legacy_chain_properties]: the creation fee is an amount of ZTR with the
    serialized symbol it came with ([is_canon] compares it). *)
Record legacy_chain_properties := mk_legacy_props {
  lcp_account_creation_fee : share_type;
  lcp_fee_symbol_canon : bool;
  lcp_maximum_block_size : Z;
  lcp_dollar_interest_rate : Z
}.

Record beneficiary_route_type := mk_route { ben_account : account_name_type; ben_weight : Z }.

Inductive operation : Type :=
| account_create_operation (fee : asset) (creator new_account_name : account_name_type)
    (owner active posting : authority) (memo_key : public_key_type) (json_metadata : string)
| account_create_with_delegation_operation (fee delegation : asset)
    (creator new_account_name : account_name_type) (owner active posting : authority)
    (memo_key : public_key_type) (json_metadata : string) (extensions : list unit)
| account_update_operation (account : account_name_type) (owner active posting : option authority)
    (memo_key : public_key_type) (json_metadata : string)
| comment_operation (parent_author : account_name_type) (parent_permlink : string)
    (author : account_name_type) (permlink title body json_metadata : string)
| comment_options_operation (author : account_name_type) (permlink : string)
    (max_accepted_payout : asset) (percent_zattera_dollars : Z)
    (allow_votes allow_curation_rewards : bool) (extensions : list (list beneficiary_route_type))
| claim_account_operation (creator : account_name_type) (fee : asset) (extensions : list unit)
| create_claimed_account_operation (creator new_account_name : account_name_type)
    (owner active posting : authority) (memo_key : public_key_type) (json_metadata : string)
    (extensions : list unit)
| delete_comment_operation (author : account_name_type) (permlink : string)
| vote_operation (voter author : account_name_type) (permlink : string) (weight : Z)
| transfer_operation (from to : account_name_type) (amt : asset) (memo : string)
| escrow_transfer_operation (from to agent : account_name_type) (escrow_id : Z)
    (dollar_amount liquid_amount fee : asset) (ratification_deadline escrow_expiration : Z)
    (json_meta : string)
| escrow_approve_operation (from to agent who : account_name_type) (escrow_id : Z) (approve : bool)
| escrow_dispute_operation (from to agent who : account_name_type) (escrow_id : Z)
| escrow_release_operation (from to agent who receiver : account_name_type) (escrow_id : Z)
    (dollar_amount liquid_amount : asset)
| transfer_to_vesting_operation (from to : account_name_type) (amt : asset)
| withdraw_vesting_operation (account : account_name_type) (vesting_shares : asset)
| set_withdraw_vesting_route_operation (from_account to_account : account_name_type) (percent : Z)
    (auto_vest : bool)
| witness_update_operation (owner : account_name_type) (url : string)
    (block_signing_key : public_key_type) (props : legacy_chain_properties) (fee : asset)
| witness_set_properties_operation (owner : account_name_type) (props : list (string * string))
    (extensions : list unit)
| account_witness_vote_operation (account witness : account_name_type) (approve : bool)
| account_witness_proxy_operation (account proxy : account_name_type)
| custom_operation (required_auths : list account_name_type) (id : Z) (data : string)
| custom_json_operation (required_auths required_posting_auths : list account_name_type)
    (id json : string)
| custom_binary_operation (required_owner_auths required_active_auths required_posting_auths : list account_name_type)
    (required_auths : list authority) (id data : string)
| feed_publish_operation (publisher : account_name_type) (exchange_rate : price)
| convert_operation (owner : account_name_type) (requestid : Z) (amt : asset)
| limit_order_create_operation (owner : account_name_type) (orderid : Z)
    (amount_to_sell min_to_receive : asset) (fill_or_kill : bool) (expiration : Z)
| limit_order_create2_operation (owner : account_name_type) (orderid : Z) (amount_to_sell : asset)
    (fill_or_kill : bool) (exchange_rate : price) (expiration : Z)
| limit_order_cancel_operation (owner : account_name_type) (orderid : Z)
| report_over_production_operation (reporter : account_name_type)
    (first_block second_block : signed_block_header)
| request_account_recovery_operation (recovery_account account_to_recover : account_name_type)
    (new_owner_authority : authority) (extensions : list unit)
| recover_account_operation (account_to_recover : account_name_type)
    (new_owner_authority recent_owner_authority : authority) (extensions : list unit)
| reset_account_operation (reset_account account_to_reset : account_name_type)
    (new_owner_authority : authority)
| set_reset_account_operation (account current_reset_account reset_account : account_name_type)
| change_recovery_account_operation (account_to_recover new_recovery_account : account_name_type)
    (extensions : list unit)
| transfer_to_savings_operation (from to : account_name_type) (amt : asset) (memo : string)
| transfer_from_savings_operation (from : account_name_type) (request_id : Z)
    (to : account_name_type) (amt : asset) (memo : string)
| cancel_transfer_from_savings_operation (from : account_name_type) (request_id : Z)
| decline_voting_rights_operation (account : account_name_type) (decline : bool)
| claim_reward_balance_operation (account : account_name_type)
    (reward_liquids reward_dollars reward_vests : asset)
| delegate_vesting_shares_operation (delegator delegatee : account_name_type) (vesting_shares : asset).

(** ** Validation *)

Definition is_asset_type (a : asset) (s : asset_symbol_type) : bool := symbol a =? s.
Definition validate_account_name (name : string) : res unit :=
  res_assert (is_valid_account_name name) "Account name is invalid".
Definition validate_auth_size (a : authority) : res unit :=
  let size := Z.of_nat (length (account_auths a) + length (key_auths a)) in
  res_assert (size <=? ZATTERA_MAX_AUTHORITY_MEMBERSHIP) "Authority membership exceeded".
Definition strlen (s : string) : Z := Z.of_nat (String.length s).
Definition seq_res (l : list (res unit)) : res unit := res_fold (fun _ r => r) tt l.
(** [operator >=] against zero of a symbol: the symbols must agree. *)
Definition at_least_zero (a : asset) (s : asset_symbol_type) (msg : string) : res unit :=
  let? c := asset_ge a (mk_asset 0 s) in res_assert c msg.
Definition opt_name (name : string) : res unit :=
  if strlen name =? 0 then Ok tt else validate_account_name name.
Definition name_ltb (a b : account_name_type) : bool :=
  match String.compare a b with Lt => true | _ => false end.

Section Validate.
Context `{Codec}.

Definition validate_permlink (permlink : string) : res unit := seq_res [
  res_assert (strlen permlink <? Z.of_nat ZATTERA_MAX_PERMLINK_LENGTH) "permlink is too long";
  res_assert (is_utf8 permlink) "permlink not formatted in UTF8"].

Definition validate_json (json : string) : res unit :=
  if strlen json >? 0 then seq_res [
    res_assert (is_utf8 json) "JSON Metadata not formatted in UTF8";
    res_assert (json_is_valid json) "JSON Metadata not valid JSON"]
  else Ok tt.
Definition validate_memo (memo : string) : res unit := seq_res [
  res_assert (strlen memo <? ZATTERA_MAX_MEMO_SIZE) "Memo is too large";
  res_assert (is_utf8 memo) "Memo is not UTF8"].
Definition validate_creation_fee (fee : asset) : res unit :=
  res_assert (is_asset_type fee LIQUID_SYMBOL) "Account creation fee must be ZTR".

Definition account_create_validate (fee : asset) (new_account_name : string) (owner active : authority)
    (json_metadata : string) : res unit := seq_res [
  validate_account_name new_account_name;
  validate_creation_fee fee;
  authority_validate owner; authority_validate active;
  validate_json json_metadata;
  at_least_zero fee LIQUID_SYMBOL "Account creation fee cannot be negative"].

Definition account_create_with_delegation_validate (fee delegation : asset)
    (creator new_account_name : string) (owner active posting : authority) (json_metadata : string)
    : res unit := seq_res [
  validate_account_name new_account_name; validate_account_name creator;
  validate_creation_fee fee;
  res_assert (is_asset_type delegation VESTS_SYMBOL) "Delegation must be VESTS";
  authority_validate owner; authority_validate active; authority_validate posting;
  validate_json json_metadata;
  at_least_zero fee LIQUID_SYMBOL "Account creation fee cannot be negative";
  at_least_zero delegation VESTS_SYMBOL "Delegation cannot be negative"].

Definition comment_validate (parent_author parent_permlink author permlink title body json_metadata : string)
    : res unit := seq_res [
  res_assert (strlen title <? 256) "Title larger than size limit";
  res_assert (is_utf8 title) "Title not formatted in UTF8";
  res_assert (strlen body >? 0) "Body is empty";
  res_assert (is_utf8 body) "Body not formatted in UTF8";
  opt_name parent_author; validate_account_name author;
  validate_permlink parent_permlink; validate_permlink permlink;
  (if strlen json_metadata >? 0 then res_assert (json_is_valid json_metadata) "JSON Metadata not valid JSON"
   else Ok tt)].

(** [comment_payout_beneficiaries::validate]: at most 127 routes, each and all
    together at most 100%, in strictly ascending order of the account. *)
Fixpoint beneficiaries_validate_from (prev : account_name_type) (sum : Z)
    (l : list beneficiary_route_type) : res unit :=
  match l with
  | [] => Ok tt
  | b :: l' =>
      let? _ := validate_account_name (ben_account b) in
      let? _ := res_assert (ben_weight b <=? ZATTERA_100_PERCENT) "more than 100% to one account" in
      let sum := wrap_u32 (sum + ben_weight b) in
      let? _ := res_assert (sum <=? ZATTERA_100_PERCENT) "more than 100% to a comment" in
      let? _ := res_assert (name_ltb prev (ben_account b)) "Benficiaries must be sorted" in
      beneficiaries_validate_from (ben_account b) sum l'
  end.
Definition beneficiaries_validate (l : list beneficiary_route_type) : res unit :=
  let? _ := res_assert (negb (bool_decide (l = []))) "Must specify at least one beneficiary" in
  let? _ := res_assert (Z.of_nat (length l) <? 128) "Cannot specify more than 127 beneficiaries." in
  match l with
  | [] => Ok tt
  | b :: l' =>
      let? _ := validate_account_name (ben_account b) in
      let? _ := res_assert (ben_weight b <=? ZATTERA_100_PERCENT) "more than 100% to one account" in
      let sum := wrap_u32 (ben_weight b) in
      let? _ := res_assert (sum <=? ZATTERA_100_PERCENT) "more than 100% to a comment" in
      beneficiaries_validate_from (ben_account b) sum l'
  end.

Definition comment_options_validate (author permlink : string) (max_accepted_payout : asset)
    (percent_zattera_dollars : Z) (extensions : list (list beneficiary_route_type)) : res unit := seq_res ([
  validate_account_name author;
  res_assert (percent_zattera_dollars <=? ZATTERA_100_PERCENT) "Percent cannot exceed 100%";
  res_assert (symbol max_accepted_payout =? DOLLAR_SYMBOL) "Max accepted payout must be in ZBD";
  res_assert (amount max_accepted_payout >=? 0) "Cannot accept less than 0 payout";
  validate_permlink permlink] ++ (beneficiaries_validate <$> extensions)).

Definition claim_account_validate (creator : string) (fee : asset) (extensions : list unit) : res unit := seq_res [
  validate_account_name creator; validate_creation_fee fee;
  at_least_zero fee LIQUID_SYMBOL "Account creation fee cannot be negative";
  res_assert (bool_decide (extensions = [])) "There are no extensions for claim_account_operation."].

Definition create_claimed_account_validate (creator new_account_name : string)
    (owner active posting : authority) (json_metadata : string) (extensions : list unit) : res unit := seq_res [
  validate_account_name creator; validate_account_name new_account_name;
  authority_validate owner; authority_validate active; authority_validate posting;
  validate_auth_size owner; validate_auth_size active; validate_auth_size posting;
  validate_json json_metadata;
  res_assert (bool_decide (extensions = [])) "There are no extensions for create_claimed_account_operation."].

Definition vote_validate (voter author permlink : string) (weight : Z) : res unit := seq_res [
  validate_account_name voter; validate_account_name author;
  res_assert (Z.abs weight <=? ZATTERA_100_PERCENT) "Weight is not a ZATTERA percentage";
  validate_permlink permlink].

Definition transfer_validate (from to : string) (a : asset) (memo : string) : res unit := seq_res [
  validate_account_name from; validate_account_name to;
  res_assert (negb (symbol a =? VESTS_SYMBOL)) "transferring of Zattera Power (VESTS) is not allowed.";
  res_assert (amount a >? 0) "Cannot transfer a negative amount (aka: stealing)";
  validate_memo memo].

Definition transfer_to_vesting_validate (from to : string) (a : asset) : res unit := seq_res [
  validate_account_name from;
  res_assert (symbol a =? LIQUID_SYMBOL) "Amount must be ZTR";
  opt_name to;
  res_assert (amount a >? 0) "Must transfer a nonzero amount"].

Definition set_withdraw_vesting_route_validate (from_account to_account : string) (percent : Z) : res unit := seq_res [
  validate_account_name from_account; validate_account_name to_account;
  res_assert ((0 <=? percent) && (percent <=? ZATTERA_100_PERCENT)) "Percent must be valid zattera percent"].

Definition validate_url (url : string) : res unit := seq_res [
  res_assert (strlen url <=? Z.of_nat ZATTERA_MAX_WITNESS_URL_LENGTH) "URL is too long";
  res_assert (strlen url >? 0) "URL size must be greater than 0";
  res_assert (is_utf8 url) "URL is not valid UTF8"].

(** [legacy_chain_properties::validate< false >]. *)
Definition legacy_props_validate (p : legacy_chain_properties) : res unit := seq_res [
  res_assert (lcp_account_creation_fee p >=? ZATTERA_MIN_ACCOUNT_CREATION_FEE) "account_creation_fee";
  res_assert (lcp_maximum_block_size p >=? ZATTERA_MIN_BLOCK_SIZE_LIMIT) "maximum_block_size";
  res_assert (lcp_dollar_interest_rate p >=? 0) "dollar_interest_rate >= 0";
  res_assert (lcp_dollar_interest_rate p <=? ZATTERA_100_PERCENT) "dollar_interest_rate <= 100%"].

Definition witness_update_validate (owner url : string) (props : legacy_chain_properties) (fee : asset)
    : res unit := seq_res [
  validate_account_name owner; validate_url url;
  at_least_zero fee LIQUID_SYMBOL "Fee cannot be negative";
  legacy_props_validate props].

Definition find_prop (k : string) (props : list (string * string)) : option string :=
  snd <$> List.find (fun q => bool_decide (q.1 = k)) props.
Definition on_prop (k : string) (props : list (string * string)) (f : string → res unit) : res unit :=
  match find_prop k props with Some v => f v | None => Ok tt end.

Definition witness_set_properties_validate (owner : string) (props : list (string * string)) : res unit := seq_res [
  validate_account_name owner;
  res_assert (bool_decide (is_Some (find_prop "key" props))) "No signing key provided";
  on_prop "account_creation_fee" props (fun v =>
    let? fee := unpack_asset v in seq_res [
    res_assert (symbol fee =? LIQUID_SYMBOL) "account_creation_fee must be in ZTR";
    res_assert (amount fee >=? ZATTERA_MIN_ACCOUNT_CREATION_FEE) "account_creation_fee too small"]);
  on_prop "maximum_block_size" props (fun v =>
    let? size := unpack_uint32 v in
    res_assert (size >=? ZATTERA_MIN_BLOCK_SIZE_LIMIT) "maximum_block_size too small");
  on_prop "dollar_interest_rate" props (fun v =>
    let? rate := unpack_uint16 v in seq_res [
    res_assert (rate >=? 0) "dollar_interest_rate must be positive";
    res_assert (rate <=? ZATTERA_100_PERCENT) "dollar_interest_rate must not exceed 100%"]);
  on_prop "new_signing_key" props (fun v => let? _ := unpack_key v in Ok tt);
  on_prop "dollar_exchange_rate" props (fun v =>
    let? rate := unpack_price v in seq_res [
    res_assert (is_asset_type (base rate) DOLLAR_SYMBOL && is_asset_type (quote rate) LIQUID_SYMBOL)
      "Price feed must be a ZTR/ZBD price";
    price_validate rate]);
  on_prop "url" props (fun v => let? url := unpack_string v in validate_url url);
  on_prop "account_subsidy_limit" props (fun v => let? _ := unpack_uint32 v in Ok tt)].

Definition account_witness_proxy_validate (account proxy : string) : res unit := seq_res [
  validate_account_name account; opt_name proxy;
  res_assert (negb (bool_decide (proxy = account))) "Cannot proxy to self"].

Definition custom_json_validate (required_auths required_posting_auths : list string) (id json : string)
    : res unit := seq_res [
  res_assert (Z.of_nat (length required_auths + length required_posting_auths) >? 0)
    "at least one account must be specified";
  res_assert (strlen id <=? 32) "id is too long";
  res_assert (is_utf8 json) "JSON Metadata not formatted in UTF8";
  res_assert (json_is_valid json) "JSON Metadata not valid JSON"].

Definition custom_binary_validate (owners actives postings : list string) (auths : list authority) (id : string)
    : res unit := seq_res ([
  res_assert (Z.of_nat (length owners + length actives + length postings) >? 0)
    "at least one account must be specified";
  res_assert (strlen id <=? 32) "id is too long"] ++ (authority_validate <$> auths)).

Definition market_pair (a b : asset) : bool :=
  (is_asset_type a LIQUID_SYMBOL && is_asset_type b DOLLAR_SYMBOL)
  || (is_asset_type a DOLLAR_SYMBOL && is_asset_type b LIQUID_SYMBOL).

Definition feed_publish_validate (publisher : string) (exchange_rate : price) : res unit := seq_res [
  validate_account_name publisher;
  res_assert (market_pair (base exchange_rate) (quote exchange_rate)) "Price feed must be a ZTR/ZBD price";
  price_validate exchange_rate].

Definition limit_order_create_validate (owner : string) (amount_to_sell min_to_receive : asset) : res unit := seq_res [
  validate_account_name owner;
  res_assert (market_pair amount_to_sell min_to_receive) "Limit order must be for the ZTR:ZBD market";
  (let? p := make_price amount_to_sell min_to_receive in price_validate p)].

Definition limit_order_create2_validate (owner : string) (amount_to_sell : asset) (exchange_rate : price)
    : res unit := seq_res [
  validate_account_name owner;
  res_assert (symbol amount_to_sell =? symbol (base exchange_rate)) "Sell asset must be the base of the price";
  price_validate exchange_rate;
  res_assert (market_pair amount_to_sell (quote exchange_rate)) "Limit order must be for the ZTR:ZBD market";
  (let? r := asset_mul_price amount_to_sell exchange_rate in
   res_assert (amount r >? 0) "Amount to sell cannot round to 0 when traded")].

Definition convert_validate (owner : string) (a : asset) : res unit := seq_res [
  validate_account_name owner;
  res_assert (is_asset_type a DOLLAR_SYMBOL) "Can only convert ZBD to ZTR";
  res_assert (amount a >? 0) "Must convert some ZBD"].

Definition escrow_amounts_validate (dollar_amount liquid_amount : asset) (msg : string) : res unit := seq_res [
  res_assert (amount dollar_amount >=? 0) "dollar amount cannot be negative";
  res_assert (amount liquid_amount >=? 0) "liquid amount cannot be negative";
  res_assert ((amount dollar_amount >? 0) || (amount liquid_amount >? 0)) msg].
Definition escrow_symbols_validate (dollar_amount liquid_amount : asset) : res unit := seq_res [
  res_assert (symbol dollar_amount =? DOLLAR_SYMBOL) "dollar amount must contain ZBD";
  res_assert (symbol liquid_amount =? LIQUID_SYMBOL) "liquid amount must contain ZTR"].

Definition escrow_transfer_validate (from to agent : string) (dollar_amount liquid_amount fee : asset)
    (ratification_deadline escrow_expiration : Z) (json_meta : string) : res unit := seq_res [
  validate_account_name from; validate_account_name to; validate_account_name agent;
  res_assert (amount fee >=? 0) "fee cannot be negative";
  escrow_amounts_validate dollar_amount liquid_amount "escrow must transfer a non-zero amount";
  res_assert (bool_decide (from ≠ agent ∧ to ≠ agent)) "agent must be a third party";
  res_assert ((symbol fee =? LIQUID_SYMBOL) || (symbol fee =? DOLLAR_SYMBOL)) "fee must be ZTR or ZBD";
  escrow_symbols_validate dollar_amount liquid_amount;
  res_assert (ratification_deadline <? escrow_expiration) "ratification deadline must be before escrow expiration";
  validate_json json_meta].

Definition escrow_approve_validate (from to agent who : string) : res unit := seq_res [
  validate_account_name from; validate_account_name to; validate_account_name agent; validate_account_name who;
  res_assert (bool_decide (who = to ∨ who = agent)) "to or agent must approve escrow"].

Definition escrow_dispute_validate (from to agent who : string) : res unit := seq_res [
  validate_account_name from; validate_account_name to; validate_account_name agent; validate_account_name who;
  res_assert (bool_decide (who = from ∨ who = to)) "who must be from or to"].

Definition escrow_release_validate (from to agent who receiver : string) (dollar_amount liquid_amount : asset)
    : res unit := seq_res [
  validate_account_name from; validate_account_name to; validate_account_name agent;
  validate_account_name who; validate_account_name receiver;
  res_assert (bool_decide (who = from ∨ who = to ∨ who = agent)) "who must be from or to or agent";
  res_assert (bool_decide (receiver = from ∨ receiver = to)) "receiver must be from or to";
  escrow_amounts_validate dollar_amount liquid_amount "escrow must release a non-zero amount";
  escrow_symbols_validate dollar_amount liquid_amount].

Definition report_over_production_validate `{HeaderCrypto} (reporter : string)
    (first_block second_block : signed_block_header) : res unit := seq_res [
  validate_account_name reporter; validate_account_name (hdr_witness first_block);
  res_assert (bool_decide (hdr_witness first_block = hdr_witness second_block))
    "first_block.witness == second_block.witness";
  res_assert (hdr_timestamp first_block =? hdr_timestamp second_block)
    "first_block.timestamp == second_block.timestamp";
  (let? k := header_signee first_block in
   let? k' := header_signee second_block in
   res_assert (bool_decide (k = k')) "first_block.signee() == second_block.signee()");
  res_assert (negb (bool_decide (header_id first_block = header_id second_block)))
    "first_block.id() != second_block.id()"].

Definition recover_account_validate (account_to_recover : string) (new_owner recent_owner : authority)
    : res unit := seq_res [
  validate_account_name account_to_recover;
  res_assert (negb (bool_decide (new_owner = recent_owner)))
    "Cannot set new owner authority to the recent owner authority";
  res_assert (negb (is_impossible new_owner)) "new owner authority cannot be impossible";
  res_assert (negb (is_impossible recent_owner)) "recent owner authority cannot be impossible";
  res_assert (negb (weight_threshold new_owner =? 0)) "new owner authority cannot be trivial";
  authority_validate new_owner; authority_validate recent_owner].

Definition savings_validate (from to : string) (a : asset) (memo : string) : res unit := seq_res [
  validate_account_name from; validate_account_name to;
  res_assert (amount a >? 0) "amount.amount > 0";
  res_assert ((symbol a =? LIQUID_SYMBOL) || (symbol a =? DOLLAR_SYMBOL)) "amount.symbol";
  validate_memo memo].

Definition reset_account_validate (reset_account account_to_reset : string) (new_owner : authority)
    : res unit := seq_res [
  validate_account_name reset_account; validate_account_name account_to_reset;
  res_assert (negb (is_impossible new_owner)) "new owner authority cannot be impossible";
  res_assert (negb (weight_threshold new_owner =? 0)) "new owner authority cannot be trivial";
  authority_validate new_owner].

Definition set_reset_account_validate (account current_reset_account reset_account : string) : res unit := seq_res [
  validate_account_name account; opt_name current_reset_account; validate_account_name reset_account;
  res_assert (negb (bool_decide (current_reset_account = reset_account)))
    "new reset account cannot be current reset account"].

Definition claim_reward_balance_validate (account : string) (liquids dollars vests : asset) : res unit := seq_res [
  validate_account_name account;
  res_assert (is_asset_type liquids LIQUID_SYMBOL) "Reward Zattera must be ZTR";
  res_assert (is_asset_type dollars DOLLAR_SYMBOL) "Reward Zattera must be ZBD";
  res_assert (is_asset_type vests VESTS_SYMBOL) "Reward Zattera must be VESTS";
  res_assert (amount liquids >=? 0) "Cannot claim a negative amount";
  res_assert (amount dollars >=? 0) "Cannot claim a negative amount";
  res_assert (amount vests >=? 0) "Cannot claim a negative amount";
  res_assert ((amount liquids >? 0) || (amount dollars >? 0) || (amount vests >? 0)) "Must claim something."].

Definition delegate_vesting_shares_validate (delegator delegatee : string) (shares : asset) : res unit := seq_res [
  validate_account_name delegator; validate_account_name delegatee;
  res_assert (negb (bool_decide (delegator = delegatee))) "You cannot delegate VESTS to yourself";
  res_assert (is_asset_type shares VESTS_SYMBOL) "Delegation must be VESTS";
  at_least_zero shares VESTS_SYMBOL "Delegation cannot be negative"].

(** [operation_validate]: the visitor over the variant. *)
Definition operation_validate `{HeaderCrypto} (op : operation) : res unit :=
  match op with
  | account_create_operation fee _ n o a _ _ j => account_create_validate fee n o a j
  | account_create_with_delegation_operation fee d c n o a p _ j _ =>
      account_create_with_delegation_validate fee d c n o a p j
  | account_update_operation acc _ _ _ _ j => seq_res [validate_account_name acc; validate_json j]
  | comment_operation pa pp a p t b j => comment_validate pa pp a p t b j
  | comment_options_operation a p m pct _ _ ext => comment_options_validate a p m pct ext
  | claim_account_operation c fee ext => claim_account_validate c fee ext
  | create_claimed_account_operation c n o a p _ j ext => create_claimed_account_validate c n o a p j ext
  | delete_comment_operation a p => seq_res [validate_permlink p; validate_account_name a]
  | vote_operation v a p w => vote_validate v a p w
  | transfer_operation f t a m => transfer_validate f t a m
  | escrow_transfer_operation f t ag _ d l fee rd ex j => escrow_transfer_validate f t ag d l fee rd ex j
  | escrow_approve_operation f t ag w _ _ => escrow_approve_validate f t ag w
  | escrow_dispute_operation f t ag w _ => escrow_dispute_validate f t ag w
  | escrow_release_operation f t ag w r _ d l => escrow_release_validate f t ag w r d l
  | transfer_to_vesting_operation f t a => transfer_to_vesting_validate f t a
  | withdraw_vesting_operation acc v => seq_res [validate_account_name acc;
      res_assert (is_asset_type v VESTS_SYMBOL) "Amount must be VESTS"]
  | set_withdraw_vesting_route_operation f t p _ => set_withdraw_vesting_route_validate f t p
  | witness_update_operation o u _ p fee => witness_update_validate o u p fee
  | witness_set_properties_operation o p _ => witness_set_properties_validate o p
  | account_witness_vote_operation acc w _ => seq_res [validate_account_name acc; validate_account_name w]
  | account_witness_proxy_operation acc p => account_witness_proxy_validate acc p
  | custom_operation auths _ _ =>
      res_assert (Z.of_nat (length auths) >? 0) "at least one account must be specified"
  | custom_json_operation a p id j => custom_json_validate a p id j
  | custom_binary_operation o a p auths id _ => custom_binary_validate o a p auths id
  | feed_publish_operation p r => feed_publish_validate p r
  | convert_operation o _ a => convert_validate o a
  | limit_order_create_operation o _ s m _ _ => limit_order_create_validate o s m
  | limit_order_create2_operation o _ s _ r _ => limit_order_create2_validate o s r
  | limit_order_cancel_operation o _ => validate_account_name o
  | report_over_production_operation r b b' => report_over_production_validate r b b'
  | request_account_recovery_operation r acc a _ => seq_res [validate_account_name r;
      validate_account_name acc; authority_validate a]
  | recover_account_operation acc n r _ => recover_account_validate acc n r
  | reset_account_operation r acc a => reset_account_validate r acc a
  | set_reset_account_operation acc c r => set_reset_account_validate acc c r
  | change_recovery_account_operation acc n _ => seq_res [validate_account_name acc; validate_account_name n]
  | transfer_to_savings_operation f t a m => savings_validate f t a m
  | transfer_from_savings_operation f _ t a m => savings_validate f t a m
  | cancel_transfer_from_savings_operation f _ => validate_account_name f
  | decline_voting_rights_operation acc _ => validate_account_name acc
  | claim_reward_balance_operation acc l d v => claim_reward_balance_validate acc l d v
  | delegate_vesting_shares_operation d e s => delegate_vesting_shares_validate d e s
  end.

End Validate.

(** ** Required authorities *)

Definition get_required_owner_authorities (op : operation) : list account_name_type :=
  match op with
  | account_update_operation acc (Some _) _ _ _ _ => [acc]
  | transfer_operation f _ a _ => if symbol a =? VESTS_SYMBOL then [f] else []
  | custom_binary_operation o _ _ _ _ _ => o
  | set_reset_account_operation acc c _ => if strlen c =? 0 then [] else [acc]
  | change_recovery_account_operation acc _ _ => [acc]
  | decline_voting_rights_operation acc _ => [acc]
  | _ => []
  end.

Definition get_required_active_authorities (op : operation) : list account_name_type :=
  match op with
  | account_create_operation _ c _ _ _ _ _ _ => [c]
  | account_create_with_delegation_operation _ _ c _ _ _ _ _ _ _ => [c]
  | account_update_operation acc None _ _ _ _ => [acc]
  | claim_account_operation c _ _ => [c]
  | create_claimed_account_operation c _ _ _ _ _ _ _ => [c]
  | transfer_operation f _ a _ => if symbol a =? VESTS_SYMBOL then [] else [f]
  | escrow_transfer_operation f _ _ _ _ _ _ _ _ _ => [f]
  | escrow_approve_operation _ _ _ w _ _ => [w]
  | escrow_dispute_operation _ _ _ w _ => [w]
  | escrow_release_operation _ _ _ w _ _ _ _ => [w]
  | transfer_to_vesting_operation f _ _ => [f]
  | withdraw_vesting_operation acc _ => [acc]
  | set_withdraw_vesting_route_operation f _ _ _ => [f]
  | witness_update_operation o _ _ _ _ => [o]
  | account_witness_vote_operation acc _ _ => [acc]
  | account_witness_proxy_operation acc _ => [acc]
  | custom_operation auths _ _ => auths
  | custom_json_operation a _ _ _ => a
  | custom_binary_operation _ a _ _ _ _ => a
  | feed_publish_operation p _ => [p]
  | convert_operation o _ _ => [o]
  | limit_order_create_operation o _ _ _ _ _ => [o]
  | limit_order_create2_operation o _ _ _ _ _ => [o]
  | limit_order_cancel_operation o _ => [o]
  | request_account_recovery_operation r _ _ _ => [r]
  | reset_account_operation r _ _ => [r]
  | transfer_to_savings_operation f _ _ _ => [f]
  | transfer_from_savings_operation f _ _ _ _ => [f]
  | cancel_transfer_from_savings_operation f _ => [f]
  | delegate_vesting_shares_operation d _ _ => [d]
  | _ => []
  end.

Definition get_required_posting_authorities (op : operation) : list account_name_type :=
  match op with
  | comment_operation _ _ a _ _ _ _ => [a]
  | comment_options_operation a _ _ _ _ _ _ => [a]
  | delete_comment_operation a _ => [a]
  | vote_operation v _ _ _ => [v]
  | custom_json_operation _ p _ _ => p
  | custom_binary_operation _ _ p _ _ _ => p
  | set_reset_account_operation acc c _ => if strlen c =? 0 then [acc] else []
  | claim_reward_balance_operation acc _ _ _ => [acc]
  | _ => []
  end.

(** [get_required_authorities]: authorities that are not those of an account. *)
Definition get_required_authorities `{Codec} (op : operation) : res (list authority) :=
  match op with
  | witness_set_properties_operation _ props _ =>
      match find_prop "key" props with
      | Some v => let? k := unpack_key v in Ok [mk_authority 1 [] [(k, 1)]]
      | None => Ok [mk_authority 1 [(ZATTERA_NULL_ACCOUNT, 1)] []]
      end
  | custom_binary_operation _ _ _ auths _ _ => Ok auths
  | recover_account_operation _ new_owner recent_owner _ => Ok [new_owner; recent_owner]
  | _ => Ok []
  end.
