(* ===== verification/State.v ===== *)
(** * The state of the chain

    The objects of the chain database with the fields the headers under
    src/src/core/chain/include/zattera/chain give them (account_object.hpp,
    witness_objects.hpp, comment_object.hpp, zattera_objects.hpp,
    global_property_object.hpp, hardfork_property_object.hpp,
    transaction_object.hpp), and the [database] that holds one table per object
    type.  An object's [id] is its key in the table.  Fields carry a prefix per
    object, [acc_liquid_balance] for [account_object::liquid_balance].

    A C++ reference to an object is a [ref]: reading through it loads the row
    as it is then, so a reference taken before a [modify] sees the change. *)
From S2P Require Import Prelude Ints Config Asset Authority.

(** Seconds since the epoch; [fc::time_point_sec] stores 32 bits. *)
Abbreviation time := Z (only parsing).
Definition time_maximum : Z := 2 ^ 32 - 1.
Definition time_min : Z := 0.
Abbreviation block_id_type := (list Z) (only parsing).

(** [c_str()] of a string as [std::strcmp] reads it: up to the first NUL.  The
    permlink indices compare this way ([strcmp_less], comment_object.hpp). *)
Fixpoint c_str (s : string) : string :=
  match s with
  | EmptyString => EmptyString
  | String c s' => if bool_decide (c = Ascii.zero) then EmptyString else String c (c_str s')
  end.

Inductive curve_id : Set := quadratic | quadratic_curation | linear | square_root.
Inductive witness_schedule_type : Set := top20 | timeshare | none.

#[export] Instance curve_id_eq_dec : EqDecision curve_id.
Proof. solve_decision. Defined.
#[export] Instance witness_schedule_type_eq_dec : EqDecision witness_schedule_type.
Proof. solve_decision. Defined.

(** zattera_virtual_operations.hpp: what the chain reports to its observers. *)
Inductive virtual_operation : Type :=
| author_reward_operation (author : account_name_type) (permlink : string)
    (dollar_payout liquid_payout vesting_payout : asset)
| curation_reward_operation (curator : account_name_type) (reward : asset)
    (comment_author : account_name_type) (comment_permlink : string)
| comment_reward_operation (author : account_name_type) (permlink : string) (payout : asset)
| liquidity_reward_operation (owner : account_name_type) (payout : asset)
| interest_operation (owner : account_name_type) (interest : asset)
| fill_convert_request_operation (owner : account_name_type) (requestid : Z)
    (amount_in amount_out : asset)
| fill_vesting_withdraw_operation (from_account to_account : account_name_type)
    (withdrawn deposited : asset)
| shutdown_witness_operation (owner : account_name_type)
| fill_order_operation (current_owner : account_name_type) (current_orderid : Z)
    (current_pays : asset) (open_owner : account_name_type) (open_orderid : Z) (open_pays : asset)
| fill_transfer_from_savings_operation (from to : account_name_type) (amount : asset)
    (request_id : Z) (memo : string)
| hardfork_operation (hardfork_id : Z)
| comment_payout_update_operation (author : account_name_type) (permlink : string)
| return_vesting_delegation_operation (account : account_name_type) (vesting_shares : asset)
| comment_benefactor_reward_operation (benefactor author : account_name_type)
    (permlink : string) (reward : asset)
| producer_reward_operation (producer : account_name_type) (vesting_shares : asset).

(** ** Objects *)

Record account_object := mk_account_object {
  acc_name : account_name_type;
  acc_memo_key : public_key_type;
  acc_json_metadata : string;
  acc_proxy : account_name_type;
  acc_last_account_update : time;
  acc_created : time;
  acc_mined : bool;
  acc_recovery_account : account_name_type;
  acc_reset_account : account_name_type;
  acc_last_account_recovery : time;
  acc_comment_count : Z;
  acc_lifetime_vote_count : Z;
  acc_post_count : Z;
  acc_can_vote : bool;
  acc_voting_power : Z;
  acc_last_vote_time : time;
  acc_liquid_balance : asset;
  acc_savings_liquid_balance : asset;
  acc_dollar_balance : asset;
  acc_dollar_seconds : Z;
  acc_dollar_seconds_last_update : time;
  acc_dollar_last_interest_payment : time;
  acc_savings_dollar_balance : asset;
  acc_savings_dollar_seconds : Z;
  acc_savings_dollar_seconds_last_update : time;
  acc_savings_dollar_last_interest_payment : time;
  acc_savings_withdraw_requests : Z;
  acc_reward_dollar_balance : asset;
  acc_reward_liquid_balance : asset;
  acc_reward_vesting_share_balance : asset;
  acc_reward_vesting_liquid_balance : asset;
  acc_curation_rewards : share_type;
  acc_posting_rewards : share_type;
  acc_vesting_share_balance : asset;
  acc_delegated_vesting_share_balance : asset;
  acc_received_vesting_share_balance : asset;
  acc_vesting_withdraw_rate : asset;
  acc_next_vesting_withdrawal : time;
  acc_withdrawn : share_type;
  acc_to_withdraw : share_type;
  acc_withdraw_routes : Z;
  acc_proxied_vsf_votes : list share_type;
  acc_witnesses_voted_for : Z;
  acc_last_post : time;
  acc_last_root_post : time;
  acc_post_bandwidth : Z;
  acc_pending_claimed_accounts : share_type
}.
#[export] Instance eta_account_object : Eta account_object := fun r => mk_account_object
  (acc_name r) (acc_memo_key r) (acc_json_metadata r) (acc_proxy r) (acc_last_account_update r)
  (acc_created r) (acc_mined r) (acc_recovery_account r) (acc_reset_account r) (acc_last_account_recovery r)
  (acc_comment_count r) (acc_lifetime_vote_count r) (acc_post_count r) (acc_can_vote r)
  (acc_voting_power r) (acc_last_vote_time r) (acc_liquid_balance r) (acc_savings_liquid_balance r)
  (acc_dollar_balance r) (acc_dollar_seconds r) (acc_dollar_seconds_last_update r)
  (acc_dollar_last_interest_payment r) (acc_savings_dollar_balance r) (acc_savings_dollar_seconds r)
  (acc_savings_dollar_seconds_last_update r) (acc_savings_dollar_last_interest_payment r)
  (acc_savings_withdraw_requests r) (acc_reward_dollar_balance r) (acc_reward_liquid_balance r)
  (acc_reward_vesting_share_balance r) (acc_reward_vesting_liquid_balance r) (acc_curation_rewards r)
  (acc_posting_rewards r) (acc_vesting_share_balance r) (acc_delegated_vesting_share_balance r)
  (acc_received_vesting_share_balance r) (acc_vesting_withdraw_rate r) (acc_next_vesting_withdrawal r)
  (acc_withdrawn r) (acc_to_withdraw r) (acc_withdraw_routes r) (acc_proxied_vsf_votes r)
  (acc_witnesses_voted_for r) (acc_last_post r) (acc_last_root_post r) (acc_post_bandwidth r)
  (acc_pending_claimed_accounts r).
#[export] Instance set_acc_name : Setter acc_name := ltac:(derive_setter acc_name).
#[export] Instance set_acc_memo_key : Setter acc_memo_key := ltac:(derive_setter acc_memo_key).
#[export] Instance set_acc_json_metadata : Setter acc_json_metadata := ltac:(derive_setter acc_json_metadata).
#[export] Instance set_acc_proxy : Setter acc_proxy := ltac:(derive_setter acc_proxy).
#[export] Instance set_acc_last_account_update : Setter acc_last_account_update := ltac:(derive_setter acc_last_account_update).
#[export] Instance set_acc_created : Setter acc_created := ltac:(derive_setter acc_created).
#[export] Instance set_acc_mined : Setter acc_mined := ltac:(derive_setter acc_mined).
#[export] Instance set_acc_recovery_account : Setter acc_recovery_account := ltac:(derive_setter acc_recovery_account).
#[export] Instance set_acc_reset_account : Setter acc_reset_account := ltac:(derive_setter acc_reset_account).
#[export] Instance set_acc_last_account_recovery : Setter acc_last_account_recovery := ltac:(derive_setter acc_last_account_recovery).
#[export] Instance set_acc_comment_count : Setter acc_comment_count := ltac:(derive_setter acc_comment_count).
#[export] Instance set_acc_lifetime_vote_count : Setter acc_lifetime_vote_count := ltac:(derive_setter acc_lifetime_vote_count).
#[export] Instance set_acc_post_count : Setter acc_post_count := ltac:(derive_setter acc_post_count).
#[export] Instance set_acc_can_vote : Setter acc_can_vote := ltac:(derive_setter acc_can_vote).
#[export] Instance set_acc_voting_power : Setter acc_voting_power := ltac:(derive_setter acc_voting_power).
#[export] Instance set_acc_last_vote_time : Setter acc_last_vote_time := ltac:(derive_setter acc_last_vote_time).
#[export] Instance set_acc_liquid_balance : Setter acc_liquid_balance := ltac:(derive_setter acc_liquid_balance).
#[export] Instance set_acc_savings_liquid_balance : Setter acc_savings_liquid_balance := ltac:(derive_setter acc_savings_liquid_balance).
#[export] Instance set_acc_dollar_balance : Setter acc_dollar_balance := ltac:(derive_setter acc_dollar_balance).
#[export] Instance set_acc_dollar_seconds : Setter acc_dollar_seconds := ltac:(derive_setter acc_dollar_seconds).
#[export] Instance set_acc_dollar_seconds_last_update : Setter acc_dollar_seconds_last_update := ltac:(derive_setter acc_dollar_seconds_last_update).
#[export] Instance set_acc_dollar_last_interest_payment : Setter acc_dollar_last_interest_payment := ltac:(derive_setter acc_dollar_last_interest_payment).
#[export] Instance set_acc_savings_dollar_balance : Setter acc_savings_dollar_balance := ltac:(derive_setter acc_savings_dollar_balance).
#[export] Instance set_acc_savings_dollar_seconds : Setter acc_savings_dollar_seconds := ltac:(derive_setter acc_savings_dollar_seconds).
#[export] Instance set_acc_savings_dollar_seconds_last_update : Setter acc_savings_dollar_seconds_last_update := ltac:(derive_setter acc_savings_dollar_seconds_last_update).
#[export] Instance set_acc_savings_dollar_last_interest_payment : Setter acc_savings_dollar_last_interest_payment := ltac:(derive_setter acc_savings_dollar_last_interest_payment).
#[export] Instance set_acc_savings_withdraw_requests : Setter acc_savings_withdraw_requests := ltac:(derive_setter acc_savings_withdraw_requests).
#[export] Instance set_acc_reward_dollar_balance : Setter acc_reward_dollar_balance := ltac:(derive_setter acc_reward_dollar_balance).
#[export] Instance set_acc_reward_liquid_balance : Setter acc_reward_liquid_balance := ltac:(derive_setter acc_reward_liquid_balance).
#[export] Instance set_acc_reward_vesting_share_balance : Setter acc_reward_vesting_share_balance := ltac:(derive_setter acc_reward_vesting_share_balance).
#[export] Instance set_acc_reward_vesting_liquid_balance : Setter acc_reward_vesting_liquid_balance := ltac:(derive_setter acc_reward_vesting_liquid_balance).
#[export] Instance set_acc_curation_rewards : Setter acc_curation_rewards := ltac:(derive_setter acc_curation_rewards).
#[export] Instance set_acc_posting_rewards : Setter acc_posting_rewards := ltac:(derive_setter acc_posting_rewards).
#[export] Instance set_acc_vesting_share_balance : Setter acc_vesting_share_balance := ltac:(derive_setter acc_vesting_share_balance).
#[export] Instance set_acc_delegated_vesting_share_balance : Setter acc_delegated_vesting_share_balance := ltac:(derive_setter acc_delegated_vesting_share_balance).
#[export] Instance set_acc_received_vesting_share_balance : Setter acc_received_vesting_share_balance := ltac:(derive_setter acc_received_vesting_share_balance).
#[export] Instance set_acc_vesting_withdraw_rate : Setter acc_vesting_withdraw_rate := ltac:(derive_setter acc_vesting_withdraw_rate).
#[export] Instance set_acc_next_vesting_withdrawal : Setter acc_next_vesting_withdrawal := ltac:(derive_setter acc_next_vesting_withdrawal).
#[export] Instance set_acc_withdrawn : Setter acc_withdrawn := ltac:(derive_setter acc_withdrawn).
#[export] Instance set_acc_to_withdraw : Setter acc_to_withdraw := ltac:(derive_setter acc_to_withdraw).
#[export] Instance set_acc_withdraw_routes : Setter acc_withdraw_routes := ltac:(derive_setter acc_withdraw_routes).
#[export] Instance set_acc_proxied_vsf_votes : Setter acc_proxied_vsf_votes := ltac:(derive_setter acc_proxied_vsf_votes).
#[export] Instance set_acc_witnesses_voted_for : Setter acc_witnesses_voted_for := ltac:(derive_setter acc_witnesses_voted_for).
#[export] Instance set_acc_last_post : Setter acc_last_post := ltac:(derive_setter acc_last_post).
#[export] Instance set_acc_last_root_post : Setter acc_last_root_post := ltac:(derive_setter acc_last_root_post).
#[export] Instance set_acc_post_bandwidth : Setter acc_post_bandwidth := ltac:(derive_setter acc_post_bandwidth).
#[export] Instance set_acc_pending_claimed_accounts : Setter acc_pending_claimed_accounts := ltac:(derive_setter acc_pending_claimed_accounts).

Record account_authority_object := mk_account_authority_object {
  auth_account : account_name_type;
  auth_owner : authority;
  auth_active : authority;
  auth_posting : authority;
  auth_last_owner_update : time
}.
#[export] Instance eta_account_authority_object : Eta account_authority_object := fun r => mk_account_authority_object
  (auth_account r) (auth_owner r) (auth_active r) (auth_posting r) (auth_last_owner_update r).
#[export] Instance set_auth_account : Setter auth_account := ltac:(derive_setter auth_account).
#[export] Instance set_auth_owner : Setter auth_owner := ltac:(derive_setter auth_owner).
#[export] Instance set_auth_active : Setter auth_active := ltac:(derive_setter auth_active).
#[export] Instance set_auth_posting : Setter auth_posting := ltac:(derive_setter auth_posting).
#[export] Instance set_auth_last_owner_update : Setter auth_last_owner_update := ltac:(derive_setter auth_last_owner_update).

Record vesting_delegation_object := mk_vesting_delegation_object {
  vdo_delegator : account_name_type;
  vdo_delegatee : account_name_type;
  vdo_vesting_shares : asset;
  vdo_min_delegation_time : time
}.
#[export] Instance eta_vesting_delegation_object : Eta vesting_delegation_object := fun r => mk_vesting_delegation_object
  (vdo_delegator r) (vdo_delegatee r) (vdo_vesting_shares r) (vdo_min_delegation_time r).
#[export] Instance set_vdo_delegator : Setter vdo_delegator := ltac:(derive_setter vdo_delegator).
#[export] Instance set_vdo_delegatee : Setter vdo_delegatee := ltac:(derive_setter vdo_delegatee).
#[export] Instance set_vdo_vesting_shares : Setter vdo_vesting_shares := ltac:(derive_setter vdo_vesting_shares).
#[export] Instance set_vdo_min_delegation_time : Setter vdo_min_delegation_time := ltac:(derive_setter vdo_min_delegation_time).

Record vesting_delegation_expiration_object := mk_vesting_delegation_expiration_object {
  vde_delegator : account_name_type;
  vde_vesting_shares : asset;
  vde_expiration : time
}.
#[export] Instance eta_vesting_delegation_expiration_object : Eta vesting_delegation_expiration_object := fun r => mk_vesting_delegation_expiration_object
  (vde_delegator r) (vde_vesting_shares r) (vde_expiration r).
#[export] Instance set_vde_delegator : Setter vde_delegator := ltac:(derive_setter vde_delegator).
#[export] Instance set_vde_vesting_shares : Setter vde_vesting_shares := ltac:(derive_setter vde_vesting_shares).
#[export] Instance set_vde_expiration : Setter vde_expiration := ltac:(derive_setter vde_expiration).

Record owner_authority_history_object := mk_owner_authority_history_object {
  oah_account : account_name_type;
  oah_previous_owner_authority : authority;
  oah_last_valid_time : time
}.
#[export] Instance eta_owner_authority_history_object : Eta owner_authority_history_object := fun r => mk_owner_authority_history_object
  (oah_account r) (oah_previous_owner_authority r) (oah_last_valid_time r).
#[export] Instance set_oah_account : Setter oah_account := ltac:(derive_setter oah_account).
#[export] Instance set_oah_previous_owner_authority : Setter oah_previous_owner_authority := ltac:(derive_setter oah_previous_owner_authority).
#[export] Instance set_oah_last_valid_time : Setter oah_last_valid_time := ltac:(derive_setter oah_last_valid_time).

Record account_recovery_request_object := mk_account_recovery_request_object {
  arr_account_to_recover : account_name_type;
  arr_new_owner_authority : authority;
  arr_expires : time
}.
#[export] Instance eta_account_recovery_request_object : Eta account_recovery_request_object := fun r => mk_account_recovery_request_object
  (arr_account_to_recover r) (arr_new_owner_authority r) (arr_expires r).
#[export] Instance set_arr_account_to_recover : Setter arr_account_to_recover := ltac:(derive_setter arr_account_to_recover).
#[export] Instance set_arr_new_owner_authority : Setter arr_new_owner_authority := ltac:(derive_setter arr_new_owner_authority).
#[export] Instance set_arr_expires : Setter arr_expires := ltac:(derive_setter arr_expires).

Record change_recovery_account_request_object := mk_change_recovery_account_request_object {
  crr_account_to_recover : account_name_type;
  crr_recovery_account : account_name_type;
  crr_effective_on : time
}.
#[export] Instance eta_change_recovery_account_request_object : Eta change_recovery_account_request_object := fun r => mk_change_recovery_account_request_object
  (crr_account_to_recover r) (crr_recovery_account r) (crr_effective_on r).
#[export] Instance set_crr_account_to_recover : Setter crr_account_to_recover := ltac:(derive_setter crr_account_to_recover).
#[export] Instance set_crr_recovery_account : Setter crr_recovery_account := ltac:(derive_setter crr_recovery_account).
#[export] Instance set_crr_effective_on : Setter crr_effective_on := ltac:(derive_setter crr_effective_on).

Record chain_properties := mk_chain_properties {
  cp_account_creation_fee : asset;
  cp_maximum_block_size : Z;
  cp_dollar_interest_rate : Z;
  cp_account_subsidy_limit : Z
}.
#[export] Instance eta_chain_properties : Eta chain_properties := fun r => mk_chain_properties
  (cp_account_creation_fee r) (cp_maximum_block_size r) (cp_dollar_interest_rate r)
  (cp_account_subsidy_limit r).
#[export] Instance set_cp_account_creation_fee : Setter cp_account_creation_fee := ltac:(derive_setter cp_account_creation_fee).
#[export] Instance set_cp_maximum_block_size : Setter cp_maximum_block_size := ltac:(derive_setter cp_maximum_block_size).
#[export] Instance set_cp_dollar_interest_rate : Setter cp_dollar_interest_rate := ltac:(derive_setter cp_dollar_interest_rate).
#[export] Instance set_cp_account_subsidy_limit : Setter cp_account_subsidy_limit := ltac:(derive_setter cp_account_subsidy_limit).

Record witness_object := mk_witness_object {
  wit_owner : account_name_type;
  wit_created : time;
  wit_url : string;
  wit_total_missed : Z;
  wit_last_aslot : Z;
  wit_last_confirmed_block_num : Z;
  wit_signing_key : public_key_type;
  wit_props : chain_properties;
  wit_dollar_exchange_rate : price;
  wit_last_dollar_exchange_update : time;
  wit_votes : share_type;
  wit_schedule : witness_schedule_type;
  wit_virtual_last_update : Z;
  wit_virtual_position : Z;
  wit_virtual_scheduled_time : Z;
  wit_running_version : Z;
  wit_hardfork_version_vote : Z;
  wit_hardfork_time_vote : time
}.
#[export] Instance eta_witness_object : Eta witness_object := fun r => mk_witness_object
  (wit_owner r) (wit_created r) (wit_url r) (wit_total_missed r) (wit_last_aslot r)
  (wit_last_confirmed_block_num r) (wit_signing_key r) (wit_props r) (wit_dollar_exchange_rate r)
  (wit_last_dollar_exchange_update r) (wit_votes r) (wit_schedule r) (wit_virtual_last_update r)
  (wit_virtual_position r) (wit_virtual_scheduled_time r) (wit_running_version r) (wit_hardfork_version_vote r)
  (wit_hardfork_time_vote r).
#[export] Instance set_wit_owner : Setter wit_owner := ltac:(derive_setter wit_owner).
#[export] Instance set_wit_created : Setter wit_created := ltac:(derive_setter wit_created).
#[export] Instance set_wit_url : Setter wit_url := ltac:(derive_setter wit_url).
#[export] Instance set_wit_total_missed : Setter wit_total_missed := ltac:(derive_setter wit_total_missed).
#[export] Instance set_wit_last_aslot : Setter wit_last_aslot := ltac:(derive_setter wit_last_aslot).
#[export] Instance set_wit_last_confirmed_block_num : Setter wit_last_confirmed_block_num := ltac:(derive_setter wit_last_confirmed_block_num).
#[export] Instance set_wit_signing_key : Setter wit_signing_key := ltac:(derive_setter wit_signing_key).
#[export] Instance set_wit_props : Setter wit_props := ltac:(derive_setter wit_props).
#[export] Instance set_wit_dollar_exchange_rate : Setter wit_dollar_exchange_rate := ltac:(derive_setter wit_dollar_exchange_rate).
#[export] Instance set_wit_last_dollar_exchange_update : Setter wit_last_dollar_exchange_update := ltac:(derive_setter wit_last_dollar_exchange_update).
#[export] Instance set_wit_votes : Setter wit_votes := ltac:(derive_setter wit_votes).
#[export] Instance set_wit_schedule : Setter wit_schedule := ltac:(derive_setter wit_schedule).
#[export] Instance set_wit_virtual_last_update : Setter wit_virtual_last_update := ltac:(derive_setter wit_virtual_last_update).
#[export] Instance set_wit_virtual_position : Setter wit_virtual_position := ltac:(derive_setter wit_virtual_position).
#[export] Instance set_wit_virtual_scheduled_time : Setter wit_virtual_scheduled_time := ltac:(derive_setter wit_virtual_scheduled_time).
#[export] Instance set_wit_running_version : Setter wit_running_version := ltac:(derive_setter wit_running_version).
#[export] Instance set_wit_hardfork_version_vote : Setter wit_hardfork_version_vote := ltac:(derive_setter wit_hardfork_version_vote).
#[export] Instance set_wit_hardfork_time_vote : Setter wit_hardfork_time_vote := ltac:(derive_setter wit_hardfork_time_vote).

Record witness_vote_object := mk_witness_vote_object {
  wvo_witness : account_name_type;
  wvo_account : account_name_type
}.
#[export] Instance eta_witness_vote_object : Eta witness_vote_object := fun r => mk_witness_vote_object
  (wvo_witness r) (wvo_account r).
#[export] Instance set_wvo_witness : Setter wvo_witness := ltac:(derive_setter wvo_witness).
#[export] Instance set_wvo_account : Setter wvo_account := ltac:(derive_setter wvo_account).

Record witness_schedule_object := mk_witness_schedule_object {
  wso_current_virtual_time : Z;
  wso_next_shuffle_block_num : Z;
  wso_current_shuffled_witnesses : list account_name_type;
  wso_num_scheduled_witnesses : Z;
  wso_top20_weight : Z;
  wso_timeshare_weight : Z;
  wso_witness_pay_normalization_factor : Z;
  wso_median_props : chain_properties;
  wso_majority_version : Z;
  wso_max_voted_witnesses : Z;
  wso_max_runner_witnesses : Z;
  wso_hardfork_required_witnesses : Z
}.
#[export] Instance eta_witness_schedule_object : Eta witness_schedule_object := fun r => mk_witness_schedule_object
  (wso_current_virtual_time r) (wso_next_shuffle_block_num r) (wso_current_shuffled_witnesses r)
  (wso_num_scheduled_witnesses r) (wso_top20_weight r) (wso_timeshare_weight r) (wso_witness_pay_normalization_factor r)
  (wso_median_props r) (wso_majority_version r) (wso_max_voted_witnesses r) (wso_max_runner_witnesses r)
  (wso_hardfork_required_witnesses r).
#[export] Instance set_wso_current_virtual_time : Setter wso_current_virtual_time := ltac:(derive_setter wso_current_virtual_time).
#[export] Instance set_wso_next_shuffle_block_num : Setter wso_next_shuffle_block_num := ltac:(derive_setter wso_next_shuffle_block_num).
#[export] Instance set_wso_current_shuffled_witnesses : Setter wso_current_shuffled_witnesses := ltac:(derive_setter wso_current_shuffled_witnesses).
#[export] Instance set_wso_num_scheduled_witnesses : Setter wso_num_scheduled_witnesses := ltac:(derive_setter wso_num_scheduled_witnesses).
#[export] Instance set_wso_top20_weight : Setter wso_top20_weight := ltac:(derive_setter wso_top20_weight).
#[export] Instance set_wso_timeshare_weight : Setter wso_timeshare_weight := ltac:(derive_setter wso_timeshare_weight).
#[export] Instance set_wso_witness_pay_normalization_factor : Setter wso_witness_pay_normalization_factor := ltac:(derive_setter wso_witness_pay_normalization_factor).
#[export] Instance set_wso_median_props : Setter wso_median_props := ltac:(derive_setter wso_median_props).
#[export] Instance set_wso_majority_version : Setter wso_majority_version := ltac:(derive_setter wso_majority_version).
#[export] Instance set_wso_max_voted_witnesses : Setter wso_max_voted_witnesses := ltac:(derive_setter wso_max_voted_witnesses).
#[export] Instance set_wso_max_runner_witnesses : Setter wso_max_runner_witnesses := ltac:(derive_setter wso_max_runner_witnesses).
#[export] Instance set_wso_hardfork_required_witnesses : Setter wso_hardfork_required_witnesses := ltac:(derive_setter wso_hardfork_required_witnesses).

Record comment_object := mk_comment_object {
  com_category : string;
  com_parent_author : account_name_type;
  com_parent_permlink : string;
  com_author : account_name_type;
  com_permlink : string;
  com_last_update : time;
  com_created : time;
  com_active : time;
  com_last_payout : time;
  com_depth : Z;
  com_children : Z;
  com_net_rshares : share_type;
  com_abs_rshares : share_type;
  com_vote_rshares : share_type;
  com_children_abs_rshares : share_type;
  com_cashout_time : time;
  com_max_cashout_time : time;
  com_total_vote_weight : Z;
  com_reward_weight : Z;
  com_total_payout_value : asset;
  com_curator_payout_value : asset;
  com_beneficiary_payout_value : asset;
  com_author_rewards : share_type;
  com_net_votes : Z;
  com_root_comment : Z;
  com_max_accepted_payout : asset;
  com_percent_zattera_dollars : Z;
  com_allow_replies : bool;
  com_allow_votes : bool;
  com_allow_curation_rewards : bool;
  com_beneficiaries : list (account_name_type * Z)
}.
#[export] Instance eta_comment_object : Eta comment_object := fun r => mk_comment_object
  (com_category r) (com_parent_author r) (com_parent_permlink r) (com_author r) (com_permlink r)
  (com_last_update r) (com_created r) (com_active r) (com_last_payout r) (com_depth r)
  (com_children r) (com_net_rshares r) (com_abs_rshares r) (com_vote_rshares r) (com_children_abs_rshares r)
  (com_cashout_time r) (com_max_cashout_time r) (com_total_vote_weight r) (com_reward_weight r)
  (com_total_payout_value r) (com_curator_payout_value r) (com_beneficiary_payout_value r)
  (com_author_rewards r) (com_net_votes r) (com_root_comment r) (com_max_accepted_payout r)
  (com_percent_zattera_dollars r) (com_allow_replies r) (com_allow_votes r) (com_allow_curation_rewards r)
  (com_beneficiaries r).
#[export] Instance set_com_category : Setter com_category := ltac:(derive_setter com_category).
#[export] Instance set_com_parent_author : Setter com_parent_author := ltac:(derive_setter com_parent_author).
#[export] Instance set_com_parent_permlink : Setter com_parent_permlink := ltac:(derive_setter com_parent_permlink).
#[export] Instance set_com_author : Setter com_author := ltac:(derive_setter com_author).
#[export] Instance set_com_permlink : Setter com_permlink := ltac:(derive_setter com_permlink).
#[export] Instance set_com_last_update : Setter com_last_update := ltac:(derive_setter com_last_update).
#[export] Instance set_com_created : Setter com_created := ltac:(derive_setter com_created).
#[export] Instance set_com_active : Setter com_active := ltac:(derive_setter com_active).
#[export] Instance set_com_last_payout : Setter com_last_payout := ltac:(derive_setter com_last_payout).
#[export] Instance set_com_depth : Setter com_depth := ltac:(derive_setter com_depth).
#[export] Instance set_com_children : Setter com_children := ltac:(derive_setter com_children).
#[export] Instance set_com_net_rshares : Setter com_net_rshares := ltac:(derive_setter com_net_rshares).
#[export] Instance set_com_abs_rshares : Setter com_abs_rshares := ltac:(derive_setter com_abs_rshares).
#[export] Instance set_com_vote_rshares : Setter com_vote_rshares := ltac:(derive_setter com_vote_rshares).
#[export] Instance set_com_children_abs_rshares : Setter com_children_abs_rshares := ltac:(derive_setter com_children_abs_rshares).
#[export] Instance set_com_cashout_time : Setter com_cashout_time := ltac:(derive_setter com_cashout_time).
#[export] Instance set_com_max_cashout_time : Setter com_max_cashout_time := ltac:(derive_setter com_max_cashout_time).
#[export] Instance set_com_total_vote_weight : Setter com_total_vote_weight := ltac:(derive_setter com_total_vote_weight).
#[export] Instance set_com_reward_weight : Setter com_reward_weight := ltac:(derive_setter com_reward_weight).
#[export] Instance set_com_total_payout_value : Setter com_total_payout_value := ltac:(derive_setter com_total_payout_value).
#[export] Instance set_com_curator_payout_value : Setter com_curator_payout_value := ltac:(derive_setter com_curator_payout_value).
#[export] Instance set_com_beneficiary_payout_value : Setter com_beneficiary_payout_value := ltac:(derive_setter com_beneficiary_payout_value).
#[export] Instance set_com_author_rewards : Setter com_author_rewards := ltac:(derive_setter com_author_rewards).
#[export] Instance set_com_net_votes : Setter com_net_votes := ltac:(derive_setter com_net_votes).
#[export] Instance set_com_root_comment : Setter com_root_comment := ltac:(derive_setter com_root_comment).
#[export] Instance set_com_max_accepted_payout : Setter com_max_accepted_payout := ltac:(derive_setter com_max_accepted_payout).
#[export] Instance set_com_percent_zattera_dollars : Setter com_percent_zattera_dollars := ltac:(derive_setter com_percent_zattera_dollars).
#[export] Instance set_com_allow_replies : Setter com_allow_replies := ltac:(derive_setter com_allow_replies).
#[export] Instance set_com_allow_votes : Setter com_allow_votes := ltac:(derive_setter com_allow_votes).
#[export] Instance set_com_allow_curation_rewards : Setter com_allow_curation_rewards := ltac:(derive_setter com_allow_curation_rewards).
#[export] Instance set_com_beneficiaries : Setter com_beneficiaries := ltac:(derive_setter com_beneficiaries).

Record comment_content_object := mk_comment_content_object {
  con_comment : Z;
  con_title : string;
  con_body : string;
  con_json_metadata : string
}.
#[export] Instance eta_comment_content_object : Eta comment_content_object := fun r => mk_comment_content_object
  (con_comment r) (con_title r) (con_body r) (con_json_metadata r).
#[export] Instance set_con_comment : Setter con_comment := ltac:(derive_setter con_comment).
#[export] Instance set_con_title : Setter con_title := ltac:(derive_setter con_title).
#[export] Instance set_con_body : Setter con_body := ltac:(derive_setter con_body).
#[export] Instance set_con_json_metadata : Setter con_json_metadata := ltac:(derive_setter con_json_metadata).

Record comment_vote_object := mk_comment_vote_object {
  cvo_voter : Z;
  cvo_comment : Z;
  cvo_weight : Z;
  cvo_rshares : Z;
  cvo_vote_percent : Z;
  cvo_last_update : time;
  cvo_num_changes : Z
}.
#[export] Instance eta_comment_vote_object : Eta comment_vote_object := fun r => mk_comment_vote_object
  (cvo_voter r) (cvo_comment r) (cvo_weight r) (cvo_rshares r) (cvo_vote_percent r)
  (cvo_last_update r) (cvo_num_changes r).
#[export] Instance set_cvo_voter : Setter cvo_voter := ltac:(derive_setter cvo_voter).
#[export] Instance set_cvo_comment : Setter cvo_comment := ltac:(derive_setter cvo_comment).
#[export] Instance set_cvo_weight : Setter cvo_weight := ltac:(derive_setter cvo_weight).
#[export] Instance set_cvo_rshares : Setter cvo_rshares := ltac:(derive_setter cvo_rshares).
#[export] Instance set_cvo_vote_percent : Setter cvo_vote_percent := ltac:(derive_setter cvo_vote_percent).
#[export] Instance set_cvo_last_update : Setter cvo_last_update := ltac:(derive_setter cvo_last_update).
#[export] Instance set_cvo_num_changes : Setter cvo_num_changes := ltac:(derive_setter cvo_num_changes).

Record convert_request_object := mk_convert_request_object {
  cro_owner : account_name_type;
  cro_requestid : Z;
  cro_amount : asset;
  cro_conversion_date : time
}.
#[export] Instance eta_convert_request_object : Eta convert_request_object := fun r => mk_convert_request_object
  (cro_owner r) (cro_requestid r) (cro_amount r) (cro_conversion_date r).
#[export] Instance set_cro_owner : Setter cro_owner := ltac:(derive_setter cro_owner).
#[export] Instance set_cro_requestid : Setter cro_requestid := ltac:(derive_setter cro_requestid).
#[export] Instance set_cro_amount : Setter cro_amount := ltac:(derive_setter cro_amount).
#[export] Instance set_cro_conversion_date : Setter cro_conversion_date := ltac:(derive_setter cro_conversion_date).

Record escrow_object := mk_escrow_object {
  esc_escrow_id : Z;
  esc_from : account_name_type;
  esc_to : account_name_type;
  esc_agent : account_name_type;
  esc_ratification_deadline : time;
  esc_escrow_expiration : time;
  esc_dollar_balance : asset;
  esc_liquid_balance : asset;
  esc_pending_fee : asset;
  esc_to_approved : bool;
  esc_agent_approved : bool;
  esc_disputed : bool
}.
#[export] Instance eta_escrow_object : Eta escrow_object := fun r => mk_escrow_object
  (esc_escrow_id r) (esc_from r) (esc_to r) (esc_agent r) (esc_ratification_deadline r)
  (esc_escrow_expiration r) (esc_dollar_balance r) (esc_liquid_balance r) (esc_pending_fee r)
  (esc_to_approved r) (esc_agent_approved r) (esc_disputed r).
#[export] Instance set_esc_escrow_id : Setter esc_escrow_id := ltac:(derive_setter esc_escrow_id).
#[export] Instance set_esc_from : Setter esc_from := ltac:(derive_setter esc_from).
#[export] Instance set_esc_to : Setter esc_to := ltac:(derive_setter esc_to).
#[export] Instance set_esc_agent : Setter esc_agent := ltac:(derive_setter esc_agent).
#[export] Instance set_esc_ratification_deadline : Setter esc_ratification_deadline := ltac:(derive_setter esc_ratification_deadline).
#[export] Instance set_esc_escrow_expiration : Setter esc_escrow_expiration := ltac:(derive_setter esc_escrow_expiration).
#[export] Instance set_esc_dollar_balance : Setter esc_dollar_balance := ltac:(derive_setter esc_dollar_balance).
#[export] Instance set_esc_liquid_balance : Setter esc_liquid_balance := ltac:(derive_setter esc_liquid_balance).
#[export] Instance set_esc_pending_fee : Setter esc_pending_fee := ltac:(derive_setter esc_pending_fee).
#[export] Instance set_esc_to_approved : Setter esc_to_approved := ltac:(derive_setter esc_to_approved).
#[export] Instance set_esc_agent_approved : Setter esc_agent_approved := ltac:(derive_setter esc_agent_approved).
#[export] Instance set_esc_disputed : Setter esc_disputed := ltac:(derive_setter esc_disputed).

Record savings_withdraw_object := mk_savings_withdraw_object {
  swo_from : account_name_type;
  swo_to : account_name_type;
  swo_memo : string;
  swo_request_id : Z;
  swo_amount : asset;
  swo_complete : time
}.
#[export] Instance eta_savings_withdraw_object : Eta savings_withdraw_object := fun r => mk_savings_withdraw_object
  (swo_from r) (swo_to r) (swo_memo r) (swo_request_id r) (swo_amount r) (swo_complete r).
#[export] Instance set_swo_from : Setter swo_from := ltac:(derive_setter swo_from).
#[export] Instance set_swo_to : Setter swo_to := ltac:(derive_setter swo_to).
#[export] Instance set_swo_memo : Setter swo_memo := ltac:(derive_setter swo_memo).
#[export] Instance set_swo_request_id : Setter swo_request_id := ltac:(derive_setter swo_request_id).
#[export] Instance set_swo_amount : Setter swo_amount := ltac:(derive_setter swo_amount).
#[export] Instance set_swo_complete : Setter swo_complete := ltac:(derive_setter swo_complete).

Record feed_history_object := mk_feed_history_object {
  fho_current_median_history : price;
  fho_price_history : list price
}.
#[export] Instance eta_feed_history_object : Eta feed_history_object := fun r => mk_feed_history_object
  (fho_current_median_history r) (fho_price_history r).
#[export] Instance set_fho_current_median_history : Setter fho_current_median_history := ltac:(derive_setter fho_current_median_history).
#[export] Instance set_fho_price_history : Setter fho_price_history := ltac:(derive_setter fho_price_history).

Record limit_order_object := mk_limit_order_object {
  loo_created : time;
  loo_expiration : time;
  loo_seller : account_name_type;
  loo_orderid : Z;
  loo_for_sale : share_type;
  loo_sell_price : price
}.
#[export] Instance eta_limit_order_object : Eta limit_order_object := fun r => mk_limit_order_object
  (loo_created r) (loo_expiration r) (loo_seller r) (loo_orderid r) (loo_for_sale r)
  (loo_sell_price r).
#[export] Instance set_loo_created : Setter loo_created := ltac:(derive_setter loo_created).
#[export] Instance set_loo_expiration : Setter loo_expiration := ltac:(derive_setter loo_expiration).
#[export] Instance set_loo_seller : Setter loo_seller := ltac:(derive_setter loo_seller).
#[export] Instance set_loo_orderid : Setter loo_orderid := ltac:(derive_setter loo_orderid).
#[export] Instance set_loo_for_sale : Setter loo_for_sale := ltac:(derive_setter loo_for_sale).
#[export] Instance set_loo_sell_price : Setter loo_sell_price := ltac:(derive_setter loo_sell_price).

Record withdraw_vesting_route_object := mk_withdraw_vesting_route_object {
  wvr_from_account : account_name_type;
  wvr_to_account : account_name_type;
  wvr_percent : Z;
  wvr_auto_vest : bool
}.
#[export] Instance eta_withdraw_vesting_route_object : Eta withdraw_vesting_route_object := fun r => mk_withdraw_vesting_route_object
  (wvr_from_account r) (wvr_to_account r) (wvr_percent r) (wvr_auto_vest r).
#[export] Instance set_wvr_from_account : Setter wvr_from_account := ltac:(derive_setter wvr_from_account).
#[export] Instance set_wvr_to_account : Setter wvr_to_account := ltac:(derive_setter wvr_to_account).
#[export] Instance set_wvr_percent : Setter wvr_percent := ltac:(derive_setter wvr_percent).
#[export] Instance set_wvr_auto_vest : Setter wvr_auto_vest := ltac:(derive_setter wvr_auto_vest).

Record decline_voting_rights_request_object := mk_decline_voting_rights_request_object {
  dvr_account : account_name_type;
  dvr_effective_date : time
}.
#[export] Instance eta_decline_voting_rights_request_object : Eta decline_voting_rights_request_object := fun r => mk_decline_voting_rights_request_object
  (dvr_account r) (dvr_effective_date r).
#[export] Instance set_dvr_account : Setter dvr_account := ltac:(derive_setter dvr_account).
#[export] Instance set_dvr_effective_date : Setter dvr_effective_date := ltac:(derive_setter dvr_effective_date).

Record reward_fund_object := mk_reward_fund_object {
  rfo_name : string;
  rfo_reward_balance : asset;
  rfo_recent_claims : Z;
  rfo_last_update : time;
  rfo_content_constant : Z;
  rfo_percent_curation_rewards : Z;
  rfo_percent_content_rewards : Z;
  rfo_author_reward_curve : curve_id;
  rfo_curation_reward_curve : curve_id
}.
#[export] Instance eta_reward_fund_object : Eta reward_fund_object := fun r => mk_reward_fund_object
  (rfo_name r) (rfo_reward_balance r) (rfo_recent_claims r) (rfo_last_update r) (rfo_content_constant r)
  (rfo_percent_curation_rewards r) (rfo_percent_content_rewards r) (rfo_author_reward_curve r)
  (rfo_curation_reward_curve r).
#[export] Instance set_rfo_name : Setter rfo_name := ltac:(derive_setter rfo_name).
#[export] Instance set_rfo_reward_balance : Setter rfo_reward_balance := ltac:(derive_setter rfo_reward_balance).
#[export] Instance set_rfo_recent_claims : Setter rfo_recent_claims := ltac:(derive_setter rfo_recent_claims).
#[export] Instance set_rfo_last_update : Setter rfo_last_update := ltac:(derive_setter rfo_last_update).
#[export] Instance set_rfo_content_constant : Setter rfo_content_constant := ltac:(derive_setter rfo_content_constant).
#[export] Instance set_rfo_percent_curation_rewards : Setter rfo_percent_curation_rewards := ltac:(derive_setter rfo_percent_curation_rewards).
#[export] Instance set_rfo_percent_content_rewards : Setter rfo_percent_content_rewards := ltac:(derive_setter rfo_percent_content_rewards).
#[export] Instance set_rfo_author_reward_curve : Setter rfo_author_reward_curve := ltac:(derive_setter rfo_author_reward_curve).
#[export] Instance set_rfo_curation_reward_curve : Setter rfo_curation_reward_curve := ltac:(derive_setter rfo_curation_reward_curve).

Record dynamic_global_property_object := mk_dynamic_global_property_object {
  gpo_head_block_number : Z;
  gpo_head_block_id : block_id_type;
  gpo_time : time;
  gpo_current_witness : account_name_type;
  gpo_virtual_liquid_supply : asset;
  gpo_current_liquid_supply : asset;
  gpo_confidential_liquid_supply : asset;
  gpo_current_dollar_supply : asset;
  gpo_confidential_dollar_supply : asset;
  gpo_total_vesting_fund_liquid : asset;
  gpo_total_vesting_shares : asset;
  gpo_total_reward_fund_liquid : asset;
  gpo_total_reward_shares2 : Z;
  gpo_pending_rewarded_vesting_shares : asset;
  gpo_pending_rewarded_vesting_liquid : asset;
  gpo_dollar_interest_rate : Z;
  gpo_dollar_print_rate : Z;
  gpo_maximum_block_size : Z;
  gpo_current_aslot : Z;
  gpo_recent_slots_filled : Z;
  gpo_participation_count : Z;
  gpo_last_irreversible_block_num : Z;
  gpo_vote_power_reserve_rate : Z;
  gpo_delegation_return_period : Z
}.
#[export] Instance eta_dynamic_global_property_object : Eta dynamic_global_property_object := fun r => mk_dynamic_global_property_object
  (gpo_head_block_number r) (gpo_head_block_id r) (gpo_time r) (gpo_current_witness r)
  (gpo_virtual_liquid_supply r) (gpo_current_liquid_supply r) (gpo_confidential_liquid_supply r)
  (gpo_current_dollar_supply r) (gpo_confidential_dollar_supply r) (gpo_total_vesting_fund_liquid r)
  (gpo_total_vesting_shares r) (gpo_total_reward_fund_liquid r) (gpo_total_reward_shares2 r)
  (gpo_pending_rewarded_vesting_shares r) (gpo_pending_rewarded_vesting_liquid r) (gpo_dollar_interest_rate r)
  (gpo_dollar_print_rate r) (gpo_maximum_block_size r) (gpo_current_aslot r) (gpo_recent_slots_filled r)
  (gpo_participation_count r) (gpo_last_irreversible_block_num r) (gpo_vote_power_reserve_rate r)
  (gpo_delegation_return_period r).
#[export] Instance set_gpo_head_block_number : Setter gpo_head_block_number := ltac:(derive_setter gpo_head_block_number).
#[export] Instance set_gpo_head_block_id : Setter gpo_head_block_id := ltac:(derive_setter gpo_head_block_id).
#[export] Instance set_gpo_time : Setter gpo_time := ltac:(derive_setter gpo_time).
#[export] Instance set_gpo_current_witness : Setter gpo_current_witness := ltac:(derive_setter gpo_current_witness).
#[export] Instance set_gpo_virtual_liquid_supply : Setter gpo_virtual_liquid_supply := ltac:(derive_setter gpo_virtual_liquid_supply).
#[export] Instance set_gpo_current_liquid_supply : Setter gpo_current_liquid_supply := ltac:(derive_setter gpo_current_liquid_supply).
#[export] Instance set_gpo_confidential_liquid_supply : Setter gpo_confidential_liquid_supply := ltac:(derive_setter gpo_confidential_liquid_supply).
#[export] Instance set_gpo_current_dollar_supply : Setter gpo_current_dollar_supply := ltac:(derive_setter gpo_current_dollar_supply).
#[export] Instance set_gpo_confidential_dollar_supply : Setter gpo_confidential_dollar_supply := ltac:(derive_setter gpo_confidential_dollar_supply).
#[export] Instance set_gpo_total_vesting_fund_liquid : Setter gpo_total_vesting_fund_liquid := ltac:(derive_setter gpo_total_vesting_fund_liquid).
#[export] Instance set_gpo_total_vesting_shares : Setter gpo_total_vesting_shares := ltac:(derive_setter gpo_total_vesting_shares).
#[export] Instance set_gpo_total_reward_fund_liquid : Setter gpo_total_reward_fund_liquid := ltac:(derive_setter gpo_total_reward_fund_liquid).
#[export] Instance set_gpo_total_reward_shares2 : Setter gpo_total_reward_shares2 := ltac:(derive_setter gpo_total_reward_shares2).
#[export] Instance set_gpo_pending_rewarded_vesting_shares : Setter gpo_pending_rewarded_vesting_shares := ltac:(derive_setter gpo_pending_rewarded_vesting_shares).
#[export] Instance set_gpo_pending_rewarded_vesting_liquid : Setter gpo_pending_rewarded_vesting_liquid := ltac:(derive_setter gpo_pending_rewarded_vesting_liquid).
#[export] Instance set_gpo_dollar_interest_rate : Setter gpo_dollar_interest_rate := ltac:(derive_setter gpo_dollar_interest_rate).
#[export] Instance set_gpo_dollar_print_rate : Setter gpo_dollar_print_rate := ltac:(derive_setter gpo_dollar_print_rate).
#[export] Instance set_gpo_maximum_block_size : Setter gpo_maximum_block_size := ltac:(derive_setter gpo_maximum_block_size).
#[export] Instance set_gpo_current_aslot : Setter gpo_current_aslot := ltac:(derive_setter gpo_current_aslot).
#[export] Instance set_gpo_recent_slots_filled : Setter gpo_recent_slots_filled := ltac:(derive_setter gpo_recent_slots_filled).
#[export] Instance set_gpo_participation_count : Setter gpo_participation_count := ltac:(derive_setter gpo_participation_count).
#[export] Instance set_gpo_last_irreversible_block_num : Setter gpo_last_irreversible_block_num := ltac:(derive_setter gpo_last_irreversible_block_num).
#[export] Instance set_gpo_vote_power_reserve_rate : Setter gpo_vote_power_reserve_rate := ltac:(derive_setter gpo_vote_power_reserve_rate).
#[export] Instance set_gpo_delegation_return_period : Setter gpo_delegation_return_period := ltac:(derive_setter gpo_delegation_return_period).

Record hardfork_property_object := mk_hardfork_property_object {
  hpo_processed_hardforks : list time;
  hpo_last_hardfork : Z;
  hpo_current_hardfork_version : Z;
  hpo_next_hardfork : Z;
  hpo_next_hardfork_time : time
}.
#[export] Instance eta_hardfork_property_object : Eta hardfork_property_object := fun r => mk_hardfork_property_object
  (hpo_processed_hardforks r) (hpo_last_hardfork r) (hpo_current_hardfork_version r)
  (hpo_next_hardfork r) (hpo_next_hardfork_time r).
#[export] Instance set_hpo_processed_hardforks : Setter hpo_processed_hardforks := ltac:(derive_setter hpo_processed_hardforks).
#[export] Instance set_hpo_last_hardfork : Setter hpo_last_hardfork := ltac:(derive_setter hpo_last_hardfork).
#[export] Instance set_hpo_current_hardfork_version : Setter hpo_current_hardfork_version := ltac:(derive_setter hpo_current_hardfork_version).
#[export] Instance set_hpo_next_hardfork : Setter hpo_next_hardfork := ltac:(derive_setter hpo_next_hardfork).
#[export] Instance set_hpo_next_hardfork_time : Setter hpo_next_hardfork_time := ltac:(derive_setter hpo_next_hardfork_time).

Record transaction_object := mk_transaction_object {
  txo_trx_id : string;
  txo_expiration : time
}.
#[export] Instance eta_transaction_object : Eta transaction_object := fun r => mk_transaction_object
  (txo_trx_id r) (txo_expiration r).
#[export] Instance set_txo_trx_id : Setter txo_trx_id := ltac:(derive_setter txo_trx_id).
#[export] Instance set_txo_expiration : Setter txo_expiration := ltac:(derive_setter txo_expiration).

(** block_summary_object.hpp: the ids of the last 65536 blocks, by the low 16
    bits of the block number. *)
Record block_summary_object := mk_block_summary_object { bso_block_id : block_id_type }.
#[export] Instance eta_block_summary_object : Eta block_summary_object := fun r => mk_block_summary_object (bso_block_id r).
#[export] Instance set_bso_block_id : Setter bso_block_id := ltac:(derive_setter bso_block_id).

(** ** Tables and the database *)

Record table (A : Type) := mk_table { next_id : Z; rows : gmap Z A }.
Arguments mk_table {A} _ _.
Arguments next_id {A} _.
Arguments rows {A} _.
Definition empty_table {A} : table A := mk_table 0 ∅.

Record database := mk_database {
  account_index : table account_object;
  account_authority_index : table account_authority_object;
  vesting_delegation_index : table vesting_delegation_object;
  vesting_delegation_expiration_index : table vesting_delegation_expiration_object;
  owner_authority_history_index : table owner_authority_history_object;
  account_recovery_request_index : table account_recovery_request_object;
  change_recovery_account_request_index : table change_recovery_account_request_object;
  witness_index : table witness_object;
  witness_vote_index : table witness_vote_object;
  comment_index : table comment_object;
  comment_content_index : table comment_content_object;
  comment_vote_index : table comment_vote_object;
  convert_request_index : table convert_request_object;
  escrow_index : table escrow_object;
  savings_withdraw_index : table savings_withdraw_object;
  limit_order_index : table limit_order_object;
  withdraw_vesting_route_index : table withdraw_vesting_route_object;
  decline_voting_rights_request_index : table decline_voting_rights_request_object;
  reward_fund_index : table reward_fund_object;
  transaction_index : table transaction_object;
  block_summary_index : table block_summary_object;
  gpo : dynamic_global_property_object;
  feed_history : feed_history_object;
  witness_schedule : witness_schedule_object;
  hardforks : hardfork_property_object;
  is_producing : bool;
  virtual_ops : list virtual_operation
}.
#[export] Instance eta_database : Eta database := fun r => mk_database
  (account_index r) (account_authority_index r) (vesting_delegation_index r) (vesting_delegation_expiration_index r)
  (owner_authority_history_index r) (account_recovery_request_index r) (change_recovery_account_request_index r)
  (witness_index r) (witness_vote_index r) (comment_index r) (comment_content_index r)
  (comment_vote_index r) (convert_request_index r) (escrow_index r) (savings_withdraw_index r)
  (limit_order_index r) (withdraw_vesting_route_index r) (decline_voting_rights_request_index r)
  (reward_fund_index r) (transaction_index r) (block_summary_index r) (gpo r) (feed_history r) (witness_schedule r)
  (hardforks r) (is_producing r) (virtual_ops r).
#[export] Instance set_account_index : Setter account_index := ltac:(derive_setter account_index).
#[export] Instance set_account_authority_index : Setter account_authority_index := ltac:(derive_setter account_authority_index).
#[export] Instance set_vesting_delegation_index : Setter vesting_delegation_index := ltac:(derive_setter vesting_delegation_index).
#[export] Instance set_vesting_delegation_expiration_index : Setter vesting_delegation_expiration_index := ltac:(derive_setter vesting_delegation_expiration_index).
#[export] Instance set_owner_authority_history_index : Setter owner_authority_history_index := ltac:(derive_setter owner_authority_history_index).
#[export] Instance set_account_recovery_request_index : Setter account_recovery_request_index := ltac:(derive_setter account_recovery_request_index).
#[export] Instance set_change_recovery_account_request_index : Setter change_recovery_account_request_index := ltac:(derive_setter change_recovery_account_request_index).
#[export] Instance set_witness_index : Setter witness_index := ltac:(derive_setter witness_index).
#[export] Instance set_witness_vote_index : Setter witness_vote_index := ltac:(derive_setter witness_vote_index).
#[export] Instance set_comment_index : Setter comment_index := ltac:(derive_setter comment_index).
#[export] Instance set_comment_content_index : Setter comment_content_index := ltac:(derive_setter comment_content_index).
#[export] Instance set_comment_vote_index : Setter comment_vote_index := ltac:(derive_setter comment_vote_index).
#[export] Instance set_convert_request_index : Setter convert_request_index := ltac:(derive_setter convert_request_index).
#[export] Instance set_escrow_index : Setter escrow_index := ltac:(derive_setter escrow_index).
#[export] Instance set_savings_withdraw_index : Setter savings_withdraw_index := ltac:(derive_setter savings_withdraw_index).
#[export] Instance set_limit_order_index : Setter limit_order_index := ltac:(derive_setter limit_order_index).
#[export] Instance set_withdraw_vesting_route_index : Setter withdraw_vesting_route_index := ltac:(derive_setter withdraw_vesting_route_index).
#[export] Instance set_decline_voting_rights_request_index : Setter decline_voting_rights_request_index := ltac:(derive_setter decline_voting_rights_request_index).
#[export] Instance set_reward_fund_index : Setter reward_fund_index := ltac:(derive_setter reward_fund_index).
#[export] Instance set_transaction_index : Setter transaction_index := ltac:(derive_setter transaction_index).
#[export] Instance set_block_summary_index : Setter block_summary_index := ltac:(derive_setter block_summary_index).
#[export] Instance set_gpo : Setter gpo := ltac:(derive_setter gpo).
#[export] Instance set_feed_history : Setter feed_history := ltac:(derive_setter feed_history).
#[export] Instance set_witness_schedule : Setter witness_schedule := ltac:(derive_setter witness_schedule).
#[export] Instance set_hardforks : Setter hardforks := ltac:(derive_setter hardforks).
#[export] Instance set_is_producing : Setter is_producing := ltac:(derive_setter is_producing).
#[export] Instance set_virtual_ops : Setter virtual_ops := ltac:(derive_setter virtual_ops).

