(* ===== verification/Blocks.v ===== *)
(** * Transactions, blocks and their identifiers

    src/src/core/protocol/transaction.cpp and block.cpp with their headers: the
    identifiers of transactions and blocks, signature keys, the reference block
    of a transaction and the merkle root of a block.  What concerns only the
    header of a block is in Headers.v.  The hash functions of fc, the
    serialization they read and elliptic curve keys are the class [Crypto], on
    top of [HeaderCrypto]. *)
From S2P Require Import Prelude Ints Config Asset Authority Headers Operations State.

(** ** Records *)

Record signed_transaction := mk_signed_transaction {
  trx_ref_block_num : Z;
  trx_ref_block_prefix : Z;
  trx_expiration : time;
  trx_operations : list operation;
  trx_extensions : list unit;
  trx_signatures : list string
}.
#[export] Instance eta_signed_transaction : Eta signed_transaction := fun r =>
  mk_signed_transaction (trx_ref_block_num r) (trx_ref_block_prefix r) (trx_expiration r)
    (trx_operations r) (trx_extensions r) (trx_signatures r).

Record signed_block := mk_signed_block {
  blk_previous : block_id_type;
  blk_timestamp : time;
  blk_witness : account_name_type;
  blk_transaction_merkle_root : string;
  blk_extensions : list header_extension;
  blk_witness_signature : string;
  blk_transactions : list signed_transaction
}.
#[export] Instance eta_signed_block : Eta signed_block := fun r =>
  mk_signed_block (blk_previous r) (blk_timestamp r) (blk_witness r)
    (blk_transaction_merkle_root r) (blk_extensions r) (blk_witness_signature r)
    (blk_transactions r).

(** What the chain uses of fc's hashing, serialization and elliptic curves.  A
    digest covers exactly its argument; the callers below blank the fields that
    the packed base class does not have. *)
Class Crypto := {
  crypto_header :: HeaderCrypto;
  chain_id : string;
  hash_transaction : signed_transaction → digest_type;
  hash_with_chain_id : string → signed_transaction → digest_type;
  hash_pair : digest_type → digest_type → digest_type;
  hash_checksum : digest_type → string;
  sign_compact : string → digest_type → string;
  get_public_key : string → public_key_type;
  pack_size : signed_block → Z;
  trx_pack_size : signed_transaction → Z;
}.

(** ** Transaction identifiers *)

(** [transaction_id_type] keeps the first 20 of the 32 bytes of a digest, 40 hex
    digits. *)
Definition truncate_digest (d : digest_type) : string := String.substring 0 40 d.

(** The root of an empty block is the zero checksum. *)
Definition null_checksum : string := "0000000000000000000000000000000000000000".

Section Blocks.
Context `{Crypto}.

(** ** Transactions *)

(** The base class [transaction] has no signatures. *)
Definition transaction_part (trx : signed_transaction) : signed_transaction :=
  trx <| trx_signatures := [] |>.

Definition transaction_digest (trx : signed_transaction) : digest_type :=
  hash_transaction (transaction_part trx).
Definition merkle_digest (trx : signed_transaction) : digest_type := hash_transaction trx.
Definition sig_digest (trx : signed_transaction) : digest_type :=
  hash_with_chain_id chain_id (transaction_part trx).
Definition transaction_id (trx : signed_transaction) : string :=
  truncate_digest (transaction_digest trx).

Definition sign (key : string) (trx : signed_transaction) : signed_transaction :=
  trx <| trx_signatures ::= fun l => l ++ [sign_compact key (sig_digest trx)] |>.

Definition set_expiration (t : time) (trx : signed_transaction) : signed_transaction :=
  trx <| trx_expiration := t |>.

Definition set_reference_block (id : block_id_type) (trx : signed_transaction)
  : signed_transaction :=
  trx <| trx_ref_block_num := wrap_u16 (endian_reverse_u32 (id_word 0 id)) |>
      <| trx_ref_block_prefix := id_word 1 id |>.

(** The recovered keys; the same key twice is refused. *)
Definition add_signature (d : digest_type) (keys : list public_key_type) (sig : string)
  : res (list public_key_type) :=
  let? k := recover_key sig d in
  let? _ := res_assert (negb (bool_decide (k ∈ keys))) "Duplicate Signature detected" in
  Ok (keys ++ [k]).
Definition signature_keys (trx : signed_transaction) : res (list public_key_type) :=
  res_fold (add_signature (sig_digest trx)) [] (trx_signatures trx).

(** ** Block headers *)

(** [signed_block_header], the base class of [signed_block]. *)
Definition signed_header_part (b : signed_block) : signed_block_header :=
  mk_signed_block_header (blk_previous b) (blk_timestamp b) (blk_witness b)
    (blk_transaction_merkle_root b) (blk_extensions b) (blk_witness_signature b).

Definition block_num (b : signed_block) : Z := header_num (signed_header_part b).
Definition block_digest (b : signed_block) : digest_type := header_digest (signed_header_part b).
Definition block_id (b : signed_block) : block_id_type := header_id (signed_header_part b).
Definition signee (b : signed_block) : res public_key_type := header_signee (signed_header_part b).
Definition sign_block (key : string) (b : signed_block) : signed_block :=
  b <| blk_witness_signature := sign_compact key (block_digest b) |>.
Definition validate_signee (b : signed_block) (expected_signee : public_key_type) : res bool :=
  let? k := signee b in Ok (bool_decide (k = expected_signee)).

(** ** The merkle root *)

(** The loop over the pairs of one level, in place. *)
Fixpoint hash_pairs (n i k : nat) (ids : list digest_type) : list digest_type :=
  match n with
  | O => ids
  | S n' =>
      hash_pairs n' (i + 2) (S k)
        (<[k := hash_pair (nth i ids ""%string) (nth (S i) ids ""%string)]> ids)
  end.

(** One level: the hashes of the first [count] entries move to the front, an odd
    one at the end moves as it is. *)
Definition merkle_level (count : nat) (ids : list digest_type) : nat * list digest_type :=
  let i_max := (count - count mod 2)%nat in
  let k := (i_max / 2)%nat in
  let ids := hash_pairs k 0 0 ids in
  if bool_decide ((count mod 2)%nat = 1%nat)
  then (S k, <[k := nth i_max ids ""%string]> ids)
  else (k, ids).

(** Each level at least halves the count, so [count] levels are enough. *)
Fixpoint merkle_levels (fuel count : nat) (ids : list digest_type) : list digest_type :=
  match fuel with
  | O => ids
  | S fuel' =>
      if (1 <? count)%nat then
        let '(count', ids') := merkle_level count ids in merkle_levels fuel' count' ids'
      else ids
  end.

Definition calculate_merkle_root (trxs : list signed_transaction) : string :=
  match trxs with
  | [] => null_checksum
  | _ =>
      let ids := merkle_digest <$> trxs in
      hash_checksum (nth 0 (merkle_levels (length ids) (length ids) ids) ""%string)
  end.

End Blocks.

(** ** Identifiers carry the block number *)

Section Identifiers.
Context `{Crypto}.

(** A sha224 digest is seven words; the identifier keeps five of them, the first
    replaced by the block number. *)
Lemma block_id_word0 b : sha224_header (signed_header_part b) ≠ [] →
  id_word 0 (block_id b) = endian_reverse_u32 (block_num b).
Proof. unfold block_id, header_id, id_word, block_num. by destruct (sha224_header _). Qed.

Lemma num_from_block_id b : sha224_header (signed_header_part b) ≠ [] →
  num_from_id (block_id b) = block_num b.
Proof.
  intros Hs. unfold num_from_id. rewrite block_id_word0 by done.
  apply endian_reverse_involutive_wrap.
Qed.

Lemma reference_block_index b trx : sha224_header (signed_header_part b) ≠ [] →
  trx_ref_block_num (set_reference_block (block_id b) trx) = Z.land (block_num b) 0xffff.
Proof.
  intros Hs. unfold set_reference_block, upd; cbn [trx_ref_block_num].
  fold (num_from_id (block_id b)). rewrite num_from_block_id by done.
  change 0xffff with (Z.ones 16). by rewrite Z.land_ones by lia.
Qed.

End Identifiers.

(** ** The merkle root *)

Section Merkle.
Context `{Crypto}.

(** The specification: the level above a list hashes it in pairs, and a single
    digest is its own tree. *)
Fixpoint pair_up (l : list digest_type) : list digest_type :=
  match l with
  | a :: b :: l' => hash_pair a b :: pair_up l'
  | _ => l
  end.

Inductive merkle_tree : list digest_type → digest_type → Prop :=
| merkle_leaf d : merkle_tree [d] d
| merkle_node a b l r : merkle_tree (pair_up (a :: b :: l)) r → merkle_tree (a :: b :: l) r.

Lemma list_pair_ind (P : list digest_type → Prop) :
  P [] → (∀ a, P [a]) → (∀ a b l, P l → P (a :: b :: l)) → ∀ l, P l.
Proof.
  intros H0 H1 H2. fix IH 1. intros [|a [|b l]]; [done|done|]. apply H2, IH.
Qed.

Lemma pair_up_length l : length (pair_up l) = (length l - length l / 2)%nat.
Proof.
  induction l as [|a|a b l IH] using list_pair_ind; [done|done|]. cbn [pair_up length].
  rewrite IH. replace (S (S (length l))) with (length l + 1 * 2)%nat by lia.
  rewrite Nat.div_add by lia. pose proof (Nat.Div0.div_le_mono (length l) (length l) 2).
  assert (length l / 2 ≤ length l)%nat by (apply Nat.Div0.div_le_upper_bound; lia). lia.
Qed.

Lemma pair_up_lookup l j :
  pair_up l !! j =
  match l !! (2 * j)%nat, l !! (S (2 * j)) with
  | Some a, Some b => Some (hash_pair a b)
  | o, _ => o
  end.
Proof.
  revert j. induction l as [|a|a b l IH] using list_pair_ind; intros j.
  - done.
  - destruct j as [|j]; [done|]. by replace (2 * S j)%nat with (S (S (2 * j))) by lia.
  - destruct j as [|j]; [done|]. replace (2 * S j)%nat with (S (S (2 * j))) by lia.
    cbn [pair_up lookup list_lookup]. apply IH.
Qed.

Lemma nth_lookup_Some (l : list digest_type) i x : l !! i = Some x → nth i l ""%string = x.
Proof. intros Hx. by rewrite nth_lookup, Hx. Qed.

(** What the loop over the pairs leaves at each position. *)
Lemma hash_pairs_lookup n k ids :
  (2 * (k + n) ≤ length ids)%nat →
  length (hash_pairs n (2 * k) k ids) = length ids ∧
  ∀ j, hash_pairs n (2 * k) k ids !! j =
    if bool_decide (k ≤ j < k + n)%nat
    then Some (hash_pair (nth (2 * j) ids ""%string) (nth (S (2 * j)) ids ""%string))
    else ids !! j.
Proof.
  revert k ids. induction n as [|n IH]; intros k ids Hl; cbn [hash_pairs].
  { split; [done|]. intros j. by rewrite bool_decide_eq_false_2 by lia. }
  replace (2 * k + 2)%nat with (2 * S k)%nat by lia.
  set (ids' := <[k := _]> ids).
  destruct (IH (S k) ids') as [IHl IHj]; [unfold ids'; rewrite length_insert; lia|].
  split; [rewrite IHl; apply length_insert|].
  intros j. rewrite IHj. unfold ids'. destruct (decide (j = k)) as [->|Hne].
  { rewrite bool_decide_eq_false_2, bool_decide_eq_true_2 by lia.
    rewrite list_lookup_insert_eq; [done|lia]. }
  destruct (decide (S k ≤ j < S k + n)%nat).
  - rewrite !bool_decide_eq_true_2 by lia.
    by rewrite !nth_lookup, !list_lookup_insert_ne by lia.
  - rewrite !bool_decide_eq_false_2 by lia. by rewrite list_lookup_insert_ne by lia.
Qed.

Lemma half_count c : (c = 2 * (c / 2) + c mod 2 ∧ c mod 2 < 2)%nat.
Proof. split; [apply Nat.div_mod; lia|apply Nat.mod_upper_bound; lia]. Qed.

(** A level of the loop computes [pair_up] in the front of the array. *)
Lemma merkle_level_spec count ids :
  (count ≤ length ids)%nat →
  let r := merkle_level count ids in
  r.1 = (count - count / 2)%nat ∧ (r.1 ≤ length r.2)%nat ∧
  take r.1 r.2 = pair_up (take count ids).
Proof.
  intros Hl. destruct (half_count count) as [Hc Hm].
  assert ((count - count mod 2) / 2 = count / 2)%nat as Hk.
  { replace (count - count mod 2)%nat with (count / 2 * 2)%nat by lia. apply Nat.div_mul. lia. }
  unfold merkle_level. rewrite Hk.
  destruct (hash_pairs_lookup (count / 2) 0 ids) as [Hlen Hj]; [lia|].
  change (2 * 0)%nat with 0%nat in *. set (res := hash_pairs _ _ _ _) in *.
  assert (∀ j, (j < count / 2)%nat → res !! j = pair_up (take count ids) !! j) as Hpair.
  { intros j Hlt. rewrite Hj, bool_decide_eq_true_2, pair_up_lookup by lia.
    destruct (lookup_lt_is_Some_2 ids (2 * j)) as [x Hx]; [lia|].
    destruct (lookup_lt_is_Some_2 ids (S (2 * j))) as [y Hy]; [lia|].
    rewrite !lookup_take_lt by lia. rewrite Hx, Hy.
    by rewrite (nth_lookup_Some _ _ _ Hx), (nth_lookup_Some _ _ _ Hy). }
  assert (length (pair_up (take count ids)) = (count - count / 2)%nat) as Hpl.
  { rewrite pair_up_length, length_take. by replace (count `min` length ids)%nat with count by lia. }
  case_bool_decide as Ho; cbn [fst snd].
  - split_and!; [lia|rewrite length_insert; lia|]. apply list_eq. intros j.
    destruct (decide (j < S (count / 2))%nat) as [Hlt|Hge].
    2:{ rewrite lookup_take_ge by lia. symmetry. apply lookup_ge_None. lia. }
    rewrite lookup_take_lt by lia. destruct (decide (j = count / 2)%nat) as [->|Hne].
    + rewrite list_lookup_insert_eq by lia. rewrite pair_up_lookup.
      replace (count - count mod 2)%nat with (2 * (count / 2))%nat by lia.
      destruct (lookup_lt_is_Some_2 ids (2 * (count / 2))) as [x Hx]; [lia|].
      rewrite lookup_take_lt, (lookup_take_ge _ _ (S _)), Hx by lia.
      f_equal. apply nth_lookup_Some. rewrite Hj, bool_decide_eq_false_2 by lia. done.
    + rewrite list_lookup_insert_ne by lia. apply Hpair. lia.
  - split_and!; [lia|lia|]. apply list_eq. intros j.
    destruct (decide (j < count / 2)%nat) as [Hlt|Hge].
    + rewrite lookup_take_lt by lia. by apply Hpair.
    + rewrite lookup_take_ge by lia. symmetry. apply lookup_ge_None. lia.
Qed.

Lemma merkle_levels_spec fuel count ids :
  (count ≤ fuel)%nat → (1 ≤ count ≤ length ids)%nat →
  ∃ r, merkle_tree (take count ids) r ∧ nth 0 (merkle_levels fuel count ids) ""%string = r.
Proof.
  revert count ids. induction fuel as [|fuel IH]; intros count ids Hf Hc; [lia|].
  cbn [merkle_levels]. destruct (Nat.ltb_spec 1 count) as [Hlt|Hge].
  - destruct (merkle_level_spec count ids) as (Hc' & Hl' & Ht); [lia|].
    destruct (merkle_level count ids) as [count' ids']; cbn [fst snd] in *.
    destruct (half_count count).
    destruct (IH count' ids') as (r & Hr & Hn); [lia|lia|]. exists r. split; [|done].
    rewrite Ht in Hr. destruct ids as [|a [|b l]]; cbn in Hc; [lia|lia|].
    destruct count as [|[|count]]; [lia|lia|]. by apply merkle_node.
  - assert (count = 1%nat) as -> by lia. destruct ids as [|a l]; cbn in Hc; [lia|].
    exists a. split; [|done]. apply merkle_leaf.
Qed.

Lemma calculate_merkle_root_tree trx trxs :
  ∃ r, merkle_tree (merkle_digest <$> trx :: trxs) r ∧
    calculate_merkle_root (trx :: trxs) = hash_checksum r.
Proof.
  set (ids := merkle_digest <$> trx :: trxs).
  destruct (merkle_levels_spec (length ids) (length ids) ids) as (r & Hr & Hn); [lia|cbn; lia|].
  rewrite firstn_all in Hr. exists r. split; [done|]. unfold calculate_merkle_root.
  by fold ids; rewrite Hn.
Qed.

Lemma merkle_tree_det l r r' : merkle_tree l r → merkle_tree l r' → r = r'.
Proof.
  intros Hr. revert r'. induction Hr as [d|a b l r Hr IH]; intros r' Hr'; inversion Hr'; auto.
Qed.

(** The in-place loop of [calculate_merkle_root] builds the merkle tree: the
    root of a non-empty block is the checksum of the one digest that pairing the
    transaction digests level by level ends in, for every number of
    transactions. *)
Theorem merkle_root_equiv trx trxs d :
  calculate_merkle_root (trx :: trxs) = d ↔
  ∃ r, merkle_tree (merkle_digest <$> trx :: trxs) r ∧ d = hash_checksum r ∧
       ∀ r', merkle_tree (merkle_digest <$> trx :: trxs) r' → r' = r.
Proof.
  destruct (calculate_merkle_root_tree trx trxs) as (r & Hr & ->). split.
  - intros <-. exists r. split_and!; [done..|]. intros r' Hr'. by eapply merkle_tree_det.
  - intros (r' & _ & -> & Hu). by rewrite (Hu r Hr).
Qed.

(** ** The root binds the transactions *)

(** The pairs that a level hashes, and those hashed anywhere in the tree. *)
Fixpoint adjacent (l : list digest_type) : list (digest_type * digest_type) :=
  match l with a :: b :: l' => (a, b) :: adjacent l' | _ => [] end.
Inductive hashed : list digest_type → digest_type * digest_type → Prop :=
| hashed_here l p : p ∈ adjacent l → hashed l p
| hashed_above a b l p : hashed (pair_up (a :: b :: l)) p → hashed (a :: b :: l) p.

(** Among the values that computing the two trees hashes, two different ones
    have the same hash. *)
Definition pair_collision (l l' : list digest_type) : Prop :=
  ∃ p q, hashed l p ∧ hashed l' q ∧ p ≠ q ∧ hash_pair p.1 p.2 = hash_pair q.1 q.2.
Definition checksum_collision (l l' : list digest_type) : Prop :=
  ∃ r r', merkle_tree l r ∧ merkle_tree l' r' ∧ r ≠ r' ∧ hash_checksum r = hash_checksum r'.

Lemma pair_up_binding l l' :
  length l = length l' → pair_up l = pair_up l' →
  l = l' ∨ ∃ p q, p ∈ adjacent l ∧ q ∈ adjacent l' ∧ p ≠ q ∧
    hash_pair p.1 p.2 = hash_pair q.1 q.2.
Proof.
  revert l'. induction l as [|a|a b l IH] using list_pair_ind;
    intros [|a' [|b' l']] Hlen Heq; cbn in Hlen; try lia; [by left|by left|].
  cbn [pair_up] in Heq. injection Heq as Hp Heq. cbn [adjacent].
  destruct (decide ((a, b) = (a', b'))) as [Heq'|Hne].
  - injection Heq' as -> ->. destruct (IH l') as [->|(p & q & ? & ? & ?)]; [lia|done|by left|].
    right. exists p, q. rewrite !elem_of_cons. tauto.
  - right. exists (a, b), (a', b'). rewrite !elem_of_cons. tauto.
Qed.

Lemma merkle_tree_binding l l' r :
  length l = length l' → merkle_tree l r → merkle_tree l' r → l = l' ∨ pair_collision l l'.
Proof.
  intros Hlen Ht. revert l' Hlen. induction Ht as [d|a b l r Hr IH]; intros l' Hlen Ht'.
  - inversion Ht'; subst; [by left|]. cbn in Hlen. lia.
  - inversion Ht' as [|a' b' l2 ? Hr']; subst; [cbn in Hlen; lia|].
    destruct (IH (pair_up (a' :: b' :: l2))) as [Heq|(p & q & Hp & Hq & ?)]; [|done| |].
    + rewrite !pair_up_length. by rewrite Hlen.
    + apply pair_up_binding in Heq as [?|(p & q & Hp & Hq & ?)]; [by left| |done].
      right. exists p, q. split_and!; [by apply hashed_here..|tauto|tauto].
    + right. exists p, q. split_and!; [by apply hashed_above..|tauto|tauto].
Qed.

(** C40: the merkle root binds the transactions of a block: two blocks with as
    many transactions and the same root have the same sequence of transaction
    digests, or computing the two roots hashes two different values to one. *)
Theorem merkle_root_binding trxs trxs' :
  let ids := merkle_digest <$> trxs in
  let ids' := merkle_digest <$> trxs' in
  length trxs = length trxs' →
  calculate_merkle_root trxs = calculate_merkle_root trxs' →
  ids = ids' ∨ pair_collision ids ids' ∨ checksum_collision ids ids'.
Proof.
  intros ids ids' Hlen Heq.
  destruct trxs as [|t ts], trxs' as [|t' ts']; cbn in Hlen; [by left|lia|lia|].
  destruct (calculate_merkle_root_tree t ts) as (r & Hr & E),
    (calculate_merkle_root_tree t' ts') as (r' & Hr' & E').
  rewrite E, E' in Heq. destruct (decide (r = r')) as [->|Hne].
  - destruct (merkle_tree_binding ids ids' r');
      [unfold ids, ids'; rewrite !length_fmap; cbn; lia|done..| |]; auto.
  - right. right. by exists r, r'.
Qed.
End Merkle.

(** Concrete stand-ins for the cryptography: a signature is the key it recovers
    to, a transaction hashes to its signatures, a pair to their concatenation and
    the other hashes are constant. *)
Definition sample_header_crypto : HeaderCrypto := {|
  hash_header _ := "header"; sha224_header h := [0; hdr_timestamp h; 0; 0; 0; 0; 0];
  recover_key sig _ := Ok sig |}.
Definition sample_crypto : Crypto := {|
  crypto_header := sample_header_crypto;
  chain_id := "chain"; hash_transaction t := String.append "trx" (String.concat "" (trx_signatures t)); hash_with_chain_id _ _ := "sig";
  hash_pair a b := String.append a b; hash_checksum d := d;
  sign_compact key _ := key; get_public_key key := key;
  pack_size _ := 100; trx_pack_size _ := 50 |}.

(** With a hash that concatenates, two blocks with different transactions share
    their root, and the theorem exhibits the collision. *)
Lemma merkle_root_binding_witness :
  let _ := sample_crypto in
  let t sigs := mk_signed_transaction 0 0 0 [] [] sigs in
  let ids := merkle_digest <$> [t []; t ["trx"%string]] in
  let ids' := merkle_digest <$> [t ["trx"%string]; t []] in
  ids ≠ ids' ∧ (pair_collision ids ids' ∨ checksum_collision ids ids').
Proof.
  intros K t ids ids'. split; [discriminate|].
  destruct (merkle_root_binding (H := K) [t []; t ["trx"%string]] [t ["trx"%string]; t []]) as [Heq|Hc];
    [reflexivity|vm_compute; reflexivity|discriminate Heq|exact Hc].
Defined.

(** An empty block; with [sample_crypto] its identifier carries the time stamp. *)
Definition sample_block (previous : block_id_type) (t : time) : signed_block :=
  mk_signed_block previous t "genesis" null_checksum [] "" [].
