(* ===== verification/ForkDb.v ===== *)
(** * The fork database

    src/src/core/chain/fork_database.cpp and .hpp: the tree of recent blocks.  An
    item is a heap cell behind a shared pointer; its link to the parent is a weak
    pointer, which [lock] turns into a pointer only while somebody still owns the
    parent.  The owners are the two indexes, [_head] and the local variables of
    running code ([fdb_held] and the [pins] of a loop).  Addresses are handed out
    in increasing order and never reused, as the control block of an expired weak
    pointer is not. *)
From S2P Require Import Prelude Ints Config Authority Headers Operations State Blocks.

Abbreviation item_ptr := nat (only parsing).

Record fork_item := mk_fork_item {
  itm_prev : option item_ptr;
  itm_num : Z;
  itm_invalid : bool;
  itm_id : block_id_type;
  itm_data : signed_block
}.
#[export] Instance eta_fork_item : Eta fork_item := fun r =>
  mk_fork_item (itm_prev r) (itm_num r) (itm_invalid r) (itm_id r) (itm_data r).

Record fork_database := mk_fork_database {
  fdb_heap : gmap item_ptr fork_item;
  fdb_next : item_ptr;
  fdb_held : list item_ptr;
  _max_size : Z;
  _unlinked_index : list item_ptr;
  _index : list item_ptr;
  _head : option item_ptr
}.
#[export] Instance eta_fork_database : Eta fork_database := fun r =>
  mk_fork_database (fdb_heap r) (fdb_next r) (fdb_held r) (_max_size r) (_unlinked_index r)
    (_index r) (_head r).

(** [fork_database()] with the members' initial values. *)
Definition empty_fork_database : fork_database :=
  mk_fork_database ∅ 0%nat [] 1024 [] [] None.

Abbreviation F := (M fork_database).

Definition unlinkable_block_exception : exn := assert_exception "block does not link to known chain".

(** ** Pointers *)

(** Using a null pointer; the code has no such use on the paths modelled, see
    [reachable_fork_ok]. *)
Definition null_pointer : exn := key_not_found "null pointer".

Definition find_item (f : fork_database) (p : item_ptr) : res fork_item :=
  of_option (fdb_heap f !! p) null_pointer.
Definition deref (p : item_ptr) : F fork_item := fun f => lift (find_item f p) f.

Definition alive (f : fork_database) (pins : list item_ptr) (p : item_ptr) : bool :=
  bool_decide (p ∈ _index f) || bool_decide (p ∈ _unlinked_index f)
  || bool_decide (_head f = Some p) || bool_decide (p ∈ fdb_held f ++ pins).

Definition lock (f : fork_database) (pins : list item_ptr) (w : option item_ptr)
  : option item_ptr :=
  match w with
  | Some p => if alive f pins p then Some p else None
  | None => None
  end.

(** ** The multi-index container of items

    By id it is hashed and unique; by number it is ordered, equal numbers in the
    order of insertion. *)

Definition has_id (f : fork_database) (id : block_id_type) (p : item_ptr) : bool :=
  match fdb_heap f !! p with Some i => bool_decide (itm_id i = id) | None => false end.
Definition num_of (f : fork_database) (p : item_ptr) : Z := default 0 (itm_num <$> fdb_heap f !! p).
Definition find_id (f : fork_database) (l : list item_ptr) (id : block_id_type) : option item_ptr :=
  snd <$> list_find (fun p => has_id f id p = true) l.
Definition insert_item (f : fork_database) (p : item_ptr) (l : list item_ptr) : list item_ptr :=
  match fdb_heap f !! p with
  | Some i => match find_id f l (itm_id i) with Some _ => l | None => l ++ [p] end
  | None => l
  end.
Definition erase_item (p : item_ptr) (l : list item_ptr) : list item_ptr :=
  filter (fun q => q ≠ p) l.

(** [begin()] of the index by number. *)
Definition num_le (f : fork_database) (p q : item_ptr) : Prop := num_of f p ≤ num_of f q.
#[export] Instance num_le_dec f p q : Decision (num_le f p q).
Proof. unfold num_le. apply _. Defined.
Definition first_by_num (f : fork_database) (l : list item_ptr) : option item_ptr :=
  head (merge_sort (num_le f) l).

Section ForkDb.
Context `{Crypto}.

Definition make_fork_item (b : signed_block) : fork_item :=
  mk_fork_item None (block_num b) false (block_id b) b.
Definition previous_id (i : fork_item) : block_id_type := blk_previous (itm_data i).

(** [std::make_shared]. *)
Definition allocate (b : signed_block) : F item_ptr := fun f =>
  let p := fdb_next f in
  Ok (p, f <| fdb_heap ::= <[p := make_fork_item b]> |> <| fdb_next := S p |>).

(** ** Operations *)

Definition reset : F unit := modify (fun f => f <| _head := None |> <| _index := [] |>).

Definition pop_block : F unit :=
  let* f := get in
  match _head f with
  | None => throw (assert_exception "cannot pop an empty fork database")
  | Some h =>
      let* head := deref h in
      match lock f [] (itm_prev head) with
      | None => throw (assert_exception "popping head block would leave fork DB empty")
      | Some prev => modify (fun f => f <| _head := Some prev |>)
      end
  end.

Definition start_block (b : signed_block) : F unit :=
  let* p := allocate b in
  modify (fun f => f <| _index := insert_item f p (_index f) |> <| _head := Some p |>).

(** The block may be at most [_max_size] below the head. *)
Definition check_range (item : fork_item) : F unit :=
  let* f := get in
  match _head f with
  | None => ret tt
  | Some h =>
      let* head := deref h in
      fc_assert (Z.max 0 (itm_num head - _max_size f) <? itm_num item)
        "attempting to push a block that is too old"
  end.

Definition link_parent (p : item_ptr) (item : fork_item) : F unit :=
  let* f := get in
  if bool_decide (is_Some (_head f)) && negb (bool_decide (previous_id item = null_id)) then
    match find_id f (_index f) (previous_id item) with
    | None => throw unlinkable_block_exception
    | Some q =>
        let* parent := deref q in
        fc_assert (negb (itm_invalid parent)) "" ;;
        modify (fun f => f <| fdb_heap ::= <[p := item <| itm_prev := Some q |>]> |>)
    end
  else ret tt.

Definition _push_block (p : item_ptr) : F unit :=
  let* item := deref p in
  check_range item ;;
  link_parent p item ;;
  modify (fun f => f <| _index := insert_item f p (_index f) |>) ;;
  let* f := get in
  match _head f with
  | None => modify (fun f => f <| _head := Some p |>)
  | Some h =>
      let* head := deref h in
      when (itm_num item >? itm_num head) (modify (fun f => f <| _head := Some p |>))
  end.

(** The handler of [unlinkable_block_exception] throws again before it reaches
    the insertion into [_unlinked_index], so every failure leaves the database
    as it was. *)
Definition push_block (b : signed_block) : F (option item_ptr) :=
  let* p := allocate b in
  _push_block p ;;
  let* f := get in ret (_head f).

(** [_push_next], which nothing calls. *)
Fixpoint _push_next (fuel : nat) (new_id : block_id_type) : F unit :=
  match fuel with
  | O => throw out_of_fuel
  | S fuel' =>
      let* f := get in
      match list_find (fun p => bool_decide (previous_id <$> fdb_heap f !! p = Some new_id) = true)
              (_unlinked_index f) with
      | None => ret tt
      | Some (_, q) =>
          modify (fun f => f <| _unlinked_index ::= erase_item q |>) ;;
          _push_block q ;; _push_next fuel' new_id
      end
  end.

(** The loop of [set_max_size] over one index, from the lowest number. *)
Fixpoint trim (fuel : nat) (f : fork_database) (bound : Z) (l : list item_ptr) : list item_ptr :=
  match fuel with
  | O => l
  | S fuel' =>
      match first_by_num f l with
      | Some p => if num_of f p <? bound then trim fuel' f bound (erase_item p l) else l
      | None => l
      end
  end.

Definition set_max_size (s : Z) : F unit :=
  modify (fun f => f <| _max_size := s |>) ;;
  let* f := get in
  match _head f with
  | None => ret tt
  | Some h =>
      let* head := deref h in
      let bound := Z.max 0 (itm_num head - s) in
      modify (fun f => f <| _index := trim (length (_index f)) f bound (_index f) |>) ;;
      modify (fun f => f <| _unlinked_index :=
        trim (length (_unlinked_index f)) f bound (_unlinked_index f) |>)
  end.

Definition set_head (h : item_ptr) : F unit := modify (fun f => f <| _head := Some h |>).

Definition remove_block (id : block_id_type) : F unit :=
  modify (fun f => f <| _index ::= filter (fun p => has_id f id p = false) |>).

(** ** Queries *)

Definition is_known_block (f : fork_database) (id : block_id_type) : bool :=
  bool_decide (is_Some (find_id f (_index f) id))
  || bool_decide (is_Some (find_id f (_unlinked_index f) id)).

Definition fetch_block (f : fork_database) (id : block_id_type) : option item_ptr :=
  match find_id f (_index f) id with
  | Some p => Some p
  | None => find_id f (_unlinked_index f) id
  end.

Definition fetch_block_by_number (f : fork_database) (num : Z) : list item_ptr :=
  filter (fun p => num_of f p = num) (_index f).

(** [first_branch = first_branch->prev.lock(); FC_ASSERT(first_branch)]. *)
Definition step_back (f : fork_database) (pins : list item_ptr) (p : item_ptr) : res item_ptr :=
  let? i := find_item f p in
  of_option (lock f pins (itm_prev i)) (assert_exception "first_branch").

Definition data_num (f : fork_database) (p : item_ptr) : res Z :=
  let? i := find_item f p in Ok (block_num (itm_data i)).

(** Walk back from [p] while its number is above that of [other], collecting.
    A parent has a smaller address than its child, which bounds the walks. *)
Fixpoint walk_down (fuel : nat) (f : fork_database) (pins : list item_ptr) (other : item_ptr)
    (branch : list item_ptr) (p : item_ptr) : res (list item_ptr * item_ptr) :=
  match fuel with
  | O => Throw out_of_fuel
  | S fuel' =>
      let? n := data_num f p in
      let? target := data_num f other in
      if target <? n then
        let branch := branch ++ [p] in
        let? q := step_back f (pins ++ other :: branch) p in
        walk_down fuel' f pins other branch q
      else Ok (branch, p)
  end.

(** Walk both back until they have the same predecessor, itself included. *)
Fixpoint walk_both (fuel : nat) (f : fork_database) (first second : list item_ptr)
    (p q : item_ptr) : res (list item_ptr * list item_ptr) :=
  match fuel with
  | O => Throw out_of_fuel
  | S fuel' =>
      let? i := find_item f p in
      let? j := find_item f q in
      if bool_decide (previous_id i = previous_id j) then Ok (first ++ [p], second ++ [q])
      else
        let first := first ++ [p] in
        let second := second ++ [q] in
        let? p' := step_back f (first ++ second) p in
        let? q' := step_back f (first ++ second) q in
        walk_both fuel' f first second p' q'
  end.

Definition fetch_branch_from (f : fork_database) (first second : block_id_type)
  : res (list item_ptr * list item_ptr) :=
  let? p := of_option (find_id f (_index f) first) (assert_exception "first_branch_itr") in
  let? q := of_option (find_id f (_index f) second) (assert_exception "second_branch_itr") in
  let? (l1, p) := walk_down (S p) f [] q [] p in
  let? (l2, q) := walk_down (S q) f (p :: l1) p [] q in
  walk_both (S p) f l1 l2 p q.

Fixpoint walk_back_to (fuel : nat) (f : fork_database) (num : Z) (next : option item_ptr)
  : res (option item_ptr) :=
  match fuel with
  | O => Throw out_of_fuel
  | S fuel' =>
      match next with
      | None => Ok None
      | Some p =>
          let? i := find_item f p in
          if itm_num i >? num then walk_back_to fuel' f num (lock f [] (itm_prev i))
          else Ok (Some p)
      end
  end.

Definition walk_main_branch_to_num (f : fork_database) (num : Z) : res (option item_ptr) :=
  let? h := of_option (_head f) null_pointer in
  let? head := find_item f h in
  if num >? itm_num head then Ok None else walk_back_to (S (S h)) f num (Some h).

Definition fetch_block_on_main_branch_by_number (f : fork_database) (num : Z)
  : res (option item_ptr) :=
  match fetch_block_by_number f num with
  | [p] => Ok (Some p)
  | [] => Ok None
  | _ => walk_main_branch_to_num f num
  end.

End ForkDb.

(** ** The invariant of the block tree *)

Section Invariant.
Context `{Crypto}.
Implicit Types (f : fork_database) (p q : item_ptr) (i j : fork_item).

(** The fields computed by the constructor, and a link to an older item that has
    the id the block names as its predecessor. *)
Definition item_ok f p i : Prop :=
  itm_num i = block_num (itm_data i) ∧ itm_id i = block_id (itm_data i) ∧
  ∀ q, itm_prev i = Some q →
    (q < p)%nat ∧ ∃ j, fdb_heap f !! q = Some j ∧ itm_id j = previous_id i.

Definition valid f p : Prop := is_Some (fdb_heap f !! p).

Record fork_ok f : Prop := {
  heap_items : ∀ p i, fdb_heap f !! p = Some i → item_ok f p i;
  heap_bound : ∀ p, valid f p → (p < fdb_next f)%nat;
  index_valid : ∀ p, p ∈ _index f → valid f p;
  index_ids : ∀ p q i j, p ∈ _index f → q ∈ _index f →
    fdb_heap f !! p = Some i → fdb_heap f !! q = Some j → itm_id i = itm_id j → p = q;
  head_valid : ∀ p, _head f = Some p → valid f p;
  unlinked_empty : _unlinked_index f = [];
}.

(** A linked item has the number after that of the item it is linked to. *)
Definition numbered f : Prop := ∀ p i q, fdb_heap f !! p = Some i → itm_prev i = Some q →
  ∃ j, fdb_heap f !! q = Some j ∧ itm_num i = wrap_u32 (itm_num j + 1).

(** The public operations, and callers taking and dropping shared pointers. *)
Inductive fork_step : fork_database → fork_database → Prop :=
| step_reset f f' : reset f = Ok (tt, f') → fork_step f f'
| step_start_block b f f' : start_block b f = Ok (tt, f') → fork_step f f'
| step_push_block b h f f' : push_block b f = Ok (h, f') → fork_step f f'
| step_pop_block f f' : pop_block f = Ok (tt, f') → fork_step f f'
| step_set_max_size n f f' : set_max_size n f = Ok (tt, f') → fork_step f f'
| step_set_head p f f' : valid f p → set_head p f = Ok (tt, f') → fork_step f f'
| step_remove id f f' : remove_block id f = Ok (tt, f') → fork_step f f'
| step_hold l f : Forall (valid f) l → fork_step f (f <| fdb_held := l |>).

Definition reachable f : Prop := rtc fork_step empty_fork_database f.

(** *** Lookups *)

Lemma has_id_spec f id p : has_id f id p = true ↔ ∃ i, fdb_heap f !! p = Some i ∧ itm_id i = id.
Proof.
  unfold has_id. destruct (fdb_heap f !! p) as [i|]; [rewrite bool_decide_eq_true|]; naive_solver.
Qed.

Lemma find_id_Some f l id p : find_id f l id = Some p →
  p ∈ l ∧ ∃ i, fdb_heap f !! p = Some i ∧ itm_id i = id.
Proof.
  unfold find_id. intros ([k p'] & Hf & [= ->])%fmap_Some.
  apply list_find_Some in Hf as (Hk & Hid & _). split; [by eapply list_elem_of_lookup_2|].
  by apply has_id_spec.
Qed.

Lemma find_id_None f l id : find_id f l id = None →
  ∀ p i, p ∈ l → fdb_heap f !! p = Some i → itm_id i ≠ id.
Proof.
  unfold find_id. intros Hf%fmap_None p i Hp Hi Hid. apply list_find_None in Hf.
  rewrite Stdlib.Lists.List.Forall_forall in Hf. apply (Hf p); [by apply list_elem_of_In|].
  apply has_id_spec. eauto.
Qed.

(** Looking an indexed item up by its id finds it. *)
Lemma find_id_of f p i : fork_ok f → p ∈ _index f → fdb_heap f !! p = Some i →
  find_id f (_index f) (itm_id i) = Some p.
Proof.
  intros Hf Hp Hi. destruct (find_id f (_index f) (itm_id i)) as [q|] eqn:E.
  - apply find_id_Some in E as (Hq & j & Hj & Hid). f_equal. by eapply index_ids.
  - by eapply find_id_None in E.
Qed.

Lemma insert_item_elem f p q l : q ∈ insert_item f p l → q ∈ l ∨ q = p.
Proof.
  unfold insert_item. destruct (fdb_heap f !! p); [|by left].
  destruct (find_id f l _); [by left|]. rewrite elem_of_app, list_elem_of_singleton. tauto.
Qed.

Lemma trim_elem fuel f bound l p : p ∈ trim fuel f bound l → p ∈ l.
Proof.
  revert l. induction fuel as [|fuel IH]; intros l; cbn [trim]; [done|].
  destruct (first_by_num f l) as [q|]; [|done]. destruct (_ <? _); [|done].
  intros Hp%IH. by apply list_elem_of_filter in Hp as [_ ?].
Qed.

(** *** Preservation *)

(** Changes that keep the heap: fewer indexed items and another valid head. *)
Lemma fork_ok_shrink f f' : fork_ok f →
  fdb_heap f' = fdb_heap f → fdb_next f' = fdb_next f → _index f' ⊆ _index f →
  _unlinked_index f' = [] → (∀ p, _head f' = Some p → valid f p) → fork_ok f'.
Proof.
  intros Hf Hh Hn Hi Hu Hd. unfold valid in *.
  split; unfold valid, item_ok in *; rewrite ?Hh, ?Hn; [by apply Hf| by apply Hf| | |done|done].
  - intros p Hp. by apply Hf, Hi.
  - intros p q i j Hp Hq. eapply index_ids; eauto.
Qed.

(** A new item, linked or not, enters the heap. *)
Lemma fork_ok_alloc f i : fork_ok f → item_ok f (fdb_next f) i →
  fork_ok (f <| fdb_heap ::= <[fdb_next f := i]> |> <| fdb_next := S (fdb_next f) |>).
Proof.
  intros Hf Hi.
  assert (fdb_heap f !! fdb_next f = None) as Hfresh.
  { apply eq_None_not_Some. intros Hs. apply Hf in Hs. lia. }
  assert (∀ p, valid f p → <[fdb_next f := i]> (fdb_heap f) !! p = fdb_heap f !! p) as Hold.
  { intros p [j Hj]. apply lookup_insert_ne. intros E. congruence. }
  assert (∀ p j, item_ok f p j → item_ok (f <| fdb_heap ::= <[fdb_next f := i]> |>
    <| fdb_next := S (fdb_next f) |>) p j) as Hitem.
  { intros p j (? & ? & Hl). split_and!; [done..|]. intros q Hq.
    destruct (Hl q Hq) as (? & j' & ? & ?). split; [done|]. exists j'. split; [|done].
    cbn. rewrite Hold; [done|]. by eexists. }
  split; cbn.
  - intros p j [[<- <-]|[? Hj]]%lookup_insert_Some; apply Hitem; [done|by apply Hf].
  - intros p [j Hj]. cbn in Hj. apply lookup_insert_Some in Hj as [[<- _]|[? Hj]]; [lia|].
    pose proof (heap_bound f Hf p ltac:(by eexists)). lia.
  - intros p Hp. apply Hf in Hp as Hv. unfold valid. cbn. by rewrite Hold.
  - intros p q j j' Hp Hq. rewrite !Hold by (by apply Hf). by eapply index_ids.
  - intros p Hp. apply Hf in Hp as Hv. unfold valid. cbn. by rewrite Hold.
  - by apply Hf.
Qed.

Lemma fork_ok_insert f p : fork_ok f → valid f p →
  fork_ok (f <| _index ::= insert_item f p |>).
Proof.
  intros Hf [i Hi]. split; try apply Hf.
  - intros q Hq. cbn in Hq. apply insert_item_elem in Hq as [Hq| ->]; [by apply Hf|by eexists].
  - intros q q' j j' Hq Hq' Hj Hj' Hid. cbn in *.
    unfold insert_item in Hq, Hq'. rewrite Hi in Hq, Hq'.
    destruct (find_id f (_index f) (itm_id i)) eqn:E; [by eapply index_ids|].
    pose proof (find_id_None _ _ _ E) as Hn.
    rewrite elem_of_app, list_elem_of_singleton in Hq, Hq'.
    destruct Hq as [Hq| ->], Hq' as [Hq'| ->]; [by eapply index_ids| | |done].
    + exfalso. apply (Hn q j); [done..|]. congruence.
    + exfalso. apply (Hn q' j'); [done..|]. congruence.
Qed.

Lemma fork_ok_head f p : fork_ok f → valid f p → fork_ok (f <| _head := Some p |>).
Proof.
  intros Hf Hp. eapply fork_ok_shrink; [exact Hf|done|done|done|by apply Hf|].
  by intros q [= <-].
Qed.

(** *** Pushing a block *)

Definition head_num f : option Z := num_of f <$> _head f.

Definition too_old f (num : Z) : bool :=
  match head_num f with Some n => num <=? Z.max 0 (n - _max_size f) | None => false end.
(** A block must link unless the database is empty or it is the first block. *)
Definition must_link f (b : signed_block) : bool :=
  bool_decide (is_Some (_head f)) && negb (bool_decide (blk_previous b = null_id)).

(** Why a block is refused. *)
Definition refusal f (b : signed_block) : option exn :=
  if too_old f (block_num b)
  then Some (assert_exception "attempting to push a block that is too old")
  else if must_link f b then
    match find_id f (_index f) (blk_previous b) with
    | None => Some unlinkable_block_exception
    | Some q =>
        if bool_decide (itm_invalid <$> fdb_heap f !! q = Some true)
        then Some (assert_exception "") else None
    end
  else None.

(** The item of a block, linked to its parent, in the heap. *)
Definition linked_item f (b : signed_block) : fork_item :=
  (make_fork_item b) <| itm_prev :=
    if must_link f b then find_id f (_index f) (blk_previous b) else None |>.
Definition with_item f (b : signed_block) : fork_database :=
  f <| fdb_heap ::= <[fdb_next f := linked_item f b]> |> <| fdb_next := S (fdb_next f) |>.
Definition pushed f (b : signed_block) : fork_database :=
  (with_item f b)
    <| _index ::= insert_item (with_item f b) (fdb_next f) |>
    <| _head ::= fun h =>
        if bool_decide (default (-1) (head_num f) < block_num b) then Some (fdb_next f) else h |>.

Lemma find_id_frame f f' l id :
  (∀ p, p ∈ l → fdb_heap f' !! p = fdb_heap f !! p) → find_id f' l id = find_id f l id.
Proof.
  intros Hl. unfold find_id. f_equal. induction l as [|p l IH]; [done|].
  cbn. assert (has_id f' id p = has_id f id p) as ->.
  { unfold has_id. rewrite Hl; [done|apply list_elem_of_here]. }
  rewrite IH; [done|]. intros q Hq. by apply Hl, list_elem_of_further.
Qed.

Lemma fresh_address f : fork_ok f → fdb_heap f !! fdb_next f = None.
Proof. intros Hf. apply eq_None_not_Some. intros Hs%Hf. lia. Qed.

Lemma block_num_range b : 0 ≤ block_num b < 2 ^ 32.
Proof. apply Z.mod_pos_bound. lia. Qed.

Lemma deref_run f p i : fdb_heap f !! p = Some i → deref p f = Ok (i, f).
Proof. intros Hi. unfold deref, find_item. by rewrite Hi. Qed.

Lemma check_range_run f i : fork_ok f →
  check_range i f =
    if too_old f (itm_num i)
    then Throw (assert_exception "attempting to push a block that is too old") else Ok (tt, f).
Proof.
  intros Hf. unfold check_range, too_old, head_num. erewrite bind_run by reflexivity.
  destruct (_head f) as [h|] eqn:Eh; cbn; [|done].
  destruct (head_valid f Hf h Eh) as [j Hj]. unfold num_of. rewrite Hj. cbn.
  erewrite bind_run by (by apply deref_run). rewrite Z.ltb_antisym. by destruct (_ <=? _).
Qed.

Lemma link_parent_run f p i : fork_ok f →
  link_parent p i f =
    if bool_decide (is_Some (_head f)) && negb (bool_decide (previous_id i = null_id)) then
      match find_id f (_index f) (previous_id i) with
      | None => Throw unlinkable_block_exception
      | Some q =>
          if bool_decide (itm_invalid <$> fdb_heap f !! q = Some true)
          then Throw (assert_exception "")
          else Ok (tt, f <| fdb_heap ::= <[p := i <| itm_prev := Some q |>]> |>)
      end
    else Ok (tt, f).
Proof.
  intros Hf. unfold link_parent. erewrite bind_run by reflexivity.
  destruct (_ && _); [|done]. destruct (find_id _ _ _) as [q|] eqn:Eq; [|done].
  apply find_id_Some in Eq as (_ & j & Hj & _). erewrite bind_run by (by apply deref_run).
  rewrite Hj. cbn. by destruct (itm_invalid j).
Qed.

(** The end of [_push_block]: the item enters the index and may become the head. *)
Lemma finish_push_run f b : fork_ok f →
  (∀ v q, valid f q → <[fdb_next f := v]> (fdb_heap f) !! q = fdb_heap f !! q) →
  (modify (fun f' => f' <| _index := insert_item f' (fdb_next f) (_index f') |>) ;;
   let* f' := get in
   match _head f' with
   | None => modify (fun f' => f' <| _head := Some (fdb_next f) |>)
   | Some h =>
       let* head := deref h in
       when (block_num b >? itm_num head) (modify (fun f' => f' <| _head := Some (fdb_next f) |>))
   end) (with_item f b) = Ok (tt, pushed f b).
Proof.
  intros Hf Hold. pose proof (block_num_range b). unfold pushed, head_num.
  erewrite bind_run by reflexivity. erewrite bind_run by reflexivity.
  set (f2 := (with_item f b) <| _index := _ |>).
  assert (_head f2 = _head f) as Eh by done. rewrite Eh.
  destruct (_head f) as [h|]; cbn [fmap option_fmap option_map default from_option id].
  - destruct (head_valid f Hf h Eh) as [j Hj].
    erewrite bind_run by (apply deref_run; cbn; rewrite Hold; [exact Hj|by eexists]).
    unfold num_of. rewrite Hj. cbn [fmap option_fmap option_map default from_option id].
    rewrite Z.gtb_ltb. unfold when. case_bool_decide.
    + rewrite (proj2 (Z.ltb_lt _ _)) by lia. reflexivity.
    + rewrite (proj2 (Z.ltb_ge _ _)) by lia. reflexivity.
  - rewrite bool_decide_eq_true_2 by lia. reflexivity.
Qed.

Lemma push_block_run f b : fork_ok f →
  push_block b f =
    match refusal f b with Some e => Throw e | None => Ok (_head (pushed f b), pushed f b) end.
Proof.
  intros Hf. pose proof (fresh_address f Hf) as Hfresh.
  set (p := fdb_next f) in *. set (item := make_fork_item b).
  set (f1 := f <| fdb_heap ::= <[p := item]> |> <| fdb_next := S p |>).
  assert (fork_ok f1) as Hf1.
  { apply fork_ok_alloc; [done|]. by unfold item_ok. }
  assert (∀ v q, valid f q → <[p := v]> (fdb_heap f) !! q = fdb_heap f !! q) as Hold.
  { intros v q [j Hj]. apply lookup_insert_ne. congruence. }
  assert (∀ id, find_id f1 (_index f) id = find_id f (_index f) id) as Hfind.
  { intros id. apply find_id_frame. intros q Hq. apply Hold. by apply Hf. }
  assert (∀ v, head_num (f <| fdb_heap ::= <[p := v]> |> <| fdb_next := S p |>) = head_num f) as Hn.
  { intros v. unfold head_num. cbn. destruct (_head f) as [h|] eqn:Eh; [|done]. cbn. f_equal.
    unfold num_of. cbn. rewrite Hold; [done|by apply (head_valid f Hf)]. }
  assert (too_old f1 (itm_num item) = too_old f (block_num b)) as Ht.
  { unfold too_old. unfold f1. rewrite Hn. done. }
  assert (deref p f1 = Ok (item, f1)) as Hd by apply deref_run, lookup_insert_eq.
  unfold push_block. rewrite (bind_run (allocate b) _ f p f1) by done.
  unfold _push_block. rewrite bind_assoc, (bind_run _ _ _ _ _ Hd), bind_assoc.
  unfold bind at 1. rewrite check_range_run, Ht by done.
  unfold refusal. destruct (too_old f (block_num b)); [done|].
  rewrite bind_assoc. unfold bind at 1. rewrite link_parent_run by done.
  change (bool_decide (is_Some (_head f1)) && negb (bool_decide (previous_id item = null_id)))
    with (must_link f b).
  change (previous_id item) with (blk_previous b). change (_index f1) with (_index f).
  rewrite Hfind. pose proof (finish_push_run f b Hf Hold) as Hrest. fold p in Hrest.
  destruct (must_link f b) eqn:Em.
  - destruct (find_id f (_index f) (blk_previous b)) as [q|] eqn:Eq; [|done].
    pose proof Eq as (Hq%(index_valid f Hf) & _)%find_id_Some.
    replace (fdb_heap f1 !! q) with (fdb_heap f !! q) by (symmetry; by apply Hold).
    destruct (bool_decide _); [done|].
    replace (f1 <| fdb_heap ::= <[p := item <| itm_prev := Some q |>]> |>) with (with_item f b).
    { erewrite bind_run by exact Hrest. reflexivity. }
    unfold with_item, linked_item, f1, upd. cbn. by rewrite Em, Eq, insert_insert_eq.
  - replace f1 with (with_item f b).
    { erewrite bind_run by exact Hrest. reflexivity. }
    unfold with_item, linked_item, f1, upd. by rewrite Em.
Qed.

Lemma linked_item_ok f b : fork_ok f → item_ok f (fdb_next f) (linked_item f b).
Proof.
  intros Hf. split_and!; [done..|]. intros q Hq. cbn in Hq.
  destruct (must_link f b); [|done].
  apply find_id_Some in Hq as (Hq & j & Hj & Hid). split.
  - apply (heap_bound f Hf). by apply (index_valid f Hf).
  - by exists j.
Qed.

Lemma with_item_ok f b : fork_ok f → fork_ok (with_item f b).
Proof. intros Hf. by apply fork_ok_alloc, linked_item_ok. Qed.
Lemma with_item_valid f b : valid (with_item f b) (fdb_next f).
Proof. eexists. apply lookup_insert_eq. Qed.
Lemma with_item_keeps f b p i : fork_ok f → fdb_heap f !! p = Some i →
  fdb_heap (with_item f b) !! p = Some i.
Proof.
  intros Hf Hi. cbn. rewrite lookup_insert_ne; [done|]. intros <-.
  pose proof (fresh_address f Hf). congruence.
Qed.

Lemma pushed_ok f b : fork_ok f → fork_ok (pushed f b).
Proof.
  intros Hf. pose proof (with_item_ok f b Hf) as Hw. unfold pushed.
  pose proof (with_item_valid f b) as Hv.
  apply (fork_ok_shrink ((with_item f b) <| _index ::= insert_item (with_item f b) (fdb_next f) |>));
    [by apply fork_ok_insert|done|done|done|by apply Hf|].
  cbn. intros q. case_bool_decide; [by intros [= <-]|]. intros Hq.
  apply (head_valid _ Hw). done.
Qed.

Lemma empty_fork_ok : fork_ok empty_fork_database.
Proof.
  split; cbn; try done.
  all: intros p; intros; by match goal with H : _ |- _ => inversion H end.
Qed.

Lemma start_block_ok b f f' : fork_ok f → start_block b f = Ok (tt, f') → fork_ok f'.
Proof.
  unfold start_block, allocate. intros Hf Hr. inv_ok.
  assert (valid (f <| fdb_heap ::= <[fdb_next f := make_fork_item b]> |>
    <| fdb_next := S (fdb_next f) |>) (fdb_next f)) by (eexists; apply lookup_insert_eq).
  apply fork_ok_head; [apply fork_ok_insert; [apply fork_ok_alloc|]|]; done.
Qed.

Lemma pop_block_ok f f' : fork_ok f → pop_block f = Ok (tt, f') → fork_ok f'.
Proof.
  unfold pop_block. intros Hf Hr. inv_ok. destruct (_head _) as [h|] eqn:Eh; inv_ok.
  destruct (head_valid _ Hf h Eh) as [i Hi]. rewrite (deref_run _ _ _ Hi) in *. inv_ok.
  destruct (lock _ _ _) as [q|] eqn:El; inv_ok. apply fork_ok_head; [done|].
  unfold lock in El. destruct (itm_prev _) as [q'|] eqn:Ep; [|done].
  destruct (alive _ _ _); [|done]. injection El as ->.
  destruct (heap_items _ Hf h _ Hi) as (_ & _ & Hl).
  destruct (Hl _ Ep) as (_ & j & Hj & _). by exists j.
Qed.

Lemma set_max_size_ok n f f' : fork_ok f → set_max_size n f = Ok (tt, f') → fork_ok f'.
Proof.
  unfold set_max_size. intros Hf Hr. inv_ok. destruct (_head _) as [h|] eqn:Eh; inv_ok.
  - unfold deref, lift in *. case_match; [|done]. inv_ok.
    eapply fork_ok_shrink; [exact Hf|done|done| | |by apply Hf].
    + intros q Hq. exact (trim_elem _ _ _ _ _ Hq).
    + cbn. by rewrite (unlinked_empty _ Hf).
  - eapply fork_ok_shrink; [exact Hf|done..|by apply Hf|by apply Hf].
Qed.

Lemma fork_step_ok f f' : fork_step f f' → fork_ok f → fork_ok f'.
Proof.
  intros Hstep Hf. destruct Hstep.
  - unfold reset in *. inv_ok. eapply fork_ok_shrink; [exact Hf|done|done| |by apply Hf|done].
    apply list_subseteq_nil.
  - by eapply start_block_ok.
  - rewrite push_block_run in * by done. destruct (refusal _ b); [done|].
    inv_ok. by apply pushed_ok.
  - by eapply pop_block_ok.
  - by eapply set_max_size_ok.
  - unfold set_head in *. inv_ok. by apply fork_ok_head.
  - unfold remove_block in *. inv_ok.
    eapply fork_ok_shrink; [exact Hf|done|done| |by apply Hf|apply Hf].
    intros q Hq. cbn in Hq. by apply list_elem_of_filter in Hq as [_ ?].
  - eapply fork_ok_shrink; [exact Hf|done..|by apply Hf|apply Hf].
Qed.

Lemma reachable_ok f : reachable f → fork_ok f.
Proof.
  unfold reachable. generalize empty_fork_ok. generalize empty_fork_database. intros f0 Hf0 Hr.
  induction Hr as [|f0 f1 f2 Hs Hr IH]; [done|]. by eapply IH, fork_step_ok.
Qed.

(** An identifier carries the number of its block, which the next block reads. *)
Lemma fork_ok_numbered f : (∀ h, sha224_header h ≠ []) → fork_ok f → numbered f.
Proof.
  intros Hw Hf p i q Hi Hq. destruct (heap_items f Hf p i Hi) as (Hn & _ & Hl).
  destruct (Hl q Hq) as (_ & j & Hj & Hid). destruct (heap_items f Hf q j Hj) as (Hnj & Hidj & _).
  exists j. split; [done|]. rewrite Hn. unfold block_num, header_num.
  change (hdr_previous (signed_header_part (itm_data i))) with (previous_id i).
  by rewrite <- Hid, Hidj, num_from_block_id, <- Hnj by apply Hw.
Qed.

(** C16: in every reachable fork database the items form a tree: each item has the
    id and number of its block and is linked, if at all, to an older item whose
    id its block names as predecessor and which, as sha224 digests have words, has
    the preceding number; the ids in the index differ; every pointer
    is to a live item, so no operation follows a null pointer.  The cache of
    unlinked blocks is always empty: the handler that should fill it throws
    first. *)
Theorem reachable_fork_ok f : reachable f →
  fork_ok f ∧ ((∀ h, sha224_header h ≠ []) → numbered f) ∧
  (∀ b, push_block b f ≠ Throw null_pointer) ∧ pop_block f ≠ Throw null_pointer ∧
  ∀ n, ∃ f', set_max_size n f = Ok (tt, f').
Proof.
  intros Hf%reachable_ok. split_and!; [done|intros; by apply fork_ok_numbered|..].
  - intros b. rewrite push_block_run by done. destruct (refusal f b) as [e|] eqn:Er; [|done].
    unfold refusal in Er. repeat case_match; simplify_eq; discriminate.
  - unfold pop_block. erewrite bind_run by reflexivity.
    destruct (_head f) as [h|] eqn:Eh; [|done]. destruct (head_valid f Hf h Eh) as [i Hi].
    erewrite bind_run by (by apply deref_run). by destruct (lock _ _ _).
  - intros n. unfold set_max_size. erewrite bind_run by reflexivity.
    erewrite bind_run by reflexivity. change (_head (f <| _max_size := n |>)) with (_head f).
    destruct (_head f) as [h|] eqn:Eh; [|by eexists]. destruct (head_valid f Hf h Eh) as [i Hi].
    erewrite bind_run by (apply deref_run; exact Hi). by eexists.
Qed.

Lemma refusal_None f b q : refusal f b = None → must_link f b = true →
  find_id f (_index f) (blk_previous b) = Some q → itm_invalid <$> fdb_heap f !! q ≠ Some true.
Proof.
  unfold refusal. destruct (too_old _ _); [done|]. intros Hr Hm Hq. rewrite Hm, Hq in Hr.
  by case_bool_decide.
Qed.
Lemma refusal_links f b : fork_ok f → refusal f b = None → must_link f b = true →
  ∃ q j, itm_prev (linked_item f b) = Some q ∧ q ∈ _index f ∧ fdb_heap f !! q = Some j ∧
    itm_id j = blk_previous b ∧ itm_invalid j = false.
Proof.
  intros Hf Hr Hm. cbn. rewrite Hm. destruct (find_id f (_index f) (blk_previous b)) as [q|] eqn:E.
  - pose proof (refusal_None f b q Hr Hm E) as Hi. apply find_id_Some in E as (Hq & j & Hj & Hid).
    rewrite Hj in Hi. cbn in Hi. exists q, j. split_and!; [done..|]. by destruct (itm_invalid j).
  - unfold refusal in Hr. rewrite Hm, E in Hr. by destruct (too_old _ _).
Qed.

Lemma insert_item_known f p i : fdb_heap f !! p = Some i →
  is_Some (find_id f (insert_item f p (_index f)) (itm_id i)).
Proof.
  intros Hi. unfold insert_item. rewrite Hi.
  destruct (find_id f (_index f) (itm_id i)) as [q|] eqn:E; [by eexists|].
  unfold find_id. apply fmap_is_Some, list_find_elem_of with p.
  - apply elem_of_app. right. by apply list_elem_of_singleton.
  - apply has_id_spec. by exists i.
Qed.

Definition head_block f : option signed_block := itm_data <$> (_head f ≫= (fdb_heap f !!.)).

Lemma pushed_head f b : default (-1) (head_num f) < block_num b → head_block (pushed f b) = Some b.
Proof.
  intros Hn. assert (_head (pushed f b) = Some (fdb_next f)) as Hh by (cbn; by rewrite bool_decide_eq_true_2).
  unfold head_block. rewrite Hh. cbn [mbind option_bind].
  change (fdb_heap (pushed f b)) with (<[fdb_next f := linked_item f b]> (fdb_heap f)). by rewrite lookup_insert_eq.
Qed.
(** A higher block becomes the head. *)
Lemma push_block_head f b h f' : fork_ok f → push_block b f = Ok (h, f') → default (-1) (head_num f) < block_num b →
  h = _head f' ∧ head_block f' = Some b.
Proof.
  intros Hf. rewrite push_block_run by done. destruct (refusal f b); [done|]. intros [= <- <-] Hn.
  split; [done|by apply pushed_head].
Qed.

(** A block that is not higher leaves the head. *)
Lemma push_block_low f b h f' : fork_ok f → push_block b f = Ok (h, f') → block_num b ≤ default (-1) (head_num f) →
  h = _head f' ∧ head_block f' = head_block f.
Proof.
  intros Hf Hp Hn. rewrite push_block_run in Hp by done. destruct (refusal f b); [done|]. injection Hp as <- <-.
  split; [done|]. unfold head_block.
  assert (_head (pushed f b) = _head f) as -> by (cbn; by rewrite bool_decide_eq_false_2 by lia).
  destruct (_head f) as [p|] eqn:Ep; cbn; [|done]. destruct (head_valid f Hf p Ep) as [i Hi].
  pose proof (with_item_keeps f b p i Hf Hi) as Hk. cbn in Hk. by rewrite Hk, Hi.
Qed.
(** Whatever the height, the head is the block or what it was. *)
Lemma push_block_heads f b h f' : fork_ok f → push_block b f = Ok (h, f') →
  h = _head f' ∧ (head_block f' = Some b ∨ head_block f' = head_block f).
Proof.
  intros Hf Hp. destruct (decide (default (-1) (head_num f) < block_num b)) as [Hn|Hn].
  - destruct (push_block_head _ _ _ _ Hf Hp Hn). auto.
  - destruct (push_block_low _ _ _ _ Hf Hp); [lia|auto].
Qed.

(** C17: what [push_block] does.  A block that is too far below the head, names an
    unknown predecessor or an invalid one is refused and the database stays as it
    was.  Any other block becomes known, linked to its predecessor unless it is
    the first; if it is higher than the head it is the new head, and otherwise
    the head stays. *)
Theorem push_block_outcome f b : fork_ok f →
  match refusal f b with
  | Some e => push_block b f = Throw e
  | None => ∃ f' i, push_block b f = Ok (_head f', f') ∧
      is_known_block f' (block_id b) = true ∧ _index f ⊆ _index f' ∧
      fdb_heap f' !! fdb_next f = Some i ∧ itm_data i = b ∧
      (is_Some (_head f) → blk_previous b ≠ null_id → ∃ q j, itm_prev i = Some q ∧
         q ∈ _index f ∧ fdb_heap f !! q = Some j ∧ itm_id j = blk_previous b ∧ itm_invalid j = false) ∧
      (if bool_decide (default (-1) (head_num f) < block_num b)
       then head_block f' = Some b else _head f' = _head f)
  end.
Proof.
  intros Hf. rewrite push_block_run by done. destruct (refusal f b) eqn:Er; [done|].
  exists (pushed f b), (linked_item f b).
  assert (fdb_heap (pushed f b) !! fdb_next f = Some (linked_item f b)) as Hi
    by apply lookup_insert_eq.
  split_and!; [done| | |done|done| |].
  - unfold is_known_block. apply orb_true_intro. left. apply bool_decide_eq_true.
    exact (insert_item_known (with_item f b) (fdb_next f) _ Hi).
  - intros q Hq. cbn. unfold insert_item. case_match; [|done]. case_match; [done|].
    apply elem_of_app. by left.
  - intros Hh Hn. apply refusal_links; [done..|]. unfold must_link.
    by rewrite (bool_decide_eq_true_2 _ Hh), (bool_decide_eq_false_2 _ Hn).
  - case_bool_decide as Hn; [by apply pushed_head|cbn; by rewrite bool_decide_eq_false_2].
Qed.

End Invariant.

(** ** Branches *)

Section Branches.
Context `{Crypto}.
Implicit Types (f : fork_database) (p q r : item_ptr) (l : list item_ptr).

(** A sha224 digest has words, and block numbers stay below the last one. *)
Hypothesis sha224_words : ∀ b, sha224_header b ≠ [].
Definition nums_fit f : Prop := ∀ p i, fdb_heap f !! p = Some i → itm_num i < 2 ^ 32 - 1.

Definition linked f p q : Prop := ∃ i, fdb_heap f !! p = Some i ∧ itm_prev i = Some q.

(** A branch: a list of items, each linked to the next. *)
Fixpoint chained f l : Prop :=
  match l with
  | [] => True
  | p :: l' =>
      valid f p ∧ match l' with [] => True | q :: _ => linked f p q end ∧ chained f l'
  end.

Lemma linked_num f p q : fork_ok f → nums_fit f → linked f p q →
  valid f q ∧ (q < p)%nat ∧ num_of f p = num_of f q + 1.
Proof.
  intros Hf Hs (i & Hi & Hp). destruct (heap_items f Hf p i Hi) as (_ & _ & Hl).
  destruct (fork_ok_numbered f sha224_words Hf p i q Hi Hp) as (j & Hj & Hn).
  destruct (heap_items f Hf q j Hj) as (Hnj & _ & _).
  split_and!; [by exists j|by apply Hl|]. unfold num_of. rewrite Hi, Hj. cbn. rewrite Hn.
  pose proof (Hs q j Hj). rewrite Hnj in *. pose proof (block_num_range (itm_data j)).
  apply Z.mod_small. lia.
Qed.

Lemma find_item_num f p i : fork_ok f → fdb_heap f !! p = Some i →
  data_num f p = Ok (num_of f p).
Proof.
  intros Hf Hi. unfold data_num, find_item, num_of. rewrite Hi. cbn.
  by destruct (heap_items f Hf p i Hi) as (-> & _).
Qed.

Lemma step_back_linked f pins p q : step_back f pins p = Ok q → linked f p q.
Proof.
  unfold step_back, find_item. intros Hq. inv_ok. unfold lock in Hq.
  destruct (itm_prev _) as [q'|] eqn:E; [|done]. destruct (alive _ _ _); [|done].
  injection Hq as ->. by eexists.
Qed.
Lemma step_back_alive f pins p q : linked f p q → q ∈ _index f → step_back f pins p = Ok q.
Proof.
  intros (i & Hi & Hq) Hin. unfold step_back, find_item. rewrite Hi. cbn. rewrite Hq. cbn.
  unfold alive. by rewrite (bool_decide_eq_true_2 (q ∈ _index f)).
Qed.

Lemma chained_snoc f l p q : chained f (l ++ [p]) → linked f p q → valid f q →
  chained f ((l ++ [p]) ++ [q]).
Proof.
  induction l as [|r l IH]; cbn.
  - intros (? & _ & _) ??. done.
  - intros (Hr & Hl & Hc) Hpq Hq. split_and!; [done| |by apply IH].
    by destruct l.
Qed.
Lemma chained_frame f f' l : fdb_heap f' = fdb_heap f → chained f l → chained f' l.
Proof.
  intros Hh. induction l as [|p l IH]; cbn; [done|]. unfold valid, linked. rewrite Hh.
  intros (Hp & Hl & Hc). split_and!; auto.
Qed.
Lemma chained_last f l p : chained f (l ++ [p]) → valid f p.
Proof. induction l as [|r l IH]; cbn; [tauto|]. intros (_ & _ & Hc). auto. Qed.

(** *** What the walks return *)

Lemma walk_down_sound fuel f pins o branch p branch' p' :
  fork_ok f → nums_fit f → valid f o → chained f (branch ++ [p]) →
  walk_down fuel f pins o branch p = Ok (branch', p') →
  chained f (branch' ++ [p']) ∧ head (branch' ++ [p']) = head (branch ++ [p]) ∧
  (∀ r, r ∈ branch' → r ∈ branch ∨ num_of f o < num_of f r) ∧
  (branch' = branch ∧ p' = p ∧ num_of f p ≤ num_of f o ∨ num_of f p' = num_of f o).
Proof.
  intros Hf Hs [io Ho]. revert branch p. induction fuel as [|fuel IH]; intros branch p Hc Hw; [done|].
  cbn [walk_down] in Hw. destruct (chained_last _ _ _ Hc) as [i Hi].
  rewrite (find_item_num f p i), (find_item_num f o io) in Hw by done. cbn [res_bind] in Hw.
  destruct (Z.ltb_spec (num_of f o) (num_of f p)) as [Hlt|Hge]; inv_ok; [|by split_and!; auto].
  match goal with E : step_back _ _ _ = Ok ?q |- _ => apply step_back_linked in E as Hl end.
  destruct (linked_num _ _ _ Hf Hs Hl) as (Hv & _ & Hn).
  destruct (IH _ _ (chained_snoc _ _ _ _ Hc Hl Hv) Hw) as (Hc' & Hh & Hr & Hn').
  split_and!; [done| | |].
  - rewrite Hh. by destruct branch.
  - intros r [[Hb|Hb]%elem_of_app|?]%Hr; [by left| |by right].
    apply list_elem_of_singleton in Hb as ->. by right.
  - right. destruct Hn' as [(-> & -> & ?)|?]; lia.
Qed.

(** Two branches that end in blocks with the same predecessor and share nothing
    else. *)
Record forks f p q l1 l2 : Prop := {
  fork_chained : chained f l1 ∧ chained f l2;
  fork_heads : head l1 = Some p ∧ head l2 = Some q;
  fork_point : ∃ x y i j, list.last l1 = Some x ∧ list.last l2 = Some y ∧
    fdb_heap f !! x = Some i ∧ fdb_heap f !! y = Some j ∧
    previous_id i = previous_id j ∧ itm_num i = itm_num j;
  fork_disjoint : ∀ r, r ∈ l1 → r ∈ l2 → list.last l1 = Some r ∧ list.last l2 = Some r;
}.

Lemma walk_both_sound fuel f l1 l2 p q b1 b2 :
  fork_ok f → nums_fit f → chained f (l1 ++ [p]) → chained f (l2 ++ [q]) →
  num_of f p = num_of f q →
  (∀ r, r ∈ l1 ++ l2 → num_of f p < num_of f r) → (∀ r, r ∈ l1 → r ∉ l2) →
  walk_both fuel f l1 l2 p q = Ok (b1, b2) →
  forks f (default p (head l1)) (default q (head l2)) b1 b2.
Proof.
  intros Hf Hs. revert l1 l2 p q. induction fuel as [|fuel IH]; intros l1 l2 p q Hc1 Hc2 Hn Hab Hdis Hw; [done|].
  cbn [walk_both] in Hw. unfold find_item at 1 2 in Hw. inv_ok.
  match goal with E : fdb_heap f !! p = Some ?a |- _ => rename a into i, E into Hi end.
  match goal with E : fdb_heap f !! q = Some ?a |- _ => rename a into j, E into Hj end.
  assert (p ∉ l2 ∧ q ∉ l1) as [Hp Hq].
  { split; intros Hin; [pose proof (Hab p) as Hx|pose proof (Hab q) as Hx];
      rewrite elem_of_app in Hx; specialize (Hx ltac:(tauto)); lia. }
  case_bool_decide as Hprev; inv_ok.
  - split; [done| | |].
    + by destruct l1, l2.
    + exists p, q, i, j. rewrite !last_snoc. split_and!; [done..|].
      unfold num_of in Hn. by rewrite Hi, Hj in Hn.
    + intros r. rewrite !last_snoc, !elem_of_app, !list_elem_of_singleton.
      intros [Hr| ->] [Hr'| ->]; [by apply Hdis in Hr|done..].
  - repeat match goal with E : step_back _ _ _ = Ok _ |- _ => apply step_back_linked in E end.
    match goal with E : linked f p ?a, E' : linked f q ?b |- _ =>
      rename a into p', b into q', E into Hlp, E' into Hlq end.
    destruct (linked_num _ _ _ Hf Hs Hlp) as (Hvp & _ & Hnp).
    destruct (linked_num _ _ _ Hf Hs Hlq) as (Hvq & _ & Hnq).
    replace (default p (head l1)) with (default p' (head (l1 ++ [p]))) by by destruct l1.
    replace (default q (head l2)) with (default q' (head (l2 ++ [q]))) by by destruct l2.
    eapply IH; [by apply chained_snoc|by apply chained_snoc|lia| | |done].
    + intros r. rewrite !elem_of_app, !list_elem_of_singleton. specialize (Hab r).
      rewrite elem_of_app in Hab. intros [[?| ->]|[?| ->]]; try lia; specialize (Hab ltac:(tauto)); lia.
    + intros r. rewrite !elem_of_app, !list_elem_of_singleton.
      intros [Hr| ->] [Hr'| ->]; [by apply Hdis in Hr|done|done|].
      rewrite Hi in Hj. injection Hj as ->. done.
Qed.

(** *** That the walks return *)

(** A branch of indexed items. *)
Definition indexed_branch f p l : Prop := chained f (p :: l) ∧ ∀ r, r ∈ p :: l → r ∈ _index f.

Lemma indexed_branch_step f p q l : fork_ok f → nums_fit f → indexed_branch f p (q :: l) →
  indexed_branch f q l ∧ num_of f p = num_of f q + 1 ∧ (q < p)%nat ∧
  ∀ pins, step_back f pins p = Ok q.
Proof.
  intros Hf Hs [(Hp & Hl & Hc) Hin]. destruct (linked_num _ _ _ Hf Hs Hl) as (Hq & Hlt & Hn).
  split_and!; [|done|done|].
  - split; [done|]. intros r Hr. by apply Hin, list_elem_of_further.
  - intros pins. apply step_back_alive; [done|]. apply Hin, list_elem_of_further, list_elem_of_here.
Qed.

Lemma indexed_branch_last f p l x : fork_ok f → nums_fit f → indexed_branch f p l →
  list.last (p :: l) = Some x → num_of f p = num_of f x + Z.of_nat (length l).
Proof.
  intros Hf Hs. revert p. induction l as [|q l IH]; intros p Hb Hx.
  - cbn in Hx. injection Hx as ->. cbn. lia.
  - destruct (indexed_branch_step _ _ _ _ Hf Hs Hb) as (Hb' & Hn & _).
    cbn [length]. rewrite (IH q Hb' Hx) in Hn. lia.
Qed.

Lemma walk_down_total fuel f pins o branch p l x : fork_ok f → nums_fit f → valid f o →
  (p < fuel)%nat → indexed_branch f p l → list.last (p :: l) = Some x → num_of f x ≤ num_of f o →
  ∃ branch' p' l', walk_down fuel f pins o branch p = Ok (branch', p') ∧
    indexed_branch f p' l' ∧ list.last (p' :: l') = Some x.
Proof.
  intros Hf Hs [io Ho]. revert branch p l.
  induction fuel as [|fuel IH]; intros branch p l Hfuel Hb Hx Hle; [lia|].
  destruct Hb as [Hc Hin]. destruct Hc as [[i Hi] Hc]. cbn [walk_down].
  rewrite (find_item_num f p i), (find_item_num f o io) by done. cbn [res_bind].
  destruct (Z.ltb_spec (num_of f o) (num_of f p)) as [Hlt|Hge].
  - destruct l as [|q l]; [cbn in Hx; injection Hx as ->; lia|].
    assert (indexed_branch f p (q :: l)) as Hb by (split; [split; [by exists i|done]|done]).
    destruct (indexed_branch_step _ _ _ _ Hf Hs Hb) as (Hb' & _ & Hlt' & Hstep).
    rewrite Hstep. cbn [res_bind]. apply (IH _ q l); [lia|done..].
  - exists branch, p, l. split_and!; [done| |done]. split; [|done]. split; [by exists i|done].
Qed.

Lemma walk_both_total fuel f l1 l2 p q b1 b2 x y i j : fork_ok f → nums_fit f →
  (p < fuel)%nat → indexed_branch f p b1 → indexed_branch f q b2 → num_of f p = num_of f q →
  list.last (p :: b1) = Some x → list.last (q :: b2) = Some y →
  fdb_heap f !! x = Some i → fdb_heap f !! y = Some j →
  num_of f x = num_of f y → previous_id i = previous_id j →
  ∃ res, walk_both fuel f l1 l2 p q = Ok res.
Proof.
  intros Hf Hs. revert l1 l2 p q b1 b2.
  induction fuel as [|fuel IH]; intros l1 l2 p q b1 b2 Hfuel Hb1 Hb2 Hn Hx Hy Hi Hj Hxy Hprev; [lia|].
  pose proof (indexed_branch_last _ _ _ _ Hf Hs Hb1 Hx) as Hn1.
  pose proof (indexed_branch_last _ _ _ _ Hf Hs Hb2 Hy) as Hn2.
  pose proof Hb1 as [[[ip Hip] _] _]. pose proof Hb2 as [[[iq Hiq] _] _].
  cbn [walk_both]. unfold find_item at 1 2. rewrite Hip, Hiq. cbn [of_option res_bind].
  case_bool_decide as Heq; [by eexists|].
  destruct b1 as [|p' b1].
  { destruct b2; cbn [length] in Hn1, Hn2; [|lia]. cbn in Hx, Hy. injection Hx as ->. injection Hy as ->.
    congruence. }
  destruct b2 as [|q' b2]; [cbn [length] in Hn1, Hn2; lia|].
  destruct (indexed_branch_step _ _ _ _ Hf Hs Hb1) as (Hb1' & Hnp & Hlt & Hs1).
  destruct (indexed_branch_step _ _ _ _ Hf Hs Hb2) as (Hb2' & Hnq & _ & Hs2).
  rewrite Hs1, Hs2. cbn [res_bind]. eapply IH; [lia|exact Hb1'|exact Hb2'|lia|done..].
Qed.

(** After both have walked down they stand at one height, having passed disjoint
    blocks. *)
Lemma walks_meet f p q l1 p1 l2 q1 : fork_ok f → nums_fit f → valid f p → valid f q →
  walk_down (S p) f [] q [] p = Ok (l1, p1) →
  walk_down (S q) f (p1 :: l1) p1 [] q = Ok (l2, q1) →
  chained f (l1 ++ [p1]) ∧ chained f (l2 ++ [q1]) ∧ num_of f p1 = num_of f q1 ∧
  default p1 (head l1) = p ∧ default q1 (head l2) = q ∧
  (∀ r, r ∈ l1 ++ l2 → num_of f p1 < num_of f r) ∧ (∀ r, r ∈ l1 → r ∉ l2).
Proof.
  intros Hf Hs Hp Hq H1 H2.
  apply walk_down_sound in H1 as (Hc1 & Hh1 & Hr1 & Hn1); [|done|done|done|done].
  apply walk_down_sound in H2 as (Hc2 & Hh2 & Hr2 & Hn2); [|done|done|by eapply chained_last|done].
  assert (∀ l (a b : item_ptr), head (l ++ [a]) = head ([] ++ [b]) → default a (head l) = b) as Hd.
  { intros [|??] a b [= ->]; done. }
  assert (num_of f p1 = num_of f q1) as Hn.
  { destruct Hn1 as [(-> & -> & ?)|?], Hn2 as [(-> & -> & ?)|?]; lia. }
  assert (l1 = [] ∨ l2 = []) as Hnil.
  { destruct Hn1 as [(-> & _)|?]; [by left|]. right. destruct l2 as [|r l2]; [done|].
    destruct Hn2 as [(Hl2 & _)|?]; [done|].
    destruct l2; cbn in Hh2; injection Hh2 as ->;
      (destruct (Hr2 q) as [Hr|?]; [apply list_elem_of_here|by inversion Hr|lia]). }
  split_and!; [done|done|done|by apply Hd|by apply Hd| |].
  - intros r [Hr|Hr]%elem_of_app.
    + destruct (Hr1 r Hr) as [Hn'|?]; [by inversion Hn'|].
      destruct Hn1 as [(-> & _)|?]; [by inversion Hr|lia].
    + destruct (Hr2 r Hr) as [Hn'|?]; [by inversion Hn'|lia].
  - intros r Hr Hr'. destruct Hnil as [-> | ->]; [by inversion Hr|by inversion Hr'].
Qed.

(** C18: [fetch_branch_from] finds where two branches part.  Whatever it returns
    are branches back from the two blocks, each item linked to the next, which
    end in blocks of one height with the same predecessor and have no other block
    in common; and it does return if such blocks can be reached from both through
    the index. *)
Theorem fetch_branch_from_spec f first second p q :
  fork_ok f → nums_fit f →
  find_id f (_index f) first = Some p → find_id f (_index f) second = Some q →
  (∀ l1 l2, fetch_branch_from f first second = Ok (l1, l2) → forks f p q l1 l2) ∧
  ((∃ b1 b2 x y i j, indexed_branch f p b1 ∧ indexed_branch f q b2 ∧
      list.last (p :: b1) = Some x ∧ list.last (q :: b2) = Some y ∧
      fdb_heap f !! x = Some i ∧ fdb_heap f !! y = Some j ∧
      num_of f x = num_of f y ∧ previous_id i = previous_id j) →
   ∃ l1 l2, fetch_branch_from f first second = Ok (l1, l2)).
Proof.
  intros Hf Hs Hp Hq.
  pose proof Hp as (Hpv & _)%find_id_Some. apply (index_valid f Hf) in Hpv.
  pose proof Hq as (Hqv & _)%find_id_Some. apply (index_valid f Hf) in Hqv.
  pose proof (fun l1 p1 l2 q1 => walks_meet f p q l1 p1 l2 q1 Hf Hs Hpv Hqv) as Hwalks.
  unfold fetch_branch_from. rewrite Hp, Hq. cbn [of_option res_bind]. split.
  - intros l1 l2 Hr. inv_ok. destruct x as [m1 p1]. inv_ok. destruct x as [m2 q1].
    destruct (Hwalks _ _ _ _ H0 H1) as (? & ? & ? & <- & <- & ? & ?).
    by eapply walk_both_sound.
  - intros (b1 & b2 & x & y & i & j & Hb1 & Hb2 & Hx & Hy & Hi & Hj & Hxy & Hprev).
    pose proof (indexed_branch_last _ _ _ _ Hf Hs Hb1 Hx).
    pose proof (indexed_branch_last _ _ _ _ Hf Hs Hb2 Hy).
    destruct (walk_down_total (S p) f [] q [] p b1 x) as (m1 & p1 & b1' & E1 & Hb1' & Hx'); [done..|lia|done|done|lia|].
    destruct (walk_down_total (S q) f (p1 :: m1) p1 [] q b2 y) as (m2 & q1 & b2' & E2 & Hb2' & Hy');
      [done|done|apply Hb1'|lia|done|done| |].
    { pose proof (indexed_branch_last _ _ _ _ Hf Hs Hb1' Hx'). lia. }
    destruct (Hwalks _ _ _ _ E1 E2) as (_ & _ & Hn & _). rewrite E1. cbn [res_bind]. rewrite E2. cbn [res_bind].
    destruct (walk_both_total (S p1) f m1 m2 p1 q1 b1' b2' x y i j) as [[l1 l2] Hr]; [done|done|lia|done..|].
    by exists l1, l2.
Qed.

(** *** The main branch *)

Lemma walk_back_to_branch fuel f p l z : fork_ok f → nums_fit f → (p < fuel)%nat →
  indexed_branch f p l → list.last (p :: l) = Some z →
  walk_back_to fuel f (num_of f z) (Some p) = Ok (Some z).
Proof.
  intros Hf Hs. revert p l. induction fuel as [|fuel IH]; intros p l Hfuel Hb Hz; [lia|].
  pose proof (indexed_branch_last _ _ _ _ Hf Hs Hb Hz) as Hn.
  pose proof Hb as [[[i Hi] _] Hin]. cbn [walk_back_to]. unfold find_item. rewrite Hi.
  cbn [of_option res_bind]. unfold num_of at 1 in Hn. rewrite Hi in Hn. cbn in Hn.
  rewrite Z.gtb_ltb. destruct l as [|q l].
  - rewrite (proj2 (Z.ltb_ge _ _)) by (cbn in Hn; lia). cbn in Hz. by injection Hz as ->.
  - rewrite (proj2 (Z.ltb_lt _ _)) by (cbn [length] in Hn; lia).
    destruct (indexed_branch_step _ _ _ _ Hf Hs Hb) as (Hb' & _ & Hlt & Hstep).
    specialize (Hstep []). unfold step_back, find_item in Hstep. rewrite Hi in Hstep.
    cbn [of_option res_bind] in Hstep. destruct (lock _ _ _) as [q'|]; [|done].
    injection Hstep as ->. by eapply IH; [lia|..].
Qed.

(** A block on the branch of the head is found by its number, however many
    other blocks have the same number. *)
Theorem main_branch_fetch f h l z : fork_ok f → nums_fit f →
  _head f = Some h → indexed_branch f h l → list.last (h :: l) = Some z →
  fetch_block_on_main_branch_by_number f (num_of f z) = Ok (Some z).
Proof.
  intros Hf Hs Hh Hb Hz. unfold fetch_block_on_main_branch_by_number.
  assert (z ∈ fetch_block_by_number f (num_of f z)) as Hin.
  { apply list_elem_of_filter. split; [done|]. apply Hb. by apply list.last_Some_elem_of. }
  destruct (fetch_block_by_number f (num_of f z)) as [|z' [|z'' zs]]; [by inversion Hin| |].
  - by apply list_elem_of_singleton in Hin as ->.
  - unfold walk_main_branch_to_num. rewrite Hh. pose proof Hb as [[[i Hi] _] _].
    cbn [of_option res_bind]. unfold find_item at 1. rewrite Hi. cbn [of_option res_bind].
    pose proof (indexed_branch_last _ _ _ _ Hf Hs Hb Hz) as Hn. unfold num_of at 1 in Hn.
    rewrite Hi in Hn. cbn in Hn. rewrite Z.gtb_ltb, (proj2 (Z.ltb_ge _ _)) by lia.
    eapply walk_back_to_branch; [done|done|lia|done..].
Qed.

(** *** The window of blocks kept *)

Lemma first_by_num_min f l p : first_by_num f l = Some p →
  p ∈ l ∧ ∀ q, q ∈ l → num_of f p ≤ num_of f q.
Proof.
  unfold first_by_num. intros Hp. pose proof (merge_sort_Permutation (num_le f) l) as Hperm.
  assert (StronglySorted (num_le f) (merge_sort (num_le f) l)) as Hsort.
  { apply StronglySorted_merge_sort.
    - intros a b c. unfold num_le. lia.
    - intros a b. unfold num_le. lia. }
  destruct (merge_sort (num_le f) l) as [|p' l']; [done|]. injection Hp as ->.
  inversion Hsort as [|? ? _ Hall]; subst. split.
  - rewrite <- Hperm. apply list_elem_of_here.
  - intros q Hq. rewrite <- Hperm in Hq. apply elem_of_cons in Hq as [->|Hq]; [lia|].
    rewrite Stdlib.Lists.List.Forall_forall in Hall. by apply Hall, list_elem_of_In.
Qed.
Lemma first_by_num_None f l : first_by_num f l = None → l = [].
Proof.
  unfold first_by_num. pose proof (merge_sort_Permutation (num_le f) l) as Hperm.
  destruct (merge_sort (num_le f) l); [|done]. intros _. by apply Permutation_nil_l in Hperm.
Qed.

Lemma erase_item_length p l : p ∈ l → (length (erase_item p l) < length l)%nat.
Proof.
  intros Hp. unfold erase_item. induction l as [|q l IH]; [by inversion Hp|].
  rewrite filter_cons. destruct (decide (q ≠ p)) as [Hne|He].
  - cbn. apply elem_of_cons in Hp as [->|Hp]; [done|]. specialize (IH Hp). lia.
  - cbn. pose proof (length_filter (fun q => q ≠ p) l). lia.
Qed.

(** The loop stops and leaves exactly the items at or above the bound. *)
Lemma trim_spec fuel f bound l r : (length l ≤ fuel)%nat →
  r ∈ trim fuel f bound l ↔ r ∈ l ∧ bound ≤ num_of f r.
Proof.
  revert l. induction fuel as [|fuel IH]; intros l Hl; cbn [trim].
  - destruct l; [|cbn in Hl; lia]. split; [by inversion 1|by intros [? _]].
  - destruct (first_by_num f l) as [p|] eqn:Ep.
    + apply first_by_num_min in Ep as [Hp Hmin]. destruct (Z.ltb_spec (num_of f p) bound).
      * rewrite IH by (pose proof (erase_item_length _ _ Hp); lia).
        unfold erase_item. rewrite list_elem_of_filter.
        split; [tauto|]. intros [Hr ?]. split; [split; [|done]|done]. intros ->. lia.
      * split; [|tauto]. intros Hr. split; [done|]. specialize (Hmin r Hr). lia.
    + apply first_by_num_None in Ep as ->. split; [by inversion 1|by intros [? _]].
Qed.

(** [set_max_size] keeps exactly the blocks from [s] below the head upwards, so
    the part of any branch within that range stays complete. *)
Theorem set_max_size_window s f n : fork_ok f → head_num f = Some n →
  ∃ f', set_max_size s f = Ok (tt, f') ∧ _head f' = _head f ∧
    (∀ r, r ∈ _index f' ↔ r ∈ _index f ∧ Z.max 0 (n - s) ≤ num_of f r) ∧
    (∀ p l, indexed_branch f p l → (∀ r, r ∈ p :: l → Z.max 0 (n - s) ≤ num_of f r) →
       indexed_branch f' p l).
Proof.
  intros Hf Hn. unfold head_num in Hn. destruct (_head f) as [h|] eqn:Eh; [|done].
  cbn in Hn. destruct (head_valid f Hf h Eh) as [i Hi]. unfold num_of in Hn. rewrite Hi in Hn.
  injection Hn as <-. unfold set_max_size.
  erewrite bind_run by reflexivity. erewrite bind_run by reflexivity. cbn [_head].
  change (_head (f <| _max_size := s |>)) with (_head f). rewrite Eh.
  erewrite bind_run by (apply deref_run; exact Hi).
  set (bound := Z.max 0 (itm_num i - s)).
  assert (∀ r, r ∈ trim (length (_index f)) (f <| _max_size := s |>) bound (_index f) ↔
    r ∈ _index f ∧ bound ≤ num_of f r) as Ht
    by (intros r; exact (trim_spec _ (f <| _max_size := s |>) bound (_index f) r (Nat.le_refl _))).
  eexists. split; [reflexivity|]. split_and!; [exact Eh|exact Ht|].
  intros p l [Hc Hin] Hw. split; [by apply (chained_frame f)|]. intros r Hr. apply Ht. auto.
Qed.

End Branches.

(** ** A fork *)

(** Two branches of two and one blocks on a common block; the identifiers carry
    the time stamps. *)

Section Samples.
#[local] Existing Instance sample_crypto.

Definition sample_ids : list block_id_type :=
  let b1 := sample_block null_id 1 in
  let b2 := sample_block (block_id b1) 2 in
  let b2' := sample_block (block_id b1) 3 in
  let b3 := sample_block (block_id b2) 4 in
  block_id <$> [b1; b2; b2'; b3].
Definition sample_id (i : nat) : block_id_type := nth i sample_ids null_id.

Definition fork_of (m : M fork_database unit) (f : fork_database) : fork_database :=
  match m f with Ok (_, f') => f' | Throw _ => f end.
Definition sample_blocks : list signed_block :=
  [sample_block null_id 1; sample_block (sample_id 0) 2;
   sample_block (sample_id 0) 3; sample_block (sample_id 1) 4].
Definition sample_fork : fork_database :=
  fork_of (for_each sample_blocks (fun b => push_block b ;; ret tt)) empty_fork_database.

Lemma for_each_reachable l f f' : reachable f →
  for_each l (fun b => push_block b ;; ret tt) f = Ok (tt, f') → reachable f'.
Proof.
  revert f. induction l as [|b l IH]; intros f Hf H; cbn in H; inv_ok; [done|].
  eapply IH; [|done]. eapply rtc_r; [exact Hf|]. by eapply step_push_block.
Qed.

Lemma sample_fork_reachable : reachable sample_fork.
Proof.
  apply (for_each_reachable sample_blocks empty_fork_database); [apply rtc_refl|].
  vm_compute. reflexivity.
Qed.
End Samples.

Lemma reachable_fork_ok_witness :
  let _ := sample_crypto in
  _index sample_fork = [0; 1; 2; 3]%nat ∧ fork_ok sample_fork ∧ numbered sample_fork.
Proof.
  intros K. split; [vm_compute; reflexivity|].
  destruct (reachable_fork_ok (H := K) sample_fork sample_fork_reachable) as (Hf & Hn & _).
  split; [exact Hf|]. apply Hn. intros h. discriminate.
Defined.

Lemma sample_fork_ok : let _ := sample_crypto in fork_ok sample_fork ∧ nums_fit sample_fork.
Proof.
  intros K. split.
  - apply reachable_ok, sample_fork_reachable.
  - change (map_Forall (fun _ i => itm_num i < 2 ^ 32 - 1) (fdb_heap sample_fork)).
    apply (bool_decide_unpack _). vm_compute. exact I.
Qed.

Lemma sample_main_branch : let _ := sample_crypto in indexed_branch sample_fork 3%nat [1]%nat.
Proof.
  intros K. split.
  - cbn [chained]. unfold valid.
    split_and!; [by apply (bool_decide_unpack _); vm_compute| | |done|done].
    + eexists. split; vm_compute; reflexivity.
    + by apply (bool_decide_unpack _); vm_compute.
  - intros r Hr. apply (bool_decide_unpack _). 
    repeat (apply elem_of_cons in Hr as [->|Hr]; [vm_compute; exact I|]). by inversion Hr.
Qed.

(** An unknown predecessor, and a block that extends the shorter branch. *)
Lemma push_block_outcome_witness :
  let _ := sample_crypto in
  push_block (sample_block (sample_id 4) 9) sample_fork ≠ Throw unlinkable_block_exception ∧
  push_block (sample_block [7; 7; 7; 7; 7] 9) sample_fork = Throw unlinkable_block_exception ∧
  ∃ f', push_block (sample_block (sample_id 2) 9) sample_fork = Ok (Some 3%nat, f').
Proof.
  intros K. destruct sample_fork_ok as [Hf _]. split_and!.
  - vm_compute. discriminate.
  - pose proof (push_block_outcome (H := K) sample_fork (sample_block [7; 7; 7; 7; 7] 9) Hf) as Hr.
    assert (refusal sample_fork (sample_block [7; 7; 7; 7; 7] 9) = Some unlinkable_block_exception) as E
      by (vm_compute; reflexivity).
    rewrite E in Hr. exact Hr.
  - pose proof (push_block_outcome (H := K) sample_fork (sample_block (sample_id 2) 9) Hf) as Hr.
    assert (refusal sample_fork (sample_block (sample_id 2) 9) = None) as E by (vm_compute; reflexivity).
    rewrite E in Hr. destruct Hr as (f' & i & Hr & _ & _ & _ & _ & _ & Hh).
    rewrite bool_decide_eq_false_2 in Hh by (vm_compute; congruence).
    exists f'. rewrite Hr, Hh. f_equal.
Defined.

Lemma fetch_branch_from_spec_witness :
  let _ := sample_crypto in
  fetch_branch_from sample_fork (sample_id 3) (sample_id 2) = Ok ([3; 1], [2])%nat ∧
  forks sample_fork 3%nat 2%nat [3; 1]%nat [2]%nat.
Proof.
  intros K. destruct sample_fork_ok as [Hf Hs].
  assert (fetch_branch_from sample_fork (sample_id 3) (sample_id 2) = Ok ([3; 1], [2])%nat) as Hr
    by (vm_compute; reflexivity).
  split; [exact Hr|].
  eapply (fetch_branch_from_spec (H := K)); [discriminate|exact Hf|exact Hs| | |exact Hr];
    vm_compute; reflexivity.
Defined.

Lemma main_branch_fetch_witness :
  let _ := sample_crypto in
  fetch_block_by_number sample_fork 2 = [1; 2]%nat ∧
  fetch_block_on_main_branch_by_number sample_fork 2 = Ok (Some 1%nat).
Proof.
  intros K. split; [vm_compute; reflexivity|]. destruct sample_fork_ok as [Hf Hs].
  exact (main_branch_fetch (H := K) ltac:(discriminate) sample_fork 3%nat [1]%nat 1%nat Hf Hs
    ltac:(vm_compute; reflexivity) sample_main_branch ltac:(reflexivity)).
Defined.

Lemma set_max_size_window_witness :
  let _ := sample_crypto in
  ∃ f', set_max_size 1 sample_fork = Ok (tt, f') ∧ (0%nat ∉ _index f') ∧ 1%nat ∈ _index f'.
Proof.
  intros K. destruct sample_fork_ok as [Hf Hs].
  destruct (set_max_size_window (H := K) 1 sample_fork 3 Hf) as (f' & Hr & _ & Hi & _);
    [vm_compute; reflexivity|].
  exists f'. split; [exact Hr|]. split.
  - rewrite Hi. intros [_ Hn]. revert Hn. vm_compute. auto.
  - apply Hi. split; [|vm_compute; discriminate].
    apply (bool_decide_unpack _). vm_compute. exact I.
Defined.
