(* ===== verification/BlockLog.v ===== *)
(** * The block log

    src/src/core/chain/block_log.cpp and .hpp: an append-only file of packed
    blocks, each followed by its position, and an index file of the positions.
    A file is the list of its bytes; positions are written as 64-bit integers in
    little-endian order, the byte order of the machines the code runs on.  The
    serialization of blocks (fc::raw) is the class [Packing].  Reopening a stream
    between writing and reading, flushing and locking change no file and are left
    out. *)
From S2P Require Import Prelude Ints Config Authority Headers Operations State Blocks.

Class Packing := {
  pack_block : signed_block → list Z;
  (** the block at the front and the bytes behind it *)
  unpack_block : list Z → option (signed_block * list Z);
}.

Record block_log := mk_block_log {
  block_file : list Z;
  index_file : list Z;
  log_head : option signed_block;
  log_head_id : block_id_type
}.
#[export] Instance eta_block_log : Eta block_log := fun r =>
  mk_block_log (block_file r) (index_file r) (log_head r) (log_head_id r).

Definition npos : Z := 2 ^ 64 - 1.

(** A read past the end of a file: the streams throw. *)
Definition stream_failure : exn := assert_exception "ios_base::failure".

(** ** Positions in files *)

Fixpoint le_bytes (n : nat) (x : Z) : list Z :=
  match n with
  | O => []
  | S n' => Z.land x 255 :: le_bytes n' (Z.shiftr x 8)
  end.
Fixpoint of_le_bytes (l : list Z) : Z :=
  match l with
  | [] => 0
  | x :: l' => x + Z.shiftl (of_le_bytes l') 8
  end.
(** [write( (char* )&pos, sizeof( pos ) )]. *)
Definition write_pos (pos : Z) : list Z := le_bytes 8 pos.
Arguments write_pos : simpl never.
(** [seekg( at ); read( (char* )&pos, sizeof( pos ) )]. *)
Definition read_pos (file : list Z) (at_byte : Z) : res Z :=
  let bytes := take 8 (drop (Z.to_nat at_byte) file) in
  if (0 <=? at_byte) && bool_decide (length bytes = 8%nat)
  then Ok (of_le_bytes bytes) else Throw stream_failure.
Definition file_size (file : list Z) : Z := Z.of_nat (length file).
(** [seekg( -sizeof( uint64_t ), std::ios::end )]. *)
Definition read_last_pos (file : list Z) : res Z := read_pos file (file_size file - 8).

Section BlockLog.
Context `{Crypto, Packing}.

(** [block_log()], then [open] on new files. *)
Definition empty_block_log : block_log := mk_block_log [] [] None null_id.

Definition append (b : signed_block) : M block_log Z :=
  let* log := get in
  let pos := file_size (block_file log) in
  fc_assert (file_size (index_file log) =? 8 * wrap_u32 (block_num b - 1))
    "Append to index file occuring at wrong position." ;;
  modify (fun log => log <| block_file ::= fun f => f ++ pack_block b ++ write_pos pos |>) ;;
  modify (fun log => log <| index_file ::= fun f => f ++ write_pos pos |>) ;;
  modify (fun log => log <| log_head := Some b |> <| log_head_id := block_id b |>) ;;
  ret pos.

(** The block at a position and the position of the next. *)
Definition read_block_helper (log : block_log) (pos : Z) : res (signed_block * Z) :=
  let? (b, rest) := of_option (unpack_block (drop (Z.to_nat pos) (block_file log))) stream_failure in
  Ok (b, file_size (block_file log) - file_size rest + 8).
Definition read_block := read_block_helper.

Definition get_block_pos_helper (log : block_log) (num : Z) : res Z :=
  if negb (bool_decide (is_Some (log_head log)) && (num <=? num_from_id (log_head_id log)) && (num >? 0))
  then Ok npos
  else read_pos (index_file log) (8 * wrap_u32 (num - 1)).
Definition get_block_pos := get_block_pos_helper.

Definition read_block_by_num (log : block_log) (num : Z) : res (option signed_block) :=
  let? pos := get_block_pos_helper log num in
  if negb (pos =? npos) then
    let? (b, _) := read_block_helper log pos in
    let? _ := res_assert (block_num b =? num) "Wrong block was read from block log." in
    Ok (Some b)
  else Ok None.

Definition read_head (log : block_log) : res signed_block :=
  let? pos := read_last_pos (block_file log) in
  let? (b, _) := read_block_helper log pos in
  Ok b.

(** The loop of [construct_index]; every round reads at least the eight bytes of
    a position, so the length of the file bounds the rounds. *)
Fixpoint index_rest (fuel : nat) (pos end_pos : Z) (rest index : list Z) : res (list Z) :=
  match fuel with
  | O => Throw out_of_fuel
  | S fuel' =>
      if pos <? end_pos then
        let? (_, rest) := of_option (unpack_block rest) stream_failure in
        let? pos := read_pos rest 0 in
        index_rest fuel' pos end_pos (drop 8 rest) (index ++ write_pos pos)
      else Ok index
  end.

Definition construct_index (log : block_log) : res block_log :=
  let? end_pos := read_last_pos (block_file log) in
  let? index := index_rest (S (length (block_file log))) 0 end_pos (block_file log) [] in
  Ok (log <| index_file := index |>).

(** [open] on the two files. *)
Definition open_log (blocks index : list Z) : res block_log :=
  let log := mk_block_log blocks index None null_id in
  if negb (file_size blocks =? 0) then
    let? b := read_head log in
    let log := log <| log_head := Some b |> <| log_head_id := block_id b |> in
    if negb (file_size index =? 0) then
      let? block_pos := read_last_pos blocks in
      let? index_pos := read_last_pos index in
      if (block_pos <? index_pos) || (block_pos >? index_pos) then construct_index log
      else Ok log
    else construct_index log
  else Ok (log <| index_file := [] |>).

End BlockLog.

(** ** Round trip of positions *)

Lemma of_le_bytes_spec n x : 0 ≤ x < 2 ^ (8 * Z.of_nat n) → of_le_bytes (le_bytes n x) = x.
Proof.
  revert x. induction n as [|n IH]; intros x Hx; cbn [le_bytes of_le_bytes].
  - cbn in Hx. lia.
  - change 255 with (Z.ones 8). rewrite Z.land_ones, Z.shiftr_div_pow2 by lia.
    replace (8 * Z.of_nat (S n)) with (8 + 8 * Z.of_nat n) in Hx by lia.
    rewrite Z.pow_add_r in Hx by lia.
    rewrite IH, Z.shiftl_mul_pow2; [|lia|].
    2:{ split; [apply Z.div_pos; lia|]. apply Z.div_lt_upper_bound; lia. }
    pose proof (Z.div_mod x (2 ^ 8)). lia.
Qed.
Lemma le_bytes_length n x : length (le_bytes n x) = n.
Proof. revert x. induction n; intros x; cbn; auto. Qed.

Lemma read_pos_at l pos r : 0 ≤ pos < 2 ^ 64 →
  read_pos (l ++ write_pos pos ++ r) (Z.of_nat (length l)) = Ok pos.
Proof.
  intros Hp. unfold read_pos, write_pos. rewrite Nat2Z.id, drop_app_length.
  rewrite take_app_length' by (symmetry; apply le_bytes_length).
  rewrite le_bytes_length, bool_decide_eq_true_2, (proj2 (Z.leb_le _ _)) by lia.
  cbn [andb]. rewrite of_le_bytes_spec; [done|]. exact Hp.
Qed.
Lemma read_last_pos_snoc l pos : 0 ≤ pos < 2 ^ 64 → read_last_pos (l ++ write_pos pos) = Ok pos.
Proof.
  intros Hp. unfold read_last_pos, file_size. rewrite length_app.
  unfold write_pos at 2. rewrite le_bytes_length.
  replace (Z.of_nat (length l + 8) - 8) with (Z.of_nat (length l)) by lia.
  pose proof (read_pos_at l pos [] Hp) as Hr. by rewrite app_nil_r in Hr.
Qed.

(** ** The log as a list of blocks *)

Section Contents.
Context `{Crypto, Packing}.

(** The files that hold the blocks [bs], the first of them at [pos]. *)
Fixpoint entries (pos : Z) (bs : list signed_block) : list Z :=
  match bs with
  | [] => []
  | b :: bs' =>
      pack_block b ++ write_pos pos ++ entries (pos + Z.of_nat (length (pack_block b)) + 8) bs'
  end.
Fixpoint positions (pos : Z) (bs : list signed_block) : list Z :=
  match bs with
  | [] => []
  | b :: bs' => pos :: positions (pos + Z.of_nat (length (pack_block b)) + 8) bs'
  end.
Definition index_of (bs : list signed_block) : list Z := mjoin (write_pos <$> positions 0 bs).

(** The log that holds exactly the blocks [bs]. *)
Definition log_of (bs : list signed_block) : block_log :=
  mk_block_log (entries 0 bs) (index_of bs) (list.last bs)
    (from_option block_id null_id (list.last bs)).

(** Blocks numbered from one that the serialization can read back, in a file of
    less than 2^64 bytes. *)
Record storable (bs : list signed_block) : Prop := {
  numbered : ∀ i b, bs !! i = Some b → block_num b = Z.of_nat i + 1;
  readable : ∀ b rest, b ∈ bs → unpack_block (pack_block b ++ rest) = Some (b, rest);
  hashed_words : ∀ b, b ∈ bs → sha224_header (signed_header_part b) ≠ [];
  fits : Z.of_nat (length (entries 0 bs)) < 2 ^ 64;
}.

Lemma entries_app pos bs bs' :
  entries pos (bs ++ bs') = entries pos bs ++ entries (pos + Z.of_nat (length (entries pos bs))) bs'.
Proof.
  revert pos. induction bs as [|b bs IH]; intros pos; cbn [entries app length].
  - by replace (pos + Z.of_nat 0) with pos by lia.
  - rewrite IH, <- !app_assoc. do 3 f_equal. rewrite !length_app.
    unfold write_pos. rewrite le_bytes_length. f_equal. lia.
Qed.
Lemma positions_app pos bs bs' :
  positions pos (bs ++ bs') = positions pos bs ++ positions (pos + Z.of_nat (length (entries pos bs))) bs'.
Proof.
  revert pos. induction bs as [|b bs IH]; intros pos; cbn [entries positions app length].
  - by replace (pos + Z.of_nat 0) with pos by lia.
  - rewrite IH. do 3 f_equal. rewrite !length_app. unfold write_pos. rewrite le_bytes_length. lia.
Qed.
Lemma positions_length pos bs : length (positions pos bs) = length bs.
Proof. revert pos. induction bs; intros pos; cbn; auto. Qed.
Lemma write_all_length l : length (mjoin (write_pos <$> l)) = (8 * length l)%nat.
Proof.
  induction l as [|p l IH]; [done|].
  change (mjoin (write_pos <$> p :: l)) with (write_pos p ++ mjoin (write_pos <$> l)).
  rewrite length_app, IH. unfold write_pos. rewrite le_bytes_length. cbn. lia.
Qed.
Lemma index_of_length bs : file_size (index_of bs) = 8 * Z.of_nat (length bs).
Proof. unfold file_size, index_of. rewrite write_all_length, positions_length. lia. Qed.
Lemma index_of_snoc bs b :
  index_of (bs ++ [b]) = index_of bs ++ write_pos (file_size (entries 0 bs)).
Proof.
  unfold index_of, file_size. rewrite positions_app, fmap_app, join_app. cbn.
  by rewrite ?app_nil_r.
Qed.

(** [append] adds a block to the end of the log, in both files, if its number
    is the next one; any other block is refused and changes nothing. *)
Theorem append_next bs b : Z.of_nat (length bs) < 2 ^ 32 - 1 →
  if bool_decide (block_num b = Z.of_nat (length bs) + 1)
  then append b (log_of bs) = Ok (file_size (entries 0 bs), log_of (bs ++ [b]))
  else ∃ msg, append b (log_of bs) = Throw (assert_exception msg).
Proof.
  intros Hl. unfold append. erewrite bind_run by reflexivity.
  change (index_file (log_of bs)) with (index_of bs). rewrite index_of_length.
  pose proof (Z.mod_pos_bound (num_from_id (blk_previous b) + 1) (2 ^ 32) ltac:(lia)) as Hb.
  change ((num_from_id (blk_previous b) + 1) mod 2 ^ 32) with (block_num b) in Hb.
  case_bool_decide as Hn.
  - rewrite (proj2 (Z.eqb_eq _ _)).
    2:{ unfold wrap_u32. rewrite Z.mod_small by lia. lia. }
    repeat (erewrite bind_run by reflexivity). unfold ret. repeat f_equal.
    unfold log_of, upd. cbn. rewrite entries_app, index_of_snoc, last_snoc. cbn.
    by rewrite app_nil_r.
  - rewrite (proj2 (Z.eqb_neq _ _)); [by eexists|].
    unfold wrap_u32. pose proof (Z.mod_pos_bound (block_num b - 1) (2 ^ 32) ltac:(lia)).
    destruct (decide (block_num b = 0)) as [->|].
    + change ((0 - 1) mod 2 ^ 32) with (2 ^ 32 - 1). lia.
    + rewrite Z.mod_small by lia. lia.
Qed.

(** A sequence of appends. *)
Definition append_all (bs : list signed_block) : M block_log unit := for_each bs (fun b => append b ;; ret tt).
Lemma append_all_run bs r : (∀ i b, (bs ++ r) !! i = Some b → block_num b = Z.of_nat i + 1) →
  Z.of_nat (length (bs ++ r)) < 2 ^ 32 → append_all r (log_of bs) = Ok (tt, log_of (bs ++ r)).
Proof.
  revert bs. unfold append_all. induction r as [|b r IH]; intros bs Hn Hl; cbn [for_each]; [by rewrite app_nil_r|].
  pose proof (Hn (length bs) b) as Hb. rewrite lookup_app_r, Nat.sub_diag in Hb by lia. specialize (Hb eq_refl).
  pose proof (append_next bs b) as Ha. rewrite bool_decide_eq_true_2 in Ha by done.
  rewrite length_app in Hl. cbn [length] in Hl. rewrite bind_assoc. rewrite (bind_run _ _ _ _ _ (Ha ltac:(lia))).
  replace (bs ++ b :: r) with ((bs ++ [b]) ++ r) in * by (by rewrite <-app_assoc).
  apply IH; [done|]. rewrite !length_app in *. cbn in *. lia.
Qed.

(** *** Reading *)

Lemma storable_position l b r : storable (l ++ b :: r) → 0 ≤ file_size (entries 0 l) < 2 ^ 64 - 1.
Proof.
  intros [_ _ _ Hf]. unfold file_size. rewrite entries_app, length_app in Hf.
  cbn [entries] in Hf. rewrite !length_app in Hf. unfold write_pos in Hf.
  rewrite le_bytes_length in Hf. lia.
Qed.

Lemma read_block_at l b r hd hid index : storable (l ++ b :: r) →
  read_block_helper (mk_block_log (entries 0 (l ++ b :: r)) index hd hid) (file_size (entries 0 l))
  = Ok (b, file_size (entries 0 (l ++ [b]))).
Proof.
  intros Hs. unfold read_block_helper. cbn [block_file]. rewrite !entries_app. unfold file_size at 1.
  rewrite Nat2Z.id, drop_app_length. cbn [entries].
  rewrite (readable _ Hs) by (apply elem_of_app; right; apply list_elem_of_here).
  cbn [of_option res_bind]. do 2 f_equal. unfold file_size. rewrite !length_app.
  unfold write_pos. rewrite !le_bytes_length. cbn. lia.
Qed.

Lemma index_at l b r : storable (l ++ b :: r) →
  read_pos (index_of (l ++ b :: r)) (8 * Z.of_nat (length l)) = Ok (file_size (entries 0 l)).
Proof.
  intros Hs. unfold index_of. rewrite positions_app, fmap_app, join_app.
  rewrite <- (positions_length 0 l).
  replace (8 * Z.of_nat (length (positions 0 l)))
    with (Z.of_nat (length (mjoin (write_pos <$> positions 0 l))))
    by (rewrite write_all_length; lia).
  cbn [positions]. rewrite fmap_cons.
  pose proof (storable_position _ _ _ Hs). apply read_pos_at. unfold file_size in *. lia.
Qed.

Lemma storable_head bs : storable bs →
  num_from_id (log_head_id (log_of bs)) = Z.of_nat (length bs) ∨ bs = [].
Proof.
  intros Hs. destruct bs as [|b bs _] using rev_ind; [by right|]. left.
  cbn [log_head_id log_of]. rewrite last_snoc. cbn [from_option].
  rewrite num_from_block_id.
  - rewrite (numbered _ Hs (length bs) b), length_app by (by rewrite lookup_app_r, Nat.sub_diag by lia).
    cbn. lia.
  - apply (hashed_words _ Hs). apply elem_of_app. right. apply list_elem_of_here.
Qed.

Lemma read_at bs n : storable bs → 0 ≤ n < 2 ^ 32 →
  read_block_by_num (log_of bs) n = Ok (if n =? 0 then None else bs !! Z.to_nat (n - 1)).
Proof.
  intros Hs Hn. unfold read_block_by_num, get_block_pos_helper.
  destruct (storable_head bs Hs) as [Hh| ->]; [|cbn; destruct (n =? 0); [done|by rewrite lookup_nil]].
  rewrite Hh. destruct (Z.eqb_spec n 0) as [->|Hn0].
  { by rewrite andb_false_r. }
  rewrite Z.gtb_ltb, (proj2 (Z.ltb_lt 0 n)), andb_true_r by lia.
  destruct (bs !! Z.to_nat (n - 1)) as [b|] eqn:Eb.
  - pose proof (lookup_lt_Some _ _ _ Eb). pose proof (numbered _ Hs _ _ Eb) as Hb.
    rewrite (bool_decide_eq_true_2 (is_Some _)).
    2:{ cbn. destruct bs as [|c bs _] using rev_ind; [cbn in *; lia|]. rewrite last_snoc. by eexists. }
    rewrite (proj2 (Z.leb_le _ _)) by lia. cbn [andb negb].
    pose proof (take_drop_middle _ _ _ Eb) as Hsplit.
    set (l := take (Z.to_nat (n - 1)) bs) in *. set (r := drop (S (Z.to_nat (n - 1))) bs) in *.
    assert (length l = Z.to_nat (n - 1)) as Hlen by (apply length_take_le; lia).
    rewrite <- Hsplit in Hs |- *. cbn [index_file log_of].
    unfold wrap_u32. rewrite Z.mod_small by lia.
    replace (n - 1) with (Z.of_nat (length l)) by lia. rewrite index_at by done.
    cbn [res_bind]. pose proof (storable_position _ _ _ Hs) as Hp.
    rewrite (proj2 (Z.eqb_neq _ npos)) by (unfold npos; lia). cbn [negb].
    unfold log_of. rewrite read_block_at by done. cbn [res_bind].
    rewrite (proj2 (Z.eqb_eq (block_num b) n)) by lia. done.
  - apply lookup_ge_None in Eb. rewrite (proj2 (Z.leb_gt _ _)) by lia.
    by rewrite andb_false_r.
Qed.

Lemma append_storable bs : storable bs → Z.of_nat (length bs) < 2 ^ 32 →
  append_all bs empty_block_log = Ok (tt, log_of bs).
Proof. intros Hs Hl. apply (append_all_run []); [apply (numbered _ Hs)|done]. Qed.

(** C19: what was appended is read back: appending blocks numbered from one to an
    empty log succeeds, and afterwards the block number [n] is the [n]th of them and
    there is none for other numbers.  A block with any number but the next one is
    refused. *)
Theorem read_back bs n : storable bs → Z.of_nat (length bs) < 2 ^ 32 - 1 → 0 ≤ n < 2 ^ 32 →
  ∃ log, append_all bs empty_block_log = Ok (tt, log) ∧
    read_block_by_num log n = Ok (if n =? 0 then None else bs !! Z.to_nat (n - 1)) ∧
    ∀ c, block_num c ≠ Z.of_nat (length bs) + 1 → ∃ msg, append c log = Throw (assert_exception msg).
Proof.
  intros Hs Hl Hn. exists (log_of bs). split_and!; [apply append_storable; [done|lia]|by apply read_at|].
  intros c Hc. pose proof (append_next bs c Hl) as Ha. by rewrite bool_decide_eq_false_2 in Ha.
Qed.

(** *** Opening *)

Lemma entries_grow l b r : file_size (entries 0 l) < file_size (entries 0 (l ++ b :: r)).
Proof.
  unfold file_size. rewrite entries_app, length_app. cbn [entries]. rewrite !length_app.
  unfold write_pos. rewrite le_bytes_length. lia.
Qed.
Lemma last_pos bs b : storable (bs ++ [b]) →
  read_last_pos (entries 0 (bs ++ [b])) = Ok (file_size (entries 0 bs)).
Proof.
  intros Hs. pose proof (storable_position _ _ _ Hs). rewrite entries_app. cbn [entries].
  rewrite app_nil_r, app_assoc. apply read_last_pos_snoc. unfold file_size in *. lia.
Qed.

(** The scan of the block file writes the index of what it passes. *)
Lemma index_rest_spec r l pos fuel bs z : l ++ r = bs ++ [z] → storable (l ++ r) →
  (length r < fuel)%nat → (r = [] ↔ file_size (entries 0 bs) ≤ pos) →
  index_rest fuel pos (file_size (entries 0 bs)) (entries (file_size (entries 0 l)) r) (index_of l)
  = Ok (index_of (l ++ r)).
Proof.
  revert l pos fuel. induction r as [|b r IH]; intros l pos fuel Hz Hs Hfuel Hpos;
    (destruct fuel as [|fuel]; [lia|]); cbn [index_rest].
  - rewrite (proj2 (Z.ltb_ge _ _)) by (by apply Hpos). by rewrite app_nil_r.
  - assert (pos < file_size (entries 0 bs)) as Hlt.
    { apply Z.nle_gt. intros Hle%Hpos. done. }
    rewrite (proj2 (Z.ltb_lt _ _)) by done. cbn [entries].
    rewrite (readable _ Hs) by (apply elem_of_app; right; apply list_elem_of_here).
    cbn [of_option res_bind]. pose proof (storable_position _ _ _ Hs) as Hp.
    pose proof (read_pos_at [] (file_size (entries 0 l)) (entries (file_size (entries 0 l)
      + Z.of_nat (length (pack_block b)) + 8) r) ltac:(lia)) as Hr.
    cbn [app length] in Hr. change (Z.of_nat 0) with 0 in Hr. rewrite Hr. cbn [res_bind].
    rewrite drop_app_length' by (symmetry; apply le_bytes_length).
    rewrite <- (index_of_snoc l b).
    replace (file_size (entries 0 l) + Z.of_nat (length (pack_block b)) + 8)
      with (file_size (entries 0 (l ++ [b]))).
    2:{ unfold file_size. rewrite entries_app, length_app. cbn [entries]. rewrite !length_app.
        unfold write_pos. rewrite le_bytes_length. cbn. lia. }
    replace (l ++ b :: r) with ((l ++ [b]) ++ r) in * by (by rewrite <- app_assoc).
    apply IH; [done|done|cbn in Hfuel; lia|]. split.
    + intros ->. rewrite app_nil_r in Hz. apply app_inj_tail in Hz as [-> _]. lia.
    + intros Hle. destruct r as [|c r _] using rev_ind; [done|]. exfalso.
      rewrite app_assoc in Hz. apply app_inj_tail in Hz as [<- _].
      rewrite <- app_assoc in Hle. pose proof (entries_grow l b r). cbn in Hle. lia.
Qed.

Lemma construct_index_spec bs b c index hd hid : storable ((bs ++ [b]) ++ [c]) →
  construct_index (mk_block_log (entries 0 ((bs ++ [b]) ++ [c])) index hd hid)
  = Ok (mk_block_log (entries 0 ((bs ++ [b]) ++ [c])) (index_of ((bs ++ [b]) ++ [c])) hd hid).
Proof.
  intros Hs. unfold construct_index. cbn [block_file]. rewrite last_pos by done. cbn [res_bind].
  rewrite (index_rest_spec ((bs ++ [b]) ++ [c]) [] 0 _ (bs ++ [b]) c); [done|done|done| |].
  - assert (∀ l p, (length l ≤ length (entries p l))%nat) as Hle.
    { induction l as [|a l IH]; intros p; cbn [entries length]; [done|].
      rewrite !length_app. unfold write_pos. rewrite le_bytes_length.
      specialize (IH (p + Z.of_nat (length (pack_block a)) + 8)). lia. }
    specialize (Hle ((bs ++ [b]) ++ [c]) 0). lia.
  - split; [by intros [_ ?]%app_eq_nil|]. intros Hle. pose proof (entries_grow bs b []).
    unfold file_size in *. lia.
Qed.

Lemma read_head_spec bs b index hd hid : storable (bs ++ [b]) →
  read_head (mk_block_log (entries 0 (bs ++ [b])) index hd hid) = Ok b.
Proof.
  intros Hs. unfold read_head. cbn [block_file]. rewrite last_pos by done. cbn [res_bind].
  by rewrite (read_block_at bs b []).
Qed.

Lemma open_files bs index : storable bs → (2 ≤ length bs)%nat →
  (index = index_of bs ∨ index = [] ∨
   ∃ p, read_last_pos index = Ok p ∧ read_last_pos (entries 0 bs) ≠ Ok p) →
  open_log (entries 0 bs) index = Ok (log_of bs).
Proof.
  intros Hs Hlen Hindex.
  destruct bs as [|c bs _] using rev_ind; [cbn in Hlen; lia|].
  destruct bs as [|b bs _] using rev_ind; [cbn in Hlen; lia|].
  set (all := (bs ++ [b]) ++ [c]) in *. unfold open_log.
  pose proof (entries_grow (bs ++ [b]) c []) as Hgrow. fold all in Hgrow.
  assert (0 ≤ file_size (entries 0 (bs ++ [b]))) by (unfold file_size; lia).
  rewrite (proj2 (Z.eqb_neq _ _)) by lia. cbn [negb].
  pose proof (read_head_spec (bs ++ [b]) c index None null_id Hs) as Hhead. fold all in Hhead.
  rewrite Hhead. cbn [res_bind].
  assert (∀ index, construct_index (upd log_head_id (fun _ => block_id c) (upd log_head (fun _ => Some c)
    (mk_block_log (entries 0 all) index None null_id))) = Ok (log_of all)) as Hcon.
  { intros i. unfold upd. cbn. etrans; [exact (construct_index_spec bs b c i _ _ Hs)|].
    unfold log_of, all. by rewrite !last_snoc. }
  destruct (Z.eqb_spec (file_size index) 0) as [Hi|Hi]; cbn [negb].
  - apply Hcon.
  - pose proof (last_pos _ _ Hs) as Hlast. fold all in Hlast. rewrite Hlast. cbn [res_bind].
    destruct Hindex as [->|[->|(p & Hp & Hne)]]; [|done|].
    + rewrite (index_of_snoc (bs ++ [b]) c : index_of all = _).
      pose proof (storable_position _ _ _ Hs).
      rewrite read_last_pos_snoc by (unfold file_size in *; lia). cbn [res_bind].
      rewrite Z.gtb_ltb, !Z.ltb_irrefl. cbn [orb]. unfold log_of, upd. cbn.
      unfold all. by rewrite (index_of_snoc _ c), last_snoc.
    + rewrite Hp. cbn [res_bind]. rewrite Hlast in Hne.
      rewrite Z.gtb_ltb. destruct (Z.ltb_spec (file_size (entries 0 (bs ++ [b]))) p); [apply Hcon|].
      rewrite (proj2 (Z.ltb_lt _ _)); [apply Hcon|].
      assert (p ≠ file_size (entries 0 (bs ++ [b]))) by congruence. lia.
Qed.

(** The index that was written is kept. *)
Lemma open_current bs b : storable (bs ++ [b]) →
  open_log (entries 0 (bs ++ [b])) (index_of (bs ++ [b])) = Ok (log_of (bs ++ [b])).
Proof.
  intros Hs. unfold open_log. pose proof (entries_grow bs b []) as Hgrow. pose proof (storable_position _ _ _ Hs).
  rewrite (proj2 (Z.eqb_neq _ _)) by (unfold file_size in *; lia). cbn [negb].
  rewrite (read_head_spec bs b) by done. cbn [res_bind]. rewrite index_of_length, length_app, (proj2 (Z.eqb_neq _ _)) by (cbn; lia).
  cbn [negb]. rewrite last_pos by done. cbn [res_bind]. rewrite (index_of_snoc bs b) at 1.
  rewrite read_last_pos_snoc by (unfold file_size in *; lia). cbn [res_bind].
  rewrite Z.gtb_ltb, !Z.ltb_irrefl. cbn [orb]. unfold log_of, upd. cbn. by rewrite last_snoc.
Qed.

(** C20: a log is found again in its files.  After appending any number of blocks,
    opening the block file gives the log back if the index file is the one that was
    written or the log is empty, and with two blocks or more also if the index file
    is missing or ends in any position other than that of the last block. *)
Theorem open_restores bs log index : storable bs → Z.of_nat (length bs) < 2 ^ 32 →
  append_all bs empty_block_log = Ok (tt, log) →
  (bs = [] ∨ index = index_file log ∨
   (2 ≤ length bs)%nat ∧ (index = [] ∨
     ∃ p, read_last_pos index = Ok p ∧ read_last_pos (block_file log) ≠ Ok p)) →
  open_log (block_file log) index = Ok log.
Proof.
  intros Hs Hl Ha. rewrite append_storable in Ha by done. injection Ha as <-. intros [->|[->|[Hlen Hindex]]].
  - done.
  - destruct bs as [|b bs _] using rev_ind; [done|]. by apply open_current.
  - apply open_files; auto.
Qed.

(** With one block the index cannot be rebuilt: the scan stops before the first
    block because the position of the last one is 0.  The block that is in the log
    can then not be read by its number, and no second block can be appended. *)
Theorem one_block_index_lost b c : storable [b] → block_num c = 2 →
  ∃ log, open_log (entries 0 [b]) [] = Ok log ∧ log_head log = Some b ∧ index_file log = [] ∧
    read_block_by_num log 1 = Throw stream_failure ∧
    ∃ msg, append c log = Throw (assert_exception msg).
Proof.
  intros Hs Hc. unfold open_log. pose proof (entries_grow [] b []) as Hgrow. cbn [app] in Hgrow.
  change (file_size (entries 0 [])) with 0 in Hgrow.
  rewrite (proj2 (Z.eqb_neq _ _)) by lia. cbn [negb].
  rewrite (read_head_spec [] b) by done. cbn [res_bind]. rewrite Z.eqb_refl. cbn [negb].
  unfold construct_index. cbn [block_file upd].
  pose proof (last_pos [] b Hs) as Hl. cbn [app] in Hl. rewrite Hl. cbn [res_bind].
  eexists. split; [reflexivity|]. split_and!; [done|done| |].
  - unfold read_block_by_num, get_block_pos_helper. cbn -[num_from_id].
    destruct (storable_head [b] Hs) as [Hh|?]; [|done]. cbn [log_head_id log_of list.last from_option] in Hh.
    rewrite Hh. reflexivity.
  - eexists. unfold append. erewrite bind_run by reflexivity. unfold bind, fc_assert, lift.
    cbn -[block_num]. rewrite Hc. reflexivity.
Qed.

End Contents.

(** ** Two blocks *)

Section Samples.
#[local] Existing Instance sample_crypto.

Definition stored_blocks : list signed_block :=
  [sample_block null_id 1; sample_block (block_id (sample_block null_id 1)) 2].
(** A block is packed as its time stamp. *)
#[local] Instance sample_packing : Packing := {|
  pack_block b := [blk_timestamp b];
  unpack_block l :=
    match l with
    | t :: rest => (fun b => (b, rest)) <$> stored_blocks !! Z.to_nat (t - 1)
    | [] => None
    end |}.

Lemma stored_blocks_storable : storable stored_blocks.
Proof.
  split.
  - intros [|[|i]] b Hb; [| |done]; injection Hb as <-; vm_compute; reflexivity.
  - intros b rest Hb. repeat (apply elem_of_cons in Hb as [->|Hb]; [reflexivity|]). by inversion Hb.
  - intros b _. discriminate.
  - vm_compute. reflexivity.
Qed.
Lemma first_block_storable : storable (take 1 stored_blocks).
Proof.
  split.
  - intros [|i] b Hb; [|done]; injection Hb as <-; vm_compute; reflexivity.
  - intros b rest Hb. apply elem_of_cons in Hb as [->|Hb]; [reflexivity|]. by inversion Hb.
  - intros b _. discriminate.
  - vm_compute. reflexivity.
Qed.

Lemma append_next_witness :
  let c := sample_block (block_id (sample_block (block_id (sample_block null_id 1)) 2)) 3 in
  append c (log_of stored_blocks) = Ok (18, log_of (stored_blocks ++ [c])).
Proof.
  intros c. pose proof (append_next stored_blocks c ltac:(vm_compute; reflexivity)) as Ha.
  rewrite bool_decide_eq_true_2 in Ha by (vm_compute; reflexivity). exact Ha.
Defined.

Lemma read_back_witness :
  ∃ log, append_all stored_blocks empty_block_log = Ok (tt, log) ∧
    read_block_by_num log 2 = Ok (stored_blocks !! 1%nat).
Proof.
  destruct (read_back stored_blocks 2 stored_blocks_storable) as (log & Ha & Hr & _); [vm_compute; reflexivity|lia|].
  exists log. split; [exact Ha|exact Hr].
Defined.

Lemma open_restores_witness :
  ∃ log, append_all stored_blocks empty_block_log = Ok (tt, log) ∧
    open_log (block_file log) (write_pos 0) = Ok log.
Proof.
  exists (log_of stored_blocks). assert (append_all stored_blocks empty_block_log = Ok (tt, log_of stored_blocks)) as Ha
    by (vm_compute; reflexivity). split; [exact Ha|].
  apply (open_restores stored_blocks (log_of stored_blocks) (write_pos 0) stored_blocks_storable);
    [vm_compute; reflexivity|exact Ha|].
  right. right. split; [vm_compute; lia|]. right. exists 0. split; [reflexivity|discriminate].
Defined.

Lemma one_block_index_lost_witness :
  ∃ log, open_log (entries 0 (take 1 stored_blocks)) [] = Ok log ∧
    read_block_by_num log 1 = Throw stream_failure.
Proof.
  destruct (one_block_index_lost (sample_block null_id 1)
    (sample_block (block_id (sample_block null_id 1)) 2) first_block_storable)
    as (log & Ho & _ & _ & Hr & _); [vm_compute; reflexivity|].
  exists log. split; [exact Ho|exact Hr].
Defined.
End Samples.
