(* ===== verification/Store.v ===== *)
(** * The object store

    What the chain code uses of chainbase (src/src/core/chainbase,
    [chainbase::database] and [generic_index]): [create], [modify], [remove],
    [find] and [get] on a table, and ordered iteration over an index.  The class
    [Table] says which table of the database an object type lives in and which
    business key its unique indices enforce; the undo stack of the indices is
    modelled in Chainbase.v. *)
From S2P Require Import Prelude Ints Config Asset Authority State.

(** A chain computation. *)
Abbreviation C := (M database).

(** ** Ordered keys: the composite keys of the multi-index containers *)

Inductive key_atom : Set := KZ (z : Z) | KS (s : string).
#[export] Instance key_atom_eq_dec : EqDecision key_atom.
Proof. solve_decision. Defined.

Definition atom_compare (a b : key_atom) : comparison :=
  match a, b with
  | KZ x, KZ y => Z.compare x y
  | KS x, KS y => String.compare x y
  | KZ _, KS _ => Lt
  | KS _, KZ _ => Gt
  end.

Fixpoint key_compare (a b : list key_atom) : comparison :=
  match a, b with
  | [], [] => Eq
  | [], _ => Lt
  | _, [] => Gt
  | x :: a', y :: b' =>
      match atom_compare x y with Eq => key_compare a' b' | c => c end
  end.

Definition key_leb (a b : list key_atom) : bool :=
  match key_compare a b with Gt => false | _ => true end.
Definition key_ltb (a b : list key_atom) : bool :=
  match key_compare a b with Lt => true | _ => false end.

(** ** Tables *)

Class Table (A : Type) := {
  tbl : database → table A;
  set_tbl : table A → database → database;
  tbl_name : string;
  (** the unique business keys, one list of atoms per unique index *)
  unique_keys : A → list (list key_atom);
}.

(** [const T&]: a row, looked up again at every use. *)
Record ref (A : Type) := Ref { ref_id : Z }.
Arguments Ref {A} _.
Arguments ref_id {A} _.
#[export] Instance ref_eq_dec A : EqDecision (ref A).
Proof. solve_decision. Defined.

Section Store.
Context {A : Type} `{Table A}.

Definition row (r : ref A) (s : database) : option A := rows (tbl s) !! ref_id r.

(** The ids in use, in ascending order. *)
Definition row_ids (s : database) : list Z := merge_sort Z.le (elements (dom (rows (tbl s)))).

Definition clash (o : A) (q : Z * A) : bool :=
  existsb (fun k => bool_decide (k ∈ unique_keys q.2)) (unique_keys o).

(** Reading through a reference. *)
Definition load (r : ref A) : C A := fun s =>
  match row r s with
  | Some o => Ok (o, s)
  | None => Throw (key_not_found tbl_name)
  end.

Definition set_row (r : ref A) (o : A) (s : database) : database :=
  set_tbl (mk_table (next_id (tbl s)) (<[ref_id r := o]> (rows (tbl s)))) s.
Definition delete_row (r : ref A) (s : database) : database :=
  set_tbl (mk_table (next_id (tbl s)) (delete (ref_id r) (rows (tbl s)))) s.
Definition add_row (o : A) (s : database) : database :=
  set_tbl (mk_table (next_id (tbl s) + 1) (<[next_id (tbl s) := o]> (rows (tbl s)))) s.

(** [chainbase::database::create]: a fresh id; a unique index that already
    holds the key makes it throw. *)
Definition create (o : A) : C (ref A) := fun s =>
  let t := tbl s in
  if bool_decide (is_Some (rows t !! next_id t)) || existsb (clash o) (map_to_list (rows t))
  then Throw (uniqueness_violated tbl_name)
  else Ok (Ref (next_id t), add_row o s).

(** [modify( obj, lambda )]: the lambda may throw and may use the database. *)
Definition modify_with (r : ref A) (f : A → C A) : C unit :=
  let* o := load r in
  let* o' := f o in
  let* others := gets (fun s => filter (fun q => bool_decide (q.1 ≠ ref_id r)) (map_to_list (rows (tbl s)))) in
  if existsb (clash o') others then throw (uniqueness_violated tbl_name)
  else modify (set_row r o').

Definition modify_res (r : ref A) (f : A → res A) : C unit :=
  modify_with r (fun o => lift (f o)).
Definition modify_row (r : ref A) (f : A → A) : C unit :=
  modify_with r (fun o => ret (f o)).

Definition remove (r : ref A) : C unit :=
  let* _ := load r in
  modify (delete_row r).

(** [find]: the first row, in id order, that satisfies a predicate on its key. *)
Definition find_row (p : A → bool) (s : database) : option (ref A) :=
  Ref <$> List.find (fun i => match rows (tbl s) !! i with Some o => p o | None => false end) (row_ids s).
Definition find_by (p : A → bool) : C (option (ref A)) := gets (find_row p).
(** [get]: throws [out_of_range] when there is none. *)
Definition get_by (p : A → bool) : C (ref A) :=
  let* o := find_by p in lift (of_option o (key_not_found tbl_name)).

(** An ordered index, from [begin()] to [end()]. *)
Definition index_leb (key : A → list key_atom) (x y : Z * A) : bool :=
  key_leb (key x.2 ++ [KZ x.1]) (key y.2 ++ [KZ y.1]).
Definition index_rows (key : A → list key_atom) (s : database) : list (Z * A) :=
  merge_sort (index_leb key) (map_to_list (rows (tbl s))).
Definition index (key : A → list key_atom) : C (list (ref A)) :=
  gets (fun s => (fun q => Ref q.1) <$> index_rows key s).
(** The part of an index that satisfies a predicate on the key: an
    [equal_range], or [lower_bound] followed by a loop that stops at the first
    row of another prefix. *)
Definition index_where (key : A → list key_atom) (p : A → bool) : C (list (ref A)) :=
  gets (fun s => (fun q => Ref q.1) <$> List.filter (fun q => p q.2) (index_rows key s)).
(** [begin()] of an index. *)
Definition index_begin (key : A → list key_atom) : C (option (ref A)) :=
  let* l := index key in ret (head l).
Definition table_size : C nat := gets (fun s => size (rows (tbl s))).
End Store.

(** The loop of the periodic processing: while the first row of an index is due,
    process it and start again at [begin()].  Each round takes the row out of
    the index or moves it back, so one round more than the table has rows is
    enough fuel when processing removes the row. *)
Fixpoint drain_fuel `{Table A} (fuel : nat) (key : A → list key_atom) (due : A → bool)
    (f : ref A → C unit) : C unit :=
  match fuel with
  | O => throw out_of_fuel
  | S fuel' =>
      let* itr := index_begin key in
      match itr with
      | None => ret tt
      | Some r =>
          let* o := load r in
          if due o then f r ;; drain_fuel fuel' key due f else ret tt
      end
  end.
Definition drain `{Table A} (key : A → list key_atom) (due : A → bool) (f : ref A → C unit) : C unit :=
  let* n := table_size (A := A) in drain_fuel (S n) key due f.

(** ** The tables of the chain and their unique keys *)

#[export] Instance account_object_table : Table account_object := {|
  tbl := account_index; set_tbl t s := s <| account_index := t |>;
  tbl_name := "account_object"; unique_keys o := [[KS (acc_name o)]] |}.
#[export] Instance account_authority_object_table : Table account_authority_object := {|
  tbl := account_authority_index; set_tbl t s := s <| account_authority_index := t |>;
  tbl_name := "account_authority_object"; unique_keys o := [] |}.
#[export] Instance vesting_delegation_object_table : Table vesting_delegation_object := {|
  tbl := vesting_delegation_index; set_tbl t s := s <| vesting_delegation_index := t |>;
  tbl_name := "vesting_delegation_object"; unique_keys o := [[KS (vdo_delegator o); KS (vdo_delegatee o)]] |}.
#[export] Instance vesting_delegation_expiration_object_table : Table vesting_delegation_expiration_object := {|
  tbl := vesting_delegation_expiration_index; set_tbl t s := s <| vesting_delegation_expiration_index := t |>;
  tbl_name := "vesting_delegation_expiration_object"; unique_keys o := [] |}.
#[export] Instance owner_authority_history_object_table : Table owner_authority_history_object := {|
  tbl := owner_authority_history_index; set_tbl t s := s <| owner_authority_history_index := t |>;
  tbl_name := "owner_authority_history_object"; unique_keys o := [] |}.
#[export] Instance account_recovery_request_object_table : Table account_recovery_request_object := {|
  tbl := account_recovery_request_index; set_tbl t s := s <| account_recovery_request_index := t |>;
  tbl_name := "account_recovery_request_object"; unique_keys o := [[KS (arr_account_to_recover o)]] |}.
#[export] Instance change_recovery_account_request_object_table : Table change_recovery_account_request_object := {|
  tbl := change_recovery_account_request_index; set_tbl t s := s <| change_recovery_account_request_index := t |>;
  tbl_name := "change_recovery_account_request_object"; unique_keys o := [[KS (crr_account_to_recover o)]] |}.
#[export] Instance witness_object_table : Table witness_object := {|
  tbl := witness_index; set_tbl t s := s <| witness_index := t |>;
  tbl_name := "witness_object"; unique_keys o := [[KS (wit_owner o)]] |}.
#[export] Instance witness_vote_object_table : Table witness_vote_object := {|
  tbl := witness_vote_index; set_tbl t s := s <| witness_vote_index := t |>;
  tbl_name := "witness_vote_object"; unique_keys o := [[KS (wvo_account o); KS (wvo_witness o)]] |}.
#[export] Instance comment_object_table : Table comment_object := {|
  tbl := comment_index; set_tbl t s := s <| comment_index := t |>;
  tbl_name := "comment_object"; unique_keys o := [[KS (com_author o); KS (c_str (com_permlink o))]] |}.
#[export] Instance comment_content_object_table : Table comment_content_object := {|
  tbl := comment_content_index; set_tbl t s := s <| comment_content_index := t |>;
  tbl_name := "comment_content_object"; unique_keys o := [[KZ (con_comment o)]] |}.
#[export] Instance comment_vote_object_table : Table comment_vote_object := {|
  tbl := comment_vote_index; set_tbl t s := s <| comment_vote_index := t |>;
  tbl_name := "comment_vote_object"; unique_keys o := [[KZ (cvo_comment o); KZ (cvo_voter o)]] |}.
#[export] Instance convert_request_object_table : Table convert_request_object := {|
  tbl := convert_request_index; set_tbl t s := s <| convert_request_index := t |>;
  tbl_name := "convert_request_object"; unique_keys o := [[KS (cro_owner o); KZ (cro_requestid o)]] |}.
#[export] Instance escrow_object_table : Table escrow_object := {|
  tbl := escrow_index; set_tbl t s := s <| escrow_index := t |>;
  tbl_name := "escrow_object"; unique_keys o := [[KS (esc_from o); KZ (esc_escrow_id o)]] |}.
#[export] Instance savings_withdraw_object_table : Table savings_withdraw_object := {|
  tbl := savings_withdraw_index; set_tbl t s := s <| savings_withdraw_index := t |>;
  tbl_name := "savings_withdraw_object"; unique_keys o := [[KS (swo_from o); KZ (swo_request_id o)]] |}.
#[export] Instance limit_order_object_table : Table limit_order_object := {|
  tbl := limit_order_index; set_tbl t s := s <| limit_order_index := t |>;
  tbl_name := "limit_order_object"; unique_keys o := [[KS (loo_seller o); KZ (loo_orderid o)]] |}.
#[export] Instance withdraw_vesting_route_object_table : Table withdraw_vesting_route_object := {|
  tbl := withdraw_vesting_route_index; set_tbl t s := s <| withdraw_vesting_route_index := t |>;
  tbl_name := "withdraw_vesting_route_object"; unique_keys o := [[KS (wvr_from_account o); KS (wvr_to_account o)]] |}.
#[export] Instance decline_voting_rights_request_object_table : Table decline_voting_rights_request_object := {|
  tbl := decline_voting_rights_request_index; set_tbl t s := s <| decline_voting_rights_request_index := t |>;
  tbl_name := "decline_voting_rights_request_object"; unique_keys o := [[KS (dvr_account o)]] |}.
#[export] Instance reward_fund_object_table : Table reward_fund_object := {|
  tbl := reward_fund_index; set_tbl t s := s <| reward_fund_index := t |>;
  tbl_name := "reward_fund_object"; unique_keys o := [[KS (rfo_name o)]] |}.
#[export] Instance transaction_object_table : Table transaction_object := {|
  tbl := transaction_index; set_tbl t s := s <| transaction_index := t |>;
  tbl_name := "transaction_object"; unique_keys o := [[KS (txo_trx_id o)]] |}.
#[export] Instance block_summary_object_table : Table block_summary_object := {|
  tbl := block_summary_index; set_tbl t s := s <| block_summary_index := t |>;
  tbl_name := "block_summary_object"; unique_keys o := [] |}.

(** The singletons. *)
Definition get_dynamic_global_properties : C dynamic_global_property_object := gets gpo.
Definition get_feed_history : C feed_history_object := gets feed_history.
Definition get_witness_schedule_object : C witness_schedule_object := gets witness_schedule.
Definition get_hardfork_property_object : C hardfork_property_object := gets hardforks.
Definition head_block_time : C time := gets (fun s => gpo_time (gpo s)).
Definition head_block_num : C Z := gets (fun s => gpo_head_block_number (gpo s)).

Definition modify_gpo (f : dynamic_global_property_object → res dynamic_global_property_object) : C unit :=
  let* p := get_dynamic_global_properties in
  let! p' := f p in
  modify (fun s => s <| gpo := p' |>).

(** [push_virtual_operation] hands the operation to the observers of the
    chain; they see it in this order. *)
Definition push_virtual_operation (op : virtual_operation) : C unit :=
  modify (fun s => s <| virtual_ops ::= fun l => l ++ [op] |>).

(** ** Additive measures of a table *)

Definition msum {A} (w : A → Z) (m : gmap Z A) : Z :=
  map_fold (fun _ o acc => w o + acc) 0 m.

Lemma msum_empty {A} (w : A → Z) : msum w ∅ = 0.
Proof. apply map_fold_empty. Qed.
Lemma msum_insert_fresh {A} (w : A → Z) m i o :
  m !! i = None → msum w (<[i := o]> m) = w o + msum w m.
Proof.
  intros. unfold msum. rewrite map_fold_insert_L; [done|intros; lia|done].
Qed.
Lemma msum_delete {A} (w : A → Z) m i o :
  m !! i = Some o → msum w (delete i m) = msum w m - w o.
Proof.
  intros. rewrite <- (insert_delete_id m i o) at 2 by done.
  rewrite msum_insert_fresh by apply lookup_delete_eq. lia.
Qed.
Lemma msum_insert {A} (w : A → Z) m i o o' :
  m !! i = Some o → msum w (<[i := o']> m) = msum w m + w o' - w o.
Proof.
  intros. rewrite <- insert_delete_eq.
  rewrite msum_insert_fresh by apply lookup_delete_eq.
  erewrite msum_delete by done. lia.
Qed.
