(* ===== verification/Ledger.v ===== *)
(** * The ledger

    [database::validate_invariants] (src/src/core/chain/database.cpp) compares
    the sum of everything the accounts, requests, orders, escrows and funds hold
    with the supplies the global properties record.  This file gives that
    comparison as one integer per channel, [gap]: zero exactly when the recorded
    supply matches.  The class [Weighed] is the interface between the store and
    the components: each table says what a row holds, and the laws below say
    what [create], [modify] and [remove] do to every gap. *)
From S2P Require Import Prelude Ints Config Asset Authority State Store.

(** The five equations of [validate_invariants]: one per asset symbol, the
    ZTR backing of pending vesting rewards, and the witness vote weight. *)
Inductive chan : Set :=
| Held (symbol : Z)
| Pending_liquid
| Vsf.

Class Weighed (A : Type) := weigh : chan → A → Z.

Definition amts (c : Z) (l : list asset) : Z := fold_right (fun a acc => amt c a + acc) 0 l.

(** [witness_vote_weight], without the overflow checks. *)
Definition vote_weight (a : account_object) : Z :=
  amount (acc_vesting_share_balance a) + fold_right Z.add 0 (acc_proxied_vsf_votes a).

Definition vsf_weight (a : account_object) : Z :=
  if bool_decide (acc_proxy a = ZATTERA_PROXY_TO_SELF_ACCOUNT) then vote_weight a
  else nth (ZATTERA_MAX_PROXY_RECURSION_DEPTH - 1) (acc_proxied_vsf_votes a) 0.

#[export] Instance weigh_account : Weighed account_object := fun ch a =>
  match ch with
  | Held c => amts c [acc_liquid_balance a; acc_savings_liquid_balance a; acc_reward_liquid_balance a;
                      acc_dollar_balance a; acc_savings_dollar_balance a; acc_reward_dollar_balance a;
                      acc_vesting_share_balance a; acc_reward_vesting_share_balance a]
  | Pending_liquid => amount (acc_reward_vesting_liquid_balance a)
  | Vsf => vsf_weight a
  end.
Definition held_only {A} (f : A → list asset) : Weighed A := fun ch o =>
  match ch with Held c => amts c (f o) | _ => 0 end.
#[export] Instance weigh_convert : Weighed convert_request_object := held_only (fun o => [cro_amount o]).
#[export] Instance weigh_order : Weighed limit_order_object :=
  held_only (fun o => [mk_asset (loo_for_sale o) (symbol (base (loo_sell_price o)))]).
#[export] Instance weigh_escrow : Weighed escrow_object :=
  held_only (fun o => [esc_liquid_balance o; esc_dollar_balance o; esc_pending_fee o]).
#[export] Instance weigh_savings : Weighed savings_withdraw_object := held_only (fun o => [swo_amount o]).
#[export] Instance weigh_fund : Weighed reward_fund_object := held_only (fun o => [rfo_reward_balance o]).

(** The other tables hold nothing. *)
Definition weightless {A} : Weighed A := fun _ _ => 0.
#[export] Instance weigh_authority : Weighed account_authority_object := weightless.
#[export] Instance weigh_delegation : Weighed vesting_delegation_object := weightless.
#[export] Instance weigh_delegation_expiration : Weighed vesting_delegation_expiration_object := weightless.
#[export] Instance weigh_owner_history : Weighed owner_authority_history_object := weightless.
#[export] Instance weigh_recovery_request : Weighed account_recovery_request_object := weightless.
#[export] Instance weigh_change_recovery : Weighed change_recovery_account_request_object := weightless.
#[export] Instance weigh_witness : Weighed witness_object := weightless.
#[export] Instance weigh_witness_vote : Weighed witness_vote_object := weightless.
#[export] Instance weigh_comment : Weighed comment_object := weightless.
#[export] Instance weigh_content : Weighed comment_content_object := weightless.
#[export] Instance weigh_comment_vote : Weighed comment_vote_object := weightless.
#[export] Instance weigh_route : Weighed withdraw_vesting_route_object := weightless.
#[export] Instance weigh_decline : Weighed decline_voting_rights_request_object := weightless.
#[export] Instance weigh_transaction : Weighed transaction_object := weightless.
#[export] Instance weigh_block_summary : Weighed block_summary_object := weightless.

(** What the global properties hold, less the supplies they record. *)
#[export] Instance weigh_gpo : Weighed dynamic_global_property_object := fun ch g =>
  match ch with
  | Held c =>
      amts c [gpo_total_vesting_fund_liquid g; gpo_total_reward_fund_liquid g;
              gpo_pending_rewarded_vesting_liquid g]
      - amts c [gpo_current_liquid_supply g; gpo_current_dollar_supply g;
                gpo_total_vesting_shares g; gpo_pending_rewarded_vesting_shares g]
  | Pending_liquid => - amount (gpo_pending_rewarded_vesting_liquid g)
  | Vsf => - amount (gpo_total_vesting_shares g)
  end.

Definition gap (ch : chan) (s : database) : Z :=
  msum (weigh ch) (rows (account_index s)) + msum (weigh ch) (rows (convert_request_index s))
  + msum (weigh ch) (rows (limit_order_index s)) + msum (weigh ch) (rows (escrow_index s))
  + msum (weigh ch) (rows (savings_withdraw_index s)) + msum (weigh ch) (rows (reward_fund_index s))
  + weigh ch (gpo s).

(** ** The store's laws *)

(** A table the gap counts with the weight of its rows. *)
Class Counted (A : Type) `{Table A, Weighed A} := {
  tbl_set : ∀ t s, tbl (set_tbl t s) = t;
  gap_set : ∀ ch t s, gap ch (set_tbl t s)
      = gap ch s + msum (weigh ch) (rows t) - msum (weigh ch) (rows (tbl s));
}.

Lemma msum_weightless {A} (ch : chan) (m : gmap Z A) : msum (weightless ch) m = 0.
Proof.
  induction m as [|i x m Hi IH] using map_ind; [apply msum_empty|].
  rewrite msum_insert_fresh by done. unfold weightless in *. lia.
Qed.

#[export] Hint Extern 1 (Counted _) =>
  split; [reflexivity|
    intros; unfold gap; cbn;
    unfold weigh, weigh_authority, weigh_delegation, weigh_delegation_expiration,
      weigh_owner_history, weigh_recovery_request, weigh_change_recovery, weigh_witness,
      weigh_witness_vote, weigh_comment, weigh_content, weigh_comment_vote, weigh_route,
      weigh_decline, weigh_transaction, weigh_block_summary; rewrite ?msum_weightless; lia] : typeclass_instances.

Section Laws.
Context {A : Type} `{Counted A}.

Lemma row_set_row_eq (r : ref A) o s : row r (set_row r o s) = Some o.
Proof. unfold row, set_row. rewrite tbl_set. apply lookup_insert_eq. Qed.
Lemma row_set_row_ne (r r' : ref A) o s : r ≠ r' → row r (set_row r' o s) = row r s.
Proof.
  unfold row, set_row. intros Hne. rewrite tbl_set. apply lookup_insert_ne.
  intros ?. apply Hne. destruct r, r'. by cbn in *; subst.
Qed.
Lemma gap_set_row (r : ref A) o o' s ch : row r s = Some o →
  gap ch (set_row r o' s) = gap ch s + weigh ch o' - weigh ch o.
Proof.
  unfold row, set_row. intros. rewrite gap_set. cbn. erewrite msum_insert by done. lia.
Qed.
Lemma gap_delete_row (r : ref A) o s ch : row r s = Some o →
  gap ch (delete_row r s) = gap ch s - weigh ch o.
Proof.
  unfold row, delete_row. intros. rewrite gap_set. cbn. erewrite msum_delete by done. lia.
Qed.

Lemma load_ok (r : ref A) s o s' : load r s = Ok (o, s') ↔ row r s = Some o ∧ s' = s.
Proof. unfold load. destruct (row r s); naive_solver. Qed.

Lemma create_gap (o : A) s r s' : create o s = Ok (r, s') →
  s' = add_row o s ∧ r = Ref (next_id (tbl s)) ∧ row r s = None ∧ row r s' = Some o ∧
  ∀ ch, gap ch s' = gap ch s + weigh ch o.
Proof.
  unfold create, row. case_match eqn:E; [done|]. intros [= <- <-]. cbn.
  apply orb_false_iff in E as [E%bool_decide_eq_false _].
  apply eq_None_not_Some in E. unfold add_row. rewrite tbl_set. cbn.
  split_and!; [done..|apply lookup_insert_eq|].
  intros ch. rewrite gap_set. cbn. rewrite msum_insert_fresh by done. lia.
Qed.

Lemma remove_gap (r : ref A) s s' u : remove r s = Ok (u, s') →
  ∃ o, s' = delete_row r s ∧ row r s = Some o ∧ ∀ ch, gap ch s' = gap ch s - weigh ch o.
Proof.
  unfold remove. intros H'. apply bind_ok in H' as (o & s1 & [Ho ->]%load_ok & H').
  inv_ok. exists o. split_and!; [done..|]. intros. by apply gap_delete_row.
Qed.

(** A [modify] whose lambda uses the database but not this table. *)
Lemma modify_with_gap (r : ref A) f s s' u : modify_with r f s = Ok (u, s') →
  ∃ o o' s1, row r s = Some o ∧ f o s = Ok (o', s1) ∧ s' = set_row r o' s1 ∧
    (tbl s1 = tbl s → ∀ ch, gap ch s' = gap ch s1 + weigh ch o' - weigh ch o).
Proof.
  unfold modify_with. intros H'.
  apply bind_ok in H' as (o & ? & [Ho ->]%load_ok & H').
  apply bind_ok in H' as (o' & s1 & Hf & H'). inv_ok.
  case_match; inv_ok. exists o, o', s1. split_and!; [done..|]. intros Heq ch.
  apply gap_set_row. unfold row in *. by rewrite Heq.
Qed.

Lemma modify_res_gap (r : ref A) f s s' u : modify_res r f s = Ok (u, s') →
  ∃ o o', s' = set_row r o' s ∧ row r s = Some o ∧ f o = Ok o' ∧
    ∀ ch, gap ch s' = gap ch s + weigh ch o' - weigh ch o.
Proof.
  intros H'. apply modify_with_gap in H' as (o & o' & s1 & Ho & [Hf ->]%lift_ok & -> & H').
  eauto 10.
Qed.

Lemma modify_row_gap (r : ref A) f s s' u : modify_row r f s = Ok (u, s') →
  ∃ o, s' = set_row r (f o) s ∧ row r s = Some o ∧
    ∀ ch, gap ch s' = gap ch s + weigh ch (f o) - weigh ch o.
Proof.
  intros H'. apply modify_with_gap in H' as (o & o' & s1 & Ho & [-> ->]%ret_ok & -> & H').
  eauto 10.
Qed.
End Laws.

Lemma modify_gpo_gap f s s' u : modify_gpo f s = Ok (u, s') →
  ∃ p', f (gpo s) = Ok p' ∧ s' = s <| gpo := p' |> ∧
    ∀ ch, gap ch s' = gap ch s + weigh ch p' - weigh ch (gpo s).
Proof.
  unfold modify_gpo, get_dynamic_global_properties. intros H. inv_ok.
  eexists. split_and!; [done..|]. intros. unfold gap. cbn. lia.
Qed.

(** ** Automation

    [inv_ok] extended to the store: every successful [create], [modify],
    [remove] and [load] leaves its row and its effect on the gaps. *)
Ltac inv_store_step :=
  match goal with
  | H : load _ _ = Ok (_, _) |- _ => apply load_ok in H as [H ?]; subst
  | H : modify_res _ _ _ = Ok (_, _) |- _ =>
      apply modify_res_gap in H as (? & ? & ? & ? & ? & ?)
  | H : modify_row _ _ _ = Ok (_, _) |- _ =>
      apply modify_row_gap in H as (? & ? & ? & ?)
  | H : remove _ _ = Ok (_, _) |- _ =>
      apply remove_gap in H as (? & ? & ? & ?)
  | H : create _ _ = Ok (_, _) |- _ =>
      apply create_gap in H as (? & ? & ? & ? & ?)
  | H : modify_gpo _ _ = Ok (_, _) |- _ =>
      apply modify_gpo_gap in H as (? & ? & ? & ?)
  | H : when ?b _ _ = Ok (_, _) |- _ =>
      let E := fresh "E" in unfold when in H; destruct b eqn:E; cbv iota in H
  | _ => inv_ok_step
  end.
Ltac inv_store := repeat inv_store_step.

(** The amounts behind each successful asset operation. *)
Ltac asset_facts :=
  repeat match goal with
  | H : asset_add ?a ?b = Ok ?r |- _ =>
      lazymatch goal with _ : amount r = _ |- _ => fail | _ => idtac end;
      let E := fresh in pose proof (asset_add_ok _ _ _ H) as E;
      destruct E as (? & ? & ?)
  | H : asset_sub ?a ?b = Ok ?r |- _ =>
      lazymatch goal with _ : amount r = _ |- _ => fail | _ => idtac end;
      let E := fresh in pose proof (asset_sub_ok _ _ _ H) as E;
      destruct E as (? & ? & ?)
  end.
Ltac sym_facts :=
  repeat match goal with
  | H : asset_add _ _ = Ok ?r |- _ => apply asset_add_ok in H as (_ & H & _)
  | H : asset_sub _ _ = Ok ?r |- _ => apply asset_sub_ok in H as (_ & H & _)
  end.
Ltac amt_facts c :=
  repeat match goal with
  | H : asset_add ?a ?b = Ok ?r |- _ =>
      lazymatch goal with _ : amt c r = _ |- _ => fail | _ => idtac end;
      pose proof (amt_add c _ _ _ H)
  | H : asset_sub ?a ?b = Ok ?r |- _ =>
      lazymatch goal with _ : amt c r = _ |- _ => fail | _ => idtac end;
      pose proof (amt_sub c _ _ _ H)
  | H : asset_neg ?a = Ok ?r |- _ =>
      lazymatch goal with _ : amt c r = _ |- _ => fail | _ => idtac end;
      pose proof (amt_neg c _ _ H)
  end.

(** Unfold the weights of updated rows. *)
Ltac weigh_simpl :=
  (unfold weigh, weigh_account, weigh_gpo, weigh_convert, weigh_order, weigh_escrow,
    weigh_savings, weigh_fund, held_only, weigh_witness, weigh_witness_vote, weigh_comment,
    weigh_comment_vote, weigh_authority, weigh_delegation, weigh_delegation_expiration,
    weigh_owner_history, weigh_recovery_request, weigh_change_recovery, weigh_content,
    weigh_route, weigh_decline, weigh_transaction, weigh_block_summary, weightless); cbn;
  unfold vsf_weight, vote_weight; cbn.

(** A state that differs from [s] at most in the global properties' dollar and
    virtual supply and in the reported operations. *)
Definition interest_frame (s s' : database) : Prop :=
  ∃ cs vs v, s' = s <| gpo ::= fun g => g <| gpo_current_dollar_supply := cs |>
                                          <| gpo_virtual_liquid_supply := vs |> |>
                    <| virtual_ops := v |>
    ∧ symbol cs = symbol (gpo_current_dollar_supply (gpo s))
    ∧ symbol vs = symbol (gpo_virtual_liquid_supply (gpo s)).

Lemma interest_frame_refl s : interest_frame s s.
Proof.
  exists (gpo_current_dollar_supply (gpo s)), (gpo_virtual_liquid_supply (gpo s)), (virtual_ops s).
  destruct s as [? ? ? ? ? ? ? ? ? ? ? ? ? ? ? ? ? ? ? ? ? g]; destruct g; done.
Qed.
Lemma push_virtual_gap op s s' u : push_virtual_operation op s = Ok (u, s') →
  s' = s <| virtual_ops ::= fun l => l ++ [op] |> ∧ ∀ ch, gap ch s' = gap ch s.
Proof. unfold push_virtual_operation. intros H. inv_ok. done. Qed.
