(* ===== verification/Balances.v ===== *)
(** * Balances

    The functions of database.cpp through which every balance changes:
    [modify_balance], [modify_reward_balance], the [adjust_*] wrappers and
    [adjust_supply], with the interest the dollar balances accrue, and what
    each does to the ledger. *)
From S2P Require Import Prelude Ints Config Asset Authority State Store Ledger.

Definition find_account (name : account_name_type) : C (option (ref account_object)) :=
  find_by (fun a => bool_decide (acc_name a = name)).
Definition get_account (name : account_name_type) : C (ref account_object) :=
  get_by (fun a => bool_decide (acc_name a = name)).

Definition find_witness (name : account_name_type) : C (option (ref witness_object)) :=
  find_by (fun w => bool_decide (wit_owner w = name)).
Definition get_witness (name : account_name_type) : C (ref witness_object) :=
  get_by (fun w => bool_decide (wit_owner w = name)).
Definition is_comment (author : account_name_type) (permlink : string) (c : comment_object) : bool :=
  bool_decide (com_author c = author ∧ c_str (com_permlink c) = c_str permlink).
Definition find_comment (author : account_name_type) (permlink : string) : C (option (ref comment_object)) :=
  find_by (is_comment author permlink).
Definition get_comment (author : account_name_type) (permlink : string) : C (ref comment_object) :=
  get_by (is_comment author permlink).
Definition is_escrow (name : account_name_type) (escrow_id : Z) (e : escrow_object) : bool :=
  bool_decide (esc_from e = name ∧ esc_escrow_id e = escrow_id).
Definition find_escrow (name : account_name_type) (escrow_id : Z) : C (option (ref escrow_object)) :=
  find_by (is_escrow name escrow_id).
Definition get_escrow (name : account_name_type) (escrow_id : Z) : C (ref escrow_object) :=
  get_by (is_escrow name escrow_id).
Definition is_limit_order (name : account_name_type) (orderid : Z) (o : limit_order_object) : bool :=
  bool_decide (loo_seller o = name ∧ loo_orderid o = orderid).
Definition find_limit_order (name : account_name_type) (orderid : Z) : C (option (ref limit_order_object)) :=
  find_by (is_limit_order name orderid).
Definition get_limit_order (name : account_name_type) (orderid : Z) : C (ref limit_order_object) :=
  get_by (is_limit_order name orderid).
Definition get_savings_withdraw (owner : account_name_type) (request_id : Z) : C (ref savings_withdraw_object) :=
  get_by (fun w => bool_decide (swo_from w = owner ∧ swo_request_id w = request_id)).
Definition get_reward_fund : C (ref reward_fund_object) :=
  get_by (fun f => bool_decide (rfo_name f = ZATTERA_POST_REWARD_FUND_NAME)).
Definition calculate_discussion_payout_time (c : comment_object) : time := com_cashout_time c.
Definition get_effective_vesting_shares (a : account_object) (vested_symbol : asset_symbol_type) : res asset :=
  if vested_symbol =? VESTS_SYMBOL then
    let? x := asset_sub (acc_vesting_share_balance a) (acc_delegated_vesting_share_balance a) in
    asset_add x (acc_received_vesting_share_balance a)
  else Throw (assert_exception "Invalid symbol").

(** The interest step both dollar branches share: the balance accrues
    dollar-seconds, and once a month they are paid out as newly created
    dollars.  Results: the balance, its seconds, the time of their update and
    the time of the last payment. *)
Definition accrue_interest (owner : account_name_type) (balance : asset)
    (seconds last_update last_payment : Z) : C (asset * Z * time * time) :=
  let* now := head_block_time in
  if last_update =? now then ret (balance, seconds, last_update, last_payment)
  else
    let seconds := u128_add seconds
      (u128_mul (wrap_u128 (amount balance)) (wrap_u128 (now - last_update))) in
    if (seconds >? 0) && (now - last_payment >? ZATTERA_DOLLAR_INTEREST_COMPOUND_INTERVAL_SEC) then
      let! interest := u128_div seconds ZATTERA_SECONDS_PER_YEAR in
      let* g := get_dynamic_global_properties in
      let interest := u128_mul interest (gpo_dollar_interest_rate g) in
      let! interest := u128_div interest ZATTERA_100_PERCENT in
      let! paid := u128_to_uint64 interest in
      let interest_paid := mk_asset (wrap_i64 paid) DOLLAR_SYMBOL in
      let! balance' := asset_add balance interest_paid in
      when (interest >? 0) (push_virtual_operation (interest_operation owner interest_paid)) ;;
      let* fh := get_feed_history in
      modify_gpo (fun props =>
        let? cs := asset_add (gpo_current_dollar_supply props) interest_paid in
        let? v := asset_mul_price interest_paid (fho_current_median_history fh) in
        let? vs := asset_add (gpo_virtual_liquid_supply props) v in
        Ok (props <| gpo_current_dollar_supply := cs |> <| gpo_virtual_liquid_supply := vs |>)) ;;
      ret (balance', 0, now, now)
    else ret (balance, seconds, now, last_payment).

Definition modify_balance (a : ref account_object) (delta : asset) (check_balance : bool) : C unit :=
  modify_with a (fun acnt =>
    if symbol delta =? LIQUID_SYMBOL then
      let! b := asset_add (acc_liquid_balance acnt) delta in
      when check_balance (fc_assert (amount b >=? 0) "Insufficient ZTR funds") ;;
      ret (acnt <| acc_liquid_balance := b |>)
    else if symbol delta =? DOLLAR_SYMBOL then
      let* (b, secs, upd_t, pay_t) := accrue_interest (acc_name acnt) (acc_dollar_balance acnt)
        (acc_dollar_seconds acnt) (acc_dollar_seconds_last_update acnt)
        (acc_dollar_last_interest_payment acnt) in
      let! b' := asset_add b delta in
      when check_balance (fc_assert (amount b' >=? 0) "Insufficient ZBD funds") ;;
      ret (acnt <| acc_dollar_balance := b' |> <| acc_dollar_seconds := secs |>
                <| acc_dollar_seconds_last_update := upd_t |>
                <| acc_dollar_last_interest_payment := pay_t |>)
    else if symbol delta =? VESTS_SYMBOL then
      let! b := asset_add (acc_vesting_share_balance acnt) delta in
      when check_balance (fc_assert (amount b >=? 0) "Insufficient VESTS funds") ;;
      ret (acnt <| acc_vesting_share_balance := b |>)
    else throw (assert_exception "invalid symbol")).

Definition modify_reward_balance (a : ref account_object) (value_delta share_delta : asset)
    (check_balance : bool) : C unit :=
  modify_res a (fun acnt =>
    if symbol value_delta =? LIQUID_SYMBOL then
      if amount share_delta =? 0 then
        let? b := asset_add (acc_reward_liquid_balance acnt) value_delta in
        let? _ := res_assert (negb check_balance || (amount b >=? 0)) "Insufficient reward ZTR funds" in
        Ok (acnt <| acc_reward_liquid_balance := b |>)
      else
        let? l := asset_add (acc_reward_vesting_liquid_balance acnt) value_delta in
        let? v := asset_add (acc_reward_vesting_share_balance acnt) share_delta in
        let? _ := res_assert (negb check_balance || (amount v >=? 0)) "Insufficient reward VESTS funds" in
        Ok (acnt <| acc_reward_vesting_liquid_balance := l |> <| acc_reward_vesting_share_balance := v |>)
    else if symbol value_delta =? DOLLAR_SYMBOL then
      let? _ := res_assert (amount share_delta =? 0) "share_delta.amount.value == 0" in
      let? b := asset_add (acc_reward_dollar_balance acnt) value_delta in
      let? _ := res_assert (negb check_balance || (amount b >=? 0)) "Insufficient reward ZBD funds" in
      Ok (acnt <| acc_reward_dollar_balance := b |>)
    else Throw (assert_exception "invalid symbol")).

Definition adjust_balance (a : ref account_object) (delta : asset) : C unit :=
  modify_balance a delta true.
Definition adjust_balance_name (name : account_name_type) (delta : asset) : C unit :=
  let* a := get_account name in modify_balance a delta true.

Definition adjust_savings_liquid_balance (a : ref account_object) (delta : asset) : C unit :=
  modify_with a (fun acnt =>
    if symbol delta =? LIQUID_SYMBOL then
      let! b := asset_add (acc_savings_liquid_balance acnt) delta in
      fc_assert (amount b >=? 0) "Insufficient savings ZTR funds" ;;
      ret (acnt <| acc_savings_liquid_balance := b |>)
    else if symbol delta =? DOLLAR_SYMBOL then
      let* (b, secs, upd_t, pay_t) := accrue_interest (acc_name acnt) (acc_savings_dollar_balance acnt)
        (acc_savings_dollar_seconds acnt) (acc_savings_dollar_seconds_last_update acnt)
        (acc_savings_dollar_last_interest_payment acnt) in
      let! b' := asset_add b delta in
      fc_assert (amount b' >=? 0) "Insufficient savings ZBD funds" ;;
      ret (acnt <| acc_savings_dollar_balance := b' |> <| acc_savings_dollar_seconds := secs |>
                <| acc_savings_dollar_seconds_last_update := upd_t |>
                <| acc_savings_dollar_last_interest_payment := pay_t |>)
    else throw (assert_exception "invalid symbol")).

Definition adjust_reward_balance (a : ref account_object) (value_delta share_delta : asset) : C unit :=
  let! v := is_vesting (symbol value_delta) in
  let! sv := is_vesting (symbol share_delta) in
  fc_assert (negb v && sv) "value_delta is not vesting and share_delta is" ;;
  modify_reward_balance a value_delta share_delta true.
Definition adjust_reward_balance_name (name : account_name_type) (value_delta share_delta : asset) : C unit :=
  let! v := is_vesting (symbol value_delta) in
  let! sv := is_vesting (symbol share_delta) in
  fc_assert (negb v && sv) "value_delta is not vesting and share_delta is" ;;
  let* a := get_account name in
  modify_reward_balance a value_delta share_delta true.

(** The default [share_delta]. *)
Definition no_shares : asset := mk_asset 0 VESTS_SYMBOL.

Definition adjust_supply (delta : asset) (adjust_vesting : bool) : C unit :=
  let* g := get_dynamic_global_properties in
  let adjust_vesting :=
    if gpo_head_block_number g <? ZATTERA_BLOCKS_PER_DAY * 7 then false else adjust_vesting in
  let* fh := get_feed_history in
  modify_gpo (fun props =>
    if symbol delta =? LIQUID_SYMBOL then
      let? nv := if adjust_vesting && (amount delta >? 0) then safe.mul (amount delta) 9 else Ok 0 in
      let new_vesting := mk_asset nv LIQUID_SYMBOL in
      let? d := asset_add delta new_vesting in
      let? cs := asset_add (gpo_current_liquid_supply props) d in
      let? vs := asset_add (gpo_virtual_liquid_supply props) d in
      let? vf := asset_add (gpo_total_vesting_fund_liquid props) new_vesting in
      let? _ := res_assert (amount cs >=? 0) "current_liquid_supply >= 0" in
      Ok (props <| gpo_current_liquid_supply := cs |> <| gpo_virtual_liquid_supply := vs |>
                <| gpo_total_vesting_fund_liquid := vf |>)
    else if symbol delta =? DOLLAR_SYMBOL then
      let? cs := asset_add (gpo_current_dollar_supply props) delta in
      let? v := asset_mul_price cs (fho_current_median_history fh) in
      let? vs := asset_add v (gpo_current_liquid_supply props) in
      let? _ := res_assert (amount cs >=? 0) "current_dollar_supply >= 0" in
      Ok (props <| gpo_current_dollar_supply := cs |> <| gpo_virtual_liquid_supply := vs |>)
    else Throw (assert_exception "invalid symbol")).

Definition get_balance (a : account_object) (sym : asset_symbol_type) : res asset :=
  if sym =? LIQUID_SYMBOL then Ok (acc_liquid_balance a)
  else if sym =? DOLLAR_SYMBOL then Ok (acc_dollar_balance a)
  else Throw (assert_exception "invalid symbol").
Definition get_savings_liquid_balance (a : account_object) (sym : asset_symbol_type) : res asset :=
  if sym =? LIQUID_SYMBOL then Ok (acc_savings_liquid_balance a)
  else if sym =? DOLLAR_SYMBOL then Ok (acc_savings_dollar_balance a)
  else Throw (assert_exception "invalid symbol").

(** ** Effects on the ledger *)

(** An account and the global properties with their amounts, and what accrues on
    them, blanked out; the symbols stay. *)
Definition set_amount (x : Z) (a : asset) : asset := mk_asset x (symbol a).
Definition static (a : account_object) : account_object :=
  a <| acc_liquid_balance ::= set_amount 0 |> <| acc_savings_liquid_balance ::= set_amount 0 |>
    <| acc_reward_liquid_balance ::= set_amount 0 |> <| acc_dollar_balance ::= set_amount 0 |>
    <| acc_savings_dollar_balance ::= set_amount 0 |> <| acc_reward_dollar_balance ::= set_amount 0 |>
    <| acc_vesting_share_balance ::= set_amount 0 |> <| acc_reward_vesting_share_balance ::= set_amount 0 |>
    <| acc_reward_vesting_liquid_balance ::= set_amount 0 |>
    <| acc_dollar_seconds := 0 |> <| acc_dollar_seconds_last_update := 0 |>
    <| acc_dollar_last_interest_payment := 0 |>
    <| acc_savings_dollar_seconds := 0 |> <| acc_savings_dollar_seconds_last_update := 0 |>
    <| acc_savings_dollar_last_interest_payment := 0 |> <| acc_proxied_vsf_votes := [] |>.
Definition gpo_static (g : dynamic_global_property_object) : dynamic_global_property_object :=
  g <| gpo_virtual_liquid_supply := mk_asset 0 LIQUID_SYMBOL |> <| gpo_current_liquid_supply ::= set_amount 0 |>
    <| gpo_current_dollar_supply ::= set_amount 0 |> <| gpo_total_vesting_fund_liquid ::= set_amount 0 |>
    <| gpo_total_vesting_shares ::= set_amount 0 |> <| gpo_total_reward_fund_liquid ::= set_amount 0 |>
    <| gpo_pending_rewarded_vesting_shares ::= set_amount 0 |>
    <| gpo_pending_rewarded_vesting_liquid ::= set_amount 0 |>.
Definition statics (s : database) : gmap Z account_object := static <$> rows (account_index s).

(** What a change of balances may touch: balances and vote weights of accounts
    and witnesses, the supplies, and the reported operations.  Every other table
    stays as it is, and so does everything else about the accounts. *)
Definition bal_frame (s s' : database) : Prop :=
  (∃ t w g v, s' = s <| account_index := t |> <| witness_index := w |> <| gpo := g |> <| virtual_ops := v |>)
  ∧ statics s' = statics s ∧ gpo_static (gpo s') = gpo_static (gpo s).

#[export] Instance bal_frame_preorder : PreOrder bal_frame.
Proof.
  split.
  - intros s. split_and!; [|done..].
    exists (account_index s), (witness_index s), (gpo s), (virtual_ops s). by destruct s.
  - intros s1 s2 s3 [(t & w & g & v & ->) [E1 F1]] [(t' & w' & g' & v' & ->) [E2 F2]].
    split_and!; [by exists t', w', g', v'|congruence..].
Qed.

Lemma statics_row s s' (r : ref account_object) o' :
  statics s' = statics s → row r s' = Some o' → ∃ o, row r s = Some o ∧ static o' = static o.
Proof.
  unfold statics, row. cbn. intros E Hr.
  assert (H : (static <$> rows (account_index s)) !! ref_id r = Some (static o')).
  { rewrite <- E, lookup_fmap, Hr. done. }
  rewrite lookup_fmap in H. apply fmap_Some in H as (o & ? & ?). eauto.
Qed.

Lemma statics_set_row (r : ref account_object) s o o' :
  row r s = Some o → static o' = static o → statics (set_row r o' s) = statics s.
Proof.
  unfold statics, row. cbn. intros Hr Hs. rewrite fmap_insert, Hs.
  apply insert_id. by rewrite lookup_fmap, Hr.
Qed.

(** Two rows agree once their amounts are blanked. *)
Ltac static_eq :=
  lazymatch goal with |- ?x = ?y =>
    let x' := eval hnf in x in let y' := eval hnf in y in change (x' = y') end;
  cbn; unfold set_amount; sym_facts; cbn in *;
  repeat match goal with H : symbol ?x = _ |- context [symbol ?x] => rewrite H; clear H end;
  reflexivity.

Lemma accrue_interest_effect owner b secs upd_t pay_t s b' secs' upd' pay' s' :
  accrue_interest owner b secs upd_t pay_t s = Ok ((b', secs', upd', pay'), s') →
  interest_frame s s' ∧ symbol b' = symbol b ∧
  (∀ c, gap (Held c) s' = gap (Held c) s + amt c b - amt c b') ∧
  gap Pending_liquid s' = gap Pending_liquid s ∧ gap Vsf s' = gap Vsf s.
Proof.
  unfold accrue_interest, head_block_time. intros H. inv_ok.
  case_match; [|case_match]; unfold get_dynamic_global_properties, get_feed_history in *;
    inv_store; try (split_and!; [apply interest_frame_refl|done|intros; lia|done|done]).
  all: try match goal with H : push_virtual_operation _ _ = _ |- _ =>
    apply push_virtual_gap in H as [? ?] end; subst; cbn in *.
  all: split_and!; [asset_facts; by repeat eexists|by asset_facts| | |].
  all: try (intros c; amt_facts c).
  all: repeat match goal with H : ∀ ch : chan, _ |- _ => rewrite H; clear H end; weigh_simpl; try lia.
Qed.

(** The change of every gap when [d] enters the books from outside. *)
Definition flow (ch : chan) (d : asset) : Z :=
  match ch with Held c => amt c d | _ => 0 end.

(** A step that only moves balances, and brings [d] into the books. *)
Definition bal_effect (d : asset) (s s' : database) : Prop :=
  bal_frame s s' ∧ ∀ ch, gap ch s' = gap ch s + flow ch d.

Lemma interest_bal_frame s s1 (r : ref account_object) o o' :
  interest_frame s s1 → row r s = Some o → static o' = static o →
  bal_frame s (set_row r o' s1).
Proof.
  intros (cs & vs & v & -> & ? & ?) Hr Hs. split_and!; [by repeat eexists| |static_eq].
  by apply (statics_set_row r s o o').
Qed.

Lemma vsf_weight_vests o b : vsf_weight (o <| acc_vesting_share_balance := b |>) - vsf_weight o =
  if bool_decide (acc_proxy o = ZATTERA_PROXY_TO_SELF_ACCOUNT)
  then amount b - amount (acc_vesting_share_balance o) else 0.
Proof. unfold vsf_weight, vote_weight. cbn. case_bool_decide; lia. Qed.

Lemma modify_balance_effect a delta chk s u s' :
  modify_balance a delta chk s = Ok (u, s') →
  ∃ o, row a s = Some o ∧ bal_frame s s' ∧
    (∀ c, gap (Held c) s' = gap (Held c) s + amt c delta) ∧
    gap Pending_liquid s' = gap Pending_liquid s ∧
    gap Vsf s' = gap Vsf s +
      (if (symbol delta =? VESTS_SYMBOL) && bool_decide (acc_proxy o = ZATTERA_PROXY_TO_SELF_ACCOUNT)
       then amount delta else 0).
Proof.
  unfold modify_balance. intros (o & o' & s1 & Hr & Hf & -> & Hg)%modify_with_gap.
  exists o. split; [done|].
  destruct (symbol delta =? LIQUID_SYMBOL) eqn:EL;
    [|destruct (symbol delta =? DOLLAR_SYMBOL) eqn:ED;
      [|destruct (symbol delta =? VESTS_SYMBOL) eqn:EV; [|inv_ok]]].
  - replace (symbol delta =? VESTS_SYMBOL) with false by (bool_prop; rewrite EL; done).
    inv_store; specialize (Hg eq_refl).
    all: split; [apply (interest_bal_frame _ _ a o); [apply interest_frame_refl|done|static_eq]|].
    all: split_and!; try (intros c; amt_facts c); rewrite Hg; weigh_simpl; lia.
  - replace (symbol delta =? VESTS_SYMBOL) with false by (bool_prop; rewrite ED; done).
    apply bind_ok in Hf as ([[[b secs] t1] t2] & s2 & Hi & Hf).
    apply accrue_interest_effect in Hi as (Hfr & ? & Hc & Hp & Hv).
    inv_store.
    all: specialize (Hg ltac:(by destruct Hfr as (? & ? & ? & -> & ?))).
    all: split; [apply (interest_bal_frame s _ a o); [done..|static_eq]|].
    all: split_and!; try (intros c; amt_facts c; specialize (Hc c)); rewrite Hg;
      weigh_simpl; lia.
  - inv_store; specialize (Hg eq_refl).
    all: split; [apply (interest_bal_frame _ _ a o); [apply interest_frame_refl|done|static_eq]|].
    all: split_and!; try (intros c; amt_facts c); rewrite Hg;
      try (change (weigh Vsf) with vsf_weight; rewrite <- Z.add_sub_assoc, vsf_weight_vests;
           asset_facts; case_bool_decide; cbn; lia); weigh_simpl; lia.
Qed.

Lemma adjust_balance_effect a delta s u s' :
  symbol delta ≠ VESTS_SYMBOL → adjust_balance a delta s = Ok (u, s') → bal_effect delta s s'.
Proof.
  intros Hne (o & _ & Hfr & Hc & Hp & Hv)%modify_balance_effect. split; [done|].
  apply Z.eqb_neq in Hne. rewrite Hne in Hv. cbn in Hv. intros [c| |]; cbn; rewrite ?Hc; lia.
Qed.

Lemma get_by_ok `{Table A} p s (r : ref A) s' : get_by p s = Ok (r, s') → s' = s ∧ find_row p s = Some r.
Proof. unfold get_by, find_by. intros Hx. inv_ok. done. Qed.
(** What [find] finds is a row that satisfies the predicate. *)
Lemma find_row_found `{Table A} p s (r : ref A) : find_row p s = Some r → ∃ o, row r s = Some o ∧ p o = true.
Proof.
  unfold find_row. intros Hf. apply fmap_Some in Hf as (i & Hf & ->).
  apply find_some in Hf as [_ Hf]. unfold row. cbn. destruct (rows (tbl s) !! i) as [o|]; [by exists o|done].
Qed.
Lemma find_row_some `{Table A} p s (r : ref A) o : find_row p s = Some r → row r s = Some o → p o = true.
Proof. intros (o' & Hr' & Hp)%find_row_found Hr. congruence. Qed.

Lemma adjust_balance_name_effect name delta s u s' :
  symbol delta ≠ VESTS_SYMBOL → adjust_balance_name name delta s = Ok (u, s') → bal_effect delta s s'.
Proof.
  intros Hne. unfold adjust_balance_name, get_account. intros H.
  apply bind_ok in H as (a & s1 & [-> _]%get_by_ok & H).
  by eapply adjust_balance_effect.
Qed.

Lemma adjust_savings_effect a delta s u s' :
  adjust_savings_liquid_balance a delta s = Ok (u, s') → bal_effect delta s s'.
Proof.
  unfold adjust_savings_liquid_balance. intros (o & o' & s1 & Hr & Hf & -> & Hg)%modify_with_gap.
  destruct (symbol delta =? LIQUID_SYMBOL) eqn:EL;
    [|destruct (symbol delta =? DOLLAR_SYMBOL) eqn:ED; [|inv_ok]].
  - inv_store; specialize (Hg eq_refl).
    all: split; [apply (interest_bal_frame _ _ a o); [apply interest_frame_refl|done|static_eq]|].
    all: intros [c| |]; try amt_facts c; rewrite Hg; unfold flow; weigh_simpl; lia.
  - apply bind_ok in Hf as ([[[b secs] t1] t2] & s2 & Hi & Hf).
    apply accrue_interest_effect in Hi as (Hfr & ? & Hc & Hp & Hv).
    inv_store.
    all: specialize (Hg ltac:(by destruct Hfr as (? & ? & ? & -> & ?))).
    all: split; [apply (interest_bal_frame s _ a o); [done..|static_eq]|].
    all: intros [c| |]; try (amt_facts c; specialize (Hc c)); rewrite Hg;
      unfold flow; weigh_simpl; lia.
Qed.

Lemma set_row_bal_frame s (r : ref account_object) o o' :
  row r s = Some o → static o' = static o → bal_frame s (set_row r o' s).
Proof. intros. by apply (interest_bal_frame s s r o); [apply interest_frame_refl|..]. Qed.
Lemma gpo_bal_frame s g : gpo_static g = gpo_static (gpo s) → bal_frame s (s <| gpo := g |>).
Proof.
  intros. split_and!; [|done..].
  exists (account_index s), (witness_index s), g, (virtual_ops s). by destruct s.
Qed.

(** A reward goes to the reward balance of its symbol or, with shares, to the
    pending vesting pair. *)
Definition reward_flow (ch : chan) (value share : asset) : Z :=
  if amount share =? 0 then flow ch value
  else match ch with Held c => amt c share | Pending_liquid => amount value | Vsf => 0 end.

Lemma modify_reward_balance_effect a value share chk s u s' :
  modify_reward_balance a value share chk s = Ok (u, s') →
  bal_frame s s' ∧ ∀ ch, gap ch s' = gap ch s + reward_flow ch value share.
Proof.
  unfold modify_reward_balance. intros (o & o' & -> & Hr & Hf & Hg)%modify_res_gap.
  unfold reward_flow.
  destruct (symbol value =? LIQUID_SYMBOL);
    [destruct (amount share =? 0) eqn:E0|destruct (symbol value =? DOLLAR_SYMBOL); [|done]];
    inv_ok; try match goal with H : (amount share =? 0) = true |- _ => rewrite H end.
  all: split; [eapply set_row_bal_frame; [done|static_eq]|].
  all: intros [c| |]; rewrite Hg; unfold flow; try amt_facts c; asset_facts; weigh_simpl; lia.
Qed.

Lemma adjust_reward_balance_effect a value share s u s' :
  adjust_reward_balance a value share s = Ok (u, s') →
  bal_frame s s' ∧ ∀ ch, gap ch s' = gap ch s + reward_flow ch value share.
Proof.
  unfold adjust_reward_balance. intros H. inv_ok. by eapply modify_reward_balance_effect.
Qed.

(** Supply created is owed to nobody until it is credited. *)
Lemma adjust_supply_effect delta av s u s' :
  adjust_supply delta av s = Ok (u, s') →
  bal_frame s s' ∧ ∀ ch, gap ch s' = gap ch s - flow ch delta.
Proof.
  unfold adjust_supply, get_dynamic_global_properties, get_feed_history. intros H. inv_store. subst.
  match goal with H : context [if symbol delta =? _ then _ else _] |- _ => rename H into Hf end.
  destruct (symbol delta =? LIQUID_SYMBOL); [|destruct (symbol delta =? DOLLAR_SYMBOL); [|done]]; inv_ok.
  all: split; [apply gpo_bal_frame; static_eq|].
  all: intros [c| |]; match goal with H : ∀ ch, _ |- _ => rewrite H end;
    unfold flow; try amt_facts c; asset_facts; weigh_simpl; lia.
Qed.
