(* ===== verification/Vesting.v ===== *)
(** * Vesting shares, dollars and witness votes

    [create_dollar], [create_vesting], the vote propagation through proxies
    ([adjust_proxied_witness_votes], [adjust_witness_votes],
    [adjust_witness_vote]) and [clear_null_account_balance] of database.cpp,
    with the share prices of global_property_object.hpp. *)
From S2P Require Import Prelude Ints Config Asset Authority State Store Ledger Balances.

Definition get_vesting_share_price (g : dynamic_global_property_object) : res price :=
  if (amount (gpo_total_vesting_fund_liquid g) =? 0) || (amount (gpo_total_vesting_shares g) =? 0)
  then make_price (mk_asset 1000 LIQUID_SYMBOL) (mk_asset 1000000 VESTS_SYMBOL)
  else make_price (gpo_total_vesting_shares g) (gpo_total_vesting_fund_liquid g).

Definition get_reward_vesting_share_price (g : dynamic_global_property_object) : res price :=
  let? v := asset_add (gpo_total_vesting_shares g) (gpo_pending_rewarded_vesting_shares g) in
  let? l := asset_add (gpo_total_vesting_fund_liquid g) (gpo_pending_rewarded_vesting_liquid g) in
  make_price v l.

(** [account_object::witness_vote_weight] and [proxied_vsf_votes_total]. *)
Definition witness_vote_weight (a : account_object) : res share_type :=
  res_fold safe.add (amount (acc_vesting_share_balance a)) (acc_proxied_vsf_votes a).
Definition proxied_vsf_votes_total (a : account_object) : res share_type :=
  res_fold safe.add 0 (acc_proxied_vsf_votes a).

(** Converts ZTR into ZBD, as far as the print rate allows, and credits both. *)
Definition create_dollar (to_account : ref account_object) (liquid : asset) (to_reward_balance : bool)
    : C (asset * asset) :=
  if amount liquid =? 0 then ret (mk_asset 0 DOLLAR_SYMBOL, mk_asset 0 LIQUID_SYMBOL)
  else
    let* fh := get_feed_history in
    let median_price := fho_current_median_history fh in
    let* g := get_dynamic_global_properties in
    if negb (is_null median_price) then
      let! p := safe.mul (gpo_dollar_print_rate g) (amount liquid) in
      let! to_dollar := safe.div p ZATTERA_100_PERCENT in
      let! to_liquid := safe.sub (amount liquid) to_dollar in
      let! dollars := asset_mul_price (mk_asset to_dollar LIQUID_SYMBOL) median_price in
      (if to_reward_balance then
         adjust_reward_balance to_account dollars no_shares ;;
         adjust_reward_balance to_account (mk_asset to_liquid LIQUID_SYMBOL) no_shares
       else
         adjust_balance to_account dollars ;;
         adjust_balance to_account (mk_asset to_liquid LIQUID_SYMBOL)) ;;
      let! n := safe.neg to_dollar in
      adjust_supply (mk_asset n LIQUID_SYMBOL) false ;;
      adjust_supply dollars false ;;
      ret (dollars, mk_asset to_liquid LIQUID_SYMBOL)
    else
      adjust_balance to_account liquid ;;
      ret (mk_asset 0 DOLLAR_SYMBOL, liquid).

(** ** Witness votes *)

Definition adjust_witness_vote (witness : ref witness_object) (delta : share_type) : C unit :=
  let* wso := get_witness_schedule_object in
  let* g := get_dynamic_global_properties in
  modify_res witness (fun w =>
    let now := wso_current_virtual_time wso in
    let delta_pos := u128_mul (wrap_u128 (wit_votes w)) (u128_sub now (wit_virtual_last_update w)) in
    let pos := u128_add (wit_virtual_position w) delta_pos in
    let? votes := safe.add (wit_votes w) delta in
    let? _ := res_assert (votes <=? amount (gpo_total_vesting_shares g)) "w.votes <= total_vesting_shares" in
    let? q := u128_div (u128_sub ZATTERA_VIRTUAL_SCHEDULE_LAP_LENGTH2 pos) (wrap_u128 (votes + 1)) in
    let sched := u128_add now q in
    let sched := if sched <? now then 2 ^ 128 - 1 else sched in
    Ok (w <| wit_virtual_position := pos |> <| wit_virtual_last_update := now |>
          <| wit_votes := votes |> <| wit_virtual_scheduled_time := sched |>)).

(** The votes of an account, in the order of [by_account_witness]. *)
Definition witness_votes_of (name : account_name_type) : C (list (ref witness_vote_object)) :=
  index_where (fun v => [KS (wvo_account v); KS (wvo_witness v)])
    (fun v => bool_decide (wvo_account v = name)).

Definition adjust_witness_votes (a : ref account_object) (delta : share_type) : C unit :=
  let* ao := load a in
  let* votes := witness_votes_of (acc_name ao) in
  for_each votes (fun v =>
    let* vo := load v in
    let* w := get_witness (wvo_witness vo) in
    adjust_witness_vote w delta).

(** [proxied_vsf_votes[i] += delta]: checked addition inside the array. *)
Definition add_proxied (i : nat) (delta : share_type) (votes : list share_type) : res (list share_type) :=
  let? v := of_option (votes !! i) (assert_exception "proxied_vsf_votes index") in
  let? v' := safe.add v delta in
  Ok (<[i := v']> votes).

(** [left] is how many levels of proxies remain,
    [ZATTERA_MAX_PROXY_RECURSION_DEPTH - depth]. *)
Fixpoint adjust_proxied_from (left : nat) (a : ref account_object) (delta : share_type) : C unit :=
  let* ao := load a in
  if bool_decide (acc_proxy ao ≠ ZATTERA_PROXY_TO_SELF_ACCOUNT) then
    match left with
    | O => ret tt
    | S left' =>
        let* proxy := get_account (acc_proxy ao) in
        modify_res proxy (fun p =>
          let? v := add_proxied (ZATTERA_MAX_PROXY_RECURSION_DEPTH - left) delta (acc_proxied_vsf_votes p) in
          Ok (p <| acc_proxied_vsf_votes := v |>)) ;;
        adjust_proxied_from left' proxy delta
    end
  else adjust_witness_votes a delta.
Definition adjust_proxied_witness_votes (a : ref account_object) (delta : share_type) : C unit :=
  adjust_proxied_from ZATTERA_MAX_PROXY_RECURSION_DEPTH a delta.

(** The variant for a whole account: [delta] holds its own vesting shares
    followed by what it received from each level of proxies. *)
Fixpoint adjust_proxied_array_from (left : nat) (a : ref account_object) (delta : list share_type) : C unit :=
  let* ao := load a in
  if bool_decide (acc_proxy ao ≠ ZATTERA_PROXY_TO_SELF_ACCOUNT) then
    match left with
    | O => ret tt
    | S left' =>
        let depth := (ZATTERA_MAX_PROXY_RECURSION_DEPTH - left)%nat in
        let* proxy := get_account (acc_proxy ao) in
        modify_res proxy (fun p =>
          let? v := res_fold (fun votes i => add_proxied (i + depth) (nth i delta 0) votes)
                      (acc_proxied_vsf_votes p) (rev (seq 0 left)) in
          Ok (p <| acc_proxied_vsf_votes := v |>)) ;;
        adjust_proxied_array_from left' proxy delta
    end
  else
    let! total_delta := res_fold safe.add 0 (rev (take (S left) delta)) in
    adjust_witness_votes a total_delta.
Definition adjust_proxied_witness_votes_array (a : ref account_object) (delta : list share_type) : C unit :=
  adjust_proxied_array_from ZATTERA_MAX_PROXY_RECURSION_DEPTH a delta.

Definition clear_witness_votes (a : ref account_object) : C unit :=
  let* ao := load a in
  let* votes := witness_votes_of (acc_name ao) in
  for_each votes remove ;;
  modify_row a (fun acc => acc <| acc_witnesses_voted_for := 0 |>).

(** Credits [liquid] as vesting shares at the current share price. *)
Definition create_vesting (to_account : ref account_object) (liquid : asset) (to_reward_balance : bool) : C asset :=
  fc_assert (symbol liquid =? LIQUID_SYMBOL) "liquid.symbol == LIQUID_SYMBOL" ;;
  let* cprops := get_dynamic_global_properties in
  let! vesting_share_price :=
    if to_reward_balance then get_reward_vesting_share_price cprops else get_vesting_share_price cprops in
  let! new_vesting := asset_mul_price liquid vesting_share_price in
  (if to_reward_balance then adjust_reward_balance to_account liquid new_vesting
   else adjust_balance to_account new_vesting) ;;
  modify_gpo (fun props =>
    if to_reward_balance then
      let? ps := asset_add (gpo_pending_rewarded_vesting_shares props) new_vesting in
      let? pl := asset_add (gpo_pending_rewarded_vesting_liquid props) liquid in
      Ok (props <| gpo_pending_rewarded_vesting_shares := ps |> <| gpo_pending_rewarded_vesting_liquid := pl |>)
    else
      let? f := asset_add (gpo_total_vesting_fund_liquid props) liquid in
      let? v := asset_add (gpo_total_vesting_shares props) new_vesting in
      Ok (props <| gpo_total_vesting_fund_liquid := f |> <| gpo_total_vesting_shares := v |>)) ;;
  when (negb to_reward_balance) (adjust_proxied_witness_votes to_account (amount new_vesting)) ;;
  ret new_vesting.

(** ** The null account burns what it receives *)

(** [if( balance.amount > 0 ) { total += balance; withdraw( -balance ); }] *)
Definition burn (null_account : ref account_object) (balance : account_object → asset)
    (withdraw : asset → C unit) (total : asset) : C asset :=
  let* n := load null_account in
  if amount (balance n) >? 0 then
    let! total' := asset_add total (balance n) in
    let! d := asset_neg (balance n) in
    withdraw d ;; ret total'
  else ret total.

Definition burn_vesting (null_account : ref account_object) (total_liquid : asset) : C asset :=
  let* n := load null_account in
  if amount (acc_vesting_share_balance n) >? 0 then
    let* g := get_dynamic_global_properties in
    let! p := get_vesting_share_price g in
    let! converted_liquid := asset_mul_price (acc_vesting_share_balance n) p in
    modify_gpo (fun g =>
      let? v := asset_sub (gpo_total_vesting_shares g) (acc_vesting_share_balance n) in
      let? f := asset_sub (gpo_total_vesting_fund_liquid g) converted_liquid in
      Ok (g <| gpo_total_vesting_shares := v |> <| gpo_total_vesting_fund_liquid := f |>)) ;;
    modify_row null_account (fun a => a <| acc_vesting_share_balance ::= set_amount 0 |>) ;;
    lift (asset_add total_liquid converted_liquid)
  else ret total_liquid.

Definition burn_reward_vesting (null_account : ref account_object) (total_liquid : asset) : C asset :=
  let* n := load null_account in
  if amount (acc_reward_vesting_share_balance n) >? 0 then
    let! total := asset_add total_liquid (acc_reward_vesting_liquid_balance n) in
    modify_gpo (fun g =>
      let? v := asset_sub (gpo_pending_rewarded_vesting_shares g) (acc_reward_vesting_share_balance n) in
      let? f := asset_sub (gpo_pending_rewarded_vesting_liquid g) (acc_reward_vesting_liquid_balance n) in
      Ok (g <| gpo_pending_rewarded_vesting_shares := v |> <| gpo_pending_rewarded_vesting_liquid := f |>)) ;;
    modify_row null_account (fun a => a <| acc_reward_vesting_liquid_balance ::= set_amount 0 |>
                                        <| acc_reward_vesting_share_balance ::= set_amount 0 |>) ;;
    ret total
  else ret total_liquid.

Definition clear_null_account_balance : C unit :=
  let* null_account := get_account ZATTERA_NULL_ACCOUNT in
  let reward d := adjust_reward_balance null_account d no_shares in
  let* tl := burn null_account acc_liquid_balance (adjust_balance null_account) (mk_asset 0 LIQUID_SYMBOL) in
  let* tl := burn null_account acc_savings_liquid_balance (adjust_savings_liquid_balance null_account) tl in
  let* td := burn null_account acc_dollar_balance (adjust_balance null_account) (mk_asset 0 DOLLAR_SYMBOL) in
  let* td := burn null_account acc_savings_dollar_balance (adjust_savings_liquid_balance null_account) td in
  let* tl := burn_vesting null_account tl in
  let* tl := burn null_account acc_reward_liquid_balance reward tl in
  let* td := burn null_account acc_reward_dollar_balance reward td in
  let* tl := burn_reward_vesting null_account tl in
  when (amount tl >? 0) (let! n := asset_neg tl in adjust_supply n false) ;;
  when (amount td >? 0) (let! n := asset_neg td in adjust_supply n false).

(** ** Effects on the ledger *)

(** Votes only move witness rows. *)
Definition wit_frame (s s' : database) : Prop := ∃ w, s' = s <| witness_index := w |>.
#[export] Instance wit_frame_preorder : PreOrder wit_frame.
Proof.
  split.
  - intros s. exists (witness_index s). by destruct s.
  - intros s1 s2 s3 [w ->] [w' ->]. by exists w'.
Qed.
Lemma wit_frame_gap ch s s' : wit_frame s s' → gap ch s' = gap ch s.
Proof. by intros [w ->]. Qed.
Lemma wit_bal_frame s s' : wit_frame s s' → bal_frame s s'.
Proof.
  intros [w ->]. split_and!; [|done..].
  exists (account_index s), w, (gpo s), (virtual_ops s). by destruct s.
Qed.

Lemma adjust_witness_vote_frame w delta s u s' :
  adjust_witness_vote w delta s = Ok (u, s') → wit_frame s s'.
Proof.
  unfold adjust_witness_vote, get_witness_schedule_object, get_dynamic_global_properties.
  intros H. inv_store. subst. by eexists.
Qed.

Lemma adjust_witness_votes_frame a delta s u s' :
  adjust_witness_votes a delta s = Ok (u, s') → wit_frame s s'.
Proof.
  unfold adjust_witness_votes. intros H. inv_store.
  unfold witness_votes_of, index_where in *. inv_ok.
  eapply (for_each_pres (wit_frame s)) in H; [done| |reflexivity].
  intros v s1 s2 _ Hs Hv. inv_store. unfold get_witness in *.
  match goal with H : get_by _ _ = _ |- _ => apply get_by_ok in H as [-> _] end.
  etrans; [done|]. by eapply adjust_witness_vote_frame.
Qed.

Lemma add_proxied_ok i delta votes votes' : add_proxied i delta votes = Ok votes' →
  ∃ v, votes !! i = Some v ∧ votes' = <[i := v + delta]> votes.
Proof.
  unfold add_proxied. intros H. inv_ok.
  match goal with H : safe.add _ _ = _ |- _ => apply safe_add_ok in H end. subst. eauto.
Qed.

Lemma sum_insert (l : list Z) i v d : l !! i = Some v →
  fold_right Z.add 0 (<[i := v + d]> l) = fold_right Z.add 0 l + d.
Proof.
  revert i. induction l as [|x l IH]; intros [|i] H; cbn in *; try done.
  - injection H as ->. lia.
  - rewrite IH by done. lia.
Qed.
Lemma nth_insert (l : list Z) i j v d : l !! i = Some v →
  nth j (<[i := v + d]> l) 0 = nth j l 0 + (if bool_decide (i = j) then d else 0).
Proof.
  revert i j. induction l as [|x l IH]; intros [|i] [|j] H; cbn in *; try done;
    rewrite ?IH by done; repeat case_bool_decide; simplify_eq; lia.
Qed.

(** One slot of the proxied votes grows by [d]: it counts at a root account and,
    in the last slot, at any account. *)
Lemma vsf_weight_proxied o i v d votes :
  acc_proxied_vsf_votes o !! i = Some v → votes = <[i := v + d]> (acc_proxied_vsf_votes o) →
  vsf_weight (o <| acc_proxied_vsf_votes := votes |>) = vsf_weight o +
    (if bool_decide (acc_proxy o = ZATTERA_PROXY_TO_SELF_ACCOUNT) then d
     else if bool_decide (i = ZATTERA_MAX_PROXY_RECURSION_DEPTH - 1)%nat then d else 0).
Proof.
  intros Hi ->. unfold vsf_weight, vote_weight. cbn. case_bool_decide.
  - rewrite (sum_insert _ _ v) by done. lia.
  - rewrite (nth_insert _ _ 3 v) by done. done.
Qed.

Lemma adjust_proxied_from_effect left a delta s u s' o :
  (left ≤ ZATTERA_MAX_PROXY_RECURSION_DEPTH)%nat → row a s = Some o →
  adjust_proxied_from left a delta s = Ok (u, s') →
  bal_frame s s' ∧ (∀ c, gap (Held c) s' = gap (Held c) s) ∧
  gap Pending_liquid s' = gap Pending_liquid s ∧
  gap Vsf s' = gap Vsf s +
    (if bool_decide (acc_proxy o = ZATTERA_PROXY_TO_SELF_ACCOUNT) then 0
     else if bool_decide (left = 0%nat) then 0 else delta).
Proof.
  revert a s o. induction left as [|left IH]; intros a s o Hl Ho H; cbn in H;
    apply bind_ok in H as (o1 & s1 & [Ho1 ->]%load_ok & H); simplify_eq;
    (destruct (decide (acc_proxy o = ZATTERA_PROXY_TO_SELF_ACCOUNT)) as [Hp|Hp];
      [rewrite bool_decide_eq_false_2 in H by tauto; rewrite (bool_decide_eq_true_2 _ Hp)
      |rewrite bool_decide_eq_true_2 in H by done; rewrite (bool_decide_eq_false_2 _ Hp)]).
  1,3: apply adjust_witness_votes_frame in H;
    split_and!; [by apply wit_bal_frame|intros|..]; rewrite (wit_frame_gap _ _ _ H); lia.
  - inv_ok. split_and!; [reflexivity|done|done|]. rewrite bool_decide_eq_true_2 by done. lia.
  - unfold get_account in H. apply bind_ok in H as (p & s2 & [-> _]%get_by_ok & H).
    inv_store. subst.
    match goal with H : add_proxied _ _ _ = _ |- _ => apply add_proxied_ok in H as (v & Hv & ->) end.
    match goal with H : row p s = Some ?x |- _ => rename H into Hpr; rename x into po end.
    match goal with H : ∀ ch, gap ch (set_row p _ s) = _ |- _ => rename H into Hg end.
    eapply IH in H as (Hf & Hc & Hd & Hw); [|lia|apply row_set_row_eq]. split_and!.
    + etrans; [|done]. by eapply set_row_bal_frame.
    + intros c. rewrite Hc, Hg. weigh_simpl. lia.
    + rewrite Hd, Hg. weigh_simpl. lia.
    + rewrite Hw, Hg. change (weigh Vsf) with vsf_weight.
      erewrite vsf_weight_proxied by done. cbn in Hl |- *. unfold ZATTERA_MAX_PROXY_RECURSION_DEPTH in *.
      repeat case_bool_decide; lia.
Qed.

Lemma static_proxy o o' : static o = static o' → acc_proxy o = acc_proxy o'.
Proof. intros H. by apply (f_equal acc_proxy) in H. Qed.
Lemma vests_symbol g g' : gpo_static g = gpo_static g' →
  symbol (gpo_total_vesting_shares g) = symbol (gpo_total_vesting_shares g').
Proof. intros H. by apply (f_equal (fun g => symbol (gpo_total_vesting_shares g))) in H. Qed.

(** Shares are created at the price of the moment: [liquid] enters the books,
    the new shares and the recorded totals move together. *)
Lemma create_vesting_effect a liquid s v s' :
  symbol (gpo_total_vesting_shares (gpo s)) = VESTS_SYMBOL →
  create_vesting a liquid false s = Ok (v, s') → bal_effect liquid s s' ∧ symbol v = VESTS_SYMBOL.
Proof.
  intros Hsym H. unfold create_vesting, get_dynamic_global_properties, when in H. cbn [negb] in H.
  inv_store.
  match goal with H : adjust_balance _ ?n _ = _ |- _ =>
    rename n into nv; apply modify_balance_effect in H as (o & Ho & Hf & Hc & Hp & Hv) end.
  match goal with H : adjust_proxied_witness_votes _ _ _ = _ |- _ => rename H into Ha end.
  match goal with H : ∀ ch, gap ch _ = gap ch _ + _ - _ |- _ => rename H into Hg end.
  destruct Hf as (Hfr & Hst & Hgs). subst.
  match goal with H : asset_add (gpo_total_vesting_shares ?g) nv = _ |- _ =>
    pose proof (asset_add_ok _ _ _ H) as (Hs1 & _ & Hs3) end.
  assert (Hnv : symbol nv = VESTS_SYMBOL).
  { rewrite <- Hs1, <- Hsym. by apply vests_symbol. }
  rewrite Hnv in Hv. cbn [Z.eqb] in Hv.
  destruct (statics_row _ _ a o (eq_sym Hst) Ho) as (o8 & Ho8 & Hso).
  apply (adjust_proxied_from_effect _ _ _ _ _ _ o8) in Ha as (Ha & Hc' & Hp' & Hv'); [|lia|done].
  rewrite <- (static_proxy _ _ Hso), (bool_decide_eq_false_2 (ZATTERA_MAX_PROXY_RECURSION_DEPTH = 0%nat)) in Hv'
    by done. split; [split|done].
  - etrans; [by split_and!|]. etrans; [|done]. apply gpo_bal_frame. static_eq.
  - intros [c| |]; rewrite ?Hc', ?Hp', ?Hv', Hg, ?Hc, ?Hp, ?Hv; unfold flow; try amt_facts c; weigh_simpl;
      [lia..|]. rewrite Hs3. case_bool_decide; lia.
Qed.

(** The same for a reward, unless the amount is too small to buy any share. *)
Lemma create_vesting_reward_effect a liquid s v s' :
  create_vesting a liquid true s = Ok (v, s') → amount v ≠ 0 ∨ amount liquid = 0 →
  bal_effect liquid s s'.
Proof.
  intros H Hnz. unfold create_vesting, get_dynamic_global_properties, when in H. cbn [negb] in H.
  inv_store.
  match goal with H : adjust_reward_balance _ _ _ _ = _ |- _ =>
    apply adjust_reward_balance_effect in H as (Hf & Hg1) end.
  match goal with H : ∀ ch, gap ch _ = gap ch _ + _ - _ |- _ => rename H into Hg end. subst.
  split.
  - etrans; [done|]. apply gpo_bal_frame. static_eq.
  - intros ch. rewrite Hg, Hg1. clear Hg Hg1 Hf. unfold reward_flow.
    repeat match goal with H : asset_mul_price _ _ = _ |- _ => clear H
      | H : get_reward_vesting_share_price _ = _ |- _ => clear H end.
    destruct ch as [c| |]; unfold flow; try (amt_facts c; pose proof (amt_zero c liquid);
      match type of Hnz with amount ?v ≠ 0 ∨ _ => pose proof (amt_zero c v) end);
      asset_facts; weigh_simpl.
    all: destruct (_ =? 0) eqn:E; bool_prop; lia.
Qed.

Lemma adjust_supply_symbol delta av s u s' : adjust_supply delta av s = Ok (u, s') →
  symbol delta ≠ VESTS_SYMBOL.
Proof.
  unfold adjust_supply, get_dynamic_global_properties, get_feed_history. intros H E. inv_store.
  rewrite E in *. discriminate.
Qed.

Lemma reward_flow_no_shares ch v : reward_flow ch v no_shares = flow ch v.
Proof. done. Qed.
Lemma flow_zero ch sym : flow ch (mk_asset 0 sym) = 0.
Proof. destruct ch; unfold flow, amt; cbn; by repeat case_match. Qed.

Lemma create_dollar_effect a liquid to_reward s r s' :
  symbol liquid = LIQUID_SYMBOL → create_dollar a liquid to_reward s = Ok (r, s') →
  bal_effect liquid s s'.
Proof.
  intros Hsym H. unfold create_dollar, get_feed_history, get_dynamic_global_properties in H.
  destruct (amount liquid =? 0) eqn:E0; [inv_ok; split; [reflexivity|]|].
  { intros ch. bool_prop. destruct liquid as [x sym]. cbn in E0. subst. rewrite flow_zero. lia. }
  inv_ok. destruct (negb _); inv_ok;
    [|by eapply adjust_balance_effect; [rewrite Hsym|]].
  repeat match goal with
  | H : safe.sub _ _ = _ |- _ => apply safe_sub_ok in H
  | H : safe.neg _ = _ |- _ => apply safe_neg_ok in H
  | H : adjust_supply _ _ _ = _ |- _ => pose proof (adjust_supply_symbol _ _ _ _ _ H); apply adjust_supply_effect in H as [? ?]
  end.
  match goal with H : (if to_reward then _ else _) _ = Ok (_, ?s1) |- _ =>
    rename H into Hr; rename s1 into sr end.
  match type of Hr with context [mk_asset ?x LIQUID_SYMBOL] => rename x into tl end.
  match type of Hr with context [adjust_balance a ?d] => rename d into dollars end.
  assert (Hmid : bal_frame s sr ∧ ∀ ch, gap ch sr = gap ch s + flow ch dollars + flow ch (mk_asset tl LIQUID_SYMBOL)).
  { destruct to_reward; inv_ok;
      repeat match goal with
      | H : adjust_reward_balance _ _ _ _ = _ |- _ => apply adjust_reward_balance_effect in H as [? ?]
      | H : adjust_balance _ _ _ = _ |- _ => apply adjust_balance_effect in H as [? ?]; [|done]
      end; (split; [by etrans|]); intros ch;
      repeat match goal with H : ∀ ch, gap ch _ = _ |- _ => rewrite H; clear H end;
      rewrite ?reward_flow_no_shares; lia. }
  destruct Hmid as [? Hg]. split; [repeat (etrans; [eassumption|]); reflexivity|].
  intros ch. repeat match goal with H : ∀ ch, gap ch _ = _ |- _ => rewrite H; clear H end.
  subst. destruct ch as [c| |]; unfold flow, amt; cbn [symbol amount]; rewrite ?Hsym; try lia.
  destruct (LIQUID_SYMBOL =? _); lia.
Qed.
