(* ===== verification/Conserve.v ===== *)
(** * Conservation

    What it means for a chain computation to conserve the ledger: run on a
    well-typed state it leaves a well-typed state and every gap as it was.  The
    state is well typed when the total of vesting shares is counted in VESTS, no
    escrow, order or savings withdrawal holds VESTS, and the agent's fee has left every escrow that
    both parties approved.  The tactics here assemble the effects of
    the primitives (Ledger.v, Balances.v, Vesting.v) into that statement; the
    evaluators and the block processing are proved against it. *)
From S2P Require Import Prelude Ints Config Asset Authority State Store Ledger Balances Vesting.

Definition esc_typed (e : escrow_object) : Prop :=
  symbol (esc_liquid_balance e) ≠ VESTS_SYMBOL ∧ symbol (esc_dollar_balance e) ≠ VESTS_SYMBOL
  ∧ symbol (esc_pending_fee e) ≠ VESTS_SYMBOL
  ∧ (esc_to_approved e && esc_agent_approved e = true → amount (esc_pending_fee e) = 0).
Definition order_typed (o : limit_order_object) : Prop :=
  symbol (base (loo_sell_price o)) ≠ VESTS_SYMBOL ∧ symbol (quote (loo_sell_price o)) ≠ VESTS_SYMBOL.
Definition savings_typed (w : savings_withdraw_object) : Prop := symbol (swo_amount w) ≠ VESTS_SYMBOL.

Definition well_typed (s : database) : Prop :=
  symbol (gpo_total_vesting_shares (gpo s)) = VESTS_SYMBOL
  ∧ map_Forall (fun _ => esc_typed) (rows (escrow_index s))
  ∧ map_Forall (fun _ => order_typed) (rows (limit_order_index s))
  ∧ map_Forall (fun _ => savings_typed) (rows (savings_withdraw_index s)).

Definition conserves {A} (m : C A) : Prop :=
  ∀ s a s', well_typed s → m s = Ok (a, s') → well_typed s' ∧ ∀ ch, gap ch s' = gap ch s.

(** The same with a known imbalance, to be settled by the rest of the code. *)
Definition shifts {A} (d : chan → Z) (m : C A) : Prop :=
  ∀ s a s', well_typed s → m s = Ok (a, s') → well_typed s' ∧ ∀ ch, gap ch s' = gap ch s + d ch.

(** ** Well-typedness *)

(** Tables [well_typed] says nothing about. *)
Class Neutral (A : Type) `{Table A} := neutral : ∀ t s, well_typed s → well_typed (set_tbl t s).
#[export] Hint Extern 1 (Neutral _) => (let H := fresh in intros ? ? H; exact H) : typeclass_instances.

Lemma wt_bal_frame s s' : bal_frame s s' → well_typed s → well_typed s'.
Proof.
  intros [(t & w & g & v & ->) (_ & Hg)] (H1 & Hrest). split; [|done].
  rewrite <- H1. by apply vests_symbol.
Qed.
Lemma wt_row `{Neutral A} (r : ref A) o s : well_typed s → well_typed (set_row r o s).
Proof. apply neutral. Qed.
Lemma wt_delete `{Neutral A} (r : ref A) s : well_typed s → well_typed (delete_row r s).
Proof. apply neutral. Qed.
Lemma wt_add `{Neutral A} (o : A) s : well_typed s → well_typed (add_row o s).
Proof. apply neutral. Qed.
Lemma wt_gpo s g : gpo_static g = gpo_static (gpo s) → well_typed s → well_typed (s <| gpo := g |>).
Proof. intros. by eapply wt_bal_frame, H0; apply gpo_bal_frame. Qed.
Lemma wt_virtual s f : well_typed s → well_typed (s <| virtual_ops ::= f |>).
Proof. done. Qed.

Lemma wt_escrow (r : ref escrow_object) s e : well_typed s → row r s = Some e → esc_typed e.
Proof. intros (_ & H & _) Hr. exact (H _ _ Hr). Qed.
Lemma wt_order (r : ref limit_order_object) s o : well_typed s → row r s = Some o → order_typed o.
Proof. intros (_ & _ & H & _) Hr. exact (H _ _ Hr). Qed.
Lemma wt_savings (r : ref savings_withdraw_object) s o : well_typed s → row r s = Some o → savings_typed o.
Proof. intros (_ & _ & _ & H) Hr. exact (H _ _ Hr). Qed.
Ltac wt_table :=
  let H := fresh in
  intros; match goal with H' : well_typed _ |- _ => destruct H' as (? & ? & ? & ?) end;
  split_and!; first [by apply map_Forall_insert_2 | by apply map_Forall_delete | done].
Lemma wt_set_escrow (r : ref escrow_object) s e : esc_typed e → well_typed s → well_typed (set_row r e s).
Proof. wt_table. Qed.
Lemma wt_set_order (r : ref limit_order_object) s o : order_typed o → well_typed s → well_typed (set_row r o s).
Proof. wt_table. Qed.
Lemma wt_add_escrow s e : esc_typed e → well_typed s → well_typed (add_row e s).
Proof. wt_table. Qed.
Lemma wt_add_order s o : order_typed o → well_typed s → well_typed (add_row o s).
Proof. wt_table. Qed.
Lemma wt_add_savings s (w : savings_withdraw_object) : savings_typed w → well_typed s → well_typed (add_row w s).
Proof. wt_table. Qed.
Lemma wt_delete_escrow (r : ref escrow_object) s : well_typed s → well_typed (delete_row r s).
Proof. wt_table. Qed.
Lemma wt_delete_order (r : ref limit_order_object) s : well_typed s → well_typed (delete_row r s).
Proof. wt_table. Qed.
Lemma wt_delete_savings (r : ref savings_withdraw_object) s : well_typed s → well_typed (delete_row r s).
Proof. wt_table. Qed.

(** Well typed but for one escrow, in the middle of an approval. *)
Definition wt_except (r : ref escrow_object) (s : database) : Prop :=
  symbol (gpo_total_vesting_shares (gpo s)) = VESTS_SYMBOL
  ∧ map_Forall (fun i e => i ≠ ref_id r → esc_typed e) (rows (escrow_index s))
  ∧ map_Forall (fun _ => order_typed) (rows (limit_order_index s))
  ∧ map_Forall (fun _ => savings_typed) (rows (savings_withdraw_index s)).
Lemma wt_except_intro r s : well_typed s → wt_except r s.
Proof. intros (? & H & ? & ?). split_and!; [done| |done..]. intros i e He _. exact (H _ _ He). Qed.
Lemma wt_except_set r e s : wt_except r s → wt_except r (set_row r e s).
Proof. intros (? & H & ? & ?). split_and!; [done| |done..]. by apply map_Forall_insert_2. Qed.
Lemma wt_except_frame r s s' : bal_frame s s' → wt_except r s → wt_except r s'.
Proof.
  intros [(t & w & g & v & ->) (_ & Hg)] (H1 & Hrest). split; [|done].
  rewrite <- H1. by apply vests_symbol.
Qed.
Lemma wt_except_close r e s : esc_typed e → wt_except r s → well_typed (set_row r e s).
Proof.
  intros He (? & H & ? & ?). split_and!; [done| |done..]. intros i e' Hi. cbn in Hi.
  destruct (decide (i = ref_id r)) as [->|Hne].
  - rewrite lookup_insert_eq in Hi. by simplify_eq.
  - rewrite lookup_insert_ne in Hi by done. exact (H _ _ Hi Hne).
Qed.

Create HintDb wt.
#[export] Hint Resolve wt_except_intro wt_except_set : wt.
#[export] Hint Extern 3 (wt_except _ ?s) =>
  match goal with H : bal_frame _ s |- _ => apply (wt_except_frame _ _ _ H) end : wt.
#[export] Hint Resolve wt_delete_escrow wt_delete_order wt_delete_savings wt_virtual : wt.
#[export] Hint Extern 2 (well_typed (set_row _ _ _)) => apply wt_row : wt.
#[export] Hint Extern 2 (well_typed (delete_row _ _)) => apply wt_delete : wt.
#[export] Hint Extern 2 (well_typed (add_row _ _)) => apply wt_add : wt.
#[export] Hint Extern 2 (well_typed (_ <| gpo := _ |>)) => apply wt_gpo; [static_eq|] : wt.
#[export] Hint Extern 3 (well_typed ?s) =>
  match goal with H : bal_frame _ s |- _ => apply (wt_bal_frame _ _ H) end : wt.

(** ** Composition *)

Lemma conserves_ret {A} (a : A) : conserves (ret a).
Proof. intros s b s' Hwt H. inv_ok. done. Qed.
Lemma conserves_bind {A B} (m : C A) (k : A → C B) :
  conserves m → (∀ a, conserves (k a)) → conserves (bind m k).
Proof.
  intros Hm Hk s b s' Hwt (a & s1 & H1 & H2)%bind_ok.
  apply Hm in H1 as [Hwt1 Hg1]; [|done]. apply Hk in H2 as [? Hg2]; [|done].
  split; [done|]. intros ch. rewrite Hg2. apply Hg1.
Qed.
Lemma shifts_settle {A B} d (m : C A) (k : A → C B) :
  shifts d m → (∀ a, shifts (fun ch => - d ch) (k a)) → conserves (bind m k).
Proof.
  intros Hm Hk s b s' Hwt (a & s1 & H1 & H2)%bind_ok.
  apply Hm in H1 as [Hwt1 Hg1]; [|done]. apply Hk in H2 as [? Hg2]; [|done].
  split; [done|]. intros ch. rewrite Hg2, Hg1. lia.
Qed.
Lemma shifts_bind {A B} d (m : C A) (k : A → C B) :
  conserves m → (∀ a, shifts d (k a)) → shifts d (bind m k).
Proof.
  intros Hm Hk s b s' Hwt (a & s1 & H1 & H2)%bind_ok.
  apply Hm in H1 as [Hwt1 Hg1]; [|done]. apply Hk in H2 as [? Hg2]; [|done].
  split; [done|]. intros ch. rewrite Hg2, Hg1. lia.
Qed.
Lemma conserves_lift {A} (r : res A) : conserves (lift r).
Proof. intros s b s' Hwt H. inv_ok. done. Qed.
Lemma conserves_gets {A} (f : database → A) : conserves (gets f).
Proof. intros s b s' Hwt H. inv_ok. done. Qed.
Lemma conserves_throw {A} e : conserves (@throw database A e).
Proof. intros s b s' Hwt H. inv_ok. Qed.
Lemma conserves_when c (m : C unit) : conserves m → conserves (when c m).
Proof. intros. unfold when. destruct c; [done|apply conserves_ret]. Qed.
Lemma conserves_load `{Table A} (r : ref A) : conserves (load r).
Proof. intros s b s' Hwt. unfold load. case_match; [|done]. by intros [= <- <-]. Qed.
Lemma conserves_for_each {A} (l : list A) (f : A → C unit) :
  (∀ x, conserves (f x)) → conserves (for_each l f).
Proof.
  intros Hf. induction l as [|x l IH]; cbn; [apply conserves_ret|].
  apply conserves_bind; [apply Hf|]. intros _. apply IH.
Qed.
Lemma conserves_fold_m {A B} (f : B → A → C B) l b :
  (∀ b x, conserves (f b x)) → conserves (fold_m f b l).
Proof.
  intros Hf. revert b. induction l as [|x l IH]; intros b; cbn; [apply conserves_ret|].
  apply conserves_bind; [apply Hf|done].
Qed.

Lemma conserves_get_by `{Table A} (p : A → bool) : conserves (get_by p).
Proof. apply conserves_bind; [apply conserves_gets|intros; apply conserves_lift]. Qed.

(** Steps on rows that hold nothing. *)
Section Weightless.
Context {A : Type} `{Counted A, !Neutral A}.
Lemma conserves_modify_res (r : ref A) (f : A → res A) :
  (∀ o o' ch, f o = Ok o' → weigh ch o' = weigh ch o) → conserves (modify_res r f).
Proof.
  intros Hf s u s' Hwt (o & o' & -> & Hr & Ho & Hg)%modify_res_gap.
  split; [by apply wt_row|]. intros ch. rewrite Hg, (Hf _ _ ch Ho). lia.
Qed.
Lemma conserves_modify_row (r : ref A) (f : A → A) :
  (∀ o ch, weigh ch (f o) = weigh ch o) → conserves (modify_row r f).
Proof.
  intros Hf s u s' Hwt (o & -> & Hr & Hg)%modify_row_gap.
  split; [by apply wt_row|]. intros ch. rewrite Hg, Hf. lia.
Qed.
Lemma conserves_create (o : A) : (∀ ch, weigh ch o = 0) → conserves (create o).
Proof.
  intros Ho s u s' Hwt (-> & _ & _ & _ & Hg)%create_gap.
  split; [by apply wt_add|]. intros ch. rewrite Hg, Ho. lia.
Qed.
Lemma conserves_remove (r : ref A) : (∀ (o : A) ch, weigh ch o = 0) → conserves (remove r).
Proof.
  intros Ho s u s' Hwt (o & -> & _ & Hg)%remove_gap.
  split; [by apply wt_delete|]. intros ch. rewrite Hg, Ho. lia.
Qed.
End Weightless.

Lemma conserves_drain `{Table A} key due (f : ref A → C unit) :
  (∀ r, conserves (f r)) → conserves (drain key due f).
Proof.
  intros Hf. apply conserves_bind; [apply conserves_gets|]. intros n.
  generalize (S n). intros k. induction k as [|k IH]; cbn; [apply conserves_throw|].
  apply conserves_bind; [apply conserves_bind; [apply conserves_gets|intros; apply conserves_ret]|].
  intros [r|]; [|apply conserves_ret].
  apply conserves_bind; [apply conserves_load|]. intros o.
  case_match; [|apply conserves_ret]. apply conserves_bind; auto.
Qed.

(** Approvals and the like on an escrow. *)
Lemma conserves_modify_escrow (r : ref escrow_object) f :
  (∀ e ch, weigh ch (f e) = weigh ch e) → (∀ e, esc_typed e → esc_typed (f e)) →
  conserves (modify_row r f).
Proof.
  intros Hf Ht s u s' Hwt (o & -> & Hr & Hg)%modify_row_gap. split.
  - apply wt_set_escrow; [|done]. eapply Ht, wt_escrow; eauto.
  - intros ch. rewrite Hg, Hf. lia.
Qed.

(** Tables a change of balances leaves alone: a row read before it is the row
    read after it. *)
Class Untouched (A : Type) `{Table A} := untouched : ∀ s s', bal_frame s s' → tbl s' = tbl s.
#[export] Hint Extern 1 (Untouched _) =>
  (intros ? ? [(? & ? & ? & ? & ->) _]; reflexivity) : typeclass_instances.
Lemma frame_row `{Untouched A} (r : ref A) s s' : bal_frame s s' → row r s' = row r s.
Proof. intros Hf. unfold row. by rewrite (untouched _ _ Hf). Qed.
(** Later reads of a row that an earlier step wrote or left alone. *)
Ltac frame_rows :=
  repeat match goal with
  | H : bal_frame _ ?s', Hr : row ?r ?s' = Some _ |- _ => rewrite (frame_row r _ _ H) in Hr
  | Hr : row ?r (set_row ?r _ _) = Some _ |- _ => rewrite row_set_row_eq in Hr
  | Hr : row ?r (set_row _ _ ?s) = Some ?o |- _ => change (row r s = Some o) in Hr
  | Hr : row ?r (?s <| virtual_ops ::= _ |>) = Some ?o |- _ => change (row r s = Some o) in Hr
  | Hr : row ?r (?s <| gpo := _ |>) = Some ?o |- _ => change (row r s = Some o) in Hr
  end; simplify_eq.

(** ** Tactics *)

Lemma find_by_ok `{Table A} p s (r : option (ref A)) s' : find_by p s = Ok (r, s') → s' = s ∧ r = find_row p s.
Proof. unfold find_by. intros Hx. by inv_ok. Qed.

(** Discharge [symbol x ≠ VESTS_SYMBOL] from what is known about symbols. *)
Ltac solve_sym :=
  repeat match goal with
  | H : asset_neg _ = Ok _ |- _ => apply asset_neg_ok in H as [H _]
  | H : (symbol _ =? _) = true |- _ => apply Z.eqb_eq in H
  end;
  first [done
        |assert (DOLLAR_SYMBOL ≠ VESTS_SYMBOL) by done; assert (LIQUID_SYMBOL ≠ VESTS_SYMBOL) by done; congruence].

(** Replace every call of a primitive by its effect. *)
Ltac effect_step :=
  match goal with
  | H : get_account _ _ = Ok _ |- _ => apply get_by_ok in H as [? _]; subst
  | H : get_witness _ _ = Ok _ |- _ => apply get_by_ok in H as [? _]; subst
  | H : get_escrow _ _ _ = Ok _ |- _ => apply get_by_ok in H as [? _]; subst
  | H : get_limit_order _ _ _ = Ok _ |- _ => apply get_by_ok in H as [? _]; subst
  | H : get_savings_withdraw _ _ _ = Ok _ |- _ => apply get_by_ok in H as [? _]; subst
  | H : get_comment _ _ _ = Ok _ |- _ => apply get_by_ok in H as [? _]; subst
  | H : get_reward_fund _ = Ok _ |- _ => apply get_by_ok in H as [? _]; subst
  | H : get_by _ _ = Ok _ |- _ => apply get_by_ok in H as [? _]; subst
  | H : find_by _ _ = Ok _ |- _ => apply find_by_ok in H as [? _]; subst
  | H : head_block_time _ = Ok _ |- _ => apply gets_ok in H as [? ?]; subst
  | H : get_dynamic_global_properties _ = Ok _ |- _ => apply gets_ok in H as [? ?]; subst
  | H : get_feed_history _ = Ok _ |- _ => apply gets_ok in H as [? ?]; subst
  | H : get_witness_schedule_object _ = Ok _ |- _ => apply gets_ok in H as [? ?]; subst
  | H : push_virtual_operation _ _ = Ok _ |- _ => apply push_virtual_gap in H as [? ?]
  | H : adjust_savings_liquid_balance _ _ _ = Ok _ |- _ => apply adjust_savings_effect in H as [? ?]
  | H : adjust_reward_balance _ _ _ _ = Ok _ |- _ => apply adjust_reward_balance_effect in H as [? ?]
  | H : adjust_supply _ _ _ = Ok _ |- _ => apply adjust_supply_effect in H as [? ?]
  | H : adjust_balance _ _ _ = Ok _ |- _ => apply adjust_balance_effect in H as [? ?]; [|solve_sym]
  | H : adjust_balance_name _ _ _ = Ok _ |- _ => apply adjust_balance_name_effect in H as [? ?]; [|solve_sym]
  | _ => inv_store_step
  end.
Ltac effects := repeat effect_step.

(** Sum up the gaps along the states. *)
Ltac gap_chain ch :=
  repeat match goal with H : ∀ ch, gap ch ?s2 = _ |- context [gap ch ?s2] => rewrite (H ch) end;
  rewrite ?reward_flow_no_shares;
  let c := fresh "c" in
  destruct ch as [c| |]; unfold flow; try amt_facts c; asset_facts; weigh_simpl; try lia.

Ltac conserve_close :=
  split; [subst; eauto 30 with wt|let ch := fresh "ch" in intros ch; gap_chain ch].

(** Computations assembled from steps that hold nothing. *)
Ltac weigh_eq := intros; inv_ok; first [reflexivity | weigh_simpl; try lia; done].
Ltac conserve_step :=
  match goal with
  | |- forall _, _ => intro
  | |- conserves (bind _ _) => apply conserves_bind
  | |- conserves (ret _) => apply conserves_ret
  | |- conserves (lift _) => apply conserves_lift
  | |- conserves (gets _) => apply conserves_gets
  | |- conserves (fc_assert _ _) => apply conserves_lift
  | |- conserves (throw _) => apply conserves_throw
  | |- conserves (load _) => apply conserves_load
  | |- conserves (when _ _) => apply conserves_when
  | |- conserves (for_each _ _) => apply conserves_for_each
  | |- conserves (fold_m _ _ _) => apply conserves_fold_m
  | |- conserves (modify_row _ _) => apply conserves_modify_row; [weigh_eq]
  | |- conserves (modify_res _ _) => apply conserves_modify_res; [weigh_eq]
  | |- conserves (create _) => apply conserves_create; [weigh_eq]
  | |- conserves (remove _) => apply conserves_remove; [weigh_eq]
  | |- conserves (match ?x with _ => _ end) => destruct x
  | |- conserves _ => apply conserves_lift
  | |- conserves _ => apply conserves_gets
  | |- conserves _ => apply conserves_get_by
  end.
Ltac conserve := repeat conserve_step.
