(* ===== verification/Frames.v ===== *)
(** * Computations and relations between states

    [respects R m]: whatever [m] does, the state after it is related to the
    state before by the preorder [R].  This is the shape of a frame property
    ([R] says that something stays) and of an invariant ([R] says that something
    true stays true).  The lemmas close it under the combinators the code is
    written with, and [respects] applies them; what remains are the rows of the
    tables that [R] looks at.  Heads.v and Sound.v instantiate [R]. *)
From S2P Require Import Prelude Ints Config Asset Authority State Store Ledger.

Definition respects (R : relation database) {A} (m : C A) : Prop :=
  ∀ s a s', m s = Ok (a, s') → R s s'.

(** A table that [R] does not look at. *)
Class Free (R : relation database) (A : Type) `{Table A} := free_tbl : ∀ t s, R s (set_tbl t s).

Section Respects.
Context (R : relation database) `{!PreOrder R}.

Lemma respects_bind {A B} (m : C A) (k : A → C B) :
  respects R m → (∀ a, respects R (k a)) → respects R (bind m k).
Proof.
  intros Hm Hk s b s' (a & s1 & H1 & H2)%bind_ok. etrans; [by eapply Hm|by eapply Hk].
Qed.
Lemma respects_ret {A} (a : A) : respects R (ret a).
Proof. intros s b s' H. by inv_ok. Qed.
Lemma respects_lift {A} (r : res A) : respects R (lift r).
Proof. intros s b s' H. by inv_ok. Qed.
Lemma respects_throw {A} e : respects R (throw (A := A) e).
Proof. intros s b s' H. by inv_ok. Qed.
Lemma respects_gets {A} (f : database → A) : respects R (gets f).
Proof. intros s b s' H. by inv_ok. Qed.
Lemma respects_get : respects R get.
Proof. intros s b s' H. by inv_ok. Qed.
Lemma respects_assert c msg : respects R (fc_assert c msg).
Proof. intros s b s' H. by inv_ok. Qed.
Lemma respects_when c m : respects R m → respects R (when c m).
Proof. intros Hm. destruct c; [done|apply respects_ret]. Qed.
Lemma respects_for_each {A} (l : list A) f : (∀ x, respects R (f x)) → respects R (for_each l f).
Proof.
  intros Hf. induction l; cbn; [apply respects_ret|]. by apply respects_bind.
Qed.
Lemma respects_fold_m {A B} (f : B → A → C B) b l :
  (∀ b x, respects R (f b x)) → respects R (fold_m f b l).
Proof.
  intros Hf. revert b. induction l; intros b; cbn; [apply respects_ret|]. by apply respects_bind.
Qed.
Lemma respects_modify (f : database → database) : (∀ s, R s (f s)) → respects R (modify f).
Proof. intros Hf s b s' H. inv_ok. apply Hf. Qed.
Lemma respects_modify_gpo f :
  (∀ s g', f (gpo s) = Ok g' → R s (s <| gpo := g' |>)) → respects R (modify_gpo f).
Proof.
  intros Hf s b s' H. unfold modify_gpo, get_dynamic_global_properties in H. inv_ok. by apply Hf.
Qed.

(** A computation whose continuation may use the fact that it succeeded. *)
Lemma respects_then {A B} (m : C A) (k : A → C B) s b s' :
  respects R m → bind m k s = Ok (b, s') → ∃ a s1, m s = Ok (a, s1) ∧ R s s1 ∧ k a s1 = Ok (b, s').
Proof. intros Hm (a & s1 & E1 & E2)%bind_ok. exists a, s1. split_and!; [done|by eapply Hm|done]. Qed.

(** *** Tables *)

Section Rows.
Context {A : Type} `{Table A}.
Implicit Types r : ref A.

Lemma respects_load r : respects R (load r).
Proof. intros s b s' Hr. unfold load in Hr. case_match; by inv_ok. Qed.
Lemma respects_find_by p : respects R (find_by (A := A) p).
Proof. apply respects_gets. Qed.
Lemma respects_get_by p : respects R (get_by (A := A) p).
Proof. apply respects_bind; [apply respects_gets|]. intros o. apply respects_lift. Qed.
Lemma respects_modify_with r f :
  (∀ o, respects R (f o)) →
  (∀ s o o' s1, row r s = Some o → f o s = Ok (o', s1) → R s1 (set_row r o' s1)) →
  respects R (modify_with r f).
Proof.
  intros Hf Hset s u s' Hm. unfold modify_with in Hm.
  apply bind_ok in Hm as (o & s1 & Ho & Hm). unfold load in Ho.
  destruct (row r s) as [o1|] eqn:Er; [|done]. injection Ho as <- <-.
  apply bind_ok in Hm as (o' & s2 & Ho' & Hm). inv_ok. case_match; inv_ok.
  etrans; [by eapply Hf|by eapply Hset].
Qed.
Lemma respects_modify_res r f :
  (∀ s o o', row r s = Some o → f o = Ok o' → R s (set_row r o' s)) → respects R (modify_res r f).
Proof.
  intros Hset. apply respects_modify_with; [intros; apply respects_lift|].
  intros s o o' s1 Hr Hf. inv_ok. by eapply Hset.
Qed.
Lemma respects_modify_row r f :
  (∀ s o, row r s = Some o → R s (set_row r (f o) s)) → respects R (modify_row r f).
Proof.
  intros Hset. apply respects_modify_with; [intros; apply respects_ret|].
  intros s o o' s1 Hr Hf. inv_ok. by eapply Hset.
Qed.
Lemma respects_create (o : A) :
  (∀ s r s', create o s = Ok (r, s') → R s (add_row o s)) → respects R (create o).
Proof.
  intros Hadd s r s' Hc. specialize (Hadd s r s' Hc). unfold create in Hc.
  case_match; [done|]. by injection Hc as _ <-.
Qed.
Lemma respects_remove r : (∀ s o, row r s = Some o → R s (delete_row r s)) → respects R (remove r).
Proof.
  intros Hdel s u s' Hr. unfold remove, load, bind in Hr.
  destruct (row r s) eqn:E; [|done]. inv_ok. by eapply Hdel.
Qed.
Lemma respects_drain key due (f : ref A → C unit) :
  (∀ r, respects R (f r)) → respects R (drain key due f).
Proof.
  intros Hf. apply respects_bind; [apply respects_gets|]. intros n. generalize (S n). clear n.
  intros n. induction n as [|n IH]; cbn; [apply respects_throw|].
  apply respects_bind; [apply respects_bind; [apply respects_gets|]; intros l; apply respects_ret|].
  intros [r|]; [|apply respects_ret]. apply respects_bind; [apply respects_load|]. intros o.
  case_match; [|apply respects_ret]. by apply respects_bind.
Qed.
End Rows.

(** *** Tables that do not matter *)

Section FreeRows.
Context {A : Type} `{Free R A}.
Implicit Types r : ref A.

Lemma free_modify_with r f : (∀ o, respects R (f o)) → respects R (modify_with r f).
Proof. intros Hf. apply respects_modify_with; [done|]. intros. apply free_tbl. Qed.
Lemma free_modify_res r f : respects R (modify_res r f).
Proof. apply respects_modify_res. intros. apply free_tbl. Qed.
Lemma free_modify_row r f : respects R (modify_row r f).
Proof. apply respects_modify_row. intros. apply free_tbl. Qed.
Lemma free_create (o : A) : respects R (create o).
Proof. apply respects_create. intros. apply free_tbl. Qed.
Lemma free_remove r : respects R (remove r).
Proof. apply respects_remove. intros. apply free_tbl. Qed.
End FreeRows.
End Respects.

(** ** Automation

    [respects] takes a computation apart.  Lemmas about whole functions are in
    the database [respects]; a function without a lemma is unfolded. *)
Create HintDb respects.

Ltac respects_unfold :=
  lazymatch goal with
  | |- respects ?R ?m => let m' := eval red in m in change (respects R m')
  end.
Ltac respects_step :=
  lazymatch goal with
  | |- forall _, _ => intro
  | |- respects _ (bind _ _) => apply respects_bind; [exact _|..]
  | |- respects _ (ret _) => apply respects_ret; exact _
  | |- respects _ (lift _) => apply respects_lift; exact _
  | |- respects _ (throw _) => apply respects_throw
  | |- respects _ (gets _) => apply respects_gets; exact _
  | |- respects _ get => apply respects_get; exact _
  | |- respects _ (fc_assert _ _) => apply respects_assert; exact _
  | |- respects _ (when _ _) => apply respects_when; [exact _|]
  | |- respects _ (for_each _ _) => apply respects_for_each; [exact _|]
  | |- respects _ (fold_m _ _ _) => apply respects_fold_m; [exact _|]
  | |- respects _ (load _) => apply respects_load; exact _
  | |- respects _ (find_by _) => apply respects_find_by; exact _
  | |- respects _ (get_by _) => apply respects_get_by; exact _
  | |- respects _ (drain _ _ _) => apply respects_drain; [exact _|]
  | |- respects _ (create _) => first [apply free_create; exact _ | solve [auto with respects nocore]]
  | |- respects _ (modify_with _ _) => first [apply free_modify_with; [exact _..|] | solve [auto with respects nocore]]
  | |- respects _ (modify_res _ _) => first [apply free_modify_res; exact _ | solve [auto with respects nocore]]
  | |- respects _ (modify_row _ _) => first [apply free_modify_row; exact _ | solve [auto with respects nocore]]
  | |- respects _ (remove _) => first [apply free_remove; exact _ | solve [auto with respects nocore]]
  | |- respects _ (modify _) =>
      first [solve [auto with respects nocore] | apply respects_modify; solve [auto with respects nocore]]
  | |- respects _ (modify_gpo _) =>
      first [solve [auto with respects nocore] | apply respects_modify_gpo; solve [auto with respects nocore]]
  | |- respects _ (match ?x with _ => _ end) => destruct x
  | |- respects _ (match ?x with _ => _ end _) => destruct x
  | |- respects _ (let _ := _ in _) => cbv zeta
  | |- respects _ _ => first [solve [auto with respects nocore] | respects_unfold]
  end.
Ltac respects := repeat respects_step.
