(* ===== verification/Rows.v ===== *)
(** * Invariants of the rows of a table

    [rows_step P]: if every row of a table satisfies [P] before, so it does after.
    The frame automation of Frames.v reduces a computation to the rows of that
    table it writes; [rows_leaf] proves the writes that do not touch the fields
    [P] reads. *)
From S2P Require Import Prelude Ints Config Asset Authority State Store Ledger Balances Vesting Conserve Frames.

Definition all_rows `{Table A} (P : A → Prop) (s : database) : Prop :=
  map_Forall (fun _ => P) (rows (tbl s)).
Definition rows_step `{Table A} (P : A → Prop) (s s' : database) : Prop := all_rows P s → all_rows P s'.
#[export] Instance rows_step_preorder `{Table A} (P : A → Prop) : PreOrder (rows_step P).
Proof. split; [intros s Hs; exact Hs|]. intros s1 s2 s3 H1 H2 H3. by apply H2, H1. Qed.

(** Nothing but rows of other tables. *)
Definition same_rows A `{Table A} (s s' : database) : Prop := tbl (A := A) s' = tbl s.
#[export] Instance same_rows_preorder `{Table A} : PreOrder (same_rows A).
Proof. split; [intros s; reflexivity|]. unfold same_rows. intros s1 s2 s3 H1 H2. congruence. Qed.

#[export] Hint Extern 0 (Free (rows_step _) _) => (let H := fresh in intros ? ? H; exact H) : typeclass_instances.
#[export] Hint Extern 0 (Free (same_rows _) _) => (intros ? ?; reflexivity) : typeclass_instances.
#[export] Hint Extern 1 (∀ s g', _ → rows_step _ s (s <| gpo := g' |>)) => (let H := fresh in intros ? ? _ H; exact H) : respects.
#[export] Hint Extern 1 (∀ s, rows_step _ s _) => (let H := fresh in intros ? H; exact H) : respects.
#[export] Hint Extern 1 (∀ s g', _ → same_rows _ s (s <| gpo := g' |>)) => (intros; reflexivity) : respects.
#[export] Hint Extern 1 (∀ s, same_rows _ s _) => (intros ?; reflexivity) : respects.

Section Rows.
Context {A : Type} `{Counted A} (P : A → Prop).
Implicit Types r : ref A.

Lemma all_rows_row s r o : all_rows P s → row r s = Some o → P o.
Proof. intros Hs Hr. exact (Hs _ _ Hr). Qed.
Lemma all_rows_set s r o : all_rows P s → P o → all_rows P (set_row r o s).
Proof.
  intros Hs Ho. unfold all_rows, set_row. rewrite tbl_set. by apply map_Forall_insert_2.
Qed.
Lemma rows_step_set s r o o' : row r s = Some o → (P o → P o') → rows_step P s (set_row r o' s).
Proof. intros Hr HP Hs. apply all_rows_set; [done|]. by eapply HP, all_rows_row. Qed.
Lemma rows_step_add s o : P o → rows_step P s (add_row o s).
Proof.
  intros Ho Hs. unfold all_rows, add_row. rewrite tbl_set. by apply map_Forall_insert_2.
Qed.
Lemma rows_step_delete s r : rows_step P s (delete_row r s).
Proof. intros Hs. unfold all_rows, delete_row. rewrite tbl_set. by apply map_Forall_delete. Qed.

Lemma rows_modify_row r f : (∀ o, P o → P (f o)) → respects (rows_step P) (modify_row r f).
Proof. intros Hf. apply respects_modify_row; [exact _|]. intros s o Hr. eapply rows_step_set; eauto. Qed.
Lemma rows_modify_res r f : (∀ o o', f o = Ok o' → P o → P o') → respects (rows_step P) (modify_res r f).
Proof. intros Hf. apply respects_modify_res; [exact _|]. intros s o o' Hr Ho. eapply rows_step_set; eauto. Qed.
(** The computation that makes the new row must leave the table alone. *)
Lemma rows_modify_with r f :
  (∀ o, respects (same_rows A) (f o)) → (∀ o s o' s', f o s = Ok (o', s') → P o → P o') →
  respects (rows_step P) (modify_with r f).
Proof.
  intros Hsame Hf s u s' Hm. apply modify_with_gap in Hm as (o & o' & s1 & Ho & Hr & -> & _).
  intros Hs. pose proof (Hsame _ _ _ _ Hr) as E. unfold same_rows in E.
  apply all_rows_set; [unfold all_rows; by rewrite E|]. eapply Hf; [exact Hr|]. by eapply all_rows_row.
Qed.
Lemma rows_create o : P o → respects (rows_step P) (create o).
Proof. intros Ho. apply respects_create. intros. by apply rows_step_add. Qed.
Lemma rows_remove r : respects (rows_step P) (remove r).
Proof. apply respects_remove. intros. apply rows_step_delete. Qed.
End Rows.

(** The new row agrees with the old one where the predicate looks. *)
Ltac rows_same := intros; repeat (case_match || inv_ok_step); assumption.
#[export] Hint Extern 2 (respects (rows_step _) (modify_row _ _)) =>
  (apply rows_modify_row; rows_same) : respects.
#[export] Hint Extern 2 (respects (rows_step _) (modify_res _ _)) =>
  (apply rows_modify_res; rows_same) : respects.
#[export] Hint Extern 2 (respects (rows_step _) (remove _)) => (apply rows_remove) : respects.
