(* ===== verification/Drain.v ===== *)
(** * Loops that empty the front of an index

    The periodic processing of database.cpp repeats: while the first row of an
    ordered index is due, process it, and look at the first row again.  This file
    shows that composite keys are totally ordered, that such a loop ends when
    each round takes its row out of the table, and that no due row is left. *)
From S2P Require Import Prelude Ints Config Asset Authority State Store Ledger Conserve.

(** ** The order of composite keys *)

Definition atom_le (a b : key_atom) : Prop := atom_compare a b ≠ Gt.

Lemma atom_compare_eq a b : atom_compare a b = Eq ↔ a = b.
Proof.
  destruct a as [x|x], b as [y|y]; cbn; try (split; [done|congruence]).
  - rewrite Z.compare_eq_iff. split; congruence.
  - split; [intros ->%String.compare_eq_iff; done|intros [= ->]].
    destruct (String.compare y y) eqn:E; [done|exfalso|exfalso];
      pose proof (String.compare_antisym y y) as Ha; rewrite E in Ha; done.
Qed.

Lemma atom_compare_antisym a b : atom_compare a b = CompOpp (atom_compare b a).
Proof.
  destruct a, b; cbn; try done; [apply Z.compare_antisym|apply String.compare_antisym].
Qed.

Lemma string_compare_le x y : String.compare x y ≠ Gt ↔ String.le x y.
Proof. unfold String.le, String.leb. destruct (String.compare x y); split; done. Qed.

Lemma atom_le_trans a b c : atom_le a b → atom_le b c → atom_le a c.
Proof.
  unfold atom_le. destruct a as [x|x], b as [y|y], c as [z|z]; cbn; try done.
  - rewrite !Z.compare_ngt_iff. lia.
  - rewrite !string_compare_le. apply transitivity.
Qed.

Lemma key_compare_eq a b : key_compare a b = Eq ↔ a = b.
Proof.
  revert b. induction a as [|x a IH]; intros [|y b]; cbn; try done.
  destruct (atom_compare x y) eqn:E.
  - apply atom_compare_eq in E as ->. rewrite IH. split; congruence.
  - split; [done|]. intros [= -> ->]. by rewrite (proj2 (atom_compare_eq y y)) in E.
  - split; [done|]. intros [= -> ->]. by rewrite (proj2 (atom_compare_eq y y)) in E.
Qed.

Lemma key_compare_antisym a b : key_compare a b = CompOpp (key_compare b a).
Proof.
  revert b. induction a as [|x a IH]; intros [|y b]; cbn; try done.
  rewrite atom_compare_antisym. destruct (atom_compare y x); cbn; auto.
Qed.

Lemma key_leb_cons x a y b :
  key_leb (x :: a) (y :: b) = true ↔ atom_le x y ∧ (x = y → key_leb a b = true).
Proof.
  unfold key_leb, atom_le; cbn. destruct (atom_compare x y) eqn:E.
  - apply atom_compare_eq in E as ->. split; [done|]. intros [_ H]. by apply H.
  - split; [|done]. intros _. split; [done|]. intros ->.
    by rewrite (proj2 (atom_compare_eq y y)) in E.
  - split; [done|]. by intros [? _].
Qed.

Lemma key_leb_trans a b c : key_leb a b = true → key_leb b c = true → key_leb a c = true.
Proof.
  revert b c. induction a as [|x a IH]; intros [|y b] [|z c]; try done.
  rewrite !key_leb_cons. intros [H1 H1'] [H2 H2']. split; [by eapply atom_le_trans|].
  intros ->. assert (z = y) as ->; [|eauto].
  apply atom_compare_eq. unfold atom_le in *. rewrite atom_compare_antisym in H1.
  destruct (atom_compare z y) eqn:E; [done|..]; rewrite atom_compare_antisym in H2;
    rewrite ?E in *; cbn in *; try done.
  all: destruct (atom_compare y z) eqn:E'; rewrite atom_compare_antisym, E' in E; cbn in *; done.
Qed.

Lemma key_leb_total a b : key_leb a b = true ∨ key_leb b a = true.
Proof.
  unfold key_leb. rewrite key_compare_antisym. destruct (key_compare b a); cbn; auto.
Qed.

Section Index.
Context {A : Type} (key : A → list key_atom).

#[local] Instance index_leb_trans : Transitive (index_leb key).
Proof.
  intros x y z Hx Hy. apply Is_true_eq_left. apply Is_true_eq_true in Hx, Hy.
  by eapply key_leb_trans.
Qed.
#[local] Instance index_leb_total : Total (index_leb key).
Proof.
  intros x y. destruct (key_leb_total (key x.2 ++ [KZ x.1]) (key y.2 ++ [KZ y.1])) as [H|H];
    [left|right]; by apply Is_true_eq_left.
Qed.

Lemma index_rows_sorted `{Table A} s : StronglySorted (index_leb key) (index_rows key s).
Proof. unfold index_rows. apply StronglySorted_merge_sort; apply _. Qed.

Lemma index_rows_spec `{Table A} s i o :
  (i, o) ∈ index_rows key s ↔ rows (tbl s) !! i = Some o.
Proof. unfold index_rows. rewrite merge_sort_Permutation. apply elem_of_map_to_list. Qed.

(** [begin()] is the least row, or the table is empty. *)
Lemma index_begin_spec `{Table A} s r s' :
  index_begin key s = Ok (r, s') →
  s' = s ∧
  match r with
  | None => rows (tbl s) = ∅
  | Some r => ∃ o, row r s = Some o ∧
      ∀ i p, rows (tbl s) !! i = Some p → index_leb key (ref_id r, o) (i, p) = true
  end.
Proof.
  unfold index_begin, index. intros Hr. inv_ok. split; [done|].
  pose proof (index_rows_sorted s) as Hs. pose proof (index_rows_spec s) as Hin.
  destruct (index_rows key s) as [|[i o] l]; cbn.
  - apply map_eq. intros i. rewrite lookup_empty. apply eq_None_not_Some. intros [p Hp].
    apply Hin in Hp. by apply not_elem_of_nil in Hp.
  - exists o. split; [apply Hin; by left|]. intros j p Hp. apply Hin in Hp.
    apply elem_of_cons in Hp as [[= -> ->]|Hp].
    + destruct (key_leb_total (key o ++ [KZ i]) (key o ++ [KZ i])); done.
    + inversion Hs as [|? ? _ Hall]; subst. rewrite Forall_forall in Hall.
      apply list_elem_of_In in Hp.
      apply Is_true_eq_true, (Hall (j, p) Hp).
Qed.

End Index.

(** ** The loop *)

Section Drain.
Context {A : Type} `{Counted A}.
Context (key : A → list key_atom) (due : A → bool) (f : ref A → C unit).

(** Rows before a due row are due: the guard only reads the leading part of the
    key. *)
Definition due_first : Prop :=
  ∀ x y : Z * A, index_leb key x y = true → due y.2 = true → due x.2 = true.

(** A round takes its row out of the table and puts none in. *)
Definition takes_out : Prop :=
  ∀ r o s u s', row r s = Some o → due o = true → f r s = Ok (u, s') →
    rows (tbl s') ⊆ delete (ref_id r) (rows (tbl s)).

Definition none_due (s : database) : Prop :=
  map_Forall (fun _ o => due o = false) (rows (tbl s)).

Lemma drain_fuel_pres (I : database → Prop) n s u s' :
  (∀ r o s u s', row r s = Some o → due o = true → I s → f r s = Ok (u, s') → I s') →
  I s → drain_fuel n key due f s = Ok (u, s') → I s'.
Proof.
  intros Hf. revert s. induction n as [|n IH]; intros s Hs Hd; cbn in Hd; [done|].
  inv_ok. match goal with E : index_begin _ _ = _ |- _ => apply index_begin_spec in E as [-> _] end.
  destruct x as [r|]; inv_ok; [|done].
  match goal with E : load _ _ = _ |- _ => apply load_ok in E as [Hr ->] end.
  case_match; inv_ok; [|done]. eapply IH; [|done]. by eapply Hf.
Qed.

Lemma drain_pres (I : database → Prop) s u s' :
  (∀ r o s u s', row r s = Some o → due o = true → I s → f r s = Ok (u, s') → I s') →
  I s → drain key due f s = Ok (u, s') → I s'.
Proof. unfold drain, table_size. intros Hf Hs Hd. inv_ok. by eapply drain_fuel_pres. Qed.

Lemma drain_fuel_complete n s u s' :
  due_first → drain_fuel n key due f s = Ok (u, s') → none_due s'.
Proof.
  intros Hfirst. revert s. induction n as [|n IH]; intros s Hd; cbn in Hd; [done|].
  inv_ok. match goal with E : index_begin _ _ = _ |- _ => apply index_begin_spec in E as [-> Hb] end.
  destruct x as [r|]; inv_ok.
  2:{ unfold none_due. rewrite Hb. apply map_Forall_empty. }
  match goal with E : load _ _ = _ |- _ => apply load_ok in E as [Hr ->] end.
  destruct (due x) eqn:Hdue; inv_ok; [by eapply IH|].
  destruct Hb as (o & Ho & Hb). assert (o = x) as -> by congruence.
  intros i p Hp. apply not_true_iff_false. intros Hp'.
  pose proof (Hfirst _ _ (Hb i p Hp) Hp'). cbn in *. congruence.
Qed.

(** After the loop no row is due. *)
Lemma drain_complete s u s' :
  due_first → drain key due f s = Ok (u, s') → none_due s'.
Proof. unfold drain, table_size. intros Hfirst Hd. inv_ok. by eapply drain_fuel_complete. Qed.

Lemma drain_fuel_terminates n s :
  takes_out → (∀ r s, f r s ≠ Throw out_of_fuel) →
  (size (rows (tbl s)) < n)%nat → drain_fuel n key due f s ≠ Throw out_of_fuel.
Proof.
  intros Hout Hf. revert s. induction n as [|n IH]; intros s Hn; [lia|]. cbn.
  unfold bind at 1. destruct (index_begin key s) as [[[r|] s1]|e] eqn:Hb.
  - apply index_begin_spec in Hb as [-> (o & Ho & _)]. unfold bind at 1, load. rewrite Ho.
    destruct (due o) eqn:Hdue; [|done]. unfold bind.
    destruct (f r s) as [[[] s2]|e] eqn:E; [|intros [= ->]; by apply (Hf r s)].
    apply IH. pose proof (Hout _ _ _ _ _ Ho Hdue E) as Hsub.
    apply map_subseteq_size in Hsub. rewrite map_size_delete_Some in Hsub by (by exists o).
    assert (size (rows (tbl s)) ≠ 0)%nat; [|lia].
    intros Hz%map_size_empty_inv. unfold row in Ho. rewrite Hz in Ho. done.
  - done.
  - unfold index_begin, index, bind, gets, ret in Hb. done.
Qed.

(** The fuel, one more than the number of rows, is enough. *)
Lemma drain_terminates s :
  takes_out → (∀ r s, f r s ≠ Throw out_of_fuel) → drain key due f s ≠ Throw out_of_fuel.
Proof.
  intros Hout Hf. unfold drain, table_size, bind, gets.
  apply drain_fuel_terminates; [done|done|]. lia.
Qed.

End Drain.
