(* ===== verification/EvalFunds.v ===== *)
(** * Evaluators that move funds

    The [do_apply] functions of zattera_evaluator.cpp for transfers, escrows,
    savings, vesting, conversions, delegations and reward claims. *)
From S2P Require Import Prelude Ints Config Asset Authority Operations State Store Ledger Balances Vesting Conserve.

(** [_db.get_balance( name, symbol ) >= amount]. *)
Definition has_balance (bal : account_object → asset_symbol_type → res asset)
    (a : ref account_object) (x : asset) (msg : string) : C unit :=
  let* o := load a in
  let! b := bal o (symbol x) in
  let! c := asset_ge b x in
  fc_assert c msg.

(** [_db.adjust_balance( a, -x )] *)
Definition debit (a : ref account_object) (x : asset) : C unit :=
  let! n := asset_neg x in adjust_balance a n.

Definition assert_ge (a b : asset) (msg : string) : C unit :=
  let! c := asset_ge a b in fc_assert c msg.

(** ** Transfers *)

Definition transfer_do_apply (from to : account_name_type) (x : asset) : C unit :=
  let* f := get_account from in
  has_balance get_balance f x "Account does not have sufficient funds for transfer." ;;
  let! n := asset_neg x in
  adjust_balance_name from n ;;
  adjust_balance_name to x.

Definition transfer_to_vesting_do_apply (from to : account_name_type) (x : asset) : C unit :=
  let* from_account := get_account from in
  let* to_account := if strlen to =? 0 then ret from_account else get_account to in
  has_balance get_balance from_account x "Account does not have sufficient liquid amount for transfer." ;;
  debit from_account x ;;
  create_vesting to_account x false ;;
  ret tt.

(** ** Vesting withdrawals *)

Definition withdraw_vesting_do_apply (account : account_name_type) (shares : asset) : C unit :=
  let* a := get_account account in
  let* ao := load a in
  fc_assert (negb (amount shares <? 0)) "Cannot withdraw negative VESTS." ;;
  assert_ge (acc_vesting_share_balance ao) (mk_asset 0 VESTS_SYMBOL)
    "Account does not have sufficient Zattera Power for withdraw." ;;
  let! own := asset_sub (acc_vesting_share_balance ao) (acc_delegated_vesting_share_balance ao) in
  assert_ge own shares "Account does not have sufficient Zattera Power for withdraw." ;;
  if amount shares =? 0 then
    fc_assert (negb (amount (acc_vesting_withdraw_rate ao) =? 0))
      "This operation would not change the vesting withdraw rate." ;;
    modify_row a (fun a => a <| acc_vesting_withdraw_rate := mk_asset 0 VESTS_SYMBOL |>
      <| acc_next_vesting_withdrawal := time_maximum |> <| acc_to_withdraw := 0 |> <| acc_withdrawn := 0 |>)
  else
    let* now := head_block_time in
    modify_res a (fun a =>
      let? q := safe.div (amount shares) ZATTERA_VESTING_WITHDRAW_INTERVALS in
      let new_rate := mk_asset (if q =? 0 then 1 else q) VESTS_SYMBOL in
      let? changed := asset_ne (acc_vesting_withdraw_rate a) new_rate in
      let? _ := res_assert changed
        "This operation would not change the vesting withdraw rate." in
      Ok (a <| acc_vesting_withdraw_rate := new_rate |>
            <| acc_next_vesting_withdrawal := wrap_u32 (now + ZATTERA_VESTING_WITHDRAW_INTERVAL_SECONDS) |>
            <| acc_to_withdraw := amount shares |> <| acc_withdrawn := 0 |>)).

Definition routes_of (name : account_name_type) : C (list (ref withdraw_vesting_route_object)) :=
  index_where (fun r => [KS (wvr_from_account r); KS (wvr_to_account r)])
    (fun r => bool_decide (wvr_from_account r = name)).

Definition set_withdraw_vesting_route_do_apply (from to : account_name_type) (percent : Z) (auto_vest : bool) : C unit :=
  let* f := get_account from in
  let* t := get_account to in
  let* fo := load f in
  let* t_o := load t in
  let* itr := find_by (fun r => bool_decide (wvr_from_account r = acc_name fo ∧ wvr_to_account r = acc_name t_o)) in
  match itr with
  | None =>
      fc_assert (negb (percent =? 0)) "Cannot create a 0% destination." ;;
      fc_assert (acc_withdraw_routes fo <? ZATTERA_MAX_WITHDRAW_ROUTES)
        "Account already has the maximum number of routes." ;;
      create (mk_withdraw_vesting_route_object (acc_name fo) (acc_name t_o) percent auto_vest) ;;
      modify_row f (fun a => a <| acc_withdraw_routes ::= fun n => wrap_u16 (n + 1) |>)
  | Some r =>
      if percent =? 0 then
        remove r ;;
        modify_row f (fun a => a <| acc_withdraw_routes ::= fun n => wrap_u16 (n - 1) |>)
      else
        modify_row r (fun _ => mk_withdraw_vesting_route_object (acc_name fo) (acc_name t_o) percent auto_vest)
  end ;;
  let* routes := routes_of (acc_name fo) in
  let* total_percent := fold_m (fun total r =>
    let* ro := load r in ret (wrap_u16 (total + wvr_percent ro))) 0 routes in
  fc_assert (total_percent <=? ZATTERA_100_PERCENT)
    "More than 100% of vesting withdrawals allocated to destinations.".

(** ** Escrows *)

Definition escrow_transfer_do_apply (from to agent : account_name_type) (escrow_id : Z)
    (dollar_amount liquid_amount fee : asset) (ratification_deadline escrow_expiration : time) : C unit :=
  let* from_account := get_account from in
  let* _ := get_account to in
  let* _ := get_account agent in
  let* now := head_block_time in
  fc_assert (ratification_deadline >? now) "The escorw ratification deadline must be after head block time." ;;
  fc_assert (escrow_expiration >? now) "The escrow expiration must be after head block time." ;;
  let! liquid_spent := if symbol fee =? LIQUID_SYMBOL then asset_add liquid_amount fee else Ok liquid_amount in
  let! dollars_spent := if symbol fee =? LIQUID_SYMBOL then Ok dollar_amount else asset_add dollar_amount fee in
  let* fo := load from_account in
  assert_ge (acc_liquid_balance fo) liquid_spent "Account cannot cover ZTR costs of escrow." ;;
  assert_ge (acc_dollar_balance fo) dollars_spent "Account cannot cover ZBD costs of escrow." ;;
  debit from_account liquid_spent ;;
  debit from_account dollars_spent ;;
  create (mk_escrow_object escrow_id from to agent ratification_deadline escrow_expiration
            dollar_amount liquid_amount fee false false false) ;;
  ret tt.

Definition escrow_approve_do_apply (from to agent who : account_name_type) (escrow_id : Z) (approve : bool) : C unit :=
  let* escrow := get_escrow from escrow_id in
  let* e := load escrow in
  fc_assert (bool_decide (esc_to e = to)) "Operation 'to' does not match escrow 'to'." ;;
  fc_assert (bool_decide (esc_agent e = agent)) "Operation 'agent' does not match escrow 'agent'." ;;
  let* now := head_block_time in
  fc_assert (esc_ratification_deadline e >=? now) "The escrow ratification deadline has passed." ;;
  let reject_escrow := negb approve in
  when (bool_decide (who = to))
    (fc_assert (negb (esc_to_approved e)) "Account 'to' has already approved the escrow." ;;
     when (negb reject_escrow) (modify_row escrow (fun e => e <| esc_to_approved := true |>))) ;;
  let* e := load escrow in
  when (bool_decide (who = agent))
    (fc_assert (negb (esc_agent_approved e)) "Account 'agent' has already approved the escrow." ;;
     when (negb reject_escrow) (modify_row escrow (fun e => e <| esc_agent_approved := true |>))) ;;
  let* e := load escrow in
  if reject_escrow then
    adjust_balance_name from (esc_liquid_balance e) ;;
    adjust_balance_name from (esc_dollar_balance e) ;;
    adjust_balance_name from (esc_pending_fee e) ;;
    remove escrow
  else when (esc_to_approved e && esc_agent_approved e)
    (adjust_balance_name agent (esc_pending_fee e) ;;
     modify_row escrow (fun e => e <| esc_pending_fee ::= set_amount 0 |>)).

Definition escrow_dispute_do_apply (from to agent who : account_name_type) (escrow_id : Z) : C unit :=
  let* _ := get_account from in
  let* er := get_escrow from escrow_id in
  let* e := load er in
  let* now := head_block_time in
  fc_assert (now <? esc_escrow_expiration e) "Disputing the escrow must happen before expiration." ;;
  fc_assert (esc_to_approved e && esc_agent_approved e)
    "The escrow must be approved by all parties before a dispute can be raised." ;;
  fc_assert (negb (esc_disputed e)) "The escrow is already under dispute." ;;
  fc_assert (bool_decide (esc_to e = to)) "Operation 'to' does not match escrow 'to'." ;;
  fc_assert (bool_decide (esc_agent e = agent)) "Operation 'agent' does not match escrow 'agent'." ;;
  modify_row er (fun e => e <| esc_disputed := true |>).

(** Who may release funds to whom. *)
Definition may_release (e : escrow_object) (now : time) (who receiver : account_name_type) : C unit :=
  if esc_disputed e then
    fc_assert (bool_decide (who = esc_agent e)) "Only 'agent' can release funds in a disputed escrow."
  else
    fc_assert (bool_decide (who = esc_from e ∨ who = esc_to e))
      "Only 'from' and 'to' can release funds from a non-disputed escrow" ;;
    when (esc_escrow_expiration e >? now)
      (if bool_decide (who = esc_from e) then
         fc_assert (bool_decide (receiver = esc_to e)) "Only 'from' can release funds to 'to'."
       else when (bool_decide (who = esc_to e))
         (fc_assert (bool_decide (receiver = esc_from e)) "Only 'to' can release funds to 'from'.")).

Definition escrow_release_do_apply (from to agent who receiver : account_name_type) (escrow_id : Z)
    (dollar_amount liquid_amount : asset) : C unit :=
  let* _ := get_account from in
  let* er := get_escrow from escrow_id in
  let* e := load er in
  assert_ge (esc_liquid_balance e) liquid_amount "Release amount exceeds escrow balance." ;;
  assert_ge (esc_dollar_balance e) dollar_amount "Release amount exceeds escrow balance." ;;
  fc_assert (bool_decide (esc_to e = to)) "Operation 'to' does not match escrow 'to'." ;;
  fc_assert (bool_decide (esc_agent e = agent)) "Operation 'agent' does not match escrow 'agent'." ;;
  fc_assert (bool_decide (receiver = esc_from e ∨ receiver = esc_to e)) "Funds must be released to 'from' or 'to'" ;;
  fc_assert (esc_to_approved e && esc_agent_approved e) "Funds cannot be released prior to escrow approval." ;;
  let* now := head_block_time in
  may_release e now who receiver ;;
  adjust_balance_name receiver liquid_amount ;;
  adjust_balance_name receiver dollar_amount ;;
  modify_res er (fun e =>
    let? l := asset_sub (esc_liquid_balance e) liquid_amount in
    let? d := asset_sub (esc_dollar_balance e) dollar_amount in
    Ok (e <| esc_liquid_balance := l |> <| esc_dollar_balance := d |>)) ;;
  let* e := load er in
  when ((amount (esc_liquid_balance e) =? 0) && (amount (esc_dollar_balance e) =? 0)) (remove er).

(** ** Conversions and savings *)

Definition convert_do_apply (owner : account_name_type) (requestid : Z) (x : asset) : C unit :=
  let* a := get_account owner in
  has_balance get_balance a x "Account does not have sufficient balance for conversion." ;;
  let! n := asset_neg x in
  adjust_balance_name owner n ;;
  let* fh := get_feed_history in
  fc_assert (negb (is_null (fho_current_median_history fh))) "Cannot convert ZBD because there is no price feed." ;;
  let* now := head_block_time in
  create (mk_convert_request_object owner requestid x (wrap_u32 (now + ZATTERA_CONVERSION_DELAY))) ;;
  ret tt.

Definition transfer_to_savings_do_apply (from to : account_name_type) (x : asset) : C unit :=
  let* f := get_account from in
  let* t := get_account to in
  has_balance get_balance f x "Account does not have sufficient funds to transfer to savings." ;;
  debit f x ;;
  adjust_savings_liquid_balance t x.

Definition transfer_from_savings_do_apply (from : account_name_type) (request_id : Z)
    (to : account_name_type) (x : asset) (memo : string) : C unit :=
  let* f := get_account from in
  let* _ := get_account to in
  let* fo := load f in
  fc_assert (acc_savings_withdraw_requests fo <? ZATTERA_SAVINGS_WITHDRAW_REQUEST_LIMIT)
    "Account has reached limit for pending withdraw requests." ;;
  has_balance get_savings_liquid_balance f x "get_savings_liquid_balance >= amount" ;;
  let! n := asset_neg x in
  adjust_savings_liquid_balance f n ;;
  let* now := head_block_time in
  create (mk_savings_withdraw_object from to memo request_id x (wrap_u32 (now + ZATTERA_SAVINGS_WITHDRAW_TIME))) ;;
  modify_row f (fun a => a <| acc_savings_withdraw_requests ::= fun n => wrap_u8 (n + 1) |>).

Definition cancel_transfer_from_savings_do_apply (from : account_name_type) (request_id : Z) : C unit :=
  let* swo := get_savings_withdraw from request_id in
  let* w := load swo in
  let* a := get_account (swo_from w) in
  adjust_savings_liquid_balance a (swo_amount w) ;;
  remove swo ;;
  let* f := get_account from in
  modify_row f (fun a => a <| acc_savings_withdraw_requests ::= fun n => wrap_u8 (n - 1) |>).

(** ** Rewards *)

(** The ZTR that backs the claimed share of the pending vesting reward. *)
Definition reward_vesting_liquid_to_move (a : account_object) (reward_vests : asset) : res asset :=
  if asset_eqb reward_vests (acc_reward_vesting_share_balance a) then Ok (acc_reward_vesting_liquid_balance a)
  else
    let? q := u128_div (u128_mul (wrap_u128 (amount reward_vests))
                         (wrap_u128 (amount (acc_reward_vesting_liquid_balance a))))
                (wrap_u128 (amount (acc_reward_vesting_share_balance a))) in
    let? v := u128_to_uint64 q in
    Ok (mk_asset (wrap_i64 v) LIQUID_SYMBOL).

Definition assert_le (a b : asset) (msg : string) : C unit :=
  let! c := asset_le a b in fc_assert c msg.

Definition claim_reward_balance_do_apply (account : account_name_type)
    (reward_liquids reward_dollars reward_vests : asset) : C unit :=
  let* acnt := get_account account in
  let* ao := load acnt in
  assert_le reward_liquids (acc_reward_liquid_balance ao) "Cannot claim that much ZTR." ;;
  assert_le reward_dollars (acc_reward_dollar_balance ao) "Cannot claim that much ZBD." ;;
  assert_le reward_vests (acc_reward_vesting_share_balance ao) "Cannot claim that much VESTS." ;;
  let! to_move := reward_vesting_liquid_to_move ao reward_vests in
  let! nl := asset_neg reward_liquids in
  adjust_reward_balance acnt nl no_shares ;;
  let! nd := asset_neg reward_dollars in
  adjust_reward_balance acnt nd no_shares ;;
  adjust_balance acnt reward_liquids ;;
  adjust_balance acnt reward_dollars ;;
  modify_res acnt (fun a =>
    let? v := asset_add (acc_vesting_share_balance a) reward_vests in
    let? rv := asset_sub (acc_reward_vesting_share_balance a) reward_vests in
    let? rl := asset_sub (acc_reward_vesting_liquid_balance a) to_move in
    Ok (a <| acc_vesting_share_balance := v |> <| acc_reward_vesting_share_balance := rv |>
          <| acc_reward_vesting_liquid_balance := rl |>)) ;;
  modify_gpo (fun g =>
    let? v := asset_add (gpo_total_vesting_shares g) reward_vests in
    let? f := asset_add (gpo_total_vesting_fund_liquid g) to_move in
    let? pv := asset_sub (gpo_pending_rewarded_vesting_shares g) reward_vests in
    let? pl := asset_sub (gpo_pending_rewarded_vesting_liquid g) to_move in
    Ok (g <| gpo_total_vesting_shares := v |> <| gpo_total_vesting_fund_liquid := f |>
          <| gpo_pending_rewarded_vesting_shares := pv |> <| gpo_pending_rewarded_vesting_liquid := pl |>)) ;;
  adjust_proxied_witness_votes acnt (amount reward_vests).

(** ** Delegations *)

(** Vesting shares that are neither delegated nor being withdrawn. *)
Definition available_vesting (a : account_object) : res asset :=
  let? own := asset_sub (acc_vesting_share_balance a) (acc_delegated_vesting_share_balance a) in
  let? w := safe.sub (acc_to_withdraw a) (acc_withdrawn a) in
  asset_sub own (mk_asset w VESTS_SYMBOL).

Definition delegate_vesting_shares_do_apply (delegator delegatee : account_name_type) (shares : asset) : C unit :=
  let* dr := get_account delegator in
  let* de := get_account delegatee in
  let* delegation := find_by (fun d => bool_decide (vdo_delegator d = delegator ∧ vdo_delegatee d = delegatee)) in
  let* dro := load dr in
  let! available_shares := available_vesting dro in
  let* wso := get_witness_schedule_object in
  let* g := get_dynamic_global_properties in
  let fee := amount (cp_account_creation_fee (wso_median_props wso)) in
  let! p := get_vesting_share_price g in
  let! md := safe.div fee 3 in
  let! min_delegation := asset_mul_price (mk_asset md LIQUID_SYMBOL) p in
  let! mu := safe.div fee 30 in
  let! min_update := asset_mul_price (mk_asset mu LIQUID_SYMBOL) p in
  match delegation with
  | None =>
      assert_ge available_shares shares "Account does not have enough vesting shares to delegate." ;;
      assert_ge shares min_delegation "Account must delegate a minimum" ;;
      let* now := head_block_time in
      create (mk_vesting_delegation_object delegator delegatee shares now) ;;
      modify_res dr (fun a => let? x := asset_add (acc_delegated_vesting_share_balance a) shares in
        Ok (a <| acc_delegated_vesting_share_balance := x |>)) ;;
      modify_res de (fun a => let? x := asset_add (acc_received_vesting_share_balance a) shares in
        Ok (a <| acc_received_vesting_share_balance := x |>))
  | Some d =>
      let* dobj := load d in
      let! increasing := asset_ge shares (vdo_vesting_shares dobj) in
      if increasing then
        let! delta := asset_sub shares (vdo_vesting_shares dobj) in
        assert_ge delta min_update "Zattera Power increase is not enough of a difference." ;;
        assert_ge available_shares delta "Account does not have enough vesting shares to delegate." ;;
        modify_res dr (fun a => let? x := asset_add (acc_delegated_vesting_share_balance a) delta in
          Ok (a <| acc_delegated_vesting_share_balance := x |>)) ;;
        modify_res de (fun a => let? x := asset_add (acc_received_vesting_share_balance a) delta in
          Ok (a <| acc_received_vesting_share_balance := x |>)) ;;
        modify_row d (fun v => v <| vdo_vesting_shares := shares |>)
      else
        let! delta := asset_sub (vdo_vesting_shares dobj) shares in
        (if amount shares >? 0 then
           assert_ge delta min_update "Zattera Power decrease is not enough of a difference." ;;
           assert_ge shares min_delegation "Delegation must be removed or leave minimum delegation amount"
         else
           fc_assert (amount (vdo_vesting_shares dobj) >? 0)
             "Delegation would set vesting_shares to zero, but it is already zero") ;;
        let* now := head_block_time in
        create (mk_vesting_delegation_expiration_object delegator delta
          (Z.max (wrap_u32 (now + gpo_delegation_return_period g)) (vdo_min_delegation_time dobj))) ;;
        modify_res de (fun a => let? x := asset_sub (acc_received_vesting_share_balance a) delta in
          Ok (a <| acc_received_vesting_share_balance := x |>)) ;;
        if amount shares >? 0 then modify_row d (fun v => v <| vdo_vesting_shares := shares |>)
        else remove d
  end.

(** ** Conservation *)

Lemma has_balance_ok bal a x msg s u s' : has_balance bal a x msg s = Ok (u, s') → 
  s' = s ∧ ∃ o b, row a s = Some o ∧ bal o (symbol x) = Ok b ∧ amount x ≤ amount b.
Proof.
  unfold has_balance. intros H. inv_store. split; [done|].
  match goal with H : asset_ge _ _ = Ok _ |- _ => apply asset_cmp_ok in H as [_ H] end.
  subst. bool_prop. eauto 10 with lia.
Qed.
Lemma get_balance_symbol a sym b : get_balance a sym = Ok b → sym ≠ VESTS_SYMBOL.
Proof. intros H ->. discriminate. Qed.
Lemma get_savings_symbol a sym b : get_savings_liquid_balance a sym = Ok b → sym ≠ VESTS_SYMBOL.
Proof. intros H ->. discriminate. Qed.

Lemma debit_effect a x s u s' : symbol x ≠ VESTS_SYMBOL → debit a x s = Ok (u, s') →
  bal_frame s s' ∧ ∀ ch, gap ch s' = gap ch s - flow ch x.
Proof.
  unfold debit. intros Hne H. inv_ok. effects. split; [done|]. intros ch. gap_chain ch.
Qed.

Lemma amt_set_amount c a : amt c (set_amount 0 a) = 0.
Proof. unfold amt, set_amount. cbn. by case_match. Qed.

(** A branch of the code. *)
Ltac case_run :=
  match goal with
  | H : (if ?b then _ else _) _ = Ok _ |- _ => let E := fresh "E" in destruct b eqn:E; cbv iota in H
  end.
Ltac funds :=
  repeat match goal with
  | H : has_balance get_balance _ _ _ _ = Ok _ |- _ =>
      apply has_balance_ok in H as [? (? & ? & ? & ?%get_balance_symbol & ?)]; subst
  | H : has_balance get_savings_liquid_balance _ _ _ _ = Ok _ |- _ =>
      apply has_balance_ok in H as [? (? & ? & ? & ?%get_savings_symbol & ?)]; subst
  | H : debit _ _ _ = Ok _ |- _ => apply debit_effect in H as [? ?]; [|solve_sym]
  | H : assert_ge _ _ _ _ = Ok _ |- _ => unfold assert_ge in H
  | H : assert_le _ _ _ _ = Ok _ |- _ => unfold assert_le in H
  | _ => effect_step
  end.

Lemma transfer_conserves from to x : conserves (transfer_do_apply from to x).
Proof. intros s u s' Hwt H. unfold transfer_do_apply in H. funds. conserve_close. Qed.
Lemma transfer_to_savings_conserves from to x : conserves (transfer_to_savings_do_apply from to x).
Proof. intros s u s' Hwt H. unfold transfer_to_savings_do_apply in H. funds. conserve_close. Qed.
Lemma transfer_from_savings_conserves from rid to x memo :
  conserves (transfer_from_savings_do_apply from rid to x memo).
Proof.
  intros s u s' Hwt H. unfold transfer_from_savings_do_apply in H. funds.
  split; [subst; apply wt_row, wt_add_savings; [done|eauto 30 with wt]|]. intros ch. gap_chain ch.
Qed.
Lemma convert_conserves owner rid x : conserves (convert_do_apply owner rid x).
Proof. intros s u s' Hwt H. unfold convert_do_apply in H. funds. conserve_close. Qed.

(** [create_vesting] brings the given ZTR into the books. *)
Lemma create_vesting_wt a x s v s' : well_typed s → create_vesting a x false s = Ok (v, s') →
  bal_frame s s' ∧ ∀ ch, gap ch s' = gap ch s + flow ch x.
Proof. intros (Hv & _) H. by apply create_vesting_effect in H as [[? ?] _]. Qed.

Lemma transfer_to_vesting_conserves from to x : conserves (transfer_to_vesting_do_apply from to x).
Proof.
  intros s u s' Hwt H. unfold transfer_to_vesting_do_apply in H.
  destruct (strlen to =? 0); funds;
    match goal with H : create_vesting _ _ _ _ = _ |- _ =>
      apply create_vesting_wt in H as [? ?]; [|subst; eauto 30 with wt] end; conserve_close.
Qed.

Lemma withdraw_vesting_conserves account x : conserves (withdraw_vesting_do_apply account x).
Proof. unfold withdraw_vesting_do_apply, assert_ge. conserve. Qed.
Lemma set_withdraw_vesting_route_conserves from to p av :
  conserves (set_withdraw_vesting_route_do_apply from to p av).
Proof. unfold set_withdraw_vesting_route_do_apply. conserve. Qed.
Lemma delegate_vesting_shares_conserves d e x : conserves (delegate_vesting_shares_do_apply d e x).
Proof. unfold delegate_vesting_shares_do_apply, assert_ge. conserve. Qed.

Lemma cancel_transfer_from_savings_conserves from rid :
  conserves (cancel_transfer_from_savings_do_apply from rid).
Proof.
  intros s u s' Hwt H. unfold cancel_transfer_from_savings_do_apply in H. funds. frame_rows.
  conserve_close.
Qed.

Lemma escrow_transfer_conserves from to agent id d l fee rd ex :
  symbol d = DOLLAR_SYMBOL → symbol l = LIQUID_SYMBOL →
  conserves (escrow_transfer_do_apply from to agent id d l fee rd ex).
Proof.
  intros Hd Hl s u s' Hwt H. unfold escrow_transfer_do_apply in H.
  destruct (symbol fee =? LIQUID_SYMBOL) eqn:Ef; bool_prop; inv_ok.
  all: repeat match goal with H : asset_add _ _ = Ok _ |- _ => pose proof (asset_add_ok _ _ _ H) as (? & ? & _); revert H end; intros.
  all: funds; split; [subst; apply wt_add_escrow; [split_and!; cbn; solve_sym|eauto 30 with wt]|].
  all: intros ch; gap_chain ch.
Qed.

Lemma escrow_approve_conserves from to agent who id ap :
  conserves (escrow_approve_do_apply from to agent who id ap).
Proof.
  intros s u s' Hwt H. unfold escrow_approve_do_apply in H.
  apply bind_ok in H as (escrow & s1 & [-> _]%get_by_ok & H).
  apply bind_ok in H as (e & s1 & [He ->]%load_ok & H).
  destruct (wt_escrow _ _ _ Hwt He) as (? & ? & ? & ?).
  destruct ap, (bool_decide (who = to)), (bool_decide (who = agent)); unfold when in H; cbn [negb] in H;
    inv_store; repeat (effects; frame_rows; subst; case_run); effects; frame_rows; subst.
  all: split; [first [solve [eauto 30 with wt]
    |apply wt_except_close; [split_and!; cbn in *; solve [done|intros; congruence]|solve [eauto 30 with wt]]]|].
  all: intros ch; gap_chain ch; rewrite ?amt_set_amount; lia.
Qed.
Lemma escrow_dispute_conserves from to agent who id :
  conserves (escrow_dispute_do_apply from to agent who id).
Proof. unfold escrow_dispute_do_apply. repeat first [apply conserves_modify_escrow; done | conserve_step]. Qed.

Lemma may_release_ok e now who receiver s u s' : may_release e now who receiver s = Ok (u, s') → s' = s.
Proof. unfold may_release. intros H. repeat first [inv_store_step | case_run]; done. Qed.

Lemma escrow_release_conserves from to agent who receiver id d l :
  symbol d = DOLLAR_SYMBOL → symbol l = LIQUID_SYMBOL →
  conserves (escrow_release_do_apply from to agent who receiver id d l).
Proof.
  intros Hd Hl s u s' Hwt H. unfold escrow_release_do_apply, assert_ge in H.
  apply bind_ok in H as (? & s1 & [-> _]%get_by_ok & H).
  apply bind_ok in H as (er & s1 & [-> _]%get_by_ok & H).
  apply bind_ok in H as (e & s1 & [He ->]%load_ok & H).
  destruct (wt_escrow _ _ _ Hwt He) as (? & ? & ? & Hfee).
  funds; try match goal with H : may_release _ _ _ _ _ = _ |- _ => apply may_release_ok in H end;
    frame_rows; subst.
  all: specialize (Hfee ltac:(done)).
  all: match goal with |- context [set_row ?r ?e' ?s1] => assert (Hs1 : well_typed (set_row r e' s1)) end.
  1,3: apply wt_set_escrow; [asset_facts; split_and!; cbn; first [congruence|done]|eauto 30 with wt].
  all: split; [eauto with wt|]; intros ch; gap_chain ch.
  pose proof (amt_zero c _ Hfee). cbn in *. bool_prop.
  repeat match goal with H : amount ?x = 0 |- _ => apply (amt_zero c) in H end. lia.
Qed.

Lemma claim_reward_balance_conserves account l d v :
  symbol l = LIQUID_SYMBOL → symbol d = DOLLAR_SYMBOL → symbol v = VESTS_SYMBOL →
  conserves (claim_reward_balance_do_apply account l d v).
Proof.
  intros Hl Hd Hv s u s' Hwt H. unfold claim_reward_balance_do_apply in H.
  apply bind_ok in H as (a & s1 & [-> _]%get_by_ok & H).
  funds. subst.
  repeat match goal with H : context [gpo (set_row ?r ?o ?s)] |- _ =>
    change (gpo (set_row r o s)) with (gpo s) in H end.
  match goal with H : adjust_proxied_witness_votes _ _ ?s3 = _ |- _ =>
    match type of H with context [set_row ?r ?o' ?s1] =>
      pose proof (row_set_row_eq r o' s1) as Hr;
      eapply (adjust_proxied_from_effect _ _ _ _ _ _ o') in H as (Hf & Hc & Hp & Hw); [|lia|exact Hr] end end.
  rewrite (bool_decide_eq_false_2 (ZATTERA_MAX_PROXY_RECURSION_DEPTH = 0%nat)) in Hw by done.
  split; [eauto 30 with wt|].
  intros [c| |]; [rewrite Hc|rewrite Hp|rewrite Hw].
  all: repeat match goal with H : ∀ ch, gap ch ?s2 = _ |- context [gap _ ?s2] => rewrite H end.
  all: unfold flow; rewrite ?reward_flow_no_shares; unfold flow; try amt_facts c; asset_facts; weigh_simpl; try lia.
  cbn in Hw. case_bool_decide; lia.
Qed.
