(* ===== verification/Market.v ===== *)
(** * The internal market

    [apply_order], [match], [fill_order], [cancel_order] and
    [clear_expired_orders] of database.cpp and the limit order evaluators. *)
From S2P Require Import Prelude Ints Config Asset Authority Operations State Store Ledger Balances Vesting Conserve.
From S2P Require Import EvalFunds.

Definition amount_for_sale (o : limit_order_object) : asset :=
  mk_asset (loo_for_sale o) (symbol (base (loo_sell_price o))).
Definition amount_to_receive (o : limit_order_object) : res asset :=
  asset_mul_price (amount_for_sale o) (loo_sell_price o).

Definition cancel_order (order : ref limit_order_object) : C unit :=
  let* o := load order in
  adjust_balance_name (loo_seller o) (amount_for_sale o) ;;
  remove order.

(** Returns whether the order left the book. *)
Definition fill_order (order : ref limit_order_object) (pays receives : asset) : C bool :=
  let* o := load order in
  fc_assert (symbol (amount_for_sale o) =? symbol pays) "error filling orders" ;;
  fc_assert (negb (symbol pays =? symbol receives)) "error filling orders" ;;
  adjust_balance_name (loo_seller o) receives ;;
  if asset_eqb pays (amount_for_sale o) then remove order ;; ret true
  else
    let! lt := asset_lt pays (amount_for_sale o) in
    fc_assert lt "error filling orders" ;;
    modify_res order (fun b =>
      let? x := safe.sub (loo_for_sale b) (amount pays) in Ok (b <| loo_for_sale := x |>)) ;;
    let* o := load order in
    let! rest := amount_to_receive o in
    if amount rest =? 0 then cancel_order order ;; ret true
    else ret false.

(** What each side pays when two orders meet at [match_price]. *)
Definition match_amounts (new_for_sale old_for_sale : asset) (match_price : price) : res (asset * asset) :=
  let? x := asset_mul_price old_for_sale match_price in
  let? all_new := asset_le new_for_sale x in
  if all_new then
    let? r := asset_mul_price new_for_sale match_price in
    Ok (new_for_sale, r)
  else
    let? r := asset_mul_price old_for_sale match_price in
    Ok (r, old_for_sale).

(** [database::match]: whether the new and whether the old order left the book. *)
Definition match_orders (new_order old_order : ref limit_order_object) (match_price : price) : C (bool * bool) :=
  let* n := load new_order in
  let* o := load old_order in
  fc_assert (symbol (quote (loo_sell_price n)) =? symbol (base (loo_sell_price o))) "error matching orders" ;;
  fc_assert (symbol (base (loo_sell_price n)) =? symbol (quote (loo_sell_price o))) "error matching orders" ;;
  fc_assert ((loo_for_sale n >? 0) && (loo_for_sale o >? 0)) "error matching orders" ;;
  fc_assert (symbol (quote match_price) =? symbol (base (loo_sell_price n))) "error matching orders" ;;
  fc_assert (symbol (base match_price) =? symbol (base (loo_sell_price o))) "error matching orders" ;;
  let! (new_order_pays, old_order_pays) := match_amounts (amount_for_sale n) (amount_for_sale o) match_price in
  let new_order_receives := old_order_pays in
  let old_order_receives := new_order_pays in
  fc_assert (asset_eqb new_order_pays (amount_for_sale n) || asset_eqb old_order_pays (amount_for_sale o))
    "error matching orders" ;;
  push_virtual_operation (fill_order_operation (loo_seller n) (loo_orderid n) new_order_pays
                            (loo_seller o) (loo_orderid o) old_order_pays) ;;
  let* new_filled := fill_order new_order new_order_pays new_order_receives in
  let* old_filled := fill_order old_order old_order_pays old_order_receives in
  fc_assert (new_filled || old_filled) "error matching orders" ;;
  ret (new_filled, old_filled).

(** The index [by_price]: best price first, older order first. *)
Definition by_price_leb (x y : Z * limit_order_object) : bool :=
  match price_compare (loo_sell_price x.2) (loo_sell_price y.2) with
  | Gt => true | Lt => false | Eq => x.1 <=? y.1
  end.
Definition by_price_range (hi lo : price) (s : database) : list (ref limit_order_object) :=
  (fun q => Ref q.1) <$>
  List.filter (fun q => negb (price_gtb (loo_sell_price q.2) hi) && negb (price_ltb (loo_sell_price q.2) lo))
    (merge_sort by_price_leb (map_to_list (rows (limit_order_index s)))).

Fixpoint match_all (new_order : ref limit_order_object) (l : list (ref limit_order_object)) : C unit :=
  match l with
  | [] => ret tt
  | old :: l' =>
      let* o := load old in
      let* (finished, _) := match_orders new_order old (loo_sell_price o) in
      if finished then ret tt else match_all new_order l'
  end.

Definition apply_order (new_order : ref limit_order_object) : C bool :=
  let* n := load new_order in
  let! max_price := price_inv (loo_sell_price n) in
  let! hi := price_max (symbol (base max_price)) (symbol (quote max_price)) in
  let* l := gets (by_price_range hi max_price) in
  match_all new_order l ;;
  gets (fun s => bool_decide (row new_order s = None)).

Definition clear_expired_orders : C unit :=
  let* now := head_block_time in
  drain (fun o => [KZ (loo_expiration o)]) (fun o => loo_expiration o <? now) cancel_order.

(** ** Evaluators *)

Definition limit_order_place (owner : account_name_type) (orderid : Z) (amount_to_sell : asset)
    (sell_price : res price) (fill_or_kill : bool) (expiration : time) : C unit :=
  let* now := head_block_time in
  fc_assert (expiration >? now) "Limit order has to expire after head block time." ;;
  fc_assert (expiration <=? wrap_u32 (now + ZATTERA_MAX_LIMIT_ORDER_EXPIRATION))
    "Limit Order Expiration must not be more than 28 days in the future" ;;
  let* a := get_account owner in
  has_balance get_balance a amount_to_sell "Account does not have sufficient funds for limit order." ;;
  let! n := asset_neg amount_to_sell in
  adjust_balance_name owner n ;;
  let! p := sell_price in
  let* order := create (mk_limit_order_object now expiration owner orderid (amount amount_to_sell) p) in
  let* filled := apply_order order in
  when fill_or_kill (fc_assert filled "Cancelling order because it was not filled.").

Definition limit_order_create_do_apply (owner : account_name_type) (orderid : Z)
    (amount_to_sell min_to_receive : asset) (fill_or_kill : bool) (expiration : time) : C unit :=
  limit_order_place owner orderid amount_to_sell (make_price amount_to_sell min_to_receive) fill_or_kill expiration.
Definition limit_order_create2_do_apply (owner : account_name_type) (orderid : Z)
    (amount_to_sell : asset) (fill_or_kill : bool) (exchange_rate : price) (expiration : time) : C unit :=
  limit_order_place owner orderid amount_to_sell (Ok exchange_rate) fill_or_kill expiration.
Definition limit_order_cancel_do_apply (owner : account_name_type) (orderid : Z) : C unit :=
  let* o := get_limit_order owner orderid in cancel_order o.

(** ** Conservation *)

Lemma cancel_order_conserves r : conserves (cancel_order r).
Proof.
  intros s u s' Hwt H. unfold cancel_order in H.
  apply bind_ok in H as (o & s1 & [Ho ->]%load_ok & H).
  destruct (wt_order _ _ _ Hwt Ho) as [? ?]. effects. frame_rows.
  unfold amount_for_sale in *. conserve_close.
Qed.

(** An order is filled: its owner gets [receives] for [pays] out of the book. *)
Lemma fill_order_effect r pays receives s b s' : well_typed s → symbol receives ≠ VESTS_SYMBOL →
  fill_order r pays receives s = Ok (b, s') →
  well_typed s' ∧ ∀ ch, gap ch s' = gap ch s + flow ch receives - flow ch pays.
Proof.
  intros Hwt Hne H. unfold fill_order in H.
  apply bind_ok in H as (o & s1 & [Ho ->]%load_ok & H).
  destruct (wt_order _ _ _ Hwt Ho) as [? ?]. effects. case_run; effects; frame_rows.
  - apply asset_eqb_eq in E. subst. split; [eauto with wt|].
    intros ch. unfold amount_for_sale in *. gap_chain ch.
  - match goal with H : safe.sub _ _ = Ok _ |- _ => apply safe_sub_ok in H end.
    match goal with H : ∀ ch, gap ch (set_row r ?o' ?s1) = _ |- _ => rename s1 into t1;
      assert (Hw : well_typed (set_row r o' t1)) by (apply wt_set_order; [done|eauto with wt]) end.
    subst.
    match goal with H : ∀ ch, gap ch (set_row r _ _) = _ |- _ => rename H into Hg end.
    match goal with H : ∀ ch, gap ch t1 = _ |- _ => rename H into Ht end.
    assert (Hmid : ∀ ch, gap ch (set_row r (o <| loo_for_sale := loo_for_sale o - amount pays |>) t1)
      = gap ch s + flow ch receives - flow ch pays).
    { intros ch. rewrite Hg, Ht. unfold amount_for_sale in *. cbn in *. bool_prop.
      destruct ch as [c| |]; unfold flow; weigh_simpl; try lia.
      unfold amt. cbn. match goal with H : _ = symbol pays |- _ => rewrite H end. destruct (symbol pays =? c); lia. }
    case_run; effects; [|by split].
    match goal with H : cancel_order _ _ = _ |- _ => apply cancel_order_conserves in H as [? Hc]; [|done] end.
    split; [done|]. intros ch. by rewrite Hc, Hmid.
Qed.

Lemma asset_mul_price_symbol a p r : asset_mul_price a p = Ok r →
  symbol r = symbol (base p) ∨ symbol r = symbol (quote p).
Proof. unfold asset_mul_price. intros H. repeat case_match; inv_ok; cbn; auto. Qed.
Lemma match_amounts_symbols n o p x y v : match_amounts n o p = Ok (x, y) →
  symbol n ≠ v → symbol o ≠ v → symbol (base p) ≠ v → symbol (quote p) ≠ v → symbol x ≠ v ∧ symbol y ≠ v.
Proof.
  unfold match_amounts. intros H. inv_ok. case_match; inv_ok;
    repeat match goal with H : asset_mul_price _ _ = _ |- _ => apply asset_mul_price_symbol in H end;
    intros; split; intuition congruence.
Qed.

Lemma match_orders_conserves new old p : conserves (match_orders new old p).
Proof.
  intros s u s' Hwt H. unfold match_orders in H.
  apply bind_ok in H as (n & s1 & [Hn ->]%load_ok & H).
  apply bind_ok in H as (o & s1 & [Ho ->]%load_ok & H).
  destruct (wt_order _ _ _ Hwt Hn) as [? ?]. destruct (wt_order _ _ _ Hwt Ho) as [? ?].
  inv_ok. match goal with x : asset * asset |- _ => destruct x as [np op] end. effects. bool_prop.
  match goal with H : match_amounts _ _ _ = _ |- _ =>
    apply (match_amounts_symbols _ _ _ _ _ VESTS_SYMBOL) in H as [? ?]; [|cbn; congruence..] end.
  match goal with H1 : fill_order new np op _ = _, H2 : fill_order old op np _ = _ |- _ =>
    apply fill_order_effect in H1 as [? Hg1]; [|subst; eauto with wt|done];
    apply fill_order_effect in H2 as [? Hg2]; [|done|done] end.
  split; [done|]. intros ch. rewrite Hg2, Hg1.
  match goal with H : ∀ ch, gap ch _ = gap ch s |- _ => rewrite H end. lia.
Qed.

Lemma match_all_conserves new l : conserves (match_all new l).
Proof.
  induction l as [|old l IH]; cbn; [apply conserves_ret|].
  apply conserves_bind; [apply conserves_load|]. intros o.
  apply conserves_bind; [apply match_orders_conserves|]. intros [[] ?]; [apply conserves_ret|done].
Qed.
Lemma apply_order_conserves r : conserves (apply_order r).
Proof. unfold apply_order. repeat first [apply match_all_conserves | conserve_step]. Qed.

Lemma limit_order_place_conserves owner id x p fok ex :
  (∀ q, p = Ok q → symbol (base q) = symbol x ∧ symbol x ≠ VESTS_SYMBOL ∧ symbol (quote q) ≠ VESTS_SYMBOL) →
  conserves (limit_order_place owner id x p fok ex).
Proof.
  intros Hp s u s' Hwt H. unfold limit_order_place in H.
  funds; destruct (Hp _ eq_refl) as (Hb & ? & ?); subst.
  all: match goal with H : apply_order ?r ?s1 = _ |- _ =>
    assert (well_typed s1) by (apply wt_add_order; [split; cbn; congruence|eauto 30 with wt]);
    apply apply_order_conserves in H as [? Hg]; [|done] end.
  all: split; [done|]; intros ch; rewrite Hg; gap_chain ch.
  all: unfold amt in *; cbn in *; rewrite ?Hb in *; destruct (symbol x =? c); lia.
Qed.

Lemma limit_order_create_conserves owner id x y fok ex :
  market_pair x y = true → conserves (limit_order_create_do_apply owner id x y fok ex).
Proof.
  intros Hm. apply limit_order_place_conserves. unfold make_price. intros q Hq. inv_ok. cbn.
  unfold market_pair, is_asset_type in Hm. apply orb_true_iff in Hm. split_and!; [done|..];
    intros E; rewrite E in Hm; destruct Hm as [Hm|Hm]; bool_prop; done.
Qed.
Lemma limit_order_create2_conserves owner id x fok p ex :
  market_pair x (quote p) = true → symbol x = symbol (base p) →
  conserves (limit_order_create2_do_apply owner id x fok p ex).
Proof.
  intros Hm Hs. apply limit_order_place_conserves. intros q [= <-].
  unfold market_pair, is_asset_type in Hm. apply orb_true_iff in Hm. split_and!; [done|..];
    intros E; rewrite E in Hm; destruct Hm as [Hm|Hm]; bool_prop; done.
Qed.
Lemma limit_order_cancel_conserves owner id : conserves (limit_order_cancel_do_apply owner id).
Proof. unfold limit_order_cancel_do_apply. repeat first [apply cancel_order_conserves | conserve_step]. Qed.
