(* ===== verification/EvalAccounts.v ===== *)
(** * Evaluators on accounts and witnesses

    The [do_apply] functions of zattera_evaluator.cpp that create and update
    accounts, recover them, vote for witnesses, publish feeds and update witness
    properties, with [update_owner_authority] of database.cpp. *)
From S2P Require Import Prelude Ints Config Asset Authority Operations State Store Ledger Balances Vesting Conserve.
From S2P Require Import EvalFunds.

(** ** Account creation *)

(** The initial values of account_object.hpp. *)
Definition default_account : account_object := mk_account_object
  "" "" "" ZATTERA_PROXY_TO_SELF_ACCOUNT 0 0 true "" ZATTERA_NULL_ACCOUNT 0 0 0 0
  true ZATTERA_100_PERCENT 0
  (mk_asset 0 LIQUID_SYMBOL) (mk_asset 0 LIQUID_SYMBOL)
  (mk_asset 0 DOLLAR_SYMBOL) 0 0 0 (mk_asset 0 DOLLAR_SYMBOL) 0 0 0 0
  (mk_asset 0 DOLLAR_SYMBOL) (mk_asset 0 LIQUID_SYMBOL) (mk_asset 0 VESTS_SYMBOL) (mk_asset 0 LIQUID_SYMBOL)
  0 0 (mk_asset 0 VESTS_SYMBOL) (mk_asset 0 VESTS_SYMBOL) (mk_asset 0 VESTS_SYMBOL)
  (mk_asset 0 VESTS_SYMBOL) time_maximum 0 0 0
  (repeat 0 ZATTERA_MAX_PROXY_RECURSION_DEPTH) 0 0 time_min 0 0.

Definition verify_authority_accounts_exist (a : authority) : C unit :=
  for_each (account_auths a) (fun aw =>
    let* acc := find_account aw.1 in
    fc_assert (bool_decide (is_Some acc)) "New authority references non-existing account").

(** [for( a : auth.account_auths ) _db.get_account( a.first )] *)
Definition get_authority_accounts (a : authority) : C unit :=
  for_each (account_auths a) (fun aw => let* _ := get_account aw.1 in ret tt).

Definition initialize_account_object (name : account_name_type) (key : public_key_type)
    (props : dynamic_global_property_object) (mined : bool) (recovery_account : account_name_type)
    (acc : account_object) : account_object :=
  let acc := acc <| acc_name := name |> <| acc_memo_key := key |> <| acc_created := gpo_time props |>
                 <| acc_last_vote_time := gpo_time props |> <| acc_mined := mined |> in
  if bool_decide (recovery_account ≠ ZATTERA_TEMP_ACCOUNT) then acc <| acc_recovery_account := recovery_account |>
  else acc.

(** [if( is_producing() )]: checks a producer makes before including a transaction. *)
Definition producer_auth_size (owner active posting : authority) : C unit :=
  let* p := gets is_producing in
  when p (let! _ := validate_auth_size owner in let! _ := validate_auth_size active in
          lift (validate_auth_size posting)).

Definition create_authority (name : account_name_type) (owner active posting : authority) : C unit :=
  create (mk_account_authority_object name owner active posting time_min) ;; ret tt.

Definition account_create_do_apply (fee : asset) (creator new_account_name : account_name_type)
    (owner active posting : authority) (memo_key : public_key_type) (json_metadata : string) : C unit :=
  let* c := get_account creator in
  let* props := get_dynamic_global_properties in
  let* co := load c in
  assert_ge (acc_liquid_balance co) fee "Insufficient balance to create account." ;;
  let* wso := get_witness_schedule_object in
  assert_ge fee (cp_account_creation_fee (wso_median_props wso)) "Insufficient Fee" ;;
  producer_auth_size owner active posting ;;
  verify_authority_accounts_exist owner ;;
  verify_authority_accounts_exist active ;;
  verify_authority_accounts_exist posting ;;
  modify_res c (fun c => let? b := asset_sub (acc_liquid_balance c) fee in Ok (c <| acc_liquid_balance := b |>)) ;;
  let* new_account := create (initialize_account_object new_account_name memo_key props false creator
    (default_account <| acc_json_metadata := json_metadata |>)) in
  create_authority new_account_name owner active posting ;;
  when (amount fee >? 0) (create_vesting new_account fee false ;; ret tt).

Definition account_create_with_delegation_do_apply (fee delegation : asset)
    (creator new_account_name : account_name_type) (owner active posting : authority)
    (memo_key : public_key_type) (json_metadata : string) : C unit :=
  let* c := get_account creator in
  let* props := get_dynamic_global_properties in
  let* wso := get_witness_schedule_object in
  let* co := load c in
  assert_ge (acc_liquid_balance co) fee "Insufficient balance to create account." ;;
  let! available := available_vesting co in
  assert_ge available delegation "Insufficient vesting shares to delegate to new account." ;;
  let median_fee := cp_account_creation_fee (wso_median_props wso) in
  let! t := safe.mul (amount median_fee) ZATTERA_CREATE_ACCOUNT_WITH_ZATTERA_MODIFIER in
  let! t := safe.mul t ZATTERA_CREATE_ACCOUNT_DELEGATION_RATIO in
  let! p := get_vesting_share_price props in
  let! target_delegation := asset_mul_price (mk_asset t LIQUID_SYMBOL) p in
  let! f := safe.mul (amount fee) ZATTERA_CREATE_ACCOUNT_DELEGATION_RATIO in
  let! fv := asset_mul_price (mk_asset f LIQUID_SYMBOL) p in
  let! current_delegation := asset_add fv delegation in
  assert_ge current_delegation target_delegation "Inssufficient Delegation" ;;
  assert_ge fee median_fee "Insufficient Fee" ;;
  producer_auth_size owner active posting ;;
  get_authority_accounts owner ;;
  get_authority_accounts active ;;
  get_authority_accounts posting ;;
  modify_res c (fun c =>
    let? b := asset_sub (acc_liquid_balance c) fee in
    let? d := asset_add (acc_delegated_vesting_share_balance c) delegation in
    Ok (c <| acc_liquid_balance := b |> <| acc_delegated_vesting_share_balance := d |>)) ;;
  let* new_account := create (initialize_account_object new_account_name memo_key props false creator
    (default_account <| acc_json_metadata := json_metadata |>)
    <| acc_received_vesting_share_balance := delegation |>) in
  create_authority new_account_name owner active posting ;;
  let* now := head_block_time in
  when (amount delegation >? 0)
    (create (mk_vesting_delegation_object creator new_account_name delegation
               (wrap_u32 (now + ZATTERA_CREATE_ACCOUNT_DELEGATION_TIME))) ;; ret tt) ;;
  when (amount fee >? 0) (create_vesting new_account fee false ;; ret tt).

Definition claim_account_do_apply (creator : account_name_type) (fee : asset) : C unit :=
  let* c := get_account creator in
  let* wso := get_witness_schedule_object in
  let* co := load c in
  assert_ge (acc_liquid_balance co) fee "Insufficient balance to create account." ;;
  assert_ge fee (cp_account_creation_fee (wso_median_props wso)) "Insufficient Fee" ;;
  fc_assert (acc_pending_claimed_accounts co <? INT64_MAX)
    "Cannot claim account, pending_claimed_accounts would overflow." ;;
  let* null_account := get_account ZATTERA_NULL_ACCOUNT in
  adjust_balance null_account fee ;;
  modify_res c (fun a =>
    let? b := asset_sub (acc_liquid_balance a) fee in
    let? n := safe.add (acc_pending_claimed_accounts a) 1 in
    Ok (a <| acc_liquid_balance := b |> <| acc_pending_claimed_accounts := n |>)).

Definition create_claimed_account_do_apply (creator new_account_name : account_name_type)
    (owner active posting : authority) (memo_key : public_key_type) (json_metadata : string) : C unit :=
  let* c := get_account creator in
  let* props := get_dynamic_global_properties in
  let* co := load c in
  fc_assert (acc_pending_claimed_accounts co >? 0) "creator has no claimed accounts to create" ;;
  verify_authority_accounts_exist owner ;;
  verify_authority_accounts_exist active ;;
  verify_authority_accounts_exist posting ;;
  modify_res c (fun a => let? n := safe.sub (acc_pending_claimed_accounts a) 1 in
    Ok (a <| acc_pending_claimed_accounts := n |>)) ;;
  create (initialize_account_object new_account_name memo_key props false creator
    (default_account <| acc_json_metadata := json_metadata |>)) ;;
  create_authority new_account_name owner active posting.

(** ** Account updates and recovery *)

Definition get_account_authority (name : account_name_type) : C (ref account_authority_object) :=
  get_by (fun a => bool_decide (auth_account a = name)).

Definition update_owner_authority (account : ref account_object) (owner_authority : authority) : C unit :=
  let* ao := load account in
  let* num := head_block_num in
  let* now := head_block_time in
  when (num >=? ZATTERA_OWNER_AUTH_HISTORY_TRACKING_START_BLOCK_NUM)
    (let* auth := get_account_authority (acc_name ao) in
     let* au := load auth in
     create (mk_owner_authority_history_object (acc_name ao) (auth_owner au) now) ;; ret tt) ;;
  let* auth := get_account_authority (acc_name ao) in
  modify_row auth (fun a => a <| auth_owner := owner_authority |> <| auth_last_owner_update := now |>).

Definition on_option {A} (o : option A) (f : A → C unit) : C unit :=
  match o with Some a => f a | None => ret tt end.

Definition account_update_do_apply (account : account_name_type) (owner active posting : option authority)
    (memo_key : public_key_type) (json_metadata : string) : C unit :=
  fc_assert (bool_decide (account ≠ ZATTERA_TEMP_ACCOUNT)) "Cannot update temp account." ;;
  on_option posting (fun a => lift (authority_validate a)) ;;
  let* acc := get_account account in
  let* account_auth := get_account_authority account in
  on_option owner (fun a => lift (validate_auth_size a)) ;;
  on_option active (fun a => lift (validate_auth_size a)) ;;
  on_option posting (fun a => lift (validate_auth_size a)) ;;
  let* now := head_block_time in
  on_option owner (fun a =>
    let* au := load account_auth in
    fc_assert (now - auth_last_owner_update au >? ZATTERA_OWNER_UPDATE_LIMIT)
      "Owner authority can only be updated once an hour." ;;
    verify_authority_accounts_exist a ;;
    update_owner_authority acc a) ;;
  on_option active verify_authority_accounts_exist ;;
  on_option posting verify_authority_accounts_exist ;;
  modify_row acc (fun a =>
    let a := if bool_decide (memo_key ≠ "") then a <| acc_memo_key := memo_key |> else a in
    let a := a <| acc_last_account_update := now |> in
    if strlen json_metadata >? 0 then a <| acc_json_metadata := json_metadata |> else a) ;;
  when (bool_decide (is_Some active) || bool_decide (is_Some posting))
    (modify_row account_auth (fun a =>
       let a := match active with Some x => a <| auth_active := x |> | None => a end in
       match posting with Some x => a <| auth_posting := x |> | None => a end)).

Definition request_account_recovery_do_apply (recovery_account account_to_recover : account_name_type)
    (new_owner_authority : authority) : C unit :=
  let* acc := get_account account_to_recover in
  let* ao := load acc in
  (if negb (strlen (acc_recovery_account ao) =? 0) then
     fc_assert (bool_decide (acc_recovery_account ao = recovery_account))
       "Cannot recover an account that does not have you as there recovery partner."
   else
     let* top := index_begin (fun w => [KZ (- wit_votes w); KS (wit_owner w)]) in
     let! top := of_option top (key_not_found "witness_object") in
     let* w := load top in
     fc_assert (bool_decide (wit_owner w = recovery_account))
       "Top witness must recover an account with no recovery partner.") ;;
  let* request := find_by (fun r => bool_decide (arr_account_to_recover r = account_to_recover)) in
  let* now := head_block_time in
  let expires := wrap_u32 (now + ZATTERA_ACCOUNT_RECOVERY_REQUEST_EXPIRATION_PERIOD) in
  match request with
  | None =>
      fc_assert (negb (is_impossible new_owner_authority)) "Cannot recover using an impossible authority." ;;
      fc_assert (negb (weight_threshold new_owner_authority =? 0)) "Cannot recover using an open authority." ;;
      let! _ := validate_auth_size new_owner_authority in
      get_authority_accounts new_owner_authority ;;
      create (mk_account_recovery_request_object account_to_recover new_owner_authority expires) ;; ret tt
  | Some r =>
      if weight_threshold new_owner_authority =? 0 then remove r
      else
        fc_assert (negb (is_impossible new_owner_authority)) "Cannot recover using an impossible authority." ;;
        get_authority_accounts new_owner_authority ;;
        modify_row r (fun q => q <| arr_new_owner_authority := new_owner_authority |> <| arr_expires := expires |>)
  end.

Definition recover_account_do_apply (account_to_recover : account_name_type)
    (new_owner_authority recent_owner_authority : authority) : C unit :=
  let* acc := get_account account_to_recover in
  let* ao := load acc in
  let* now := head_block_time in
  fc_assert (now - acc_last_account_recovery ao >? ZATTERA_OWNER_UPDATE_LIMIT)
    "Owner authority can only be updated once an hour." ;;
  let* request := find_by (fun r => bool_decide (arr_account_to_recover r = account_to_recover)) in
  let! request := of_option request (assert_exception "There are no active recovery requests for this account.") in
  let* ro := load request in
  fc_assert (bool_decide (arr_new_owner_authority ro = new_owner_authority))
    "New owner authority does not match recovery request." ;;
  let* found := gets (fun s => existsb (fun q =>
      bool_decide (oah_account q.2 = account_to_recover ∧ oah_previous_owner_authority q.2 = recent_owner_authority))
    (map_to_list (rows (owner_authority_history_index s)))) in
  fc_assert found "Recent authority not found in authority history." ;;
  remove request ;;
  update_owner_authority acc new_owner_authority ;;
  modify_row acc (fun a => a <| acc_last_account_recovery := now |>).

Definition change_recovery_account_do_apply (account_to_recover new_recovery_account : account_name_type) : C unit :=
  let* _ := get_account new_recovery_account in
  let* acc := get_account account_to_recover in
  let* ao := load acc in
  let* request := find_by (fun r => bool_decide (crr_account_to_recover r = account_to_recover)) in
  let* now := head_block_time in
  let effective := wrap_u32 (now + ZATTERA_OWNER_AUTH_RECOVERY_PERIOD) in
  match request with
  | None => create (mk_change_recovery_account_request_object account_to_recover new_recovery_account effective) ;; ret tt
  | Some r =>
      if bool_decide (acc_recovery_account ao ≠ new_recovery_account) then
        modify_row r (fun q => q <| crr_recovery_account := new_recovery_account |> <| crr_effective_on := effective |>)
      else remove r
  end.

Definition decline_voting_rights_do_apply (account : account_name_type) (decline : bool) : C unit :=
  let* acc := get_account account in
  let* ao := load acc in
  let* itr := find_by (fun r => bool_decide (dvr_account r = acc_name ao)) in
  if decline then
    fc_assert (negb (bool_decide (is_Some itr))) "Cannot create new request because one already exists." ;;
    let* now := head_block_time in
    create (mk_decline_voting_rights_request_object (acc_name ao)
              (wrap_u32 (now + ZATTERA_OWNER_AUTH_RECOVERY_PERIOD))) ;; ret tt
  else
    let! r := of_option itr (assert_exception "Cannot cancel the request because it does not exist.") in
    remove r.

Definition report_over_production_do_apply : C unit := ret tt.
Definition reset_account_do_apply : C unit :=
  fc_assert false "Reset Account Operation is currently disabled.".
Definition set_reset_account_do_apply : C unit :=
  fc_assert false "Set Reset Account Operation is currently disabled.".

(** ** Witnesses *)

(** The initial values of witness_objects.hpp. *)
Definition default_chain_properties : chain_properties := mk_chain_properties
  (mk_asset ZATTERA_MIN_ACCOUNT_CREATION_FEE LIQUID_SYMBOL) (ZATTERA_MIN_BLOCK_SIZE_LIMIT * 2)
  ZATTERA_DEFAULT_DOLLAR_INTEREST_RATE 0.
Definition default_witness : witness_object := mk_witness_object
  "" 0 "" 0 0 0 "" default_chain_properties null_price 0 0 none 0 0 (2 ^ 128 - 1) 0 0 ZATTERA_GENESIS_TIME.

Definition copy_legacy_chain_properties (src : legacy_chain_properties) (dest : chain_properties) : chain_properties :=
  dest <| cp_account_creation_fee := mk_asset (lcp_account_creation_fee src) LIQUID_SYMBOL |>
       <| cp_maximum_block_size := lcp_maximum_block_size src |>
       <| cp_dollar_interest_rate := lcp_dollar_interest_rate src |>.

Definition witness_update_do_apply (owner : account_name_type) (url : string)
    (block_signing_key : public_key_type) (props : legacy_chain_properties) : C unit :=
  let* _ := get_account owner in
  fc_assert (lcp_fee_symbol_canon props) "account_creation_fee.symbol.is_canon()" ;;
  let* p := gets is_producing in
  when p (fc_assert (lcp_maximum_block_size props <=? ZATTERA_SOFT_MAX_BLOCK_SIZE)
            "Max block size cannot be more than 2MiB") ;;
  let* now := head_block_time in
  let* wit := find_witness owner in
  match wit with
  | Some w => modify_row w (fun w => w <| wit_url := url |> <| wit_signing_key := block_signing_key |>
                                       <| wit_props ::= copy_legacy_chain_properties props |>)
  | None => create (default_witness <| wit_owner := owner |> <| wit_url := url |>
                      <| wit_signing_key := block_signing_key |> <| wit_created := now |>
                      <| wit_props ::= copy_legacy_chain_properties props |>) ;; ret tt
  end.

Section WithCodec.
Context `{Codec}.

(** [if( itr != end ) unpack( itr->second, field )] *)
Definition read_prop {A} (k : string) (props : list (string * string)) (unpack : string → res A) : res (option A) :=
  match find_prop k props with
  | Some v => let? a := unpack v in Ok (Some a)
  | None => Ok None
  end.
Definition set_opt {A B} (o : option A) (f : A → B → B) (b : B) : B :=
  match o with Some a => f a b | None => b end.

Definition witness_set_properties_do_apply (owner : account_name_type) (props : list (string * string)) : C unit :=
  let* witness := get_witness owner in
  let* wo := load witness in
  let* now := head_block_time in
  let! key := of_option (find_prop "key" props) (assert_exception "No signing key provided") in
  let! signing_key := unpack_key key in
  fc_assert (bool_decide (signing_key = wit_signing_key wo)) "'key' does not match witness signing key." ;;
  let! fee := read_prop "account_creation_fee" props unpack_asset in
  let! size := read_prop "maximum_block_size" props unpack_uint32 in
  let! rate := read_prop "dollar_interest_rate" props unpack_uint16 in
  let! subsidy := read_prop "account_subsidy_limit" props unpack_uint32 in
  let! new_key := read_prop "new_signing_key" props unpack_key in
  let! feed := read_prop "dollar_exchange_rate" props unpack_price in
  let! url := read_prop "url" props unpack_string in
  modify_row witness (fun w =>
    let w := set_opt fee (fun x w => w <| wit_props ::= fun p => p <| cp_account_creation_fee := x |> |>) w in
    let w := set_opt size (fun x w => w <| wit_props ::= fun p => p <| cp_maximum_block_size := x |> |>) w in
    let w := set_opt rate (fun x w => w <| wit_props ::= fun p => p <| cp_dollar_interest_rate := x |> |>) w in
    let w := set_opt subsidy (fun x w => w <| wit_props ::= fun p => p <| cp_account_subsidy_limit := x |> |>) w in
    let w := set_opt new_key (fun x w => w <| wit_signing_key := x |>) w in
    let w := set_opt feed (fun x w => w <| wit_dollar_exchange_rate := x |> <| wit_last_dollar_exchange_update := now |>) w in
    set_opt url (fun x w => w <| wit_url := x |>) w).
End WithCodec.

Definition feed_publish_do_apply (publisher : account_name_type) (exchange_rate : price) : C unit :=
  fc_assert (is_asset_type (base exchange_rate) DOLLAR_SYMBOL && is_asset_type (quote exchange_rate) LIQUID_SYMBOL)
    "Price feed must be a ZBD/ZTR price" ;;
  let* witness := get_witness publisher in
  let* now := head_block_time in
  modify_row witness (fun w => w <| wit_dollar_exchange_rate := exchange_rate |>
                                 <| wit_last_dollar_exchange_update := now |>).

Definition account_witness_vote_do_apply (account witness : account_name_type) (approve : bool) : C unit :=
  let* voter := get_account account in
  let* vo := load voter in
  fc_assert (strlen (acc_proxy vo) =? 0)
    "A proxy is currently set, please clear the proxy before voting for a witness." ;;
  when approve (fc_assert (acc_can_vote vo) "Account has declined its voting rights.") ;;
  let* wit := get_witness witness in
  let* wo := load wit in
  let* itr := find_by (fun v => bool_decide (wvo_account v = acc_name vo ∧ wvo_witness v = wit_owner wo)) in
  match itr with
  | None =>
      fc_assert approve "Vote doesn't exist, user must indicate a desire to approve witness." ;;
      fc_assert (acc_witnesses_voted_for vo <? ZATTERA_MAX_ACCOUNT_WITNESS_VOTES)
        "Account has voted for too many witnesses." ;;
      create (mk_witness_vote_object (wit_owner wo) (acc_name vo)) ;;
      let! weight := witness_vote_weight vo in
      adjust_witness_vote wit weight ;;
      modify_row voter (fun a => a <| acc_witnesses_voted_for ::= fun n => wrap_u16 (n + 1) |>)
  | Some v =>
      fc_assert (negb approve) "Vote currently exists, user must indicate a desire to reject witness." ;;
      let! weight := witness_vote_weight vo in
      let! neg := safe.neg weight in
      adjust_witness_vote wit neg ;;
      modify_row voter (fun a => a <| acc_witnesses_voted_for ::= fun n => wrap_u16 (n - 1) |>) ;;
      remove v
  end.

(** The walk up from the new proxy: no account twice, at most
    [ZATTERA_MAX_PROXY_RECURSION_DEPTH] of them.  The set grows in every round,
    so the walk takes fewer rounds than the limit. *)
Fixpoint check_proxy_chain (fuel : nat) (proxy : account_name_type) (chain : list Z) : C unit :=
  match fuel with
  | O => throw out_of_fuel
  | S fuel' =>
      if strlen proxy =? 0 then ret tt
      else
        let* next := get_account proxy in
        let* no := load next in
        fc_assert (negb (bool_decide (ref_id next ∈ chain))) "This proxy would create a proxy loop." ;;
        let chain := ref_id next :: chain in
        fc_assert (bool_decide (length chain ≤ ZATTERA_MAX_PROXY_RECURSION_DEPTH)%nat) "Proxy chain is too long." ;;
        check_proxy_chain fuel' (acc_proxy no) chain
  end.

Definition account_witness_proxy_do_apply (account proxy : account_name_type) : C unit :=
  let* acc := get_account account in
  let* ao := load acc in
  fc_assert (bool_decide (acc_proxy ao ≠ proxy)) "Proxy must change." ;;
  fc_assert (acc_can_vote ao) "Account has declined the ability to vote and cannot proxy votes." ;;
  let! own := safe.neg (amount (acc_vesting_share_balance ao)) in
  let! received := res_fold (fun l v => let? n := safe.neg v in Ok (l ++ [n])) [] (acc_proxied_vsf_votes ao) in
  let delta := own :: received in
  adjust_proxied_witness_votes_array acc delta ;;
  if negb (strlen proxy =? 0) then
    let* new_proxy := get_account proxy in
    let* po := load new_proxy in
    let chain := remove_dups [ref_id acc; ref_id new_proxy] in
    check_proxy_chain (S ZATTERA_MAX_PROXY_RECURSION_DEPTH) (acc_proxy po) chain ;;
    clear_witness_votes acc ;;
    modify_row acc (fun a => a <| acc_proxy := proxy |>) ;;
    let! delta := res_fold (fun l v => let? n := safe.neg v in Ok (l ++ [n])) [] delta in
    adjust_proxied_witness_votes_array acc delta
  else
    modify_row acc (fun a => a <| acc_proxy := proxy |>).

(** ** Custom operations, with no plugin interpreter registered *)

Definition custom_do_apply (required_auths : list account_name_type) (data : string) : C unit :=
  let* p := gets is_producing in
  when p (fc_assert (strlen data <=? 8192) "custom_operation must be less than 8k") ;;
  fc_assert (Z.of_nat (length required_auths) <=? ZATTERA_MAX_AUTHORITY_MEMBERSHIP) "Too many auths specified.".
Definition custom_json_do_apply (required_auths required_posting_auths : list account_name_type) (json : string) : C unit :=
  let* p := gets is_producing in
  when p (fc_assert (strlen json <=? 8192) "custom_json_operation json must be less than 8k") ;;
  fc_assert (Z.of_nat (length required_auths + length required_posting_auths) <=? ZATTERA_MAX_AUTHORITY_MEMBERSHIP)
    "Too many auths specified.".
Definition custom_binary_do_apply (owners actives postings : list account_name_type)
    (required_auths : list authority) (data : string) : C unit :=
  let* p := gets is_producing in
  when p (fc_assert (strlen data <=? 8192) "custom_binary_operation data must be less than 8k" ;;
          fc_assert false "custom_binary_operation is deprecated") ;;
  let num := fold_left (fun n a => n + Z.of_nat (length (key_auths a) + length (account_auths a))) required_auths
    (Z.of_nat (length owners + length actives + length postings)) in
  fc_assert (num <=? ZATTERA_MAX_AUTHORITY_MEMBERSHIP) "Too many auths specified.".

(** ** Conservation *)

Lemma verify_accounts_conserves a : conserves (verify_authority_accounts_exist a).
Proof. unfold verify_authority_accounts_exist. conserve. Qed.
Lemma get_accounts_conserves a : conserves (get_authority_accounts a).
Proof. unfold get_authority_accounts. conserve. Qed.
Lemma producer_auth_size_conserves o a p : conserves (producer_auth_size o a p).
Proof. unfold producer_auth_size. conserve. Qed.
Lemma create_authority_conserves n o a p : conserves (create_authority n o a p).
Proof. unfold create_authority. conserve. Qed.

Lemma weigh_default_account ch : weigh ch default_account = 0.
Proof.
  destruct ch as [c| |]; [|done|done]. unfold weigh, weigh_account, default_account. cbn.
  rewrite !amt_zero by done. done.
Qed.
Lemma weigh_initialize ch n k p m r acc :
  weigh ch (initialize_account_object n k p m r acc) = weigh ch acc.
Proof. unfold initialize_account_object. by destruct ch; case_bool_decide. Qed.
Lemma create_account_conserves n k p m r acc : (∀ ch, weigh ch acc = weigh ch default_account) →
  conserves (create (initialize_account_object n k p m r acc)).
Proof.
  intros Ha. apply conserves_create. intros. rewrite weigh_initialize, Ha. apply weigh_default_account.
Qed.

(** Paying a fee, and turning it into shares of the new account. *)
Lemma pay_fee_shifts (c : ref account_object) f fee :
  (∀ o o', f o = Ok o' → ∀ ch, weigh ch o' = weigh ch o - flow ch fee) →
  shifts (fun ch => - flow ch fee) (modify_res c f).
Proof.
  intros Hf s u s' Hwt (o & o' & -> & Ho & Hfo & Hg)%modify_res_gap.
  split; [by apply wt_row|]. intros ch. rewrite Hg, (Hf _ _ Hfo). lia.
Qed.
Lemma vest_fee_shifts a fee : 0 ≤ amount fee →
  shifts (fun ch => - - flow ch fee) (when (amount fee >? 0) (create_vesting a fee false ;; ret tt)).
Proof.
  intros Hfee s u s' Hwt H. unfold when in H. case_run; inv_ok.
  - match goal with H : create_vesting _ _ _ _ = _ |- _ =>
      apply create_vesting_wt in H as [Hfr Hv]; [|done] end.
    split; [eauto with wt|]. intros ch. rewrite Hv. lia.
  - split; [done|]. intros ch. assert (flow ch fee = 0); [|lia].
    destruct ch; [|done..]. apply amt_zero. bool_prop. lia.
Qed.

Ltac account_step :=
  lazymatch goal with
  | |- conserves (verify_authority_accounts_exist _) => apply verify_accounts_conserves
  | |- conserves (get_authority_accounts _) => apply get_accounts_conserves
  | |- conserves (producer_auth_size _ _ _) => apply producer_auth_size_conserves
  | |- conserves (create_authority _ _ _ _) => apply create_authority_conserves
  | |- conserves (create (initialize_account_object _ _ _ _ _ _)) =>
      apply create_account_conserves; intros []; reflexivity
  | |- _ => conserve_step
  end.
(** Up to the payment, the payment, and the rest. *)
Ltac fee_steps fee :=
  repeat lazymatch goal with
  | |- conserves (bind (modify_res _ _) _) =>
      apply (shifts_settle (fun ch => - flow ch fee)); [apply pay_fee_shifts|]
  | |- shifts _ (when _ _) => apply vest_fee_shifts
  | |- shifts _ (bind _ _) => apply shifts_bind
  | |- forall _, shifts _ _ => intro
  | |- _ => account_step
  end.

Lemma account_create_conserves fee c n o a p k j : 0 ≤ amount fee →
  conserves (account_create_do_apply fee c n o a p k j).
Proof.
  intros Hfee. unfold account_create_do_apply, assert_ge. fee_steps fee; [|done..].
  inv_ok. match goal with |- weigh ?ch _ = _ => destruct ch as [cc| |] end;
    try amt_facts cc; unfold flow; weigh_simpl; lia.
Qed.
Lemma account_create_with_delegation_conserves fee d c n o a p k j : 0 ≤ amount fee →
  conserves (account_create_with_delegation_do_apply fee d c n o a p k j).
Proof.
  intros Hfee. unfold account_create_with_delegation_do_apply, assert_ge.
  fee_steps fee; try done.
  inv_ok. match goal with |- weigh ?ch _ = _ => destruct ch as [cc| |] end;
    try amt_facts cc; unfold flow; weigh_simpl; lia.
Qed.

Lemma claim_account_conserves c fee : symbol fee = LIQUID_SYMBOL → conserves (claim_account_do_apply c fee).
Proof.
  intros Hs s u s' Hwt H. unfold claim_account_do_apply in H. funds. conserve_close.
Qed.
Lemma create_claimed_account_conserves c n o a p k j : conserves (create_claimed_account_do_apply c n o a p k j).
Proof. unfold create_claimed_account_do_apply. repeat account_step. Qed.

Lemma update_owner_authority_conserves a o : conserves (update_owner_authority a o).
Proof. unfold update_owner_authority. conserve. Qed.
Lemma on_option_conserves {A} (o : option A) f : (∀ a, conserves (f a)) → conserves (on_option o f).
Proof. intros. destruct o; cbn; [done|apply conserves_ret]. Qed.
Lemma account_update_conserves a o ac p k j : conserves (account_update_do_apply a o ac p k j).
Proof.
  unfold account_update_do_apply.
  repeat first [apply on_option_conserves | apply update_owner_authority_conserves
    | apply conserves_modify_row; [intros; repeat case_match; done] | account_step].
Qed.
Lemma request_account_recovery_conserves r a o : conserves (request_account_recovery_do_apply r a o).
Proof. unfold request_account_recovery_do_apply, index_begin. repeat account_step. Qed.
Lemma recover_account_conserves a n r : conserves (recover_account_do_apply a n r).
Proof.
  unfold recover_account_do_apply.
  repeat first [apply update_owner_authority_conserves | account_step].
Qed.
Lemma change_recovery_account_conserves a r : conserves (change_recovery_account_do_apply a r).
Proof. unfold change_recovery_account_do_apply. conserve. Qed.
Lemma decline_voting_rights_conserves a d : conserves (decline_voting_rights_do_apply a d).
Proof. unfold decline_voting_rights_do_apply. conserve. Qed.
Lemma witness_update_conserves o u k p : conserves (witness_update_do_apply o u k p).
Proof. unfold witness_update_do_apply. conserve. Qed.
Lemma witness_set_properties_conserves `{Codec} o p : conserves (witness_set_properties_do_apply o p).
Proof. unfold witness_set_properties_do_apply. conserve. Qed.
Lemma feed_publish_conserves p r : conserves (feed_publish_do_apply p r).
Proof. unfold feed_publish_do_apply. conserve. Qed.
Lemma adjust_witness_vote_conserves w d : conserves (adjust_witness_vote w d).
Proof. unfold adjust_witness_vote. conserve. Qed.
Lemma account_witness_vote_conserves a w ap : conserves (account_witness_vote_do_apply a w ap).
Proof.
  unfold account_witness_vote_do_apply.
  repeat first [apply adjust_witness_vote_conserves | conserve_step].
Qed.
Lemma report_over_production_conserves : conserves report_over_production_do_apply.
Proof. apply conserves_ret. Qed.
Lemma custom_conserves a d : conserves (custom_do_apply a d).
Proof. unfold custom_do_apply. conserve. Qed.
Lemma custom_json_conserves a p j : conserves (custom_json_do_apply a p j).
Proof. unfold custom_json_do_apply. conserve. Qed.
Lemma custom_binary_conserves o a p r d : conserves (custom_binary_do_apply o a p r d).
Proof. unfold custom_binary_do_apply. conserve. Qed.
