(* ===== verification/Proxy.v ===== *)
(** * Proxied witness votes

    An account hands its vote weight to a proxy, which may have a proxy itself.
    [adjust_proxied_witness_votes] walks up that chain
    (src/src/core/chain/database.cpp); [account_witness_proxy_evaluator]
    (zattera_evaluator.cpp) moves the weight of an account from one chain to
    another.  The weight [validate_invariants] sums up stays the same, whatever
    the length of the chains, as long as an account is not reached from itself. *)
From S2P Require Import Prelude Ints Config Asset Authority Operations State Store Ledger Balances Vesting Conserve.
From S2P Require Import EvalFunds EvalAccounts.

Definition is_name (name : account_name_type) (a : account_object) : bool := bool_decide (acc_name a = name).

(** Account [t] is not among the first [left] accounts up the chain that starts
    with [proxy]. *)
Fixpoint avoids (t : Z) (left : nat) (s : database) (proxy : account_name_type) : Prop :=
  match left with
  | O => True
  | S left' =>
      proxy ≠ ZATTERA_PROXY_TO_SELF_ACCOUNT → ∀ p po,
        find_row (is_name proxy) s = Some p → row p s = Some po →
        ref_id p ≠ t ∧ avoids t left' s (acc_proxy po)
  end.
Definition not_own_proxy (r : ref account_object) (s : database) : Prop :=
  ∀ o, row r s = Some o → avoids (ref_id r) ZATTERA_MAX_PROXY_RECURSION_DEPTH s (acc_proxy o).

(** ** Finding an account does not depend on balances *)

Lemma find_ext {A} (f g : A → bool) l : (∀ x, f x = g x) → List.find f l = List.find g l.
Proof. intros H. induction l as [|x l IH]; cbn; [done|]. rewrite H, IH. done. Qed.

Lemma find_account_static name s s' : statics s' = statics s →
  find_row (is_name name) s' = find_row (is_name name) s.
Proof.
  intros E. unfold find_row, row_ids.
  assert (Hd : dom (rows (account_index s')) = dom (rows (account_index s))).
  { rewrite <- (dom_fmap_L static (rows (account_index s'))).
    fold (statics s'). rewrite E. unfold statics. by rewrite dom_fmap_L. }
  cbn. rewrite Hd. f_equal. apply find_ext. intros i.
  assert (Hl : static <$> rows (account_index s') !! i = static <$> rows (account_index s) !! i).
  { rewrite <- !lookup_fmap. fold (statics s') (statics s). by rewrite E. }
  destruct (rows (account_index s') !! i) as [o'|], (rows (account_index s) !! i) as [o|];
    cbn in Hl; try done.
  apply (inj Some) in Hl. unfold is_name. apply (f_equal acc_name) in Hl.
  change (acc_name o' = acc_name o) in Hl. by rewrite Hl.
Qed.

Lemma avoids_static t left s s' proxy : statics s' = statics s →
  avoids t left s proxy → avoids t left s' proxy.
Proof.
  intros E. revert proxy. induction left as [|left IH]; intros proxy; cbn; [done|].
  intros H Hp p po' Hf Hr. rewrite (find_account_static _ _ _ E) in Hf.
  destruct (statics_row _ _ p po' E Hr) as (po & Ho & Hs).
  destruct (H Hp p po Hf Ho) as [? ?]. split; [done|].
  apply IH. by rewrite (static_proxy _ _ Hs).
Qed.

(** ** The array variant *)

Fixpoint lsum (f : nat → Z) (l : list nat) : Z :=
  match l with [] => 0 | i :: l' => f i + lsum f l' end.
Lemma lsum_app f l l' : lsum f (l ++ l') = lsum f l + lsum f l'.
Proof. induction l; cbn; lia. Qed.
Lemma lsum_rev f l : lsum f (rev l) = lsum f l.
Proof. induction l as [|x l IH]; cbn; [done|]. rewrite lsum_app, IH. cbn. lia. Qed.
Lemma lsum_seq_S f n : lsum f (seq 0 (S n)) = lsum f (seq 0 n) + f n.
Proof. rewrite seq_S, lsum_app. cbn. lia. Qed.

Lemma add_proxied_fold depth delta l votes votes' :
  res_fold (fun votes i => add_proxied (i + depth) (nth i delta 0) votes) votes l = Ok votes' →
  fold_right Z.add 0 votes' = fold_right Z.add 0 votes + lsum (fun i => nth i delta 0) l ∧
  ∀ j, nth j votes' 0 = nth j votes 0
    + lsum (fun i => if bool_decide (i + depth = j)%nat then nth i delta 0 else 0) l.
Proof.
  revert votes. induction l as [|i l IH]; intros votes H; cbn in H; inv_ok; [cbn; split; intros; lia|].
  match goal with H : add_proxied _ _ _ = _ |- _ => apply add_proxied_ok in H as (v & Hv & ->) end.
  apply IH in H as [H1 H2]. split.
  - rewrite H1, (sum_insert _ _ v) by done. cbn. lia.
  - intros j. rewrite H2, (nth_insert _ _ j v) by done. cbn [lsum]. by rewrite Z.add_assoc.
Qed.

Lemma lsum_last depth delta n : lsum (fun i => if bool_decide (i + depth = n + depth)%nat then nth i delta 0 else 0)
  (rev (seq 0 (S n))) = nth n delta 0.
Proof.
  rewrite lsum_rev, lsum_seq_S, bool_decide_eq_true_2 by done.
  assert (H : ∀ m, (m ≤ n)%nat → lsum (fun i => if bool_decide (i + depth = n + depth)%nat then nth i delta 0 else 0)
    (seq 0 m) = 0).
  { induction m as [|m IH]; intros Hm; [done|]. rewrite lsum_seq_S, IH by lia.
    rewrite bool_decide_eq_false_2 by lia. done. }
  rewrite H by lia. lia.
Qed.

Lemma vsf_weight_votes o votes : vsf_weight (o <| acc_proxied_vsf_votes := votes |>) =
  if bool_decide (acc_proxy o = ZATTERA_PROXY_TO_SELF_ACCOUNT)
  then vote_weight o + (fold_right Z.add 0 votes - fold_right Z.add 0 (acc_proxied_vsf_votes o))
  else vsf_weight o + (nth 3 votes 0 - nth 3 (acc_proxied_vsf_votes o) 0).
Proof. unfold vsf_weight, vote_weight. cbn. case_bool_decide; lia. Qed.

(** Walking up adds the first [left] entries of [delta] to the weights, however
    long the chain is; every account that is not on the chain keeps its row. *)
Lemma adjust_proxied_array_effect left a delta s u s' o :
  (left ≤ ZATTERA_MAX_PROXY_RECURSION_DEPTH)%nat → row a s = Some o →
  adjust_proxied_array_from left a delta s = Ok (u, s') →
  bal_frame s s' ∧ (∀ c, gap (Held c) s' = gap (Held c) s) ∧
  gap Pending_liquid s' = gap Pending_liquid s ∧
  gap Vsf s' = gap Vsf s +
    (if bool_decide (acc_proxy o = ZATTERA_PROXY_TO_SELF_ACCOUNT) then 0
     else lsum (fun i => nth i delta 0) (seq 0 left)) ∧
  (∀ t : ref account_object, avoids (ref_id t) left s (acc_proxy o) → row t s' = row t s).
Proof.
  revert a s o. induction left as [|left IH]; intros a s o Hl Ho H; cbn in H;
    apply bind_ok in H as (o1 & s1 & [Ho1 ->]%load_ok & H); simplify_eq;
    (destruct (decide (acc_proxy o = ZATTERA_PROXY_TO_SELF_ACCOUNT)) as [Hp|Hp];
      [rewrite bool_decide_eq_false_2 in H by tauto; rewrite (bool_decide_eq_true_2 _ Hp)
      |rewrite bool_decide_eq_true_2 in H by done; rewrite (bool_decide_eq_false_2 _ Hp)]).
  1,3: inv_ok; apply adjust_witness_votes_frame in H; split_and!;
    [by apply wit_bal_frame|intros; by rewrite (wit_frame_gap _ _ _ H)..| |by destruct H as [w ->]];
    rewrite (wit_frame_gap _ _ _ H); lia.
  - inv_ok. split_and!; [reflexivity|done|done|cbn; lia|done].
  - apply bind_ok in H as (p & s2 & [-> Hfp]%get_by_ok & H). inv_store. subst.
    match goal with H : res_fold _ _ _ = Ok ?v |- _ => rename H into Hv; rename v into votes end.
    match goal with H : row p s = Some ?x |- _ => rename H into Hpr; rename x into po end.
    match goal with H : ∀ ch, gap ch (set_row p _ s) = _ |- _ => rename H into Hg end.
    assert (Hst : statics (set_row p (po <| acc_proxied_vsf_votes := votes |>) s) = statics s)
      by by apply statics_set_row with po.
    change (rev (seq 1 left) ++ [0%nat]) with (rev (seq 0 (S left))) in Hv.
    apply add_proxied_fold in Hv as [Hsum Hnth].
    eapply IH in H as (Hf & Hc & Hd & Hw & Hrow); [|lia|apply row_set_row_eq].
    split_and!.
    + etrans; [|done]. by eapply set_row_bal_frame.
    + intros c. rewrite Hc, Hg. weigh_simpl. lia.
    + rewrite Hd, Hg. weigh_simpl. lia.
    + rewrite Hw, Hg, lsum_seq_S. change (weigh Vsf) with vsf_weight.
      rewrite (vsf_weight_votes po votes).
      destruct (decide (acc_proxy po = ZATTERA_PROXY_TO_SELF_ACCOUNT)) as [Hpp|Hpp];
        [rewrite !(bool_decide_eq_true_2 _ Hpp)|rewrite !(bool_decide_eq_false_2 _ Hpp)].
      * unfold vsf_weight. rewrite (bool_decide_eq_true_2 _ Hpp), Hsum, lsum_rev, lsum_seq_S.
        unfold vote_weight. lia.
      * assert (Hlast := lsum_last (3 - left) delta left). specialize (Hnth 3%nat).
        replace (left + (3 - left))%nat with 3%nat in Hlast
          by (unfold ZATTERA_MAX_PROXY_RECURSION_DEPTH in *; lia).
        rewrite Hlast in Hnth. lia.
    + intros t Ht. cbn in Ht. destruct (Ht Hp p po Hfp Hpr) as [Hne Ht'].
      rewrite Hrow; [apply row_set_row_ne; intros ->; done|].
      by apply (avoids_static _ _ s).
Qed.

(** ** The evaluator *)

Lemma neg_all_ok l acc l' :
  res_fold (fun l v => let? n := safe.neg v in Ok (l ++ [n])) acc l = Ok l' → l' = acc ++ (Z.opp <$> l).
Proof.
  revert acc. induction l as [|x l IH]; intros acc H; cbn in H; inv_ok; [by rewrite app_nil_r|].
  match goal with H : safe.neg _ = _ |- _ => apply safe_neg_ok in H as -> end.
  apply IH in H as ->. by rewrite <- app_assoc.
Qed.

Lemma clear_witness_votes_effect a s u s' : clear_witness_votes a s = Ok (u, s') →
  (well_typed s → well_typed s') ∧ (∀ ch, gap ch s' = gap ch s) ∧
  ∃ o, row a s = Some o ∧ row a s' = Some (o <| acc_witnesses_voted_for := 0 |>).
Proof.
  unfold clear_witness_votes, witness_votes_of, index_where. intros H. inv_store.
  match goal with H : for_each _ _ _ = Ok (_, ?s1) |- _ =>
    eapply (for_each_pres (fun s1 => (well_typed s → well_typed s1) ∧ (∀ ch, gap ch s1 = gap ch s)
      ∧ account_index s1 = account_index s)) in H as (Hw & Hg & Ha) end; [| |done].
  - subst. split_and!; [eauto with wt|..].
    + intros ch. match goal with H : ∀ ch, gap ch _ = _ |- _ => rewrite H end. rewrite Hg. weigh_simpl.
      destruct ch; cbn; lia.
    + unfold row in *. cbn in *. rewrite Ha in *. simplify_eq. eexists. split; [done|apply lookup_insert_eq].
  - intros v s1 s2 _ (Hw & Hg & Ha) Hr. inv_store. subst. split_and!; [eauto with wt| |done].
    intros ch. match goal with H : ∀ ch, gap ch (delete_row _ _) = _ |- _ => rewrite H end.
    rewrite Hg. weigh_simpl. lia.
Qed.

Lemma check_proxy_chain_ok fuel proxy chain s u s' : check_proxy_chain fuel proxy chain s = Ok (u, s') → s' = s.
Proof.
  revert proxy chain s. induction fuel as [|fuel IH]; intros proxy chain s H; cbn in H; [inv_ok|].
  case_run; effects; [done|]. by apply IH in H.
Qed.

(** What the code relies on about the account: four levels of received votes,
    and that it is not on its own proxy chain. *)
Definition proxy_ok (account : account_name_type) (s : database) : Prop :=
  ∀ acc o, find_row (is_name account) s = Some acc → row acc s = Some o →
    length (acc_proxied_vsf_votes o) = ZATTERA_MAX_PROXY_RECURSION_DEPTH ∧
    avoids (ref_id acc) ZATTERA_MAX_PROXY_RECURSION_DEPTH s (acc_proxy o).

(** The weight an account passes on: all but what the last level received. *)
Lemma passed_on o delta : length (acc_proxied_vsf_votes o) = ZATTERA_MAX_PROXY_RECURSION_DEPTH →
  delta = amount (acc_vesting_share_balance o) :: acc_proxied_vsf_votes o →
  lsum (fun i => nth i delta 0) (seq 0 ZATTERA_MAX_PROXY_RECURSION_DEPTH)
    = vote_weight o - nth 3 (acc_proxied_vsf_votes o) 0 ∧
  lsum (fun i => nth i (Z.opp <$> delta) 0) (seq 0 ZATTERA_MAX_PROXY_RECURSION_DEPTH)
    = nth 3 (acc_proxied_vsf_votes o) 0 - vote_weight o.
Proof.
  intros Hl ->. unfold vote_weight.
  destruct (acc_proxied_vsf_votes o) as [|q0 [|q1 [|q2 [|q3 [|]]]]]; cbn in Hl; try discriminate.
  cbn. lia.
Qed.

Lemma opp_opp (l : list Z) : Z.opp <$> (Z.opp <$> l) = l.
Proof. induction l as [|x l IH]; cbn; [done|]. rewrite IH, Z.opp_involutive. done. Qed.

Lemma strlen_0 s : (strlen s =? 0) = true ↔ s = "".
Proof. unfold strlen. destruct s; cbn; split; intros; bool_prop; lia || done. Qed.

Lemma vsf_weight_proxy o proxy : vsf_weight (o <| acc_proxy := proxy |>) =
  if bool_decide (proxy = ZATTERA_PROXY_TO_SELF_ACCOUNT) then vote_weight o
  else nth 3 (acc_proxied_vsf_votes o) 0.
Proof. done. Qed.

Lemma account_witness_proxy_conserves account proxy s u s' :
  well_typed s → proxy_ok account s → account_witness_proxy_do_apply account proxy s = Ok (u, s') →
  well_typed s' ∧ ∀ ch, gap ch s' = gap ch s.
Proof.
  intros Hwt Hok H. unfold account_witness_proxy_do_apply in H.
  apply bind_ok in H as (acc & s1 & [-> Hacc]%get_by_ok & H).
  apply bind_ok in H as (ao & s1 & [Hao ->]%load_ok & H).
  destruct (Hok acc ao Hacc Hao) as [Hlen Hav]. inv_ok.
  match goal with H : safe.neg _ = _ |- _ => apply safe_neg_ok in H as -> end.
  match goal with H : res_fold _ _ _ = _ |- _ => apply neg_all_ok in H as -> end. cbn [app] in *.
  set (delta := amount (acc_vesting_share_balance ao) :: acc_proxied_vsf_votes ao).
  change (- amount (acc_vesting_share_balance ao) :: (Z.opp <$> acc_proxied_vsf_votes ao))
    with (Z.opp <$> delta) in *.
  destruct (passed_on ao delta Hlen eq_refl) as [Hplus Hminus].
  match goal with H : adjust_proxied_witness_votes_array _ _ _ = Ok (_, ?t) |- _ =>
    rename t into s1; eapply adjust_proxied_array_effect in H as (Hf1 & Hc1 & Hp1 & Hv1 & Hr1);
    [|lia|exact Hao] end.
  specialize (Hr1 acc Hav). rewrite Hao in Hr1. rewrite Hminus in Hv1.
  destruct (strlen proxy =? 0) eqn:Ep; cbn [negb] in H.
  - apply strlen_0 in Ep as ->. inv_store.
    match goal with H : row acc s1 = Some _ |- _ => rewrite Hr1 in H; apply (inj Some) in H as <- end.
    subst. split; [eauto with wt|].
    match goal with H : ∀ ch, gap ch (set_row acc _ _) = _ |- _ => rename H into Hg end.
    intros [c| |]; rewrite Hg, ?Hc1, ?Hp1, ?Hv1; [weigh_simpl; lia..|].
    bool_prop. change (weigh Vsf) with vsf_weight. rewrite vsf_weight_proxy. unfold vsf_weight.
    rewrite (bool_decide_eq_true_2 ("" = ZATTERA_PROXY_TO_SELF_ACCOUNT)) by done.
    rewrite !(bool_decide_eq_false_2 (acc_proxy ao = ZATTERA_PROXY_TO_SELF_ACCOUNT)) by done.
    unfold ZATTERA_MAX_PROXY_RECURSION_DEPTH. cbn [Nat.sub]. lia.
  - assert (Hpne : proxy ≠ ZATTERA_PROXY_TO_SELF_ACCOUNT) by by intros ->.
    effects.
    match goal with H : check_proxy_chain _ _ _ _ = _ |- _ => apply check_proxy_chain_ok in H as -> end.
    match goal with H : clear_witness_votes _ _ = _ |- _ =>
      apply clear_witness_votes_effect in H as (Hw2 & Hg2 & o2 & Ho2 & Hr2) end.
    rewrite Hr1 in Ho2. apply (inj Some) in Ho2 as <-.
    match goal with H : res_fold _ _ _ = _ |- _ => apply neg_all_ok in H as -> end. cbn [app] in *.
    rewrite opp_opp in *.
    match goal with H : row acc _ = Some _, Hg : ∀ ch, gap ch (set_row acc (_ <| acc_proxy := proxy |>) ?s3) = _ |- _ =>
      rewrite Hr2 in H; apply (inj Some) in H as <-; rename Hg into Hg3; rename s3 into s2 end.
    match goal with H : adjust_proxied_witness_votes_array _ _ ?t = _ |- _ =>
      eapply adjust_proxied_array_effect in H as (Hf4 & Hc4 & Hp4 & Hv4 & _); [|lia|apply row_set_row_eq] end.
    rewrite Hplus in Hv4. cbn [acc_proxy upd set_acc_proxy] in Hv4.
    split; [eauto 20 with wt|].
    intros [c| |]; rewrite ?Hc4, ?Hp4, ?Hv4, Hg3, Hg2, ?Hc1, ?Hp1, ?Hv1; [weigh_simpl; lia..|].
    change (weigh Vsf) with vsf_weight. rewrite vsf_weight_proxy. unfold vsf_weight.
    change (acc_proxy (ao <| acc_witnesses_voted_for := 0 |>)) with (acc_proxy ao).
    change (acc_proxied_vsf_votes (ao <| acc_witnesses_voted_for := 0 |>)) with (acc_proxied_vsf_votes ao).
    change (vote_weight (ao <| acc_witnesses_voted_for := 0 |>)) with (vote_weight ao).
    rewrite !(bool_decide_eq_false_2 (proxy = ZATTERA_PROXY_TO_SELF_ACCOUNT)) by done.
    unfold ZATTERA_MAX_PROXY_RECURSION_DEPTH. cbn [Nat.sub].
    destruct (decide (acc_proxy ao = ZATTERA_PROXY_TO_SELF_ACCOUNT)) as [E|E];
      [rewrite !(bool_decide_eq_true_2 _ E)|rewrite !(bool_decide_eq_false_2 _ E)]; lia.
Qed.
