(* ===== verification/Reward.v ===== *)
(** * Reward curves

    src/src/core/chain/utils/reward.cpp: [find_msb], the bit-level square root
    [approx_sqrt], [evaluate_reward_curve] and [get_rshare_reward], with
    [to_dollar] and [to_liquid] of utils/asset.hpp.  128-bit values are integers
    modulo 2^128, 256-bit ones modulo 2^256. *)
From S2P Require Import Prelude Ints Config Asset Authority State.
From Stdlib Require Import Lia ZArith.

Definition to_dollar (p : price) (liquid : asset) : res asset :=
  let? _ := res_assert (symbol liquid =? LIQUID_SYMBOL) "liquid.symbol == LIQUID_SYMBOL" in
  if is_null p then Ok (mk_asset 0 DOLLAR_SYMBOL) else asset_mul_price liquid p.
Definition to_liquid (p : price) (dollar : asset) : res asset :=
  let? _ := res_assert (symbol dollar =? DOLLAR_SYMBOL) "dollar.symbol == DOLLAR_SYMBOL" in
  if is_null p then Ok (mk_asset 0 LIQUID_SYMBOL) else asset_mul_price dollar p.

(** The index of the highest set bit, found in the upper or the lower half. *)
Definition find_msb (u : Z) : Z :=
  let lo := u mod 2 ^ 64 in
  let hi := u / 2 ^ 64 in
  let x := if lo =? 0 then 1 else lo in
  let places := if hi =? 0 then 0 else 64 in
  let x := if hi =? 0 then x else hi in
  wrap_u8 (Z.log2 x + places).

Definition approx_sqrt (x : Z) : Z :=
  if x =? 0 then 0
  else
    let msb_x := find_msb x in
    let msb_z := Z.shiftr msb_x 1 in
    let msb_x_bit := Z.shiftl 1 msb_x in
    let msb_z_bit := Z.shiftl 1 msb_z in
    let mantissa_mask := msb_x_bit - 1 in
    let mantissa_x := Z.land x mantissa_mask in
    let mantissa_z_hi := if Z.testbit msb_x 0 then msb_z_bit else 0 in
    let mantissa_z_lo := wrap_u64 (Z.shiftr mantissa_x (msb_x - msb_z)) in
    let mantissa_z := Z.shiftr (Z.lor mantissa_z_hi mantissa_z_lo) 1 in
    Z.lor msb_z_bit mantissa_z.

Definition evaluate_reward_curve (rshares : Z) (curve : curve_id) (content_constant : Z) : res Z :=
  match curve with
  | quadratic =>
      let rshares_plus_s := u128_add rshares content_constant in
      Ok (u128_sub (u128_mul rshares_plus_s rshares_plus_s) (u128_mul content_constant content_constant))
  | quadratic_curation =>
      let two_alpha := u128_mul content_constant 2 in
      u128_div ((rshares mod 2 ^ 64) * 2 ^ 64) (u128_add two_alpha rshares)
  | linear => Ok rshares
  | square_root => Ok (approx_sqrt rshares)
  end.

Record comment_reward_context := mk_comment_reward_context {
  ctx_rshares : share_type;
  ctx_reward_weight : Z;
  ctx_max_dollars : asset;
  ctx_total_reward_shares2 : Z;
  ctx_total_reward_fund_liquid : asset;
  ctx_current_liquid_price : price;
  ctx_reward_curve : curve_id;
  ctx_content_constant : Z
}.

Definition ZATTERA_MIN_PAYOUT_DOLLAR : asset := mk_asset ZATTERA_MIN_PAYOUT_DOLLAR_AMOUNT DOLLAR_SYMBOL.
Definition is_comment_payout_dust (p : price) (liquid_payout : Z) : res bool :=
  let? d := to_dollar p (mk_asset (wrap_i64 liquid_payout) LIQUID_SYMBOL) in
  asset_lt d ZATTERA_MIN_PAYOUT_DOLLAR.

Definition wrap_u256 (z : Z) : Z := z mod 2 ^ 256.

Definition get_rshare_reward (ctx : comment_reward_context) : res Z :=
  let? _ := res_assert (ctx_rshares ctx >? 0) "ctx.rshares > 0" in
  let? _ := res_assert (ctx_total_reward_shares2 ctx >? 0) "ctx.total_reward_shares2 > 0" in
  let rf := wrap_u256 (amount (ctx_total_reward_fund_liquid ctx)) in
  let total_claims := ctx_total_reward_shares2 ctx in
  let? claim := evaluate_reward_curve (wrap_u128 (ctx_rshares ctx)) (ctx_reward_curve ctx) (ctx_content_constant ctx) in
  let claim := wrap_u256 (claim * ctx_reward_weight ctx) / ZATTERA_100_PERCENT in
  let payout := wrap_u256 (rf * claim) / total_claims in
  let? _ := res_assert (payout <=? INT64_MAX) "payout <= int64 max" in
  let? dust := is_comment_payout_dust (ctx_current_liquid_price ctx) payout in
  let payout := if dust then 0 else payout in
  let? max_liquid := to_liquid (ctx_current_liquid_price ctx) (ctx_max_dollars ctx) in
  Ok (Z.min payout (wrap_u64 (amount max_liquid))).

(** ** The square root *)

Lemma find_msb_log2 x : 0 < x < 2 ^ 128 → find_msb x = Z.log2 x.
Proof.
  intros Hx. unfold find_msb.
  pose proof (Z.div_mod x (2 ^ 64) ltac:(lia)) as Hd.
  pose proof (Z.mod_pos_bound x (2 ^ 64) ltac:(lia)) as Hm.
  assert (Hh : 0 ≤ x / 2 ^ 64 < 2 ^ 64).
  { split; [apply Z.div_pos; lia|]. apply Z.div_lt_upper_bound; lia. }
  assert (Hlog : Z.log2 x < 128) by (apply Z.log2_lt_pow2; lia).
  assert (0 ≤ Z.log2 x) by apply Z.log2_nonneg.
  destruct (x / 2 ^ 64 =? 0) eqn:Eh; bool_prop.
  - rewrite Eh in Hd. replace (x mod 2 ^ 64) with x by lia.
    replace (x =? 0) with false by lia. unfold wrap_u8. rewrite Z.mod_small; lia.
  - assert (Hl : Z.log2 (x / 2 ^ 64) = Z.log2 x - 64).
    { rewrite <- Z.shiftr_div_pow2 by lia. rewrite Z.log2_shiftr by lia.
      rewrite Z.max_r; [done|].
      enough (64 ≤ Z.log2 x) by lia. apply Z.log2_le_pow2; [lia|].
      enough (1 * 2 ^ 64 ≤ x) by lia. nia. }
    rewrite Hl. unfold wrap_u8. rewrite Z.mod_small; lia.
Qed.

Lemma lor_add_small k t : 0 ≤ k → 0 ≤ t < 2 ^ k → Z.lor (2 ^ k) t = 2 ^ k + t.
Proof.
  intros Hk Ht. assert (Hl : Z.land (2 ^ k) t = 0).
  { apply Z.bits_inj'. intros i Hi. rewrite Z.land_spec, Z.bits_0, Z.pow2_bits_eqb by lia.
    destruct (k =? i) eqn:E; bool_prop; [subst|done].
    rewrite <- (Z.mod_small t (2 ^ i)) by lia. rewrite Z.mod_pow2_bits_high by lia. done. }
  rewrite Z.add_nocarry_lxor, Z.lxor_lor by done. done.
Qed.

(** The result is the power of two of half the exponent, plus the mantissa
    shifted to its place, plus half of that power when the exponent is odd. *)
Lemma approx_sqrt_eq x : 0 < x < 2 ^ 128 →
  let n := Z.log2 x in let k := n / 2 in let a := 2 ^ k in
  approx_sqrt x = a + ((if Z.odd n then a else 0) + (x - 2 ^ n) / 2 ^ (n - k)) / 2
  ∧ 0 ≤ (x - 2 ^ n) / 2 ^ (n - k) < a.
Proof.
  intros Hx n k a.
  assert (Hn : 0 ≤ n) by apply Z.log2_nonneg.
  assert (Hn' : n < 128) by (apply Z.log2_lt_pow2; lia).
  destruct (Z.log2_spec x ltac:(lia)) as [Hlo Hhi]. fold n in Hlo, Hhi. rewrite Z.pow_succ_r in Hhi by lia.
  assert (Hk : 0 ≤ k < 64) by (unfold k; split; [apply Z.div_pos; lia|apply Z.div_lt_upper_bound; lia]).
  assert (Hk2 : n = 2 * k ∨ n = 2 * k + 1).
  { unfold k. pose proof (Z.div_mod n 2 ltac:(lia)). pose proof (Z.mod_pos_bound n 2 ltac:(lia)). lia. }
  assert (Hnk : 2 ^ n = 2 ^ (n - k) * a) by (unfold a; rewrite <- Z.pow_add_r by lia; f_equal; lia).
  assert (Hpos : 0 < 2 ^ (n - k)) by (apply Z.pow_pos_nonneg; lia).
  assert (Hm : 0 ≤ (x - 2 ^ n) / 2 ^ (n - k) < a).
  { split; [apply Z.div_pos; lia|]. apply Z.div_lt_upper_bound; lia. }
  assert (Ha : 0 < a ≤ 2 ^ 63) by (unfold a; split; [apply Z.pow_pos_nonneg; lia|apply Z.pow_le_mono_r; lia]).
  split; [|done].
  unfold approx_sqrt. replace (x =? 0) with false by lia. rewrite find_msb_log2 by done. fold n.
  cbv zeta. replace (Z.shiftr n 1) with k by (rewrite Z.shiftr_div_pow2 by lia; done).
  rewrite !Z.shiftl_1_l. fold a.
  replace (2 ^ n - 1) with (Z.ones n) by (rewrite Z.ones_equiv; lia).
  rewrite Z.land_ones by lia.
  replace (x mod 2 ^ n) with (x - 2 ^ n).
  2:{ rewrite <- (Z.mod_small (x - 2 ^ n) (2 ^ n)) by lia.
      replace x with ((x - 2 ^ n) + 1 * 2 ^ n) at 2 by lia. by rewrite Z.mod_add by lia. }
  rewrite (Z.shiftr_div_pow2 (x - 2 ^ n)) by lia. unfold wrap_u64.
  rewrite (Z.mod_small ((x - 2 ^ n) / _)) by lia.
  rewrite Z.shiftr_div_pow2 by lia. change (2 ^ 1) with 2. rewrite Z.bit0_odd.
  set (t := (x - 2 ^ n) / 2 ^ (n - k)) in *.
  replace (Z.lor (if Z.odd n then a else 0) t) with ((if Z.odd n then a else 0) + t).
  2:{ destruct (Z.odd n); [|by rewrite Z.lor_0_l]. unfold a. rewrite lor_add_small; [done|lia|]. exact Hm. }
  unfold a. apply lor_add_small; [lia|]. fold a. split; [apply Z.div_pos; destruct (Z.odd n); lia|].
  apply Z.div_lt_upper_bound; [lia|]. destruct (Z.odd n); lia.
Qed.

(** C38: [approx_sqrt] computes the square root with a bounded error on every
    128-bit value: the result z satisfies x < (z + 1)^2 and 8 z^2 <= 9 x, so it
    never falls more than one below the real root and never exceeds it by more
    than about six percent. *)
Theorem approx_sqrt_accuracy x : 0 ≤ x < 2 ^ 128 →
  let z := approx_sqrt x in x < (z + 1) * (z + 1) ∧ 8 * (z * z) ≤ 9 * x.
Proof.
  intros Hx z. destruct (decide (x = 0)) as [->|Hne]; [cbn; lia|].
  destruct (approx_sqrt_eq x ltac:(lia)) as [Hz Ht]. fold z in Hz.
  set (n := Z.log2 x) in *. set (k := n / 2) in *. set (a := 2 ^ k) in *.
  assert (Hn : 0 ≤ n) by apply Z.log2_nonneg.
  destruct (Z.log2_spec x ltac:(lia)) as [Hlo Hhi]. fold n in Hlo, Hhi. rewrite Z.pow_succ_r in Hhi by lia.
  assert (Hk : 0 ≤ k) by (apply Z.div_pos; lia).
  set (t := (x - 2 ^ n) / 2 ^ (n - k)) in *.
  assert (Hk2 : n = 2 * k ∧ Z.odd n = false ∨ n = 2 * k + 1 ∧ Z.odd n = true).
  { pose proof (Z.div_mod n 2 ltac:(lia)) as Hd. fold k in Hd. rewrite Zmod_odd in Hd.
    destruct (Z.odd n); [right|left]; split; done || lia. }
  assert (Ha : 0 < a) by (apply Z.pow_pos_nonneg; lia).
  destruct Hk2 as [[Hn2 Ho]|[Hn2 Ho]]; rewrite Ho in Hz.
  - assert (Hpn : 2 ^ n = a * a) by (unfold a; rewrite <- Z.pow_add_r by lia; f_equal; lia).
    assert (Hpk : 2 ^ (n - k) = a) by (unfold a; f_equal; lia).
    pose proof (Z.div_mod (x - 2 ^ n) (2 ^ (n - k)) ltac:(lia)) as Hd. fold t in Hd.
    pose proof (Z.mod_pos_bound (x - 2 ^ n) (2 ^ (n - k)) ltac:(lia)) as Hr.
    pose proof (Z.div_mod (0 + t) 2 ltac:(lia)) as Hd2. pose proof (Z.mod_pos_bound (0 + t) 2 ltac:(lia)).
    rewrite Hpn, Hpk in *. set (r := (x - a * a) mod a) in *. set (q := (0 + t) / 2) in *.
    set (b := (0 + t) mod 2) in *. clearbody r q b. subst z. rewrite Hz. split; nia.
  - assert (Hpn : 2 ^ n = 2 * (a * a)).
    { unfold a. rewrite <- Z.pow_add_r, <- Z.pow_succ_r by lia. f_equal. lia. }
    assert (Hpk : 2 ^ (n - k) = 2 * a).
    { unfold a. rewrite <- Z.pow_succ_r by lia. f_equal. lia. }
    pose proof (Z.div_mod (x - 2 ^ n) (2 ^ (n - k)) ltac:(lia)) as Hd. fold t in Hd.
    pose proof (Z.mod_pos_bound (x - 2 ^ n) (2 ^ (n - k)) ltac:(lia)) as Hr.
    pose proof (Z.div_mod (a + t) 2 ltac:(lia)) as Hd2. pose proof (Z.mod_pos_bound (a + t) 2 ltac:(lia)).
    rewrite Hpn, Hpk in *. set (r := (x - 2 * (a * a)) mod (2 * a)) in *. set (q := (a + t) / 2) in *.
    set (b := (a + t) mod 2) in *. clearbody r q b. subst z. rewrite Hz. split; nia.
Qed.

Lemma approx_sqrt_accuracy_witness : approx_sqrt 1000000 = 1000 ∧ 1000000 < 1001 * 1001 ∧ 8 * (1000 * 1000) ≤ 9 * 1000000.
Proof.
  assert (approx_sqrt 1000000 = 1000) as E by (vm_compute; reflexivity).
  pose proof (approx_sqrt_accuracy 1000000 ltac:(lia)) as H. cbv zeta in H. rewrite E in H. split; [exact E|exact H].
Defined.
