(* ===== verification/EvalContent.v ===== *)
(** * Comments and votes

    The evaluators of src/src/core/chain/zattera_evaluator.cpp for [comment],
    [delete_comment], [comment_options] and [vote], for the full node
    ([IS_LOW_MEM] undefined) that clears votes ([CLEAR_VOTES]).  Applying a text
    patch to a body is diff_match_patch's work, a parameter here. *)
From S2P Require Import Prelude Ints Config Asset Authority Operations State Store Ledger Balances Vesting Conserve.
From S2P Require Import Reward.

(** [dmp_patch patch body]: what [patch_fromText] and [patch_apply] make of the
    body, in UTF-8; [Ok None] when the text holds no patch, [Throw] when it does
    not parse. *)
Class DiffPatch := {
  dmp_patch : string → string → res (option string);
  prune_invalid_utf8 : string → string;
}.

Definition permlink_char (c : Ascii.ascii) : bool :=
  let n := Z.of_N (Ascii.N_of_ascii c) in
  ((97 <=? n) && (n <=? 122)) || ((48 <=? n) && (n <=? 57)) || (n =? 45).
Definition validate_permlink_0_1 (permlink : string) : res unit :=
  let? _ := res_assert ((strlen permlink >? Z.of_nat ZATTERA_MIN_PERMLINK_LENGTH)
                        && (strlen permlink <? Z.of_nat ZATTERA_MAX_PERMLINK_LENGTH))
              "Permlink is not a valid size." in
  res_assert (forallb permlink_char (String.list_ascii_of_string permlink)) "Invalid permlink character".

Definition strcmp_equal (a b : string) : bool :=
  (strlen a =? strlen b) || bool_decide (c_str a = c_str b).

(** [while( parent )]: update a comment and every ancestor of it.  A comment has
    [depth] ancestors, so [depth + 1] rounds reach the root. *)
Fixpoint walk_parents (fuel : nat) (f : comment_object → comment_object) (parent : ref comment_object) : C unit :=
  match fuel with
  | O => throw out_of_fuel
  | S fuel' =>
      modify_row parent f ;;
      let* p := load parent in
      if negb (bool_decide (com_parent_author p = ZATTERA_ROOT_POST_PARENT)) then
        let* up := get_comment (com_parent_author p) (com_parent_permlink p) in
        walk_parents fuel' f up
      else ret tt
  end.
Definition update_ancestors (f : comment_object → comment_object) (parent : ref comment_object) : C unit :=
  let* p := load parent in
  walk_parents (S (Z.to_nat (com_depth p))) f parent.

Definition delete_comment_do_apply (author : account_name_type) (permlink : string) : C unit :=
  let* comment := get_comment author permlink in
  let* c := load comment in
  fc_assert (com_children c =? 0) "Cannot delete a comment with replies." ;;
  fc_assert (negb (com_cashout_time c =? time_maximum)) "comment.cashout_time != maximum" ;;
  fc_assert (com_net_rshares c <=? 0) "Cannot delete a comment with net positive votes." ;;
  let* votes := index_where (fun v => [KZ (cvo_comment v); KZ (cvo_voter v)])
                  (fun v => cvo_comment v =? ref_id comment) in
  for_each votes (fun v => remove v) ;;
  (if negb (bool_decide (com_parent_author c = ZATTERA_ROOT_POST_PARENT)) then
     let* parent := get_comment (com_parent_author c) (com_parent_permlink c) in
     let* now := head_block_time in
     update_ancestors (fun p => p <| com_children ::= fun n => wrap_u32 (n - 1) |> <| com_active := now |>) parent
   else ret tt) ;;
  remove comment.

(** [comment_options_extension_visitor]. *)
Definition set_beneficiaries (comment : ref comment_object) (cpb : list beneficiary_route_type) : C unit :=
  let* c := load comment in
  fc_assert (bool_decide (com_beneficiaries c = [])) "Comment already has beneficiaries specified." ;;
  fc_assert (com_abs_rshares c =? 0) "Comment must not have been voted on before specifying beneficiaries." ;;
  for_each cpb (fun b =>
    let* acc := find_account (ben_account b) in
    fc_assert (negb (bool_decide (acc = None))) "Beneficiary must exist.") ;;
  modify_row comment (fun c => c <| com_beneficiaries ::= fun l => l ++ ((fun b => (ben_account b, ben_weight b)) <$> cpb) |>).

Definition comment_options_do_apply (author : account_name_type) (permlink : string)
    (max_accepted_payout : asset) (percent_zattera_dollars : Z)
    (allow_votes allow_curation_rewards : bool) (extensions : list (list beneficiary_route_type)) : C unit :=
  let* comment := get_comment author permlink in
  let* c := load comment in
  let! lower := if negb allow_curation_rewards || negb allow_votes then Ok true
                else asset_lt max_accepted_payout (com_max_accepted_payout c) in
  when lower (fc_assert (com_abs_rshares c =? 0)
    "One of the included comment options requires the comment to have no rshares allocated to it.") ;;
  fc_assert (implb allow_curation_rewards (com_allow_curation_rewards c)) "Curation rewards cannot be re-enabled." ;;
  fc_assert (implb allow_votes (com_allow_votes c)) "Voting cannot be re-enabled." ;;
  let! ge := asset_ge (com_max_accepted_payout c) max_accepted_payout in
  fc_assert ge "A comment cannot accept a greater payout." ;;
  fc_assert (com_percent_zattera_dollars c >=? percent_zattera_dollars) "A comment cannot accept a greater percent ZBD." ;;
  modify_row comment (fun c => c
    <| com_max_accepted_payout := max_accepted_payout |> <| com_percent_zattera_dollars := percent_zattera_dollars |>
    <| com_allow_votes := allow_votes |> <| com_allow_curation_rewards := allow_curation_rewards |>) ;;
  for_each extensions (set_beneficiaries comment).

(** A comment as its constructor leaves it. *)
Definition default_comment : comment_object := mk_comment_object
  "" "" "" "" "" 0 0 0 0 0 0 0 0 0 0 0 0 0 0 (mk_asset 0 DOLLAR_SYMBOL) (mk_asset 0 DOLLAR_SYMBOL)
  (mk_asset 0 DOLLAR_SYMBOL) 0 0 0 (mk_asset 1000000000 DOLLAR_SYMBOL) ZATTERA_100_PERCENT true true true [].

(** The body after an edit: patched, or replaced when the text is no patch. *)
Section Content.
Context `{Codec, DiffPatch}.

Definition edit_body (new old : string) : string :=
  match dmp_patch new old with
  | Ok (Some patched) => if negb (is_utf8 patched) then prune_invalid_utf8 patched else patched
  | Ok None => new
  | Throw _ => new
  end.

Definition new_comment (parent : option (ref comment_object)) (parent_permlink : string)
    (author : account_name_type) (permlink title body json_metadata : string) : C unit :=
  let* auth := get_account author in
  let* ao := load auth in
  let* now := head_block_time in
  match parent with
  | Some p =>
      let* po := load p in
      let* root := load (Ref (A := comment_object) (com_root_comment po)) in
      fc_assert (com_allow_replies root) "The parent comment has disabled replies." ;;
      fc_assert (now - acc_last_post ao >=? ZATTERA_MIN_REPLY_INTERVAL) "You may only comment once every 3 seconds."
  | None => fc_assert (now - acc_last_root_post ao >? ZATTERA_MIN_ROOT_COMMENT_INTERVAL) "You may only post once every 5 minutes."
  end ;;
  let post_bandwidth := acc_post_bandwidth ao in
  modify_row auth (fun a =>
    let a := if bool_decide (parent = None)
             then a <| acc_last_root_post := now |> <| acc_post_bandwidth := wrap_u32 post_bandwidth |> else a in
    a <| acc_last_post := now |> <| acc_post_count ::= fun n => wrap_u32 (n + 1) |>) ;;
  let! _ := validate_permlink_0_1 parent_permlink in
  let! _ := validate_permlink_0_1 permlink in
  let* id := gets (fun s => next_id (comment_index s)) in
  let com := default_comment <| com_author := author |> <| com_permlink := permlink |>
    <| com_last_update := now |> <| com_created := now |> <| com_active := now |>
    <| com_last_payout := time_min |> <| com_max_cashout_time := time_maximum |>
    <| com_reward_weight := ZATTERA_100_PERCENT |>
    <| com_cashout_time := wrap_u32 (now + ZATTERA_CASHOUT_WINDOW_SECONDS) |> in
  let* com := match parent with
    | None => ret (com <| com_parent_author := "" |> <| com_parent_permlink := parent_permlink |>
                       <| com_category := parent_permlink |> <| com_root_comment := id |>)
    | Some p =>
        let* po := load p in
        ret (com <| com_parent_author := com_author po |> <| com_parent_permlink := com_permlink po |>
                 <| com_depth := wrap_u16 (com_depth po + 1) |> <| com_category := com_category po |>
                 <| com_root_comment := com_root_comment po |>)
    end in
  let* c := create com in
  create (mk_comment_content_object (ref_id c) title
    (if strlen body <? 1024 * 1024 * 128 then body else "") json_metadata) ;;
  match parent with
  | None => ret tt
  | Some p => update_ancestors (fun p => p <| com_children ::= fun n => wrap_u32 (n + 1) |> <| com_active := now |>) p
  end.

Definition edit_comment (comment : ref comment_object) (parent : option (ref comment_object))
    (parent_author : account_name_type) (parent_permlink title body json_metadata : string) : C unit :=
  let* now := head_block_time in
  modify_res comment (fun com =>
    let? _ := res_assert (bool_decide (com_parent_author com = match parent with None => "" | Some _ => parent_author end))
      "The parent of a comment cannot change." in
    let? _ := res_assert (strcmp_equal (com_parent_permlink com) parent_permlink)
      "The permlink of a comment cannot change." in
    Ok (com <| com_last_update := now |> <| com_active := now |>)) ;;
  let* content := get_by (fun con => con_comment con =? ref_id comment) in
  modify_row content (fun con =>
    let con := if strlen title =? 0 then con else con <| con_title := title |> in
    let con := if strlen json_metadata =? 0 then con else con <| con_json_metadata := json_metadata |> in
    if strlen body =? 0 then con else con <| con_body ::= edit_body body |>).

Definition comment_do_apply (parent_author : account_name_type) (parent_permlink : string)
    (author : account_name_type) (permlink title body json_metadata : string) : C unit :=
  fc_assert (negb (strlen title + strlen body + strlen json_metadata =? 0))
    "Cannot update comment because nothing appears to be changing." ;;
  let* itr := find_comment author permlink in
  let* _ := get_account author in
  let* parent :=
    if negb (bool_decide (parent_author = ZATTERA_ROOT_POST_PARENT)) then
      let* p := get_comment parent_author parent_permlink in
      let* po := load p in
      fc_assert (com_depth po <? ZATTERA_MAX_COMMENT_DEPTH) "Comment is nested too deep." ;;
      ret (Some p)
    else ret None in
  fc_assert (is_utf8 json_metadata) "JSON Metadata must be UTF-8" ;;
  match itr with
  | None => new_comment parent parent_permlink author permlink title body json_metadata
  | Some comment => edit_comment comment parent parent_author parent_permlink title body json_metadata
  end.
End Content.

(** ** Votes *)

(** The voting power of an account after [elapsed] seconds of regeneration. *)
Definition current_voting_power (voting_power elapsed_seconds : Z) : Z :=
  let regenerated_power := Z.quot (ZATTERA_100_PERCENT * elapsed_seconds) ZATTERA_VOTE_REGENERATION_SECONDS in
  Z.min (voting_power + regenerated_power) ZATTERA_100_PERCENT.
(** The power a vote of the given weight takes; the second division rounds up. *)
Definition used_voting_power (current_power weight max_vote_denom : Z) : Z :=
  let used_power := Z.quot (current_power * Z.abs weight) ZATTERA_100_PERCENT * (60 * 60 * 24) in
  Z.quot (used_power + max_vote_denom - 1) max_vote_denom.
(** The shares the power is worth, less the dust. *)
Definition vote_abs_rshares (effective_vesting used_power : Z) : res Z :=
  let? q := u128_div (u128_mul (wrap_u128 effective_vesting) (wrap_u128 used_power)) ZATTERA_100_PERCENT in
  let? r := u128_to_uint64 q in
  Ok (Z.max 0 (wrap_i64 (wrap_i64 r - ZATTERA_VOTE_DUST_THRESHOLD))).

Definition upvote_allowed (now : time) (c : comment_object) : bool :=
  now <? wrap_u32 (com_cashout_time c - ZATTERA_UPVOTE_LOCKOUT).

Definition get_curation_rewards_percent : C Z :=
  let* f := get_reward_fund in let* fo := load f in ret (rfo_percent_curation_rewards fo).

(** The weight of a new upvote: the increase of the curve, and that increase
    scaled down in the first half hour.  Results: the undiscounted and the
    discounted weight. *)
Definition curation_weight (curve : curve_id) (content_constant old_vote_rshares new_vote_rshares : Z)
    (now created : time) : res (Z * Z) :=
  let? old_w := evaluate_reward_curve (wrap_u128 old_vote_rshares) curve content_constant in
  let? old_weight := u128_to_uint64 old_w in
  let? new_w := evaluate_reward_curve (wrap_u128 new_vote_rshares) curve content_constant in
  let? new_weight := u128_to_uint64 new_w in
  let max_vote_weight := wrap_u64 (new_weight - old_weight) in
  let delta_t := Z.min (wrap_u64 (now - created)) ZATTERA_REVERSE_AUCTION_WINDOW_SECONDS in
  let? w := u128_div (u128_mul max_vote_weight delta_t) ZATTERA_REVERSE_AUCTION_WINDOW_SECONDS in
  let? weight := u128_to_uint64 w in
  Ok (max_vote_weight, weight).

Definition spend_power (voter : ref account_object) (power : Z) (now : time) : C unit :=
  modify_row voter (fun a => a <| acc_voting_power := wrap_u16 power |> <| acc_last_vote_time := now |>).
Definition add_children_rshares (root : Z) (abs_rshares : Z) : C unit :=
  modify_res (Ref (A := comment_object) root) (fun c =>
    let? x := safe.add (com_children_abs_rshares c) abs_rshares in Ok (c <| com_children_abs_rshares := x |>)).

(** The first vote of an account on a comment. *)
Definition new_vote (comment : ref comment_object) (voter : ref account_object) (weight : Z)
    (remaining_power abs_rshares : Z) : C unit :=
  fc_assert (negb (weight =? 0)) "Vote weight cannot be 0." ;;
  let rshares := if weight <? 0 then - abs_rshares else abs_rshares in
  let* now := head_block_time in
  let* c := load comment in
  when (rshares >? 0) (fc_assert (upvote_allowed now c) "Cannot increase payout within last twelve hours before payout.") ;;
  spend_power voter remaining_power now ;;
  let* _ := load (Ref (A := comment_object) (com_root_comment c)) in
  fc_assert (abs_rshares >? 0) "Cannot vote with 0 rshares." ;;
  modify_res comment (fun c =>
    let? net := safe.add (com_net_rshares c) rshares in
    let? ab := safe.add (com_abs_rshares c) abs_rshares in
    let? vr := if rshares >? 0 then safe.add (com_vote_rshares c) rshares else Ok (com_vote_rshares c) in
    Ok (c <| com_net_rshares := net |> <| com_abs_rshares := ab |> <| com_vote_rshares := vr |>
          <| com_net_votes ::= fun n => if rshares >? 0 then n + 1 else n - 1 |>)) ;;
  add_children_rshares (com_root_comment c) abs_rshares ;;
  let* c' := load comment in
  let eligible := (rshares >? 0) && (com_last_payout c' =? 0) && com_allow_curation_rewards c' in
  let* percent := if eligible then get_curation_rewards_percent else ret 0 in
  let* (max_vote_weight, w) :=
    if percent >? 0 then
      let* f := get_reward_fund in
      let* fo := load f in
      lift (curation_weight (rfo_curation_reward_curve fo) (rfo_content_constant fo)
              (com_vote_rshares c) (com_vote_rshares c') now (com_created c'))
    else ret (0, 0) in
  create (mk_comment_vote_object (ref_id voter) (ref_id comment) w rshares weight now 0) ;;
  when (negb (max_vote_weight =? 0))
    (modify_row comment (fun c => c <| com_total_vote_weight ::= fun t => wrap_u64 (t + max_vote_weight) |>)).

(** The change of the vote count when a vote of [old] shares becomes [new]. *)
Definition net_votes_delta (new old : Z) : Z :=
  if (new >? 0) && (old <? 0) then 2
  else if (new >? 0) && (old =? 0) then 1
  else if (new =? 0) && (old <? 0) then 1
  else if (new =? 0) && (old >? 0) then -1
  else if (new <? 0) && (old =? 0) then -1
  else if (new <? 0) && (old >? 0) then -2
  else 0.

Definition change_vote (comment : ref comment_object) (voter : ref account_object) (itr : ref comment_vote_object)
    (weight : Z) (remaining_power abs_rshares : Z) : C unit :=
  let* v := load itr in
  fc_assert (cvo_num_changes v <? ZATTERA_MAX_VOTE_CHANGES)
    "Voter has used the maximum number of vote changes on this comment." ;;
  fc_assert (negb (cvo_vote_percent v =? weight)) "You have already voted in a similar way." ;;
  let rshares := if weight <? 0 then - abs_rshares else abs_rshares in
  let* now := head_block_time in
  let* c := load comment in
  when (cvo_rshares v <? rshares) (fc_assert (upvote_allowed now c)
    "Cannot increase payout within last twelve hours before payout.") ;;
  spend_power voter remaining_power now ;;
  let* _ := load (Ref (A := comment_object) (com_root_comment c)) in
  modify_res comment (fun c =>
    let? net := safe.sub (com_net_rshares c) (cvo_rshares v) in
    let? net := safe.add net rshares in
    let? ab := safe.add (com_abs_rshares c) abs_rshares in
    Ok (c <| com_net_rshares := net |> <| com_abs_rshares := ab |>
          <| com_net_votes ::= fun n => n + net_votes_delta rshares (cvo_rshares v) |>)) ;;
  add_children_rshares (com_root_comment c) abs_rshares ;;
  modify_row comment (fun c => c <| com_total_vote_weight ::= fun t => wrap_u64 (t - cvo_weight v) |>) ;;
  modify_row itr (fun cv => cv <| cvo_rshares := rshares |> <| cvo_vote_percent := weight |>
    <| cvo_last_update := now |> <| cvo_weight := 0 |> <| cvo_num_changes ::= fun n => n + 1 |>).

Definition vote_do_apply (voter author : account_name_type) (permlink : string) (weight : Z) : C unit :=
  let* comment := get_comment author permlink in
  let* vr := get_account voter in
  let* c := load comment in
  let* vo := load vr in
  let* dgpo := get_dynamic_global_properties in
  fc_assert (acc_can_vote vo) "Voter has declined their voting rights." ;;
  when (weight >? 0) (fc_assert (com_allow_votes c) "Votes are not allowed on the comment.") ;;
  if calculate_discussion_payout_time c =? time_maximum then ret tt
  else
    let! ev := get_effective_vesting_shares vo VESTS_SYMBOL in
    let effective_vesting := amount ev in
    fc_assert (effective_vesting >? ZATTERA_MIN_VOTE_VESTING_SHARES) "Voter does not have enough effective vesting shares." ;;
    let* itr := find_by (fun v => (cvo_comment v =? ref_id comment) && (cvo_voter v =? ref_id vr)) in
    let* now := head_block_time in
    let elapsed_seconds := now - acc_last_vote_time vo in
    fc_assert (elapsed_seconds >=? ZATTERA_MIN_VOTE_INTERVAL_SEC) "Can only vote once every 3 seconds." ;;
    let current_power := current_voting_power (acc_voting_power vo) elapsed_seconds in
    fc_assert (current_power >? 0) "Account currently does not have voting power." ;;
    let max_vote_denom := wrap_u32 (gpo_vote_power_reserve_rate dgpo * ZATTERA_VOTE_REGENERATION_SECONDS) in
    fc_assert (max_vote_denom >? 0) "max_vote_denom > 0" ;;
    let used_power := used_voting_power current_power weight max_vote_denom in
    fc_assert (used_power <=? current_power) "Account does not have enough power to vote." ;;
    let! abs_rshares := vote_abs_rshares effective_vesting used_power in
    match itr with
    | None => new_vote comment vr weight (current_power - used_power) abs_rshares
    | Some i =>
        let* v := load i in
        fc_assert (negb (cvo_num_changes v =? -1)) "Cannot vote again on a comment after payout." ;;
        change_vote comment vr i weight (current_power - used_power) abs_rshares
    end.

(** ** Conservation *)

Lemma walk_parents_conserves fuel f p : conserves (walk_parents fuel f p).
Proof.
  revert p. induction fuel as [|fuel IH]; intros p; cbn; [apply conserves_throw|].
  unfold get_comment. conserve. apply IH.
Qed.
Lemma update_ancestors_conserves f p : conserves (update_ancestors f p).
Proof. unfold update_ancestors. conserve. apply walk_parents_conserves. Qed.
Lemma delete_comment_conserves author permlink : conserves (delete_comment_do_apply author permlink).
Proof. unfold delete_comment_do_apply. conserve. apply update_ancestors_conserves. Qed.
Lemma set_beneficiaries_conserves c cpb : conserves (set_beneficiaries c cpb).
Proof. unfold set_beneficiaries, find_account, find_by. conserve. Qed.
Lemma comment_options_conserves a p m pct av ac ext : conserves (comment_options_do_apply a p m pct av ac ext).
Proof. unfold comment_options_do_apply. conserve. apply set_beneficiaries_conserves. Qed.
Lemma comment_conserves `{Codec, DiffPatch} pa pp a p t b j : conserves (comment_do_apply pa pp a p t b j).
Proof.
  unfold comment_do_apply, find_comment, find_by, new_comment, edit_comment. conserve.
  all: try apply update_ancestors_conserves.
  all: apply conserves_modify_row; intros; case_bool_decide; reflexivity.
Qed.
Lemma new_vote_conserves c v w p r : conserves (new_vote c v w p r).
Proof. unfold new_vote, spend_power, add_children_rshares, get_curation_rewards_percent. conserve. Qed.
Lemma change_vote_conserves c v i w p r : conserves (change_vote c v i w p r).
Proof. unfold change_vote, spend_power, add_children_rshares. conserve. Qed.
Lemma vote_conserves v a p w : conserves (vote_do_apply v a p w).
Proof.
  unfold vote_do_apply, find_by. conserve; [apply change_vote_conserves|apply new_vote_conserves].
Qed.
