(* ===== verification/Evaluators.v ===== *)
(** * Applying operations

    [database::apply_operation] (src/src/core/chain/database.cpp) hands each
    operation to the evaluator registered for it
    ([initialize_evaluators]); this file is that dispatch, the validation that
    precedes it ([signed_transaction::validate]) and the conservation of the
    ledger by every operation a transaction can carry. *)
From S2P Require Import Prelude Ints Config Asset Authority Headers Operations State Store Ledger Balances Vesting Conserve.
From S2P Require Import EvalFunds Market EvalAccounts Proxy Reward EvalContent.

(** The facts about symbols and amounts that validation establishes. *)
Lemma seq_res_cons r l : seq_res (r :: l) = Ok tt → r = Ok tt ∧ seq_res l = Ok tt.
Proof. unfold seq_res. cbn. destruct r as [[]|]; [done|discriminate]. Qed.
Lemma at_least_zero_ok a sym msg u : at_least_zero a sym msg = Ok u → symbol a = sym ∧ 0 ≤ amount a.
Proof.
  unfold at_least_zero. intros Hz. inv_ok. match goal with E : asset_ge _ _ = Ok _ |- _ => apply asset_cmp_ok in E as [Hs Hc] end. cbn in *. subst. bool_prop.
  split; [done|lia].
Qed.
Ltac validated H :=
  repeat match type of H with
  | seq_res (_ :: _) = Ok tt =>
      let Hx := fresh "Hv" in apply seq_res_cons in H as [Hx H];
      repeat first [apply res_assert_ok in Hx | apply at_least_zero_ok in Hx as [? ?]
                   | apply seq_res_cons in Hx as [?%res_assert_ok Hx]]
  end; unfold is_asset_type in *; bool_prop.

Section Dispatch.
Context `{Codec, DiffPatch, HeaderCrypto}.

Definition apply_operation (op : operation) : C unit :=
  match op with
  | account_create_operation fee c n o a p k j => account_create_do_apply fee c n o a p k j
  | account_create_with_delegation_operation fee d c n o a p k j _ =>
      account_create_with_delegation_do_apply fee d c n o a p k j
  | account_update_operation acc o a p k j => account_update_do_apply acc o a p k j
  | comment_operation pa pp a p t b j => comment_do_apply pa pp a p t b j
  | comment_options_operation a p m pct v c ext => comment_options_do_apply a p m pct v c ext
  | claim_account_operation c fee _ => claim_account_do_apply c fee
  | create_claimed_account_operation c n o a p k j _ => create_claimed_account_do_apply c n o a p k j
  | delete_comment_operation a p => delete_comment_do_apply a p
  | vote_operation v a p w => vote_do_apply v a p w
  | transfer_operation f t a _ => transfer_do_apply f t a
  | escrow_transfer_operation f t ag id d l fee rd ex _ => escrow_transfer_do_apply f t ag id d l fee rd ex
  | escrow_approve_operation f t ag w id ap => escrow_approve_do_apply f t ag w id ap
  | escrow_dispute_operation f t ag w id => escrow_dispute_do_apply f t ag w id
  | escrow_release_operation f t ag w r id d l => escrow_release_do_apply f t ag w r id d l
  | transfer_to_vesting_operation f t a => transfer_to_vesting_do_apply f t a
  | withdraw_vesting_operation acc v => withdraw_vesting_do_apply acc v
  | set_withdraw_vesting_route_operation f t p av => set_withdraw_vesting_route_do_apply f t p av
  | witness_update_operation o u k p _ => witness_update_do_apply o u k p
  | witness_set_properties_operation o p _ => witness_set_properties_do_apply o p
  | account_witness_vote_operation acc w ap => account_witness_vote_do_apply acc w ap
  | account_witness_proxy_operation acc p => account_witness_proxy_do_apply acc p
  | custom_operation auths _ d => custom_do_apply auths d
  | custom_json_operation a p _ j => custom_json_do_apply a p j
  | custom_binary_operation o a p auths _ d => custom_binary_do_apply o a p auths d
  | feed_publish_operation p r => feed_publish_do_apply p r
  | convert_operation o id a => convert_do_apply o id a
  | limit_order_create_operation o id s m fok ex => limit_order_create_do_apply o id s m fok ex
  | limit_order_create2_operation o id s fok r ex => limit_order_create2_do_apply o id s fok r ex
  | limit_order_cancel_operation o id => limit_order_cancel_do_apply o id
  | report_over_production_operation _ _ _ => report_over_production_do_apply
  | request_account_recovery_operation r acc a _ => request_account_recovery_do_apply r acc a
  | recover_account_operation acc n r _ => recover_account_do_apply acc n r
  | reset_account_operation _ _ _ => reset_account_do_apply
  | set_reset_account_operation _ _ _ => set_reset_account_do_apply
  | change_recovery_account_operation acc n _ => change_recovery_account_do_apply acc n
  | transfer_to_savings_operation f t a _ => transfer_to_savings_do_apply f t a
  | transfer_from_savings_operation f id t a m => transfer_from_savings_do_apply f id t a m
  | cancel_transfer_from_savings_operation f id => cancel_transfer_from_savings_do_apply f id
  | decline_voting_rights_operation acc d => decline_voting_rights_do_apply acc d
  | claim_reward_balance_operation acc l d v => claim_reward_balance_do_apply acc l d v
  | delegate_vesting_shares_operation d e v => delegate_vesting_shares_do_apply d e v
  end.

(** The operations of a transaction: all are validated, then each is applied. *)
Definition operations_validate (ops : list operation) : res unit :=
  res_fold (fun _ op => operation_validate op) tt ops.

(** ** Conservation *)

(** Setting a proxy relies on the proxy graph being free of cycles. *)
Definition op_pre (op : operation) (s : database) : Prop :=
  match op with
  | account_witness_proxy_operation account _ => proxy_ok account s
  | _ => True
  end.

Lemma conserves_elim {A} (m : C A) s a s' : conserves m → well_typed s → m s = Ok (a, s') →
  well_typed s' ∧ ∀ ch, gap ch s' = gap ch s.
Proof. intros Hc. apply Hc. Qed.

Hint Resolve transfer_conserves transfer_to_savings_conserves transfer_from_savings_conserves
  convert_conserves transfer_to_vesting_conserves withdraw_vesting_conserves
  set_withdraw_vesting_route_conserves delegate_vesting_shares_conserves
  cancel_transfer_from_savings_conserves escrow_transfer_conserves escrow_approve_conserves
  escrow_dispute_conserves escrow_release_conserves claim_reward_balance_conserves
  limit_order_create_conserves limit_order_create2_conserves limit_order_cancel_conserves
  account_create_conserves account_create_with_delegation_conserves claim_account_conserves
  create_claimed_account_conserves account_update_conserves request_account_recovery_conserves
  report_over_production_conserves recover_account_conserves change_recovery_account_conserves decline_voting_rights_conserves
  witness_update_conserves witness_set_properties_conserves feed_publish_conserves
  account_witness_vote_conserves custom_conserves custom_json_conserves custom_binary_conserves
  comment_conserves comment_options_conserves delete_comment_conserves vote_conserves
  conserves_throw : evaluators.

Lemma apply_operation_gap op s u s' :
  operation_validate op = Ok tt → well_typed s → op_pre op s → apply_operation op s = Ok (u, s') →
  well_typed s' ∧ ∀ ch, gap ch s' = gap ch s.
Proof.
  intros Hval Hwt Hpre Hrun.
  destruct op; cbn [apply_operation operation_validate op_pre] in *;
    first [ eapply account_witness_proxy_conserves; eassumption
          | eapply conserves_elim; [|exact Hwt|exact Hrun]; solve [eauto with evaluators nocore] | idtac ].
  all: eapply conserves_elim; [|exact Hwt|exact Hrun]; clear Hrun.
  8,9: apply conserves_lift.
  all: unfold account_create_validate, account_create_with_delegation_validate, claim_account_validate,
    escrow_transfer_validate, escrow_release_validate, escrow_symbols_validate,
    limit_order_create_validate, limit_order_create2_validate, claim_reward_balance_validate in Hval;
    validated Hval; eauto with evaluators.
Qed.

(** Each operation of a transaction meets its precondition when its turn comes. *)
Fixpoint ops_pre (ops : list operation) (s : database) : Prop :=
  match ops with
  | [] => True
  | op :: ops' => op_pre op s ∧ ∀ s', apply_operation op s = Ok (tt, s') → ops_pre ops' s'
  end.

Lemma operations_validate_ok ops : operations_validate ops = Ok tt →
  ∀ op, op ∈ ops → operation_validate op = Ok tt.
Proof.
  unfold operations_validate. induction ops as [|o ops IH]; cbn; intros Hv op Hop; [inversion Hop|].
  inv_ok. apply elem_of_cons in Hop as [->|Hop]; auto.
Qed.

Lemma run_operations_gap ops s u s' : (∀ op, op ∈ ops → operation_validate op = Ok tt) →
  well_typed s → ops_pre ops s → for_each ops apply_operation s = Ok (u, s') →
  well_typed s' ∧ ∀ ch, gap ch s' = gap ch s.
Proof.
  intros Hv Hwt Hpre Hrun. destruct u.
  revert s Hwt Hpre Hrun. induction ops as [|op ops IH]; cbn; intros s Hwt Hpre Hrun; inv_ok; [done|].
  destruct Hpre as [Hop Hops].
  match goal with E : apply_operation _ _ = _ |- _ =>
    pose proof (apply_operation_gap _ _ _ _ (Hv _ (list_elem_of_here _ _)) Hwt Hop E) as [Hwt1 Hg1];
    specialize (Hops _ E) end.
  destruct (IH ltac:(intros; by apply Hv, list_elem_of_further) _ Hwt1 Hops Hrun) as [? Hg].
  split; [done|]. intros ch. by rewrite Hg.
Qed.
End Dispatch.
