(* ===== verification/Invariants.v ===== *)
(** * The supply invariants

    [database::validate_invariants] and the re-tallying functions of
    src/src/core/chain/database.cpp.  The check sums every balance the tables
    hold, with overflow checks and symbol checks at each addition, and compares
    with the recorded supplies; [validate_invariants_balanced] shows that a state
    it accepts is one whose gaps (Ledger.v) are all zero. *)
From S2P Require Import Prelude Ints Config Asset Authority State Store Ledger Balances Vesting Conserve EvalContent.

(** The running totals of the check. *)
Record tally := mk_tally {
  total_supply : asset;
  total_dollars : asset;
  total_vesting : asset;
  pending_vesting_liquid : asset;
  total_vsf_votes : share_type
}.
#[export] Instance eta_tally : Eta tally := fun r => mk_tally
  (total_supply r) (total_dollars r) (total_vesting r) (pending_vesting_liquid r) (total_vsf_votes r).
#[export] Instance set_total_supply : Setter total_supply := ltac:(derive_setter total_supply).
#[export] Instance set_total_dollars : Setter total_dollars := ltac:(derive_setter total_dollars).

Definition no_tally : tally :=
  mk_tally (mk_asset 0 LIQUID_SYMBOL) (mk_asset 0 DOLLAR_SYMBOL) (mk_asset 0 VESTS_SYMBOL) (mk_asset 0 LIQUID_SYMBOL) 0.

Definition asset_sum (a : asset) (l : list asset) : res asset := res_fold asset_add a l.
Definition add_supply (t : tally) (l : list asset) : res tally :=
  let? x := asset_sum (total_supply t) l in Ok (t <| total_supply := x |>).
Definition add_dollars (t : tally) (l : list asset) : res tally :=
  let? x := asset_sum (total_dollars t) l in Ok (t <| total_dollars := x |>).
(** ZTR to the one total, ZBD to the other. *)
Definition add_by_symbol (t : tally) (a : asset) (otherwise : res tally) : res tally :=
  if symbol a =? LIQUID_SYMBOL then add_supply t [a]
  else if symbol a =? DOLLAR_SYMBOL then add_dollars t [a]
  else otherwise.

Definition tally_account (t : tally) (a : account_object) : res tally :=
  let? s := asset_sum (total_supply t)
    [acc_liquid_balance a; acc_savings_liquid_balance a; acc_reward_liquid_balance a] in
  let? d := asset_sum (total_dollars t)
    [acc_dollar_balance a; acc_savings_dollar_balance a; acc_reward_dollar_balance a] in
  let? v := asset_sum (total_vesting t) [acc_vesting_share_balance a; acc_reward_vesting_share_balance a] in
  let? p := asset_add (pending_vesting_liquid t) (acc_reward_vesting_liquid_balance a) in
  let? w := if bool_decide (acc_proxy a = ZATTERA_PROXY_TO_SELF_ACCOUNT) then witness_vote_weight a
            else Ok (nth (ZATTERA_MAX_PROXY_RECURSION_DEPTH - 1) (acc_proxied_vsf_votes a) 0) in
  let? f := safe.add (total_vsf_votes t) w in
  Ok (mk_tally s d v p f).
Definition tally_convert_request (t : tally) (r : convert_request_object) : res tally :=
  add_by_symbol t (cro_amount r) (Throw (assert_exception "Encountered illegal symbol in convert_request_object")).
Definition tally_limit_order (t : tally) (o : limit_order_object) : res tally :=
  add_by_symbol t (mk_asset (loo_for_sale o) (symbol (base (loo_sell_price o)))) (Ok t).
Definition tally_escrow (t : tally) (e : escrow_object) : res tally :=
  let? t := add_supply t [esc_liquid_balance e] in
  let? t := add_dollars t [esc_dollar_balance e] in
  add_by_symbol t (esc_pending_fee e) (Throw (assert_exception "found escrow pending fee that is not ZBD or ZTR")).
Definition tally_savings_withdraw (t : tally) (w : savings_withdraw_object) : res tally :=
  add_by_symbol t (swo_amount w) (Throw (assert_exception "found savings withdraw that is not ZBD or ZTR")).
Definition tally_reward_fund (t : tally) (f : reward_fund_object) : res tally :=
  add_supply t [rfo_reward_balance f].

(** A loop of the check over one index. *)
Definition tally_rows `{Table A} (key : A → list key_atom) (f : tally → A → res tally) (s : database) (t : tally) : res tally :=
  res_fold (fun t q => f t q.2) t (index_rows key s).

Definition validate_invariants (s : database) : res unit :=
  let g := gpo s in
  let? _ := res_fold (fun _ q => res_assert (wit_votes q.2 <=? amount (gpo_total_vesting_shares g)) "votes")
              tt (index_rows (A := witness_object) (fun _ => []) s) in
  let? t := tally_rows (fun a => [KS (acc_name a)]) tally_account s no_tally in
  let? t := tally_rows (fun _ => []) tally_convert_request s t in
  let? t := tally_rows (fun _ => []) tally_limit_order s t in
  let? t := tally_rows (fun _ => []) tally_escrow s t in
  let? t := tally_rows (fun _ => []) tally_savings_withdraw s t in
  let? t := tally_rows (fun _ => []) tally_reward_fund s t in
  let? f := asset_sum (gpo_total_vesting_fund_liquid g)
              [gpo_total_reward_fund_liquid g; gpo_pending_rewarded_vesting_liquid g] in
  let? t := add_supply t [f] in
  let? _ := res_assert (asset_eqb (gpo_current_liquid_supply g) (total_supply t)) "current_liquid_supply" in
  let? _ := res_assert (asset_eqb (gpo_current_dollar_supply g) (total_dollars t)) "current_dollar_supply" in
  let? v := asset_add (gpo_total_vesting_shares g) (gpo_pending_rewarded_vesting_shares g) in
  let? _ := res_assert (asset_eqb v (total_vesting t)) "total_vesting_shares" in
  let? _ := res_assert (amount (gpo_total_vesting_shares g) =? total_vsf_votes t) "total_vsf_votes" in
  let? _ := res_assert (asset_eqb (gpo_pending_rewarded_vesting_liquid g) (pending_vesting_liquid t))
              "pending_rewarded_vesting_liquid" in
  let? c := asset_ge (gpo_virtual_liquid_supply g) (gpo_current_liquid_supply g) in
  let? _ := res_assert c "virtual_liquid_supply >= current_liquid_supply" in
  let p := fho_current_median_history (feed_history s) in
  if negb (is_null p) then
    let? d := asset_mul_price (gpo_current_dollar_supply g) p in
    let? d := asset_add d (gpo_current_liquid_supply g) in
    res_assert (asset_eqb d (gpo_virtual_liquid_supply g)) "virtual_liquid_supply"
  else Ok tt.

(** ** Re-tallying *)

Definition retally_comment_children : C unit :=
  let* cidx := index (A := comment_object) (fun _ => []) in
  for_each cidx (fun r => modify_row r (fun c => c <| com_children := 0 |>)) ;;
  for_each cidx (fun r =>
    let* c := load r in
    when (negb (bool_decide (com_parent_author c = ZATTERA_ROOT_POST_PARENT)))
      (let* parent := get_comment (com_parent_author c) (com_parent_permlink c) in
       update_ancestors (fun p => p <| com_children ::= fun n => wrap_u32 (n + 1) |>) parent)).

Definition retally_witness_votes : C unit :=
  let* widx := index (A := witness_object) (fun _ => []) in
  for_each widx (fun r => modify_row r (fun w => w <| wit_votes := 0 |> <| wit_virtual_position := 0 |>)) ;;
  let* aidx := index (A := account_object) (fun _ => []) in
  for_each aidx (fun r =>
    let* a := load r in
    when (bool_decide (acc_proxy a = ZATTERA_PROXY_TO_SELF_ACCOUNT))
      (let* votes := witness_votes_of (acc_name a) in
       for_each votes (fun v =>
         let* vo := load v in
         let* w := get_by (fun w => bool_decide (wit_owner w = wvo_witness vo)) in
         let! weight := witness_vote_weight a in
         adjust_witness_vote w weight))).

Definition retally_witness_vote_counts (force : bool) : C unit :=
  let* aidx := index (A := account_object) (fun _ => []) in
  for_each aidx (fun r =>
    let* a := load r in
    let* votes := witness_votes_of (acc_name a) in
    let witnesses_voted_for :=
      if force || negb (bool_decide (acc_proxy a = ZATTERA_PROXY_TO_SELF_ACCOUNT))
      then wrap_u16 (Z.of_nat (length votes)) else 0 in
    when (negb (acc_witnesses_voted_for a =? witnesses_voted_for))
      (modify_row r (fun a => a <| acc_witnesses_voted_for := witnesses_voted_for |>))).

(** ** The check accepts exactly balanced books *)

(** What the totals amount to, per channel. *)
Definition tally_of (ch : chan) (t : tally) : Z :=
  match ch with
  | Held c => amt c (total_supply t) + amt c (total_dollars t) + amt c (total_vesting t)
  | Pending_liquid => amount (pending_vesting_liquid t)
  | Vsf => total_vsf_votes t
  end.

Lemma asset_sum_amt l a r c : asset_sum a l = Ok r → amt c r = amt c a + amts c l.
Proof.
  unfold asset_sum, amts. revert a. induction l as [|x l IH]; cbn; intros a H; inv_ok; [lia|].
  apply IH in H. match goal with E : asset_add _ _ = _ |- _ => apply (amt_add c) in E end. lia.
Qed.
Lemma witness_vote_weight_ok a w : witness_vote_weight a = Ok w → w = vote_weight a.
Proof.
  unfold witness_vote_weight, vote_weight. generalize (amount (acc_vesting_share_balance a)).
  induction (acc_proxied_vsf_votes a) as [|x l IH]; cbn; intros b H; inv_ok; [lia|].
  apply IH in H. match goal with E : safe.add _ _ = _ |- _ => apply safe_add_ok in E end. lia.
Qed.

Ltac tally_close ch :=
  destruct ch as [c| |]; cbn;
  repeat match goal with E : asset_sum _ _ = Ok _ |- _ => apply (asset_sum_amt _ _ _ c) in E end;
  unfold amts in *; cbn in *; try lia.

Lemma add_by_symbol_tally t a o t' ch : (∀ u, o = Ok u → u = t) → add_by_symbol t a o = Ok t' →
  (symbol a = VESTS_SYMBOL → ch ≠ Held VESTS_SYMBOL) →
  match ch with Held c => c = LIQUID_SYMBOL ∨ c = DOLLAR_SYMBOL ∨ c = VESTS_SYMBOL | _ => True end →
  tally_of ch t' = tally_of ch t + match ch with Held c => amt c a | _ => 0 end.
Proof.
  unfold add_by_symbol, add_supply, add_dollars. intros Ho H Hs Hc.
  destruct (symbol a =? LIQUID_SYMBOL) eqn:EL; [|destruct (symbol a =? DOLLAR_SYMBOL) eqn:ED]; inv_ok.
  1,2: tally_close ch.
  apply Ho in H as ->. destruct ch as [c| |]; cbn; [|lia..].
  replace (amt c a) with 0; [lia|]. unfold amt. bool_prop.
  destruct (symbol a =? c) eqn:E; [|done]. bool_prop. subst. exfalso.
  destruct Hc as [?|[?|Hv]]; [done..|]. apply (Hs Hv). by rewrite Hv.
Qed.

(** The channels of the check: the three assets, and the two side sums. *)
Definition known (ch : chan) : Prop :=
  match ch with Held c => c = LIQUID_SYMBOL ∨ c = DOLLAR_SYMBOL ∨ c = VESTS_SYMBOL | _ => True end.

Lemma msum_permutation {A} (w : A → Z) (m : gmap Z A) l : l ≡ₚ map_to_list m →
  msum w m = fold_right (fun q acc => w q.2 + acc) 0 l.
Proof.
  intros Hl. unfold msum. rewrite map_fold_foldr.
  transitivity (fold_right (fun q acc => w q.2 + acc) 0 (map_to_list m)).
  - clear Hl. induction (map_to_list m) as [|[i x] k IH]; cbn; [done|]. by rewrite IH.
  - symmetry. clear -Hl. induction Hl; cbn; lia.
Qed.

(** A loop over an index adds the weight of the whole table. *)
Lemma tally_rows_sum `{Table A, Weighed A} (key : A → list key_atom) f s t t' ch (P : A → Prop) :
  (∀ t o t', P o → f t o = Ok t' → tally_of ch t' = tally_of ch t + weigh ch o) →
  map_Forall (fun _ => P) (rows (tbl s)) →
  tally_rows key f s t = Ok t' → tally_of ch t' = tally_of ch t + msum (weigh ch) (rows (tbl s)).
Proof.
  unfold tally_rows. intros Hf HP Hrun.
  assert (Hperm : index_rows key s ≡ₚ map_to_list (rows (tbl s))) by apply merge_sort_Permutation.
  rewrite (msum_permutation _ _ _ Hperm).
  assert (HQ : Forall (fun q => P q.2) (index_rows key s)).
  { rewrite Hperm. apply list.Forall_forall. intros [i o] Hin%elem_of_map_to_list. exact (HP _ _ Hin). }
  clear Hperm HP. revert t Hrun HQ.
  induction (index_rows key s) as [|[i o] l IH]; cbn; intros t Hrun HQ; inv_ok; [lia|].
  apply Forall_cons_1 in HQ as [Ho HQ]. apply IH in Hrun; [|done].
  match goal with E : f _ _ = _ |- _ => apply Hf in E; [|done] end. lia.
Qed.

Lemma tally_account_sum ch t a t' : known ch → tally_account t a = Ok t' →
  tally_of ch t' = tally_of ch t + weigh ch a.
Proof.
  unfold tally_account. intros Hk H. inv_ok.
  match goal with E : safe.add _ _ = _ |- _ => apply safe_add_ok in E as -> end.
  match goal with E : asset_add _ _ = _ |- _ => apply asset_add_ok in E as (_ & _ & ?) end.
  destruct ch as [c| |]; cbn.
  - repeat match goal with E : asset_sum _ _ = Ok _ |- _ => apply (asset_sum_amt _ _ _ c) in E end.
    unfold amts in *. cbn in *. lia.
  - done.
  - unfold weigh, weigh_account, vsf_weight. case_bool_decide; inv_ok; [|done].
    match goal with E : witness_vote_weight _ = _ |- _ => apply witness_vote_weight_ok in E end. lia.
Qed.

Lemma tally_convert_sum ch t r t' : known ch → tally_convert_request t r = Ok t' →
  tally_of ch t' = tally_of ch t + weigh ch r.
Proof.
  intros Hk H. unfold tally_convert_request in H.
  assert (symbol (cro_amount r) ≠ VESTS_SYMBOL) by (intros E; unfold add_by_symbol in H; by rewrite E in H).
  apply (add_by_symbol_tally _ _ _ _ ch) in H; [|done..]. rewrite H. destruct ch as [c| |]; cbn; lia.
Qed.
Lemma tally_savings_sum ch t r t' : known ch → tally_savings_withdraw t r = Ok t' →
  tally_of ch t' = tally_of ch t + weigh ch r.
Proof.
  intros Hk H. unfold tally_savings_withdraw in H.
  assert (symbol (swo_amount r) ≠ VESTS_SYMBOL) by (intros E; unfold add_by_symbol in H; by rewrite E in H).
  apply (add_by_symbol_tally _ _ _ _ ch) in H; [|done..]. rewrite H. destruct ch as [c| |]; cbn; lia.
Qed.
Lemma tally_order_sum ch t o t' : known ch → order_typed o → tally_limit_order t o = Ok t' →
  tally_of ch t' = tally_of ch t + weigh ch o.
Proof.
  intros Hk [Ht _] H. unfold tally_limit_order in H.
  apply (add_by_symbol_tally _ _ _ _ ch) in H; [|by intros ? [= ->]|done..].
  rewrite H. destruct ch as [c| |]; cbn; lia.
Qed.
Lemma add_supply_tally ch t l t' : add_supply t l = Ok t' →
  tally_of ch t' = tally_of ch t + match ch with Held c => amts c l | _ => 0 end.
Proof. unfold add_supply. intros H. inv_ok. tally_close ch. Qed.
Lemma add_dollars_tally ch t l t' : add_dollars t l = Ok t' →
  tally_of ch t' = tally_of ch t + match ch with Held c => amts c l | _ => 0 end.
Proof. unfold add_dollars. intros H. inv_ok. tally_close ch. Qed.
Lemma tally_escrow_sum ch t e t' : known ch → tally_escrow t e = Ok t' →
  tally_of ch t' = tally_of ch t + weigh ch e.
Proof.
  intros Hk H. unfold tally_escrow in H. inv_ok.
  assert (symbol (esc_pending_fee e) ≠ VESTS_SYMBOL) by (intros E; unfold add_by_symbol in H; by rewrite E in H).
  apply (add_by_symbol_tally _ _ _ _ ch) in H; [|done..].
  match goal with E : add_supply _ _ = _ |- _ => apply (add_supply_tally ch) in E end.
  match goal with E : add_dollars _ _ = _ |- _ => apply (add_dollars_tally ch) in E end.
  destruct ch as [c| |]; cbn in *; lia.
Qed.

Definition balanced (s : database) : Prop := ∀ ch, known ch → gap ch s = 0.

Lemma asset_eqb_amt c a b : asset_eqb a b = true → amt c a = amt c b.
Proof. by intros ->%asset_eqb_eq. Qed.

Lemma validate_invariants_gap s ch : well_typed s → known ch → validate_invariants s = Ok tt → gap ch s = 0.
Proof.
  intros (_ & _ & Hord & _) Hk H. unfold validate_invariants in H. inv_ok. clear H.
  repeat match goal with E : tally_rows _ ?f _ _ = Ok _ |- _ =>
    let tac := (fun P => apply (tally_rows_sum _ _ _ _ _ ch P) in E) in
    lazymatch f with
    | tally_limit_order => tac order_typed; [|intros; by eapply tally_order_sum|done]
    | tally_account => tac (fun _ : account_object => True); [|intros; by apply tally_account_sum|done]
    | tally_convert_request => tac (fun _ : convert_request_object => True); [|intros; by apply tally_convert_sum|done]
    | tally_escrow => tac (fun _ : escrow_object => True); [|intros; by apply tally_escrow_sum|done]
    | tally_savings_withdraw => tac (fun _ : savings_withdraw_object => True); [|intros; by apply tally_savings_sum|done]
    | tally_reward_fund => tac (fun _ : reward_fund_object => True);
        [|intros ? ? ? _ ?%(add_supply_tally ch); destruct ch; done|done]
    end end.
  match goal with E : add_supply _ [_] = _ |- _ => apply (add_supply_tally ch) in E end.
  bool_prop. unfold gap. cbn [tbl account_object_table convert_request_object_table limit_order_object_table
    escrow_object_table savings_withdraw_object_table reward_fund_object_table] in *.
  destruct ch as [c| |].
  - repeat match goal with
    | E : asset_eqb _ _ = true |- _ => apply (asset_eqb_amt c) in E
    | E : asset_sum _ _ = Ok _ |- _ => apply (asset_sum_amt _ _ _ c) in E
    | E : asset_add (gpo_total_vesting_shares _) _ = Ok _ |- _ => apply (amt_add c) in E
    end.
    unfold weigh at 7, weigh_gpo. cbn [tally_of no_tally total_supply total_dollars total_vesting] in *.
    unfold amts in *. cbn [fold_right] in *.
    rewrite !(amt_zero c (mk_asset 0 _)) in * by done. lia.
  - repeat match goal with E : asset_eqb (gpo_pending_rewarded_vesting_liquid _) _ = true |- _ =>
      apply asset_eqb_eq, (f_equal amount) in E end.
    unfold weigh at 7, weigh_gpo. cbn in *. lia.
  - unfold weigh at 7, weigh_gpo. cbn in *. lia.
Qed.

Lemma validate_invariants_balanced s : well_typed s → validate_invariants s = Ok tt → balanced s.
Proof. intros Hwt H ch Hk. by apply validate_invariants_gap. Qed.

(** C7: the check is sound: a well-typed state that [validate_invariants] accepts
    is balanced, that is, for every symbol the recorded supply is the sum of what
    accounts, savings, conversions, orders, escrows and funds hold, pending vesting
    rewards add up, and the votes of all accounts add up to the vesting shares. *)
Theorem validate_invariants_sound s : well_typed s → validate_invariants s = Ok tt → balanced s.
Proof. apply validate_invariants_balanced. Qed.
