(* ===== verification/Genesis.v ===== *)
(** * The initial state

    [database::init_genesis] of src/src/core/chain/database.cpp: the accounts, the
    witness, the singletons, the block summaries and the reward fund a chain starts
    from.  Every invariant of the development holds of the state it builds. *)
From stdpp Require Import pretty.
From S2P Require Import Prelude Ints Config Asset Authority Headers State Blocks Store Ledger Balances Vesting Conserve EvalAccounts.
From S2P Require Import EvalContent Invariants.

Definition ZATTERA_GENESIS_PUBLIC_KEY : public_key_type := "ZTR8MxbBULHYSq5MzAak5KK2pqvB7QdGmmuDqxDY8KDnsdSBM5T4K".
Definition ZATTERA_LIQUID_INITIAL_SUPPLY : Z := 0.
Definition ZATTERA_DOLLAR_INITIAL_SUPPLY : Z := 0.
Definition ZATTERA_NUM_GENESIS_WITNESSES : nat := 1.

(** The initial values of global_property_object.hpp, witness_objects.hpp and
    hardfork_property_object.hpp. *)
Definition default_gpo : dynamic_global_property_object := mk_dynamic_global_property_object
  0 null_id 0 "" (mk_asset 0 LIQUID_SYMBOL) (mk_asset 0 LIQUID_SYMBOL) (mk_asset 0 LIQUID_SYMBOL)
  (mk_asset 0 DOLLAR_SYMBOL) (mk_asset 0 DOLLAR_SYMBOL) (mk_asset 0 LIQUID_SYMBOL) (mk_asset 0 VESTS_SYMBOL)
  (mk_asset 0 LIQUID_SYMBOL) 0 (mk_asset 0 VESTS_SYMBOL) (mk_asset 0 LIQUID_SYMBOL)
  0 ZATTERA_100_PERCENT 0 0 0 0 0 ZATTERA_VOTE_POWER_RESERVE_RATE ZATTERA_DELEGATION_RETURN_PERIOD.
Definition default_witness_schedule : witness_schedule_object := mk_witness_schedule_object
  0 1 (repeat "" (Z.to_nat ZATTERA_MAX_WITNESSES)) 1 1 5 25 default_chain_properties 0
  ZATTERA_MAX_VOTED_WITNESSES ZATTERA_MAX_RUNNER_WITNESSES ZATTERA_HARDFORK_REQUIRED_WITNESSES.
Definition default_hardforks : hardfork_property_object := mk_hardfork_property_object [] 0 0 0 0.
Definition default_feed_history : feed_history_object := mk_feed_history_object null_price [].

(** The database before [init_genesis]: no object exists. *)
Definition empty_database : database := mk_database
  empty_table empty_table empty_table empty_table empty_table empty_table empty_table empty_table empty_table
  empty_table empty_table empty_table empty_table empty_table empty_table empty_table empty_table empty_table
  empty_table empty_table empty_table default_gpo default_feed_history default_witness_schedule default_hardforks
  false [].

(** The names of the genesis witnesses: the first carries no number. *)
Definition genesis_witness_name (i : nat) : account_name_type :=
  match i with O => ZATTERA_GENESIS_WITNESS_NAME | _ => ZATTERA_GENESIS_WITNESS_NAME +:+ pretty i end.

Definition init_special_accounts : C unit :=
  create (default_account <| acc_name := ZATTERA_NULL_ACCOUNT |>) ;;
  create (mk_account_authority_object ZATTERA_NULL_ACCOUNT (mk_authority 1 [] []) (mk_authority 1 [] []) (mk_authority 1 [] []) 0) ;;
  create (default_account <| acc_name := ZATTERA_TEMP_ACCOUNT |>) ;;
  create (mk_account_authority_object ZATTERA_TEMP_ACCOUNT (mk_authority 0 [] []) (mk_authority 0 [] []) (mk_authority 1 [] []) 0) ;;
  ret tt.

Definition init_witness (liquid_initial_supply dollar_initial_supply : Z) (i : nat) : C unit :=
  let name := genesis_witness_name i in
  let owner := mk_authority 1 [] [(ZATTERA_GENESIS_PUBLIC_KEY, 1)] in
  create (default_account <| acc_name := name |> <| acc_memo_key := ZATTERA_GENESIS_PUBLIC_KEY |>
    <| acc_liquid_balance := mk_asset (wrap_i64 (if bool_decide (i = 0%nat) then liquid_initial_supply else 0)) LIQUID_SYMBOL |>
    <| acc_dollar_balance := mk_asset (wrap_i64 (if bool_decide (i = 0%nat) then dollar_initial_supply else 0)) DOLLAR_SYMBOL |>) ;;
  create (mk_account_authority_object name owner owner owner 0) ;;
  create (default_witness <| wit_owner := name |> <| wit_signing_key := ZATTERA_GENESIS_PUBLIC_KEY |>
    <| wit_schedule := timeshare |>) ;;
  ret tt.

Definition init_properties (liquid_initial_supply dollar_initial_supply : Z) : C unit :=
  modify (fun s => s <| gpo := default_gpo
    <| gpo_current_witness := ZATTERA_GENESIS_WITNESS_NAME |> <| gpo_time := ZATTERA_GENESIS_TIME |>
    <| gpo_recent_slots_filled := 2 ^ 128 - 1 |> <| gpo_participation_count := 128 |>
    <| gpo_current_liquid_supply := mk_asset (wrap_i64 liquid_initial_supply) LIQUID_SYMBOL |>
    <| gpo_virtual_liquid_supply := mk_asset (wrap_i64 liquid_initial_supply) LIQUID_SYMBOL |>
    <| gpo_current_dollar_supply := mk_asset (wrap_i64 dollar_initial_supply) DOLLAR_SYMBOL |>
    <| gpo_maximum_block_size := ZATTERA_MAX_BLOCK_SIZE |>
    <| gpo_vote_power_reserve_rate := ZATTERA_VOTE_POWER_RESERVE_RATE |>
    <| gpo_delegation_return_period := ZATTERA_DELEGATION_RETURN_PERIOD |> |>
    <| feed_history := default_feed_history |>).

Definition init_block_summaries (n : nat) : C unit :=
  for_each (seq 0 n) (fun _ => create (mk_block_summary_object null_id) ;; ret tt).

Definition init_schedules : C unit :=
  modify (fun s => s
    <| hardforks := default_hardforks <| hpo_processed_hardforks := [ZATTERA_GENESIS_TIME] |> |>
    <| witness_schedule := default_witness_schedule
         <| wso_current_shuffled_witnesses ::= fun l => <[0%nat := ZATTERA_GENESIS_WITNESS_NAME]> l |>
         <| wso_max_voted_witnesses := ZATTERA_MAX_VOTED_WITNESSES |>
         <| wso_max_runner_witnesses := ZATTERA_MAX_RUNNER_WITNESSES |> |>).

Definition init_reward_fund : C unit :=
  let* post_rf := create (mk_reward_fund_object ZATTERA_POST_REWARD_FUND_NAME (mk_asset 0 LIQUID_SYMBOL) 0 ZATTERA_GENESIS_TIME
    ZATTERA_CONTENT_CONSTANT (ZATTERA_1_PERCENT * 25) ZATTERA_100_PERCENT linear square_root) in
  fc_assert (ref_id post_rf =? 0) "reward_fund_object must have id 0".

(** [init_genesis], with the number of block summaries (0x10000 in the code) as
    a parameter. *)
Definition init_genesis_with (summaries : nat) (liquid_initial_supply dollar_initial_supply : Z) : C unit :=
  init_special_accounts ;;
  for_each (seq 0 ZATTERA_NUM_GENESIS_WITNESSES) (init_witness liquid_initial_supply dollar_initial_supply) ;;
  init_properties liquid_initial_supply dollar_initial_supply ;;
  init_block_summaries summaries ;;
  init_schedules ;;
  init_reward_fund.
Definition init_genesis : Z → Z → C unit := init_genesis_with (Z.to_nat 0x10000).

(** ** The genesis state meets the invariants *)

Definition ids_below {A} (t : table A) : Prop := ∀ i, is_Some (rows t !! i) → i < next_id t.

Lemma create_summary_ok o s : ids_below (block_summary_index s) →
  create o s = Ok (Ref (next_id (block_summary_index s)), add_row o s).
Proof.
  intros Hs. unfold create. cbn [tbl block_summary_object_table].
  rewrite bool_decide_eq_false_2 by (intros Hi%Hs; lia). cbn [orb].
  by replace (existsb _ _) with false by (symmetry; apply not_true_is_false; intros (? & _ & [=])%existsb_exists).
Qed.

Lemma init_block_summaries_ok n s : ids_below (block_summary_index s) →
  ∃ t, init_block_summaries n s = Ok (tt, s <| block_summary_index := t |>).
Proof.
  unfold init_block_summaries. generalize (seq 0 n). intros l. revert s.
  induction l as [|x l IH]; intros s Hs; cbn [for_each].
  - exists (block_summary_index s). by destruct s.
  - edestruct (IH (add_row (mk_block_summary_object null_id) s)) as (t & Ht).
    { intros i. cbn. destruct (decide (i = next_id (block_summary_index s))) as [->|Hne]; [lia|].
      rewrite lookup_insert_ne by done. intros ?%Hs. lia. }
    exists t. erewrite bind_run; [exact Ht|]. erewrite bind_run; [reflexivity|]. by apply create_summary_ok.
Qed.

Lemma init_genesis_ok summaries liquid dollar :
  ∃ s, init_genesis_with summaries liquid dollar empty_database = Ok (tt, s) ∧ well_typed s ∧ balanced s.
Proof.
  unfold init_genesis_with, init_properties. cbn [for_each seq ZATTERA_NUM_GENESIS_WITNESSES]. unfold init_witness.
  rewrite bool_decide_eq_true_2 by done. generalize (wrap_i64 liquid) (wrap_i64 dollar). intros L D.
  erewrite bind_run; [|vm_compute; reflexivity].
  erewrite bind_run; [|vm_compute; reflexivity].
  erewrite bind_run; [|vm_compute; reflexivity].
  match goal with |- context [bind (init_block_summaries _) _ ?s] =>
    destruct (init_block_summaries_ok summaries s) as (t & Ht); [intros i [? [=]]|] end.
  erewrite bind_run; [|exact Ht]. eexists. split; [vm_compute; reflexivity|]. split.
  - split_and!; vm_compute; try done.
  - intros ch Hk. destruct ch as [c| |]; [destruct Hk as [->|[->| ->]]|..]; 
      cbv -[Z.add Z.sub Z.opp]; lia.
Qed.

(** A chain starts valid.  [init_genesis] never throws, whatever the initial
    supplies, and the state it builds is well typed and balanced: the supplies are
    exactly what the accounts, funds and orders hold. *)
Theorem init_genesis_balanced summaries liquid dollar :
  ∃ s, init_genesis_with summaries liquid dollar empty_database = Ok (tt, s) ∧ well_typed s ∧ balanced s.
Proof. apply init_genesis_ok. Qed.

(** The state a computation leaves; a throw rolls back. *)
Definition run_state {A} (m : C A) (s : database) : database :=
  match m s with Ok (_, s') => s' | Throw _ => s end.

(** A small chain for concrete runs: genesis with 1000000.000 liquid tokens and
    one block summary. *)
Definition sample_genesis : database := run_state (init_genesis_with 1 1000000000 0) empty_database.

Lemma validate_invariants_sound_witness : validate_invariants sample_genesis = Ok tt ∧ balanced sample_genesis.
Proof.
  assert (validate_invariants sample_genesis = Ok tt) as E by (vm_compute; reflexivity). split; [exact E|].
  apply (validate_invariants_sound sample_genesis); [split_and!; vm_compute; done|exact E].
Defined.
