(* ===== verification/BlockProc.v ===== *)
(** * Periodic processing

    What [database::_apply_block] (src/src/core/chain/database.cpp) does after the
    transactions of a block: new tokens ([process_funds], [pay_reward_funds]),
    due conversions and savings withdrawals, expired orders, delegations,
    escrows and requests, and declined voting rights.  Withdrawals.v has the
    vesting withdrawals, Payout.v the payout of comments. *)
From S2P Require Import Prelude Ints Config Asset Authority State Store Ledger Balances Vesting Conserve EvalFunds Market.
From S2P Require Import EvalAccounts Proxy.

Definition safe_mul_div (a b c : Z) : res Z := let? x := safe.mul a b in safe.div x c.

(** ** New tokens *)

Definition pay_reward_funds (reward : share_type) : C share_type :=
  let* idx := index (A := reward_fund_object) (fun _ => []) in
  fold_m (fun used itr =>
    let* f := load itr in
    let! r := safe_mul_div reward (rfo_percent_content_rewards f) ZATTERA_100_PERCENT in
    modify_res itr (fun rfo =>
      let? b := asset_add (rfo_reward_balance rfo) (mk_asset r LIQUID_SYMBOL) in
      Ok (rfo <| rfo_reward_balance := b |>)) ;;
    let! used' := safe.add used r in
    fc_assert (used' <=? reward) "used_rewards <= reward" ;;
    ret used') 0 idx.

Definition current_inflation_rate (head_block_num : Z) : Z :=
  Z.max (ZATTERA_INFLATION_RATE_START_PERCENT - head_block_num / ZATTERA_INFLATION_NARROWING_PERIOD)
        ZATTERA_INFLATION_RATE_STOP_PERCENT.
Definition is_bootstrap_phase (g : dynamic_global_property_object) : bool :=
  amount (gpo_current_liquid_supply g) <? ZATTERA_BOOTSTRAP_SUPPLY_THRESHOLD.
Definition block_inflation (g : dynamic_global_property_object) : res share_type :=
  if is_bootstrap_phase g then Ok ZATTERA_BOOTSTRAP_FIXED_BLOCK_REWARD
  else safe_mul_div (amount (gpo_virtual_liquid_supply g)) (current_inflation_rate (gpo_head_block_number g))
         (ZATTERA_100_PERCENT * ZATTERA_BLOCKS_PER_YEAR).
(** The pay of the block's producer, weighted by its place in the schedule. *)
Definition weigh_witness_reward (reward : share_type) (schedule : witness_schedule_type)
    (wso : witness_schedule_object) : res share_type :=
  let? r := safe.mul reward ZATTERA_MAX_WITNESSES in
  let? r := match schedule with
            | timeshare => safe.mul r (wso_timeshare_weight wso)
            | top20 => safe.mul r (wso_top20_weight wso)
            | none => Ok r
            end in
  safe.div r (wso_witness_pay_normalization_factor wso).

Definition process_funds : C unit :=
  let* props := get_dynamic_global_properties in
  let* wso := get_witness_schedule_object in
  let! new_liquid := block_inflation props in
  let! content := safe_mul_div new_liquid ZATTERA_CONTENT_REWARD_PERCENT ZATTERA_100_PERCENT in
  let* content_reward := pay_reward_funds content in
  let! vesting := safe_mul_div new_liquid ZATTERA_VESTING_FUND_PERCENT ZATTERA_100_PERCENT in
  let vesting_reward :=
    if amount (gpo_total_vesting_shares props) <? ZATTERA_MIN_REWARD_VESTING_SHARES then 0 else vesting in
  let! rest := safe.sub new_liquid content_reward in
  let! witness_reward := safe.sub rest vesting_reward in
  let* cwit := get_witness (gpo_current_witness props) in
  let* w := load cwit in
  let! witness_reward := if is_bootstrap_phase props then Ok witness_reward
                         else weigh_witness_reward witness_reward (wit_schedule w) wso in
  let! new_liquid := safe.add content_reward vesting_reward in
  let! new_liquid := safe.add new_liquid witness_reward in
  modify_gpo (fun p =>
    let? f := asset_add (gpo_total_vesting_fund_liquid p) (mk_asset vesting_reward LIQUID_SYMBOL) in
    let? c := asset_add (gpo_current_liquid_supply p) (mk_asset new_liquid LIQUID_SYMBOL) in
    let? v := asset_add (gpo_virtual_liquid_supply p) (mk_asset new_liquid LIQUID_SYMBOL) in
    Ok (p <| gpo_total_vesting_fund_liquid := f |> <| gpo_current_liquid_supply := c |>
          <| gpo_virtual_liquid_supply := v |>)) ;;
  let* producer := get_account (wit_owner w) in
  let* producer_reward := create_vesting producer (mk_asset witness_reward LIQUID_SYMBOL) false in
  push_virtual_operation (producer_reward_operation (wit_owner w) producer_reward).

(** ** Due requests *)

Definition process_savings_withdraws : C unit :=
  let* now := head_block_time in
  drain (fun w => [KZ (swo_complete w); KS (swo_from w); KZ (swo_request_id w)])
    (fun w => swo_complete w <=? now) (fun itr =>
    let* w := load itr in
    let* to := get_account (swo_to w) in
    adjust_balance to (swo_amount w) ;;
    let* from := get_account (swo_from w) in
    modify_row from (fun a => a <| acc_savings_withdraw_requests ::= fun n => wrap_u8 (n - 1) |>) ;;
    push_virtual_operation (fill_transfer_from_savings_operation (swo_from w) (swo_to w) (swo_amount w)
      (swo_request_id w) (swo_memo w)) ;;
    remove itr).

(** The loop over the due conversions; it carries the totals burnt and issued. *)
Fixpoint convert_due (fuel : nat) (now : time) (p : price) (net : asset * asset) : C (asset * asset) :=
  match fuel with
  | O => throw out_of_fuel
  | S fuel' =>
      let* itr := index_begin (fun r => [KZ (cro_conversion_date r)]) in
      match itr with
      | None => ret net
      | Some r =>
          let* o := load r in
          if cro_conversion_date o <=? now then
            let! amount_to_issue := asset_mul_price (cro_amount o) p in
            adjust_balance_name (cro_owner o) amount_to_issue ;;
            let! net_dollars := asset_add net.1 (cro_amount o) in
            let! net_liquid := asset_add net.2 amount_to_issue in
            push_virtual_operation (fill_convert_request_operation (cro_owner o) (cro_requestid o)
              (cro_amount o) amount_to_issue) ;;
            remove r ;;
            convert_due fuel' now p (net_dollars, net_liquid)
          else ret net
      end
  end.
Definition process_conversions : C unit :=
  let* now := head_block_time in
  let* fh := get_feed_history in
  let p := fho_current_median_history fh in
  if is_null p then ret tt
  else
    let* n := table_size (A := convert_request_object) in
    let* (net_dollars, net_liquid) := convert_due (S n) now p (mk_asset 0 DOLLAR_SYMBOL, mk_asset 0 LIQUID_SYMBOL) in
    modify_gpo (fun g =>
      let? c := asset_add (gpo_current_liquid_supply g) net_liquid in
      let? d := asset_sub (gpo_current_dollar_supply g) net_dollars in
      let? v := asset_add (gpo_virtual_liquid_supply g) net_liquid in
      let? x := asset_mul_price net_dollars p in
      let? v := asset_sub v x in
      Ok (g <| gpo_current_liquid_supply := c |> <| gpo_current_dollar_supply := d |>
            <| gpo_virtual_liquid_supply := v |>)).

Definition clear_expired_transactions : C unit :=
  let* now := head_block_time in
  drain (fun t => [KZ (txo_expiration t)]) (fun t => now >? txo_expiration t) remove.

Definition clear_expired_delegations : C unit :=
  let* now := head_block_time in
  drain (fun d => [KZ (vde_expiration d)]) (fun d => vde_expiration d <? now) (fun itr =>
    let* d := load itr in
    let* a := get_account (vde_delegator d) in
    modify_res a (fun a =>
      let? x := asset_sub (acc_delegated_vesting_share_balance a) (vde_vesting_shares d) in
      Ok (a <| acc_delegated_vesting_share_balance := x |>)) ;;
    push_virtual_operation (return_vesting_delegation_operation (vde_delegator d) (vde_vesting_shares d)) ;;
    remove itr).

Definition account_recovery_processing : C unit :=
  let* now := head_block_time in
  drain (fun r => [KZ (arr_expires r); KS (arr_account_to_recover r)]) (fun r => arr_expires r <=? now) remove ;;
  drain (A := owner_authority_history_object) (fun _ => [])
    (fun h => wrap_u32 (oah_last_valid_time h + ZATTERA_OWNER_AUTH_RECOVERY_PERIOD) <? now) remove ;;
  drain (fun r => [KZ (crr_effective_on r); KS (crr_account_to_recover r)]) (fun r => crr_effective_on r <=? now) (fun itr =>
    let* r := load itr in
    let* a := get_account (crr_account_to_recover r) in
    modify_row a (fun a => a <| acc_recovery_account := crr_recovery_account r |>) ;;
    remove itr).

Definition is_approved (e : escrow_object) : bool := esc_to_approved e && esc_agent_approved e.
Definition expire_escrow_ratification : C unit :=
  let* now := head_block_time in
  drain (fun e => [KZ (if is_approved e then 1 else 0); KZ (esc_ratification_deadline e)])
    (fun e => negb (is_approved e) && (esc_ratification_deadline e <=? now)) (fun old_escrow =>
    let* e := load old_escrow in
    adjust_balance_name (esc_from e) (esc_liquid_balance e) ;;
    adjust_balance_name (esc_from e) (esc_dollar_balance e) ;;
    adjust_balance_name (esc_from e) (esc_pending_fee e) ;;
    remove old_escrow).

Definition decline_voting (itr : ref decline_voting_rights_request_object) : C unit :=
  let* r := load itr in
  let* account := get_by (fun a => bool_decide (acc_name a = dvr_account r)) in
  let* a := load account in
  let! delta := res_fold (fun l x => let? y := safe.neg x in Ok (l ++ [y])) []
                  (amount (acc_vesting_share_balance a) :: acc_proxied_vsf_votes a) in
  adjust_proxied_witness_votes_array account delta ;;
  clear_witness_votes account ;;
  modify_row account (fun a => a <| acc_can_vote := false |> <| acc_proxy := ZATTERA_PROXY_TO_SELF_ACCOUNT |>) ;;
  remove itr.
Definition process_decline_voting_rights : C unit :=
  let* now := head_block_time in
  drain (fun r => [KZ (dvr_effective_date r); KS (dvr_account r)]) (fun r => dvr_effective_date r <=? now) decline_voting.

(** ** Conservation *)

Lemma flow_add ch x y c : flow ch (mk_asset (x + y) c) = flow ch (mk_asset x c) + flow ch (mk_asset y c).
Proof. destruct ch as [d| |]; unfold flow, amt; cbn; [|lia..]. destruct (c =? d); lia. Qed.

(** The reward funds receive what the function returns. *)
Lemma pay_reward_funds_effect reward s r s' : well_typed s → pay_reward_funds reward s = Ok (r, s') →
  well_typed s' ∧ gpo s' = gpo s ∧ ∀ ch, gap ch s' = gap ch s + flow ch (mk_asset r LIQUID_SYMBOL).
Proof.
  unfold pay_reward_funds, index. intros Hwt H. inv_ok.
  eapply (fold_m_pres (fun used s1 => well_typed s1 ∧ gpo s1 = gpo s ∧
    ∀ ch, gap ch s1 = gap ch s + flow ch (mk_asset used LIQUID_SYMBOL))) in H; [done| |].
  - intros itr used s1 used' s2 _ (Hwt1 & Hgpo & Hg) Hrun. effects.
    match goal with E : safe.add _ _ = _ |- _ => apply safe_add_ok in E as -> end.
    subst. split_and!; [eauto with wt|done|]. intros ch.
    match goal with E : ∀ ch, gap ch (set_row _ _ _) = _ |- _ => rewrite E end.
    rewrite Hg, flow_add. destruct ch as [c| |]; unfold flow; try amt_facts c; weigh_simpl; lia.
  - split_and!; [done..|]. intros ch. rewrite flow_zero. lia.
Qed.

Lemma process_funds_conserves : conserves process_funds.
Proof.
  intros s u s' Hwt H. unfold process_funds in H.
  effects.
  match goal with E : pay_reward_funds _ _ = Ok _ |- _ =>
    apply (pay_reward_funds_effect _ _ _ _ Hwt) in E as (Hwt1 & Hgpo & Hg1) end.
  match goal with E : create_vesting _ _ _ _ = Ok _ |- _ =>
    apply create_vesting_wt in E as [Hf2 Hg2]; [|subst; eauto with wt] end.
  repeat match goal with E : safe.add _ _ = _ |- _ => apply safe_add_ok in E as -> end.
  split; [subst; eauto 30 with wt|]. intros ch.
  repeat match goal with E : ∀ ch, gap ch ?s2 = _ |- context [gap ch ?s2] => rewrite (E ch) end.
  destruct ch as [c| |]; unfold flow; try amt_facts c; weigh_simpl; try lia.
  unfold amt in *. cbn [symbol amount] in *. destruct (LIQUID_SYMBOL =? c); lia.
Qed.

Lemma process_savings_withdraws_conserves : conserves process_savings_withdraws.
Proof.
  apply conserves_bind; [apply conserves_gets|]. intros now. apply conserves_drain. intros r s u s' Hwt H.
  apply bind_ok in H as (w & s1 & [Hw ->]%load_ok & H).
  assert (symbol (swo_amount w) ≠ VESTS_SYMBOL) by (eapply wt_savings; eauto).
  effects; subst; frame_rows; conserve_close.
Qed.

Lemma clear_expired_orders_conserves : conserves clear_expired_orders.
Proof.
  apply conserves_bind; [apply conserves_gets|]. intros now. apply conserves_drain. apply cancel_order_conserves.
Qed.
Lemma clear_expired_transactions_conserves : conserves clear_expired_transactions.
Proof. apply conserves_bind; [apply conserves_gets|]. intros now. apply conserves_drain. conserve. Qed.

Lemma conserves_push_virtual op : conserves (push_virtual_operation op).
Proof. intros s u s' Hwt H. effects. subst. done. Qed.

Lemma clear_expired_delegations_conserves : conserves clear_expired_delegations.
Proof.
  apply conserves_bind; [apply conserves_gets|]. intros now. apply conserves_drain. intros r.
  repeat first [apply conserves_push_virtual | conserve_step].
Qed.
Lemma account_recovery_processing_conserves : conserves account_recovery_processing.
Proof. unfold account_recovery_processing. repeat first [apply conserves_drain | conserve_step]. Qed.

Lemma expire_escrow_ratification_conserves : conserves expire_escrow_ratification.
Proof.
  apply conserves_bind; [apply conserves_gets|]. intros now. apply conserves_drain. intros r s u s' Hwt H.
  apply bind_ok in H as (e & s1 & [He ->]%load_ok & H).
  destruct (wt_escrow _ _ _ Hwt He) as (? & ? & ? & _).
  effects; subst; frame_rows; conserve_close.
Qed.

Lemma convert_due_effect fuel now p net s net' s' :
  well_typed s → symbol net.2 = LIQUID_SYMBOL → convert_due fuel now p net s = Ok (net', s') →
  well_typed s' ∧ ∀ ch, gap ch s' = gap ch s + (flow ch net'.2 - flow ch net.2) - (flow ch net'.1 - flow ch net.1).
Proof.
  revert net s. induction fuel as [|fuel IH]; intros net s Hwt Hnet H; cbn in H; [inv_ok|].
  apply bind_ok in H as ([r|] & s1 & H0 & H); unfold index_begin, index in H0; inv_store.
  2: { split; [done|]. intros ch. lia. }
  case_match; inv_store.
  2: { split; [done|]. intros ch. lia. }
  match goal with E : asset_add net.2 ?a = Ok ?n2 |- _ =>
    rename a into issued; rename n2 into net2; pose proof (asset_add_ok _ _ _ E) as (Hs2 & Hs2' & _) end.
  match goal with E : asset_add net.1 _ = Ok ?n1 |- _ => rename n1 into net1 end.
  assert (symbol issued ≠ VESTS_SYMBOL) by (rewrite <- Hs2, Hnet; done).
  effects. subst. frame_rows.
  apply IH in H as [? Hg]; [|eauto 30 with wt|cbn; congruence].
  split; [done|]. intros ch. rewrite Hg. cbn [fst snd]. gap_chain ch.
Qed.

Lemma process_conversions_conserves : conserves process_conversions.
Proof.
  unfold process_conversions.
  apply conserves_bind; [apply conserves_gets|]. intros now.
  apply conserves_bind; [apply conserves_gets|]. intros fh. cbv zeta.
  destruct (is_null _); [apply conserves_ret|]. apply conserves_bind; [apply conserves_gets|]. intros n s u s' Hwt H.
  apply bind_ok in H as ([nd nl] & s1 & H1 & H).
  apply convert_due_effect in H1 as [Hwt1 Hg1]; [|done..]. cbn [fst snd] in *.
  inv_store. subst. split; [eauto with wt|]. intros ch.
  match goal with E : ∀ ch, gap ch (_ <| gpo := _ |>) = _ |- _ => rewrite E end.
  rewrite Hg1, !flow_zero. destruct ch as [c| |]; unfold flow; try amt_facts c; weigh_simpl; lia.
Qed.

(** Declining the right to vote takes the account's weight from its proxies or
    witnesses and ends the proxy. *)
Lemma decline_voting_conserves itr s u s' :
  (∀ r, row itr s = Some r → proxy_ok (dvr_account r) s) →
  well_typed s → decline_voting itr s = Ok (u, s') → well_typed s' ∧ ∀ ch, gap ch s' = gap ch s.
Proof.
  intros Hok Hwt H. unfold decline_voting in H.
  apply bind_ok in H as (r & s1 & [Hr ->]%load_ok & H). specialize (Hok _ Hr).
  apply bind_ok in H as (acc & s1 & [-> Hacc]%get_by_ok & H).
  apply bind_ok in H as (ao & s1 & [Hao ->]%load_ok & H).
  destruct (Hok _ _ Hacc Hao) as [Hlen Hav]. inv_ok.
  match goal with E : res_fold _ _ _ = _ |- _ => apply neg_all_ok in E as -> end. cbn [app] in *.
  set (delta := amount (acc_vesting_share_balance ao) :: acc_proxied_vsf_votes ao) in *.
  destruct (passed_on ao delta Hlen eq_refl) as [_ Hminus].
  match goal with E : adjust_proxied_witness_votes_array _ _ _ = Ok (_, ?t) |- _ =>
    rename t into s1; eapply adjust_proxied_array_effect in E as (Hf1 & Hc1 & Hp1 & Hv1 & Hr1);
    [|lia|exact Hao] end.
  specialize (Hr1 acc Hav). rewrite Hao in Hr1. rewrite Hminus in Hv1.
  match goal with E : clear_witness_votes _ _ = _ |- _ =>
    apply clear_witness_votes_effect in E as (Hw2 & Hg2 & o2 & Ho2 & Hr2) end.
  rewrite Hr1 in Ho2. apply (inj Some) in Ho2 as <-. inv_store.
  match goal with E : row acc ?s2 = Some _ |- _ => rewrite Hr2 in E; apply (inj Some) in E as <- end.
  subst. split; [eauto 20 with wt|].
  match goal with E : ∀ ch, gap ch (set_row acc _ _) = _ |- _ => rename E into Hg3 end.
  match goal with E : ∀ ch, gap ch (delete_row _ _) = _ |- _ => rename E into Hg4 end.
  intros [c| |]; rewrite Hg4, Hg3, Hg2, ?Hc1, ?Hp1, ?Hv1; [weigh_simpl; lia..|].
  change (weigh Vsf (A := account_object)) with vsf_weight. unfold vsf_weight.
  cbn [acc_proxy acc_proxied_vsf_votes upd set_acc_proxy set_acc_can_vote set_acc_witnesses_voted_for].
  rewrite (bool_decide_eq_true_2 (ZATTERA_PROXY_TO_SELF_ACCOUNT = ZATTERA_PROXY_TO_SELF_ACCOUNT)) by done.
  weigh_simpl. unfold ZATTERA_MAX_PROXY_RECURSION_DEPTH, vote_weight in *. cbn [Nat.sub].
  case_bool_decide; cbn in *; lia.
Qed.
