(* ===== verification/Withdrawals.v ===== *)
(** * Vesting withdrawals

    [database::process_vesting_withdrawals] (src/src/core/chain/database.cpp): the
    weekly part of each withdrawal, split over the routes of the account and
    converted to ZTR at the price of the moment, and the proof that it neither
    creates nor destroys value. *)
From S2P Require Import Prelude Ints Config Asset Authority State Store Ledger Balances Vesting Conserve EvalFunds Invariants.
From S2P Require Import Genesis BlockProc.

(** ** Vesting withdrawals *)

(** [++itr] on an ordered index. *)
Fixpoint successor {A} (r : ref A) (l : list (ref A)) : option (ref A) :=
  match l with
  | [] => None
  | x :: l' => if bool_decide (x = r) then head l' else successor r l'
  end.
Definition index_next `{Table A} (key : A → list key_atom) (r : ref A) : C (option (ref A)) :=
  let* l := index key in ret (successor r l).

(** [while( current != end && due( *current ) ) { r = current; ++current; f( r ); }]:
    the iterator moves on before the row changes its place in the index. *)
Fixpoint walk `{Table A} (fuel : nat) (key : A → list key_atom) (due : A → bool) (f : ref A → C unit)
    (current : option (ref A)) : C unit :=
  match fuel with
  | O => throw out_of_fuel
  | S fuel' =>
      match current with
      | None => ret tt
      | Some r =>
          let* o := load r in
          if due o then
            let* next := index_next key r in
            f r ;; walk fuel' key due f next
          else ret tt
      end
  end.

(** The weekly amount, or what is left of the whole. *)
Definition withdraw_amount (a : account_object) : res share_type :=
  let? remaining := safe.sub (acc_to_withdraw a) (acc_withdrawn a) in
  let rate := amount (acc_vesting_withdraw_rate a) in
  let vests := amount (acc_vesting_share_balance a) in
  if remaining <? rate then let? m := safe.rem (acc_to_withdraw a) rate in Ok (Z.min vests m)
  else Ok (Z.min vests rate).
(** The part of a withdrawal that a route diverts. *)
Definition route_amount (to_withdraw percent : Z) : res share_type :=
  let? q := u128_div (u128_mul (wrap_u128 to_withdraw) percent) ZATTERA_100_PERCENT in
  let? v := u128_to_uint64 q in Ok (wrap_i64 v).

Definition withdraw_routes_of (name : account_name_type) : C (list (ref withdraw_vesting_route_object)) :=
  index_where (fun r => [KS (wvr_from_account r); KS (wvr_to_account r)])
    (fun r => bool_decide (wvr_from_account r = name ∧ wvr_to_account r ≠ "")).

Definition add_vesting_amount (a : ref account_object) (d : share_type) : C unit :=
  modify_res a (fun a =>
    let? v := safe.add (amount (acc_vesting_share_balance a)) d in
    Ok (a <| acc_vesting_share_balance ::= set_amount v |>)).
(** Shares leave the fund with the ZTR they convert to. *)
Definition leave_fund (liquid : asset) (shares : share_type) : C unit :=
  modify_gpo (fun o =>
    let? f := asset_sub (gpo_total_vesting_fund_liquid o) liquid in
    let? v := safe.sub (amount (gpo_total_vesting_shares o)) shares in
    Ok (o <| gpo_total_vesting_fund_liquid := f |> <| gpo_total_vesting_shares ::= set_amount v |>)).

Definition route_vests (from_account : ref account_object) (to_withdraw : share_type)
    (deposited : share_type) (itr : ref withdraw_vesting_route_object) : C share_type :=
  let* r := load itr in
  if wvr_auto_vest r then
    let! to_deposit := route_amount to_withdraw (wvr_percent r) in
    let! deposited := safe.add deposited to_deposit in
    when (to_deposit >? 0) (
      let* to_account := get_account (wvr_to_account r) in
      add_vesting_amount to_account to_deposit ;;
      adjust_proxied_witness_votes to_account to_deposit ;;
      let* f := load from_account in
      let* t := load to_account in
      push_virtual_operation (fill_vesting_withdraw_operation (acc_name f) (acc_name t)
        (mk_asset to_deposit VESTS_SYMBOL) (mk_asset to_deposit VESTS_SYMBOL))) ;;
    ret deposited
  else ret deposited.

Definition route_liquid (from_account : ref account_object) (to_withdraw : share_type)
    (acc : share_type * asset) (itr : ref withdraw_vesting_route_object) : C (share_type * asset) :=
  let* r := load itr in
  if negb (wvr_auto_vest r) then
    let* to_account := get_account (wvr_to_account r) in
    let! to_deposit := route_amount to_withdraw (wvr_percent r) in
    let! deposited := safe.add acc.1 to_deposit in
    let* g := get_dynamic_global_properties in
    let! p := get_vesting_share_price g in
    let! converted_liquid := asset_mul_price (mk_asset to_deposit VESTS_SYMBOL) p in
    let! total := asset_add acc.2 converted_liquid in
    when (to_deposit >? 0) (
      modify_res to_account (fun a =>
        let? b := asset_add (acc_liquid_balance a) converted_liquid in Ok (a <| acc_liquid_balance := b |>)) ;;
      leave_fund converted_liquid to_deposit ;;
      let* f := load from_account in
      let* t := load to_account in
      push_virtual_operation (fill_vesting_withdraw_operation (acc_name f) (acc_name t)
        (mk_asset to_deposit VESTS_SYMBOL) converted_liquid)) ;;
    ret (deposited, total)
  else ret acc.

(** The account after its withdrawal: the next one is due in a week, unless
    everything is withdrawn. *)
Definition settle_withdrawal (a : account_object) (to_withdraw : share_type) (converted_liquid : asset) : res account_object :=
  let? v := safe.sub (amount (acc_vesting_share_balance a)) to_withdraw in
  let? b := asset_add (acc_liquid_balance a) converted_liquid in
  let? w := safe.add (acc_withdrawn a) to_withdraw in
  let a := a <| acc_vesting_share_balance ::= set_amount v |> <| acc_liquid_balance := b |> <| acc_withdrawn := w |> in
  Ok (if (w >=? acc_to_withdraw a) || (v =? 0)
      then a <| acc_vesting_withdraw_rate ::= set_amount 0 |> <| acc_next_vesting_withdrawal := time_maximum |>
      else a <| acc_next_vesting_withdrawal ::= fun t => wrap_u32 (t + ZATTERA_VESTING_WITHDRAW_INTERVAL_SECONDS) |>).

Definition withdraw_from (from_account : ref account_object) : C unit :=
  let* a := load from_account in
  let! to_withdraw := withdraw_amount a in
  let* routes := withdraw_routes_of (acc_name a) in
  let* as_vests := fold_m (route_vests from_account to_withdraw) 0 routes in
  let* (as_liquid, _) := fold_m (route_liquid from_account to_withdraw) (0, mk_asset 0 LIQUID_SYMBOL) routes in
  let! rest := safe.sub to_withdraw as_liquid in
  let! to_convert := safe.sub rest as_vests in
  fc_assert (to_convert >=? 0) "Deposited more vests than were supposed to be withdrawn" ;;
  let* g := get_dynamic_global_properties in
  let! p := get_vesting_share_price g in
  let! converted_liquid := asset_mul_price (mk_asset to_convert VESTS_SYMBOL) p in
  modify_res from_account (fun a => settle_withdrawal a to_withdraw converted_liquid) ;;
  leave_fund converted_liquid to_convert ;;
  when (to_withdraw >? 0) (let! d := safe.neg to_withdraw in adjust_proxied_witness_votes from_account d) ;;
  push_virtual_operation (fill_vesting_withdraw_operation (acc_name a) (acc_name a)
    (mk_asset to_convert VESTS_SYMBOL) converted_liquid).

Definition by_next_vesting_withdrawal (a : account_object) : list key_atom :=
  [KZ (acc_next_vesting_withdrawal a); KS (acc_name a)].
(** Every round moves a withdrawal a week on or ends it, so an account takes at
    most one round per week since the epoch. *)
Definition withdrawal_rounds (accounts : nat) (now : time) : nat :=
  S (accounts * S (Z.to_nat (now / ZATTERA_VESTING_WITHDRAW_INTERVAL_SECONDS)))%nat.
Definition process_vesting_withdrawals : C unit :=
  let* now := head_block_time in
  let* n := table_size (A := account_object) in
  let* current := index_begin by_next_vesting_withdrawal in
  walk (withdrawal_rounds n now) by_next_vesting_withdrawal
    (fun a => acc_next_vesting_withdrawal a <=? now) withdraw_from current.

(** ** Conservation *)

Definition vests_of (s : database) : gmap Z asset := acc_vesting_share_balance <$> rows (account_index s).

Lemma vests_of_set_row (r : ref account_object) s o o' : row r s = Some o →
  acc_vesting_share_balance o' = acc_vesting_share_balance o → vests_of (set_row r o' s) = vests_of s.
Proof.
  unfold vests_of, row. cbn. intros Hr Hs. rewrite fmap_insert, Hs. apply insert_id. by rewrite lookup_fmap, Hr.
Qed.

(** Votes move through proxies without touching the shares behind them. *)
Lemma adjust_proxied_vests left a delta s u s' :
  adjust_proxied_from left a delta s = Ok (u, s') → vests_of s' = vests_of s.
Proof.
  revert a s. induction left as [|left IH]; intros a s H; cbn in H; effects; case_run; effects.
  all: try match goal with E : adjust_witness_votes _ _ _ = _ |- _ =>
    apply adjust_witness_votes_frame in E as [w ->]; done end.
  - done.
  - match goal with E : adjust_proxied_from _ _ _ _ = _ |- _ => apply IH in E as -> end.
    subst. by eapply vests_of_set_row.
Qed.

(** No account has fewer shares than before. *)
Definition vests_le (s s' : database) : Prop :=
  ∀ i b, vests_of s !! i = Some b → ∃ b', vests_of s' !! i = Some b' ∧ amount b ≤ amount b'.
#[export] Instance vests_le_preorder : PreOrder vests_le.
Proof.
  split.
  - intros s i b Hb. eauto with lia.
  - intros s1 s2 s3 H12 H23 i b Hb. destruct (H12 _ _ Hb) as (b' & Hb' & ?).
    destruct (H23 _ _ Hb') as (b'' & ? & ?). eauto with lia.
Qed.
Lemma vests_le_eq s s' : vests_of s' = vests_of s → vests_le s s'.
Proof. unfold vests_le. intros ->. eauto with lia. Qed.
Lemma vests_le_set (r : ref account_object) s o o' : row r s = Some o →
  amount (acc_vesting_share_balance o) ≤ amount (acc_vesting_share_balance o') → vests_le s (set_row r o' s).
Proof.
  unfold vests_le, vests_of, row. cbn. intros Hr Hle i b Hb. rewrite fmap_insert.
  rewrite lookup_fmap in Hb. apply fmap_Some in Hb as (oi & Hi & ->).
  destruct (decide (i = ref_id r)) as [->|Hne].
  - rewrite lookup_insert_eq. rewrite Hr in Hi. apply (inj Some) in Hi as <-. eauto.
  - rewrite lookup_insert_ne, lookup_fmap, Hi by done. cbn. eauto with lia.
Qed.

(** What [d] more shares do to the books. *)
Definition vest_flow (ch : chan) (d : Z) : Z :=
  match ch with Held c => amt c (mk_asset d VESTS_SYMBOL) | Pending_liquid => 0 | Vsf => d end.
Lemma vest_flow_add ch x y : vest_flow ch (x + y) = vest_flow ch x + vest_flow ch y.
Proof. destruct ch as [c| |]; unfold vest_flow, amt; cbn [symbol amount]; [|lia..]. destruct (VESTS_SYMBOL =? c); lia. Qed.
Lemma vest_flow_0 ch : vest_flow ch 0 = 0.
Proof. destruct ch as [c| |]; unfold vest_flow, amt; cbn [symbol amount]; [|lia..]. by destruct (VESTS_SYMBOL =? c). Qed.

(** Every account counts its shares in VESTS, holds a non-negative number of
    them and withdraws a non-negative amount. *)
Definition vests_ok (a : account_object) : Prop :=
  symbol (acc_vesting_share_balance a) = VESTS_SYMBOL ∧ 0 ≤ amount (acc_vesting_share_balance a) ≤ INT64_MAX
  ∧ 0 ≤ amount (acc_vesting_withdraw_rate a) ∧ 0 ≤ acc_to_withdraw a.
#[export] Instance vests_ok_dec a : Decision (vests_ok a).
Proof. unfold vests_ok. apply _. Defined.
Definition accounts_ok (s : database) : Prop := map_Forall (fun _ => vests_ok) (rows (account_index s)).
Definition routes_ok (s : database) : Prop :=
  map_Forall (fun _ r => 0 ≤ wvr_percent r ≤ ZATTERA_100_PERCENT) (rows (withdraw_vesting_route_index s)).

Lemma accounts_ok_row (r : ref account_object) s o : accounts_ok s → row r s = Some o → vests_ok o.
Proof. intros H Hr. exact (H _ _ Hr). Qed.
Lemma accounts_ok_set (r : ref account_object) s o : accounts_ok s → vests_ok o → accounts_ok (set_row r o s).
Proof. intros H Ho. by apply map_Forall_insert_2. Qed.

Lemma static_withdraw o o' : static o = static o' →
  acc_vesting_withdraw_rate o = acc_vesting_withdraw_rate o' ∧ acc_to_withdraw o = acc_to_withdraw o'.
Proof.
  intros H. split; [by apply (f_equal acc_vesting_withdraw_rate) in H|by apply (f_equal acc_to_withdraw) in H].
Qed.
Lemma accounts_ok_frame s s' : statics s' = statics s → vests_of s' = vests_of s → accounts_ok s → accounts_ok s'.
Proof.
  intros Hst Hv Hok i o' Ho'. destruct (statics_row s s' (Ref i) o' Hst Ho') as (o & Ho & Hso).
  destruct (Hok _ _ Ho) as (H1 & H2 & H3 & H4). destruct (static_withdraw _ _ Hso) as [E1 E2].
  assert (Hb : acc_vesting_share_balance o' = acc_vesting_share_balance o).
  { apply (f_equal (fun m => m !! i)) in Hv. unfold vests_of in Hv. rewrite !lookup_fmap in Hv.
    unfold row in Ho. cbn in *. rewrite Ho', Ho in Hv. cbn in Hv. by simplify_eq. }
  unfold vests_ok. rewrite Hb, E1, E2. done.
Qed.

Lemma safe_add_bound a b c : safe.add a b = Ok c → 0 ≤ b → a ≤ INT64_MAX → c ≤ INT64_MAX.
Proof. unfold safe.add. intros H Hb Ha. safe_case; inv_ok; bool_prop; lia. Qed.

Lemma route_amount_bound w p d : 0 ≤ w ≤ INT64_MAX → 0 ≤ p ≤ ZATTERA_100_PERCENT →
  route_amount w p = Ok d → 0 ≤ d ≤ w.
Proof.
  unfold route_amount, u128_div, u128_to_uint64, u128_mul, wrap_u128, wrap_i64, INT64_MAX, ZATTERA_100_PERCENT.
  intros Hw Hp H. inv_ok. cbn in *. inv_ok.
  rewrite !(Z.mod_small w) by lia. rewrite (Z.mod_small (w * p)) by nia.
  assert (0 ≤ w * p / 10000 ≤ w) by (split; [apply Z.div_pos; nia|apply Z.div_le_upper_bound; nia]).
  rewrite Z.mod_small by lia. lia.
Qed.

Lemma withdraw_amount_bound a w : vests_ok a → withdraw_amount a = Ok w →
  0 ≤ w ≤ amount (acc_vesting_share_balance a).
Proof.
  intros (_ & Hv & Hr & Ht). unfold withdraw_amount. intros H. inv_ok. case_match; inv_ok; [|lia].
  match goal with E : safe.rem _ _ = _ |- _ => apply safe_rem_ok in E as [-> ?] end.
  pose proof (Z.rem_nonneg (acc_to_withdraw a) (amount (acc_vesting_withdraw_rate a)) ltac:(lia) Ht). lia.
Qed.

Lemma vests_ok_set a v : vests_ok a → 0 ≤ v ≤ INT64_MAX → vests_ok (a <| acc_vesting_share_balance ::= set_amount v |>).
Proof. unfold vests_ok. cbn. intros (? & ? & ? & ?) [? ?]. split_and!; done. Qed.

Lemma amt_set_amount_diff c a v d sym : symbol a = sym → v = amount a + d →
  amt c (set_amount v a) = amt c a + amt c (mk_asset d sym).
Proof. intros <- ->. unfold amt, set_amount. cbn [symbol amount]. destruct (symbol a =? c); lia. Qed.

Lemma amt_mk_opp c d sym : amt c (mk_asset (- d) sym) = - amt c (mk_asset d sym).
Proof. unfold amt. cbn [symbol amount]. destruct (sym =? c); lia. Qed.

(** A deposit of shares: the account's balance and the votes it stands for. *)
Lemma deposit_vests_effect a d s u s1 u' s2 : accounts_ok s → 0 ≤ d →
  add_vesting_amount a d s = Ok (u, s1) → adjust_proxied_witness_votes a d s1 = Ok (u', s2) →
  bal_frame s s2 ∧ accounts_ok s2 ∧ vests_le s s2 ∧ ∀ ch, gap ch s2 = gap ch s + vest_flow ch d.
Proof.
  intros Hok Hd H1 H2. unfold add_vesting_amount in H1. inv_store. subst.
  match goal with E : row a s = Some ?x |- _ => rename E into Hr; rename x into o end.
  match goal with E : ∀ ch, gap ch (set_row _ _ _) = _ |- _ => rename E into Hg end.
  match goal with E : safe.add _ _ = Ok ?x |- _ => rename E into Hadd; rename x into v end.
  destruct (accounts_ok_row _ _ _ Hok Hr) as (Hsym & Hpos & ?).
  pose proof (safe_add_bound _ _ _ Hadd Hd ltac:(lia)). apply safe_add_ok in Hadd.
  pose proof (adjust_proxied_vests _ _ _ _ _ _ H2) as Hv.
  eapply adjust_proxied_from_effect in H2 as (Hf & Hc & Hp & Hw); [|lia|apply row_set_row_eq].
  assert (Hfr : bal_frame s (set_row a (o <| acc_vesting_share_balance ::= set_amount v |>) s))
    by (by eapply set_row_bal_frame).
  split_and!; [by etrans| |etrans; [|apply vests_le_eq, Hv]; eapply vests_le_set; [exact Hr|cbn; lia]|].
  - eapply accounts_ok_frame; [apply Hf|exact Hv|]. apply accounts_ok_set; [done|].
    apply vests_ok_set; [by eapply accounts_ok_row|lia].
  - cbn [acc_proxy upd set_acc_vesting_share_balance] in Hw.
    rewrite (bool_decide_eq_false_2 (ZATTERA_MAX_PROXY_RECURSION_DEPTH = 0%nat)) in Hw by done.
    intros [c| |]; rewrite ?Hc, ?Hp, ?Hw, Hg; unfold vest_flow.
    + weigh_simpl. rewrite (amt_set_amount_diff c _ v d _ Hsym) by lia. lia.
    + weigh_simpl. lia.
    + change (weigh Vsf) with vsf_weight. unfold vsf_weight, vote_weight. cbn.
      case_bool_decide; lia.
Qed.

Lemma leave_fund_effect l d s u s' : symbol (gpo_total_vesting_shares (gpo s)) = VESTS_SYMBOL →
  leave_fund l d s = Ok (u, s') →
  bal_frame s s' ∧ account_index s' = account_index s ∧ ∀ ch, gap ch s' = gap ch s + vest_flow ch d - flow ch l.
Proof.
  intros Hsym H. unfold leave_fund in H. inv_store. subst.
  match goal with E : safe.sub _ _ = _ |- _ => apply safe_sub_ok in E as -> end.
  split_and!; [apply gpo_bal_frame; static_eq|done|]. intros ch.
  match goal with E : ∀ ch, gap ch _ = _ |- _ => rewrite E end.
  destruct ch as [c| |]; unfold flow, vest_flow; try amt_facts c; weigh_simpl; [|lia..].
  rewrite (amt_set_amount_diff c _ _ (- d) _ Hsym) by lia.
  rewrite amt_mk_opp. lia.
Qed.

Lemma virtual_bal_frame s f : bal_frame s (s <| virtual_ops ::= f |>).
Proof.
  split_and!; [|done..]. exists (account_index s), (witness_index s), (gpo s), (f (virtual_ops s)). by destruct s.
Qed.

(** Part of a withdrawal from [s0] that has paid out [deposited] shares. *)
Definition paying (s0 : database) (deposited : Z) (s : database) : Prop :=
  bal_frame s0 s ∧ accounts_ok s ∧ vests_le s0 s ∧ ∀ ch, gap ch s = gap ch s0 + vest_flow ch deposited.
Definition vested_state (s : database) : Prop := well_typed s ∧ accounts_ok s ∧ routes_ok s.

Lemma paying_wt s0 d s : vested_state s0 → paying s0 d s → vested_state s.
Proof.
  intros (Hwt & _ & Hr) (Hf & Ha & _). split_and!; [by eapply wt_bal_frame|done|].
  unfold routes_ok in *. destruct Hf as [(? & ? & ? & ? & ->) _]. done.
Qed.

Lemma route_vests_paying s0 w from dep itr s dep' s' : vested_state s0 → 0 ≤ w ≤ INT64_MAX →
  paying s0 dep s → route_vests from w dep itr s = Ok (dep', s') → paying s0 dep' s'.
Proof.
  intros Hs0 Hw Hp H. destruct (paying_wt _ _ _ Hs0 Hp) as (Hwt & Hok & Hrt).
  unfold route_vests in H. apply bind_ok in H as (r & s1 & [Hr ->]%load_ok & H).
  case_run; [|by inv_ok]. apply bind_ok in H as (d & s1 & [Hd ->]%lift_ok & H).
  pose proof (route_amount_bound _ _ _ Hw (Hrt _ _ Hr) Hd) as Hb. inv_ok.
  match goal with E : safe.add _ _ = _ |- _ => apply safe_add_ok in E as -> end.
  destruct Hp as (Hf & _ & Hle & Hg). unfold when in *. case_match eqn:Ed; effects; bool_prop.
  - match goal with E1 : add_vesting_amount _ _ _ = _, E2 : adjust_proxied_witness_votes _ _ _ = _ |- _ =>
      destruct (deposit_vests_effect _ _ _ _ _ _ _ Hok (proj1 Hb) E1 E2) as (Hf2 & Hok2 & Hle2 & Hg2) end.
    subst. split_and!; [etrans; [exact Hf|]; etrans; [exact Hf2|]; apply virtual_bal_frame|done|by etrans|].
    intros ch. match goal with E : ∀ ch, gap ch (_ <| virtual_ops ::= _ |>) = _ |- _ => rewrite E end.
    rewrite Hg2, Hg, vest_flow_add. lia.
  - assert (d = 0) as -> by lia. rewrite Z.add_0_r. by split_and!.
Qed.

Lemma route_liquid_paying s0 w from acc itr s acc' s' : vested_state s0 → 0 ≤ w ≤ INT64_MAX →
  paying s0 acc.1 s → route_liquid from w acc itr s = Ok (acc', s') → paying s0 acc'.1 s'.
Proof.
  intros Hs0 Hw Hp H. destruct (paying_wt _ _ _ Hs0 Hp) as (Hwt & Hok & Hrt).
  unfold route_liquid in H. apply bind_ok in H as (r & s1 & [Hr ->]%load_ok & H).
  case_run; [|by inv_ok]. effects.
  all: match goal with E : route_amount _ _ = Ok ?x |- _ => rename x into d;
    pose proof (route_amount_bound _ _ _ Hw (Hrt _ _ Hr) E) as Hb end.
  all: match goal with E : safe.add _ _ = _ |- _ => apply safe_add_ok in E as -> end; cbn [fst].
  all: destruct Hp as (Hf & _ & Hle & Hg); bool_prop.
  - match goal with E : leave_fund _ _ _ = _ |- _ =>
      apply leave_fund_effect in E as (Hf2 & Ha2 & Hg2); [|subst; apply Hwt] end.
    subst.
    match goal with E : row ?a s = Some ?o, E2 : ∀ ch, gap ch (set_row ?a ?o' s) = _ |- _ =>
      rename E into Ho; rename E2 into Hg1; assert (Hf1 : bal_frame s (set_row a o' s))
        by (eapply set_row_bal_frame; [done|static_eq]);
      assert (Hok1 : accounts_ok (set_row a o' s))
        by (apply accounts_ok_set; [done|exact (accounts_ok_row _ _ _ Hok Ho)]);
      assert (Hle1 : vests_le s (set_row a o' s)) by (by eapply vests_le_set) end.
    split_and!.
    + etrans; [exact Hf|]. etrans; [exact Hf1|]. etrans; [exact Hf2|]. apply virtual_bal_frame.
    + unfold accounts_ok in *. cbn. by rewrite Ha2.
    + etrans; [exact Hle|]. etrans; [exact Hle1|]. apply vests_le_eq. unfold vests_of. cbn. by rewrite Ha2.
    + intros ch. match goal with E : ∀ ch, gap ch (_ <| virtual_ops ::= _ |>) = _ |- _ => rewrite E end.
      rewrite Hg2, Hg1, Hg, vest_flow_add. destruct ch as [c| |]; unfold flow; try amt_facts c; weigh_simpl; lia.
  - assert (d = 0) as -> by lia. rewrite Z.add_0_r. by split_and!.
Qed.

Lemma paying_start s : accounts_ok s → paying s 0 s.
Proof. intros. split_and!; [done..|]. intros ch. rewrite vest_flow_0. lia. Qed.

Lemma paying_trans s0 x s1 y s2 : paying s0 x s1 → paying s1 y s2 → paying s0 (x + y) s2.
Proof.
  intros (? & _ & ? & Hg1) (? & ? & ? & Hg2). split_and!; [by etrans|done|by etrans|].
  intros ch. rewrite Hg2, Hg1, vest_flow_add. lia.
Qed.

(** Both passes over the routes. *)
Lemma routes_paying s0 w from routes av s1 acc s2 : vested_state s0 → 0 ≤ w ≤ INT64_MAX →
  fold_m (route_vests from w) 0 routes s0 = Ok (av, s1) →
  fold_m (route_liquid from w) (0, mk_asset 0 LIQUID_SYMBOL) routes s1 = Ok (acc, s2) →
  paying s0 (av + acc.1) s2.
Proof.
  intros Hs0 Hw H1 H2.
  assert (Hp1 : paying s0 av s1).
  { eapply (fold_m_pres (paying s0)) in H1; [done| |apply paying_start, Hs0].
    intros. by eapply route_vests_paying. }
  pose proof (paying_wt _ _ _ Hs0 Hp1) as Hs1.
  eapply paying_trans; [exact Hp1|].
  eapply (fold_m_pres (fun acc => paying s1 acc.1)) in H2; [done| |apply paying_start, Hs1].
  intros. by eapply route_liquid_paying.
Qed.

Lemma settle_ok a w l a' : vests_ok a → 0 ≤ w ≤ amount (acc_vesting_share_balance a) →
  settle_withdrawal a w l = Ok a' →
  vests_ok a' ∧ acc_proxy a' = acc_proxy a ∧
  (∀ c, weigh (Held c) a' = weigh (Held c) a - amt c (mk_asset w VESTS_SYMBOL) + amt c l) ∧
  weigh Pending_liquid a' = weigh Pending_liquid a ∧
  weigh Vsf a' = weigh Vsf a - (if bool_decide (acc_proxy a = ZATTERA_PROXY_TO_SELF_ACCOUNT) then w else 0).
Proof.
  intros Hva Hw H. unfold settle_withdrawal in H. inv_ok.
  match goal with E : safe.sub _ _ = _ |- _ => apply safe_sub_ok in E as -> end.
  destruct Hva as (Hsym & Hpos & Hrate & Htw). split_and!.
  - unfold vests_ok. case_match; cbn; split_and!; done || lia.
  - by case_match.
  - intros c. amt_facts c. case_match; weigh_simpl;
      rewrite (amt_set_amount_diff c _ (amount (acc_vesting_share_balance a) - w) (- w) _ Hsym), amt_mk_opp by lia; lia.
  - by case_match.
  - unfold weigh, weigh_account. destruct (_ || _); unfold vsf_weight, vote_weight; cbn; case_bool_decide; lia.
Qed.

Lemma vests_le_row (r : ref account_object) s s' o o' : vests_le s s' → row r s = Some o → row r s' = Some o' →
  amount (acc_vesting_share_balance o) ≤ amount (acc_vesting_share_balance o').
Proof.
  unfold row. cbn. intros Hle Ho Ho'. destruct (Hle (ref_id r) (acc_vesting_share_balance o)) as (b & Hb & ?).
  { unfold vests_of. by rewrite lookup_fmap, Ho. }
  unfold vests_of in Hb. rewrite lookup_fmap, Ho' in Hb. cbn in Hb. by simplify_eq.
Qed.

(** The last step: the account settles [w] shares, of which [rest] leave the
    fund as [l]. *)
Lemma settle_conserves from w l rest s u1 s1 u2 s2 u3 s3 o : vested_state s → row from s = Some o →
  0 ≤ w ≤ amount (acc_vesting_share_balance o) →
  modify_res from (fun a => settle_withdrawal a w l) s = Ok (u1, s1) →
  leave_fund l rest s1 = Ok (u2, s2) →
  when (w >? 0) (let! d := safe.neg w in adjust_proxied_witness_votes from d) s2 = Ok (u3, s3) →
  vested_state s3 ∧ ∀ ch, gap ch s3 = gap ch s + vest_flow ch (rest - w).
Proof.
  intros (Hwt & Hok & Hrt) Ho Hw H1 H2 H3.
  apply modify_res_gap in H1 as (o1 & o' & -> & Ho1 & Hs & Hg1). rewrite Ho in Ho1. apply (inj Some) in Ho1 as <-.
  destruct (settle_ok _ _ _ _ (accounts_ok_row _ _ _ Hok Ho) Hw Hs) as (Hvo & Hpx & Hh & Hp & Hv).
  assert (Hok1 : accounts_ok (set_row from o' s)) by by apply accounts_ok_set.
  assert (Hwt1 : well_typed (set_row from o' s)) by eauto with wt.
  apply leave_fund_effect in H2 as (Hf2 & Ha2 & Hg2); [|apply Hwt].
  assert (Ho2 : row from s2 = Some o').
  { unfold row. cbn [tbl account_object_table]. rewrite Ha2. exact (row_set_row_eq from o' s). }
  assert (Hok2 : accounts_ok s2) by (unfold accounts_ok; by rewrite Ha2).
  assert (H3' : bal_frame s2 s3 ∧ vests_of s3 = vests_of s2 ∧ ∀ ch, gap ch s3 = gap ch s2 +
    match ch with Vsf => if bool_decide (acc_proxy o' = ZATTERA_PROXY_TO_SELF_ACCOUNT) then 0 else - w | _ => 0 end).
  { unfold when in H3. destruct (w >? 0) eqn:E; inv_ok; bool_prop.
    - pose proof (adjust_proxied_vests _ _ _ _ _ _ H3) as Hvs.
      match goal with E1 : safe.neg _ = _ |- _ => apply safe_neg_ok in E1 as -> end.
      eapply adjust_proxied_from_effect in H3 as (Hf3 & Hc3 & Hp3 & Hv3); [|lia|exact Ho2].
      rewrite (bool_decide_eq_false_2 (ZATTERA_MAX_PROXY_RECURSION_DEPTH = 0%nat)) in Hv3 by done.
      split_and!; [done..|]. intros [c| |]; rewrite ?Hc3, ?Hp3, ?Hv3; cbv iota; [lia..|done].
    - split_and!; [done..|]. intros [c| |]; cbv iota; [lia..|]. destruct (bool_decide (acc_proxy o' = _)); lia. }
  destruct H3' as (Hf3 & Hvs & Hg3). unfold vested_state. split_and!.
  - by eapply wt_bal_frame; [|eapply wt_bal_frame].
  - by eapply accounts_ok_frame; [apply Hf3|..].
  - unfold routes_ok in *. destruct Hf3 as [(? & ? & ? & ? & ->) _]. destruct Hf2 as [(? & ? & ? & ? & ->) _]. done.
  - intros ch. rewrite Hg3, Hg2, Hg1. unfold Z.sub at 3. rewrite vest_flow_add.
    destruct ch as [c| |]; rewrite ?Hh, ?Hp, ?Hv, ?Hpx; unfold flow, vest_flow; rewrite ?amt_mk_opp; [lia..|].
    destruct (bool_decide (acc_proxy o = _)); lia.
Qed.

Lemma withdraw_from_conserves from s u s' : vested_state s → withdraw_from from s = Ok (u, s') →
  vested_state s' ∧ ∀ ch, gap ch s' = gap ch s.
Proof.
  intros Hs H. unfold withdraw_from in H.
  apply bind_ok in H as (a & s1 & [Ha ->]%load_ok & H).
  apply bind_ok in H as (w & s1 & [Hw ->]%lift_ok & H).
  pose proof (accounts_ok_row _ _ _ (proj1 (proj2 Hs)) Ha) as Hva.
  pose proof (withdraw_amount_bound _ _ Hva Hw) as Hwb.
  assert (Hwr : 0 ≤ w ≤ INT64_MAX) by (destruct Hva as (_ & ? & _); lia).
  unfold withdraw_routes_of, index_where in H.
  apply bind_ok in H as (routes & s1 & [_ ->]%gets_ok & H).
  apply bind_ok in H as (av & s1 & H1 & H). apply bind_ok in H as ([al tot] & s2 & H2 & H).
  pose proof (routes_paying _ _ _ _ _ _ _ _ Hs Hwr H1 H2) as Hp. cbn [fst] in Hp. clear H1 H2.
  pose proof (paying_wt _ _ _ Hs Hp) as Hs2. destruct Hp as (_ & _ & Hle & Hg).
  unfold get_dynamic_global_properties in H. inv_ok.
  repeat match goal with E : safe.sub _ _ = _ |- _ => apply safe_sub_ok in E as -> end.
  match goal with E : modify_res _ _ _ = _ |- _ => pose proof (modify_res_gap _ _ _ _ _ E) as (o & _ & _ & Ho & _) end.
  match goal with E1 : modify_res _ _ _ = _, E2 : leave_fund _ _ _ = _, E3 : when _ _ _ = _ |- _ =>
    eapply (settle_conserves _ _ _ _ _ _ _ _ _ _ _ _ Hs2 Ho) in E3 as (Hs3 & Hg3); [| |exact E1|exact E2] end.
  2: { pose proof (vests_le_row _ _ _ _ _ Hle Ha Ho). lia. }
  effects. subst. split; [done|]. intros ch.
  match goal with E : ∀ ch, gap ch (_ <| virtual_ops ::= _ |>) = _ |- _ => rewrite E end.
  rewrite Hg3, Hg. replace (w - al - av - w) with (- (av + al)) by lia.
  rewrite <- Z.add_assoc, <- vest_flow_add, Z.add_opp_diag_r, vest_flow_0. lia.
Qed.

(** A walk over an index keeps an invariant that every step keeps. *)
Lemma walk_pres `{Table A} (I : database → Prop) fuel key due f cur s u s' :
  (∀ r s u s', I s → f r s = Ok (u, s') → I s') → I s → walk fuel key due f cur s = Ok (u, s') → I s'.
Proof.
  intros Hf. revert cur s. induction fuel as [|fuel IH]; intros cur s Hs Hrun; cbn in Hrun; [inv_ok|].
  destruct cur as [r|]; [|by inv_ok]. apply bind_ok in Hrun as (o & s1 & Hl & Hrun).
  unfold load in Hl. destruct (row r s); inv_ok. destruct (due o); [|by inv_ok].
  unfold index_next, index in Hrun. inv_ok. eauto.
Qed.

Lemma process_vesting_withdrawals_conserves s u s' : vested_state s → process_vesting_withdrawals s = Ok (u, s') →
  vested_state s' ∧ ∀ ch, gap ch s' = gap ch s.
Proof.
  unfold process_vesting_withdrawals, head_block_time, index_begin, index, table_size. intros Hs H. inv_ok.
  eapply (walk_pres (fun s1 => vested_state s1 ∧ ∀ ch, gap ch s1 = gap ch s)) in H; [done| |done].
  intros r s1 u1 s2 [Hs1 Hg1] Hrun. apply withdraw_from_conserves in Hrun as [? Hg2]; [|done].
  split; [done|]. intros ch. by rewrite Hg2.
Qed.

(** The weekly withdrawals conserve: from a well-typed state in which vesting
    balances are representable and routes hold percentages,
    [process_vesting_withdrawals] leaves such a state and every recorded supply
    still matches what is held, whatever the routes. *)
Theorem withdrawals_preserve_supply s u s' : vested_state s → balanced s →
  process_vesting_withdrawals s = Ok (u, s') → vested_state s' ∧ balanced s'.
Proof.
  intros Hs Hb Hr. apply process_vesting_withdrawals_conserves in Hr as [? Hg]; [|done].
  split; [done|]. intros ch Hk. rewrite Hg. by apply Hb.
Qed.

(** A state in which the genesis account vests 1000.000000 of VESTS and
    withdraws a thirteenth, which is due. *)
Definition sample_withdrawal : database :=
  run_state (let* a := get_account "genesis" in
             create_vesting a (mk_asset 1000000 LIQUID_SYMBOL) false ;;
             modify_res a (fun o => let? b := asset_sub (acc_liquid_balance o) (mk_asset 1000000 LIQUID_SYMBOL) in
               Ok (o <| acc_liquid_balance := b |> <| acc_to_withdraw := 130000000 |>
                     <| acc_vesting_withdraw_rate := mk_asset 10000000 VESTS_SYMBOL |> <| acc_next_vesting_withdrawal := 5 |>)))
    sample_genesis.

Lemma withdrawals_preserve_supply_witness :
  let s' := run_state process_vesting_withdrawals sample_withdrawal in
  amount (gpo_total_vesting_shares (gpo sample_withdrawal)) = 1000000000 ∧
  amount (gpo_total_vesting_shares (gpo s')) = 990000000 ∧ vested_state s' ∧ balanced s'.
Proof.
  intros s'. split; [vm_compute; reflexivity|]. split; [vm_compute; reflexivity|].
  apply (withdrawals_preserve_supply sample_withdrawal tt s').
  - split; [split_and!; vm_compute; done|]. split; [apply (bool_decide_unpack _); vm_compute; exact I|vm_compute; done].
  - intros ch Hk. destruct ch as [c| |]; [destruct Hk as [->|[->| ->]]|..]; vm_compute; reflexivity.
  - vm_compute. reflexivity.
Defined.
