(* ===== verification/Expiry.v ===== *)
(** * What a block leaves behind

    The expirations of database.cpp (BlockProc.v, Market.v) are complete: no
    overdue row survives the step that processes it, and the loops end.  With the
    check of [_apply_transaction] this protects against replays. *)
From S2P Require Import Prelude Ints Config Asset Authority Operations State Store Ledger Balances Vesting Conserve.
From S2P Require Import Drain EvalFunds Market EvalAccounts Genesis BlockProc.

(** ** The orders of the indexes *)

Lemma due_first_Z {A} (t : A → Z) rest (due : A → bool) :
  (∀ o o', t o ≤ t o' → due o' = true → due o = true) →
  due_first (fun o => KZ (t o) :: rest o) due.
Proof.
  intros Hd [i o] [j o'] Hle Ho'. apply (Hd o o'); [|done].
  unfold index_leb in Hle. cbn [fst snd app] in Hle. pose proof (proj1 (proj1 (key_leb_cons _ _ _ _) Hle)) as Hle'.
  exact Hle'.
Qed.

(** The index of escrows by ratification: those not yet approved come first. *)
Lemma due_first_ratification now :
  due_first (fun e => [KZ (if is_approved e then 1 else 0); KZ (esc_ratification_deadline e)])
    (fun e => negb (is_approved e) && (esc_ratification_deadline e <=? now)).
Proof.
  intros [i e] [j e'] Hle Hd. unfold index_leb in Hle. cbn [fst snd app] in *.
  apply key_leb_cons in Hle as [Ha Hrest]. change ((if is_approved e then 1 else 0) ≤ (if is_approved e' then 1 else 0)) in Ha. apply andb_true_iff in Hd as [Hn Hdl].
  apply negb_true_iff in Hn. rewrite Hn in *. destruct (is_approved e); [lia|].
  specialize (Hrest eq_refl). apply key_leb_cons in Hrest as [Hb _].
  change (esc_ratification_deadline e ≤ esc_ratification_deadline e') in Hb. cbn. bool_prop.
  apply Z.leb_le. lia.
Qed.

(** Nothing overdue survives a block.  After each of the periodic steps, in
    every state they succeed on, no row is left that the step is there for:
    expired transaction records, expired orders, finished withdrawals from
    savings, expired delegations, escrows past their ratification deadline and
    due requests to decline voting rights. *)
Lemma no_overdue_left s u s' :
  let now := gpo_time (gpo s) in
  (clear_expired_transactions s = Ok (u, s') →
     map_Forall (fun _ t => now ≤ txo_expiration t) (rows (transaction_index s'))) ∧
  (clear_expired_orders s = Ok (u, s') →
     map_Forall (fun _ o => now ≤ loo_expiration o) (rows (limit_order_index s'))) ∧
  (process_savings_withdraws s = Ok (u, s') →
     map_Forall (fun _ w => now < swo_complete w) (rows (savings_withdraw_index s'))) ∧
  (clear_expired_delegations s = Ok (u, s') →
     map_Forall (fun _ d => now ≤ vde_expiration d) (rows (vesting_delegation_expiration_index s'))) ∧
  (expire_escrow_ratification s = Ok (u, s') →
     map_Forall (fun _ e => is_approved e = true ∨ now < esc_ratification_deadline e) (rows (escrow_index s'))) ∧
  (process_decline_voting_rights s = Ok (u, s') →
     map_Forall (fun _ r => now < dvr_effective_date r) (rows (decline_voting_rights_request_index s'))).
Proof.
  intros now. split_and!; intros H.
  all: unfold clear_expired_transactions, clear_expired_orders, process_savings_withdraws,
    clear_expired_delegations, expire_escrow_ratification, process_decline_voting_rights,
    head_block_time in H; apply bind_ok in H as (t & s1 & [-> ->]%gets_ok & H);
    apply drain_complete in H; cbn beta in H;
    [intros i o Ho; specialize (H i o Ho); cbn in H; bool_prop; try lia|].
  all: try (apply due_first_Z; intros; bool_prop; first [apply Z.ltb_lt|apply Z.leb_le|rewrite Z.gtb_ltb; apply Z.ltb_lt]; lia).
  - destruct (is_approved o); [by left|right]. cbn in H. bool_prop. lia.
  - apply due_first_ratification.
Qed.

Lemma no_overdue_left_witness :
  let old := mk_transaction_object "old" (ZATTERA_GENESIS_TIME - 1) in
  let new := mk_transaction_object "new" ZATTERA_GENESIS_TIME in
  let s := add_row new (add_row old sample_genesis) in
  let s' := run_state clear_expired_transactions s in
  rows (transaction_index s') = {[1 := new]} ∧
  map_Forall (fun _ t => ZATTERA_GENESIS_TIME ≤ txo_expiration t) (rows (transaction_index s')).
Proof.
  intros old new s s'. split; [vm_compute; reflexivity|].
  apply (no_overdue_left s tt s'). vm_compute. reflexivity.
Defined.

(** ** Replays *)

Lemma find_row_none {A} `{Table A} p s i (o : A) :
  find_row p s = None → rows (tbl s) !! i = Some o → p o = false.
Proof.
  unfold find_row. intros Hf Ho. apply fmap_None in Hf. pose proof (find_none _ _ Hf i) as Hn.
  cbn beta in Hn. rewrite Ho in Hn. apply Hn, list_elem_of_In.
  unfold row_ids. rewrite merge_sort_Permutation. apply elem_of_elements, elem_of_dom. by eexists.
Qed.

(** The record of a transaction is removed only when its expiration has passed. *)
Lemma clear_expired_transactions_keeps s u s' :
  clear_expired_transactions s = Ok (u, s') →
  gpo s' = gpo s ∧
  ∀ i t, rows (transaction_index s) !! i = Some t →
    rows (transaction_index s') !! i = Some t ∨ txo_expiration t < gpo_time (gpo s).
Proof.
  unfold clear_expired_transactions, head_block_time. intros H.
  apply bind_ok in H as (now & s1 & [-> ->]%gets_ok & H).
  eapply (drain_pres _ _ _ (fun s1 => gpo s1 = gpo s ∧ ∀ i t, rows (transaction_index s) !! i = Some t →
    rows (transaction_index s1) !! i = Some t ∨ txo_expiration t < gpo_time (gpo s))) in H; [done| |auto].
  intros r o s1 [] s2 Hr Hdue [Hg Hk] (o' & -> & Hr' & _)%remove_gap.
  split; [done|]. intros i t Ht. destruct (Hk i t Ht) as [Hi|?]; [|by right].
  destruct (decide (i = ref_id r)) as [->|Hne].
  - right. unfold row in Hr. cbn in Hr. assert (o = t) as -> by congruence. bool_prop. lia.
  - left. cbn. by rewrite lookup_delete_ne.
Qed.
