(* ===== verification/Payout.v ===== *)
(** * Paying out comments

    [pay_curators], [cashout_comment_helper] and [process_comment_cashout] of
    src/src/core/chain/database.cpp: the reward a comment earns from its fund
    (Reward.v) is split between its curators, its beneficiaries and its author. *)
From S2P Require Import Prelude Ints Config Asset Authority State Store Ledger Balances Vesting Conserve Reward EvalContent Genesis BlockProc.

Definition adjust_total_payout (cur : ref comment_object) (dollars_created curator_dollar_value beneficiary_value : asset) : C unit :=
  modify_res cur (fun c =>
    let? t := asset_add (com_total_payout_value c) dollars_created in
    let? u := asset_add (com_curator_payout_value c) curator_dollar_value in
    let? b := asset_add (com_beneficiary_payout_value c) beneficiary_value in
    Ok (c <| com_total_payout_value := t |> <| com_curator_payout_value := u |> <| com_beneficiary_payout_value := b |>)).

(** A curator's part of the curation reward: in proportion to the weight of the vote. *)
Definition curator_claim (max_rewards weight total_weight : Z) : res Z :=
  let? q := u128_div (u128_mul (wrap_u128 max_rewards) weight) total_weight in
  u128_to_uint64 q.

(** The votes on a comment, the heaviest first. *)
Definition votes_by_weight (comment : ref comment_object) : C (list (ref comment_vote_object)) :=
  index_where (fun v => [KZ (- cvo_weight v); KZ (cvo_voter v)]) (fun v => cvo_comment v =? ref_id comment).

Definition pay_curator (comment : ref comment_object) (max_rewards total_weight : Z)
    (unclaimed : share_type) (item : ref comment_vote_object) : C share_type :=
  let* v := load item in
  let! claim := curator_claim max_rewards (cvo_weight v) total_weight in
  if claim >? 0 then
    let! unclaimed := safe.sub unclaimed (wrap_i64 claim) in
    let voter := Ref (A := account_object) (cvo_voter v) in
    let* vo := load voter in
    let* reward := create_vesting voter (mk_asset (wrap_i64 claim) LIQUID_SYMBOL) true in
    let* c := load comment in
    push_virtual_operation (curation_reward_operation (acc_name vo) reward (com_author c) (com_permlink c)) ;;
    modify_res voter (fun a =>
      let? x := safe.add (acc_curation_rewards a) (wrap_i64 claim) in Ok (a <| acc_curation_rewards := x |>)) ;;
    ret unclaimed
  else ret unclaimed.

(** Results: the rewards nobody claimed, and [max_rewards] less those. *)
Definition pay_curators (comment : ref comment_object) (max_rewards : share_type) : C (share_type * share_type) :=
  let* c := load comment in
  if negb (com_allow_curation_rewards c) then ret (0, 0)
  else
    let* unclaimed :=
      if com_total_vote_weight c >? 0 then
        let* votes := votes_by_weight comment in
        fold_m (pay_curator comment max_rewards (com_total_vote_weight c)) max_rewards votes
      else ret max_rewards in
    let! paid := safe.sub max_rewards unclaimed in
    ret (unclaimed, paid).

Definition pay_beneficiary (comment : ref comment_object) (author_tokens : share_type)
    (total : share_type) (b : account_name_type * Z) : C share_type :=
  let! benefactor_tokens := safe_mul_div author_tokens b.2 ZATTERA_100_PERCENT in
  let* acc := get_account b.1 in
  let* vest_created := create_vesting acc (mk_asset benefactor_tokens LIQUID_SYMBOL) true in
  let* c := load comment in
  push_virtual_operation (comment_benefactor_reward_operation b.1 (com_author c) (com_permlink c) vest_created) ;;
  lift (safe.add total benefactor_tokens).

(** [fill_comment_reward_context_local_state], with the curve of the fund. *)
Definition fill_comment_reward_context (ctx : comment_reward_context) (c : comment_object) (rf : reward_fund_object)
    : comment_reward_context :=
  mk_comment_reward_context (com_net_rshares c) (com_reward_weight c) (com_max_accepted_payout c)
    (ctx_total_reward_shares2 ctx) (ctx_total_reward_fund_liquid ctx) (ctx_current_liquid_price ctx)
    (rfo_author_reward_curve rf) (rfo_content_constant rf).

(** The author's side of a payout of [reward_tokens]; returns what it claims. *)
Definition pay_reward (comment : ref comment_object) (reward_tokens : Z) (forward_curation_remainder : bool) : C share_type :=
  let* percent := get_curation_rewards_percent in
  let! q := u128_div (u128_mul reward_tokens percent) ZATTERA_100_PERCENT in
  let! ct := u128_to_uint64 q in
  let! rt := u128_to_uint64 reward_tokens in
  let! author_tokens := safe.sub (wrap_i64 rt) (wrap_i64 ct) in
  let* (curation_remainder, curation_tokens) := pay_curators comment (wrap_i64 ct) in
  let! author_tokens := if forward_curation_remainder then safe.add author_tokens curation_remainder
                        else Ok author_tokens in
  let! claimed_reward := safe.add author_tokens curation_tokens in
  let* c := load comment in
  let* total_beneficiary := fold_m (pay_beneficiary comment author_tokens) 0 (com_beneficiaries c) in
  let! author_tokens := safe.sub author_tokens total_beneficiary in
  let! dollar_amount := safe_mul_div author_tokens (com_percent_zattera_dollars c) (2 * ZATTERA_100_PERCENT) in
  let! vesting_liquid := safe.sub author_tokens dollar_amount in
  let* author := get_account (com_author c) in
  let* vest_created := create_vesting author (mk_asset vesting_liquid LIQUID_SYMBOL) true in
  let* (dollars, liquids) := create_dollar author (mk_asset dollar_amount LIQUID_SYMBOL) true in
  let* fh := get_feed_history in
  let p := fho_current_median_history fh in
  let! own := asset_add liquids (mk_asset vesting_liquid LIQUID_SYMBOL) in
  let! own_dollars := to_dollar p own in
  let! total := asset_add dollars own_dollars in
  let! curator_value := to_dollar p (mk_asset curation_tokens LIQUID_SYMBOL) in
  let! beneficiary_value := to_dollar p (mk_asset total_beneficiary LIQUID_SYMBOL) in
  adjust_total_payout comment total curator_value beneficiary_value ;;
  push_virtual_operation (author_reward_operation (com_author c) (com_permlink c) dollars liquids vest_created) ;;
  let! claimed_dollars := to_dollar p (mk_asset claimed_reward LIQUID_SYMBOL) in
  push_virtual_operation (comment_reward_operation (com_author c) (com_permlink c) claimed_dollars) ;;
  modify_res comment (fun c =>
    let? x := safe.add (com_author_rewards c) author_tokens in Ok (c <| com_author_rewards := x |>)) ;;
  let* author := get_account (com_author c) in
  modify_res author (fun a =>
    let? x := safe.add (acc_posting_rewards a) author_tokens in Ok (a <| acc_posting_rewards := x |>)) ;;
  ret claimed_reward.

(** A comment after its payout. *)
Definition paid_out (now : time) (c : comment_object) : comment_object :=
  (if com_net_rshares c >? 0 then c <| com_net_rshares := 0 |> else c)
    <| com_children_abs_rshares := 0 |> <| com_abs_rshares := 0 |> <| com_vote_rshares := 0 |>
    <| com_total_vote_weight := 0 |> <| com_max_cashout_time := time_maximum |>
    <| com_cashout_time := time_maximum |> <| com_last_payout := now |>.

Definition cashout_comment_helper (ctx : comment_reward_context) (comment : ref comment_object)
    (forward_curation_remainder : bool) : C share_type :=
  let* c := load comment in
  let* claimed_reward :=
    if com_net_rshares c >? 0 then
      let* rf := get_reward_fund in
      let* rfo := load rf in
      let! r := get_rshare_reward (fill_comment_reward_context ctx c rfo) in
      let reward_tokens := wrap_u128 (wrap_i64 r) in
      if reward_tokens >? 0 then pay_reward comment reward_tokens forward_curation_remainder else ret 0
    else ret 0 in
  let* now := head_block_time in
  modify_row comment (paid_out now) ;;
  push_virtual_operation (comment_payout_update_operation (com_author c) (com_permlink c)) ;;
  let* votes := index_where (fun v => [KZ (cvo_comment v); KZ (cvo_voter v)])
                  (fun v => cvo_comment v =? ref_id comment) in
  let* c := load comment in
  for_each votes (fun v =>
    if negb (calculate_discussion_payout_time c =? time_maximum)
    then modify_row v (fun cvo => cvo <| cvo_num_changes := -1 |>)
    else remove v) ;;
  ret claimed_reward.

(** [reward_fund_context]: the state of a fund while a block is processed. *)
Record reward_fund_context := mk_reward_fund_context {
  rfc_recent_claims : Z;
  rfc_reward_balance : asset;
  rfc_liquid_awarded : share_type
}.
#[export] Instance eta_reward_fund_context : Eta reward_fund_context := fun r => mk_reward_fund_context
  (rfc_recent_claims r) (rfc_reward_balance r) (rfc_liquid_awarded r).
#[export] Instance set_rfc_recent_claims : Setter rfc_recent_claims := ltac:(derive_setter rfc_recent_claims).
#[export] Instance set_rfc_liquid_awarded : Setter rfc_liquid_awarded := ltac:(derive_setter rfc_liquid_awarded).

(** The claims of the last fifteen days decay with the time since the last block. *)
Definition decay_claims (claims elapsed : Z) : res Z :=
  let? q := u128_div (u128_mul claims (wrap_u128 elapsed)) ZATTERA_RECENT_RSHARES_DECAY_TIME in
  Ok (u128_sub claims q).

Definition decay_funds : C (list reward_fund_context) :=
  let* now := head_block_time in
  let* idx := index (A := reward_fund_object) (fun _ => []) in
  fold_m (fun funds itr =>
    modify_res itr (fun rfo =>
      let? x := decay_claims (rfo_recent_claims rfo) (now - rfo_last_update rfo) in
      Ok (rfo <| rfo_recent_claims := x |> <| rfo_last_update := now |>)) ;;
    let* rfo := load itr in
    ret (funds ++ [mk_reward_fund_context (rfo_recent_claims rfo) (rfo_reward_balance rfo) 0])) [] idx.

Definition fund_at (funds : list reward_fund_context) (id : Z) : C reward_fund_context :=
  lift (of_option (funds !! Z.to_nat id) (assert_exception "funds[]")).

(** The claims of all comments due are added before any of them is paid. *)
Definition add_due_claims (now : time) (funds : list reward_fund_context) : C (list reward_fund_context) :=
  let* due := index_where (fun c => [KZ (com_cashout_time c)]) (fun c => com_cashout_time c <=? now) in
  fold_m (fun funds itr =>
    let* c := load itr in
    if com_net_rshares c >? 0 then
      let* rf := get_reward_fund in
      let* rfo := load rf in
      let* ctx := fund_at funds (ref_id rf) in
      let! claim := evaluate_reward_curve (wrap_u128 (com_net_rshares c)) (rfo_author_reward_curve rfo) (rfo_content_constant rfo) in
      ret (<[Z.to_nat (ref_id rf) := ctx <| rfc_recent_claims ::= fun x => u128_add x claim |>]> funds)
    else ret funds) funds due.

(** Pay the first comment of the index while it is due; its payout sends it to
    the end of the index. *)
Fixpoint cashout_due (fuel : nat) (now : time) (median : price) (funds : list reward_fund_context) : C (list reward_fund_context) :=
  match fuel with
  | O => throw out_of_fuel
  | S fuel' =>
      let* current := index_begin (fun c => [KZ (com_cashout_time c)]) in
      match current with
      | None => ret funds
      | Some r =>
          let* c := load r in
          if com_cashout_time c <=? now then
            let* rf := get_reward_fund in
            let* f := fund_at funds (ref_id rf) in
            let ctx := mk_comment_reward_context 0 0 (mk_asset 0 DOLLAR_SYMBOL) (rfc_recent_claims f) (rfc_reward_balance f)
                         median quadratic ZATTERA_CONTENT_CONSTANT in
            let* claimed := cashout_comment_helper ctx r false in
            let! awarded := safe.add (rfc_liquid_awarded f) claimed in
            cashout_due fuel' now median (<[Z.to_nat (ref_id rf) := f <| rfc_liquid_awarded := awarded |>]> funds)
          else ret funds
      end
  end.

Definition process_comment_cashout : C unit :=
  let* fh := get_feed_history in
  let* now := head_block_time in
  let* funds := decay_funds in
  let* funds := add_due_claims now funds in
  let* n := table_size (A := comment_object) in
  let* funds := cashout_due (S n) now (fho_current_median_history fh) funds in
  for_each (imap (fun i f => (i, f)) funds) (fun '(i, f) =>
    modify_res (Ref (A := reward_fund_object) (Z.of_nat i)) (fun rfo =>
      let? b := asset_sub (rfo_reward_balance rfo) (mk_asset (rfc_liquid_awarded f) LIQUID_SYMBOL) in
      Ok (rfo <| rfo_recent_claims := rfc_recent_claims f |> <| rfo_reward_balance := b |>))).

(** ** What a payout does to the ledger

    A reward in vesting shares is credited at the reward share price.  When that
    price gives no share at all for the amount, [adjust_reward_balance] credits
    the amount as liquid tokens while [create_vesting] still adds it to the
    pending vesting rewards: the amount [d] is then counted twice and backs no
    share.  [drift ch d] is that deviation; everything else balances. *)
Definition drift (ch : chan) (d : Z) : Z :=
  match ch with
  | Held c => amt c (mk_asset d LIQUID_SYMBOL)
  | Pending_liquid => - d
  | Vsf => 0
  end.
Definition stray (liquid new_vesting : asset) : Z :=
  if amount new_vesting =? 0 then amount liquid else 0.

Lemma drift_0 ch : drift ch 0 = 0.
Proof. destruct ch; cbn; try done. unfold amt. cbn. by case_match. Qed.
Lemma drift_add ch d e : drift ch (d + e) = drift ch d + drift ch e.
Proof. destruct ch; cbn; unfold amt; cbn; try case_match; lia. Qed.

Lemma create_vesting_reward_exact a liquid s v s' :
  create_vesting a liquid true s = Ok (v, s') →
  bal_frame s s' ∧ symbol liquid = LIQUID_SYMBOL ∧
  ∀ ch, gap ch s' = gap ch s + flow ch liquid + drift ch (stray liquid v).
Proof.
  intros H. destruct (decide (amount v = 0 ∧ amount liquid ≠ 0)) as [[Hv Hl]|Hne].
  - unfold create_vesting, get_dynamic_global_properties, when in H. cbn [negb] in H. inv_store.
    match goal with H : adjust_reward_balance _ _ _ _ = _ |- _ =>
      apply adjust_reward_balance_effect in H as (Hf & Hg1) end.
    match goal with H : ∀ ch, gap ch _ = gap ch _ + _ - _ |- _ => rename H into Hg end. bool_prop. subst.
    split; [etrans; [done|]; apply gpo_bal_frame; static_eq|]. split; [done|].
    intros ch. rewrite Hg, Hg1. clear Hg Hg1 Hf. unfold reward_flow, stray.
    rewrite (proj2 (Z.eqb_eq _ _) Hv). destruct liquid as [x sym]. cbn [symbol amount] in *. subst sym.
    repeat match goal with H : asset_mul_price _ _ = _ |- _ => clear H
      | H : get_reward_vesting_share_price _ = _ |- _ => clear H end.
    destruct ch as [c| |]; unfold flow, drift; try (amt_facts c;
      match type of Hv with amount ?v = 0 => pose proof (amt_zero c v Hv) end);
      asset_facts; weigh_simpl; cbn [amount symbol] in *; lia.
  - assert (symbol liquid = LIQUID_SYMBOL) as Hs.
    { unfold create_vesting in H. inv_ok. by bool_prop. }
    apply create_vesting_reward_effect in H as [Hf Hg]; [|lia]. split; [done|]. split; [done|].
    intros ch. rewrite Hg. replace (stray liquid v) with 0; [rewrite drift_0; lia|].
    unfold stray. case_match; bool_prop; lia.
Qed.

(** [x] tokens have been paid out, up to a drift. *)
Definition paid (x : Z) (s s' : database) : Prop :=
  (well_typed s → well_typed s') ∧
  ∃ d, ∀ ch, gap ch s' = gap ch s + flow ch (mk_asset x LIQUID_SYMBOL) + drift ch d.

Lemma paid_refl s : paid 0 s s.
Proof. split; [done|]. exists 0. intros ch. rewrite flow_zero, drift_0. lia. Qed.
Lemma paid_trans x y s1 s2 s3 : paid x s1 s2 → paid y s2 s3 → paid (x + y) s1 s3.
Proof.
  intros [Hw1 [d1 H1]] [Hw2 [d2 H2]]. split; [auto|]. exists (d1 + d2).
  intros ch. rewrite H2, H1, flow_add, drift_add. lia.
Qed.
Lemma paid_conserves {A} (m : C A) s a s' : well_typed s → conserves m → m s = Ok (a, s') → paid 0 s s'.
Proof.
  intros Hwt Hm Hr. destruct (Hm _ _ _ Hwt Hr) as [? Hg]. split; [done|].
  exists 0. intros ch. rewrite Hg, flow_zero, drift_0. lia.
Qed.
Lemma paid_vesting a x s v s' :
  create_vesting a (mk_asset x LIQUID_SYMBOL) true s = Ok (v, s') → paid x s s'.
Proof.
  intros (Hf & _ & Hg)%create_vesting_reward_exact. split; [by apply wt_bal_frame|]. eauto.
Qed.
Lemma paid_dollar a x s r s' :
  create_dollar a (mk_asset x LIQUID_SYMBOL) true s = Ok (r, s') → paid x s s'.
Proof.
  intros [Hf Hg]%create_dollar_effect; [|done]. split; [by apply wt_bal_frame|].
  exists 0. intros ch. rewrite Hg, drift_0. lia.
Qed.
Lemma paid_eq x y s s' : x = y → paid x s s' → paid y s s'.
Proof. by intros ->. Qed.

(** Sequencing: [paid] for what a computation pays, from well-typed states. *)
Lemma paid_step {A} (m : C A) s0 x s a s' :
  well_typed s0 → paid x s0 s → conserves m → m s = Ok (a, s') → paid x s0 s'.
Proof.
  intros Hwt [Hw Hp] Hm Hr. eapply paid_eq; [apply Z.add_0_r|].
  eapply paid_trans; [by split|]. eapply paid_conserves; [by apply Hw|done..].
Qed.
Lemma paid_more s0 x y z s s' : paid x s0 s → paid y s s' → z = x + y → paid z s0 s'.
Proof. intros. subst. by eapply paid_trans. Qed.

(** Reads leave the state alone. *)
Ltac reads :=
  unfold get_account, get_reward_fund, get_feed_history in *;
  repeat match goal with
  | E : load _ _ = Ok _ |- _ => apply load_ok in E as [_ ->]
  | E : get_by _ _ = Ok _ |- _ => apply get_by_ok in E as [-> _]
  end.

Lemma pay_curator_paid comment m t unclaimed item s unclaimed' s' :
  well_typed s → pay_curator comment m t unclaimed item s = Ok (unclaimed', s') →
  paid (unclaimed - unclaimed') s s'.
Proof.
  intros Hwt H. unfold pay_curator in H. inv_ok.
  reads.
  case_match; inv_ok; [|eapply paid_eq; [|apply paid_refl]; lia].
  reads.
  match goal with E : safe.sub _ _ = _ |- _ => apply safe_sub_ok in E as -> end.
  match goal with E : create_vesting _ _ _ _ = _ |- _ => pose proof (paid_vesting _ _ _ _ _ E) as Hp end.
  reads.
  match goal with E : push_virtual_operation _ _ = _ |- _ =>
    eapply (paid_step _ s) in E; [|done|exact Hp|apply conserves_push_virtual] end.
  match goal with E : modify_res _ _ _ = _ |- _ =>
    eapply (paid_step _ s) in E; [|done|eassumption|] end.
  - eapply paid_eq; [|eassumption]. lia.
  - apply conserves_modify_res. weigh_eq.
Qed.

Lemma pay_curators_paid comment m s r s' :
  well_typed s → pay_curators comment m s = Ok (r, s') → paid r.2 s s'.
Proof.
  intros Hwt H. unfold pay_curators in H. inv_ok.
  reads.
  case_match; inv_ok; [apply paid_refl|]. cbn [snd].
  match goal with E : safe.sub _ _ = _ |- _ => apply safe_sub_ok in E as -> end.
  case_match; inv_ok; [|eapply paid_eq; [|apply paid_refl]; lia].
  match goal with E : votes_by_weight _ _ = _ |- _ => unfold votes_by_weight, index_where in E end. inv_ok.
  match goal with E : fold_m _ _ _ _ = _ |- _ =>
    eapply (fold_m_pres (fun u s1 => paid (m - u) s s1)) in E; [exact E| |] end.
  - intros item u s1 u' s2 _ Hp Hr. apply pay_curator_paid in Hr; [|by apply Hp].
    eapply paid_more; [exact Hp|exact Hr|lia].
  - eapply paid_eq; [|apply paid_refl]. lia.
Qed.

Lemma pay_beneficiary_paid comment tokens total b s total' s' :
  well_typed s → pay_beneficiary comment tokens total b s = Ok (total', s') →
  paid (total' - total) s s'.
Proof.
  intros Hwt H. unfold pay_beneficiary, get_account in H. inv_ok.
  reads.
  match goal with E : create_vesting _ _ _ _ = _ |- _ => pose proof (paid_vesting _ _ _ _ _ E) as Hp end.
  reads.
  match goal with E : push_virtual_operation _ _ = _ |- _ =>
    eapply (paid_step _ s) in E; [|done|exact Hp|apply conserves_push_virtual] end.
  match goal with E : safe.add _ _ = _ |- _ => apply safe_add_ok in E as -> end.
  eapply paid_eq; [|eassumption]. lia.
Qed.

Lemma pay_beneficiaries_paid comment tokens l s total s' :
  well_typed s → fold_m (pay_beneficiary comment tokens) 0 l s = Ok (total, s') → paid total s s'.
Proof.
  intros Hwt H. eapply (fold_m_pres (fun t s1 => paid t s s1)) in H; [exact H| |apply paid_refl].
  intros b t s1 t' s2 _ Hp Hr. apply pay_beneficiary_paid in Hr; [|by apply Hp].
  eapply paid_more; [exact Hp|exact Hr|lia].
Qed.

Lemma adjust_total_payout_conserves cur a b c : conserves (adjust_total_payout cur a b c).
Proof. unfold adjust_total_payout. apply conserves_modify_res. weigh_eq. Qed.

Lemma pay_reward_paid comment tokens forward s claimed s' :
  well_typed s → pay_reward comment tokens forward s = Ok (claimed, s') → paid claimed s s'.
Proof.
  intros Hwt H. unfold pay_reward, get_account, get_feed_history in H.
  apply bind_ok in H as (percent & s1 & Hp & H).
  assert (s1 = s) as -> by (unfold get_curation_rewards_percent in Hp; inv_ok; reads; done).
  clear Hp. inv_ok. match goal with E : pay_curators _ _ _ = Ok (?r, _) |- _ => destruct r as [remainder curation];
    apply pay_curators_paid in E as Hcur; [|done] end. cbn [snd] in Hcur. inv_ok. reads.
  match goal with E : fold_m (pay_beneficiary _ _) _ _ _ = _ |- _ =>
    apply pay_beneficiaries_paid in E as Hben; [|by apply Hcur] end.
  match goal with E : create_vesting _ _ _ _ = _ |- _ => pose proof (paid_vesting _ _ _ _ _ E) as Hves end.
  match goal with E : create_dollar _ _ _ _ = Ok (?r, _) |- _ =>
    pose proof (paid_dollar _ _ _ _ _ E) as Hdol; destruct r as [dollars liquids] end.
  pose proof (paid_trans _ _ _ _ _ (paid_trans _ _ _ _ _ (paid_trans _ _ _ _ _ Hcur Hben) Hves) Hdol) as Hp.
  clear Hcur Hben Hves Hdol. inv_ok. reads.
  repeat match goal with
  | E : safe.sub _ _ = _ |- _ => apply safe_sub_ok in E
  | E : safe.add _ curation = _ |- _ => apply safe_add_ok in E
  end.
  match goal with E : adjust_total_payout _ _ _ _ _ = _ |- _ =>
    eapply (paid_step _ s) in E; [|done|exact Hp|apply adjust_total_payout_conserves]; clear Hp; rename E into Hp end.
  repeat match goal with
  | E : push_virtual_operation _ ?s1 = _, Hp : paid _ s ?s1 |- _ =>
      eapply (paid_step _ s) in E; [|done|exact Hp|apply conserves_push_virtual]; clear Hp; rename E into Hp
  | E : modify_res _ _ ?s1 = _, Hp : paid _ s ?s1 |- _ =>
      eapply (paid_step _ s) in E; [|done|exact Hp|apply conserves_modify_res; weigh_eq]; clear Hp; rename E into Hp
  end.
  eapply paid_eq; [|eassumption]. lia.
Qed.

(** ** Cashing out *)

Lemma remove_votes_conserves (c : bool) (votes : list (ref comment_vote_object)) :
  conserves (for_each votes (fun v =>
    if c then modify_row v (fun cvo => cvo <| cvo_num_changes := -1 |>) else remove v)).
Proof. conserve. Qed.

Lemma cashout_comment_helper_paid ctx comment forward s claimed s' :
  well_typed s → cashout_comment_helper ctx comment forward s = Ok (claimed, s') → paid claimed s s'.
Proof.
  intros Hwt H. unfold cashout_comment_helper in H.
  apply bind_ok in H as (c & s1 & [_ ->]%load_ok & H).
  apply bind_ok in H as (r & s1 & Hr & H).
  assert (paid r s s1) as Hp.
  { clear H. case_match; [|inv_ok; apply paid_refl]. inv_ok. reads.
    match type of Hr with (if ?b then _ else _) _ = _ => destruct b end; [by eapply pay_reward_paid|inv_ok; apply paid_refl]. }
  clear Hr. unfold head_block_time, index_where in H. inv_ok. reads.
  match goal with E : modify_row _ _ _ = _ |- _ =>
    eapply (paid_step _ s) in E; [|done|exact Hp|apply conserves_modify_row; weigh_eq]; clear Hp; rename E into Hp end.
  match goal with E : push_virtual_operation _ _ = _ |- _ =>
    eapply (paid_step _ s) in E; [|done|exact Hp|apply conserves_push_virtual]; clear Hp; rename E into Hp end.
  match goal with E : for_each _ _ _ = _ |- _ =>
    eapply (paid_step _ s) in E; [exact E|done|exact Hp|apply remove_votes_conserves] end.
Qed.

Definition total_awarded (funds : list reward_fund_context) : Z :=
  fold_right Z.add 0 (rfc_liquid_awarded <$> funds).

Lemma total_awarded_app l f : total_awarded (l ++ [f]) = total_awarded l + rfc_liquid_awarded f.
Proof. unfold total_awarded. induction l as [|x l IH]; cbn in *; lia. Qed.
Lemma total_awarded_insert l i f g : l !! i = Some f →
  total_awarded (<[i := g]> l) = total_awarded l + rfc_liquid_awarded g - rfc_liquid_awarded f.
Proof.
  unfold total_awarded. revert i. induction l as [|x l IH]; intros [|i] Hi; cbn in *; try done.
  - injection Hi as ->. lia.
  - etrans; [apply (f_equal (Z.add _)), (IH i Hi)|]. lia.
Qed.

Lemma cashout_due_paid fuel now median funds s0 s funds' s' :
  well_typed s0 → paid (total_awarded funds) s0 s →
  cashout_due fuel now median funds s = Ok (funds', s') → paid (total_awarded funds') s0 s'.
Proof.
  intros Hwt. revert funds s. induction fuel as [|fuel IH]; intros funds s Hp H; cbn in H; [done|].
  unfold index_begin, index in H. inv_ok. destruct (head _) as [r|]; inv_ok; [|done]. reads.
  case_match; inv_ok; [|done]. reads.
  match goal with E : fund_at _ _ _ = _ |- _ => unfold fund_at in E end. inv_ok.
  match goal with E : cashout_comment_helper _ _ _ _ = _ |- _ =>
    apply cashout_comment_helper_paid in E as Hc; [|by apply Hp] end.
  eapply IH; [|eassumption]. eapply paid_more; [exact Hp|exact Hc|].
  match goal with E : safe.add _ _ = _ |- _ => apply safe_add_ok in E as -> end.
  erewrite total_awarded_insert by eassumption. cbn. lia.
Qed.

(** The funds start with nothing awarded; adding claims awards nothing. *)
Lemma decay_funds_paid s funds s' :
  well_typed s → decay_funds s = Ok (funds, s') → paid (total_awarded funds) s s'.
Proof.
  intros Hwt H. unfold decay_funds, head_block_time, index in H. inv_ok.
  eapply (fold_m_pres (fun funds s1 => paid (total_awarded funds) s s1)) in H; [exact H| |apply paid_refl].
  intros itr l s1 l' s2 _ Hp Hr. inv_ok. reads. rewrite total_awarded_app. cbn [rfc_liquid_awarded].
  rewrite Z.add_0_r.
  match goal with E : modify_res _ _ _ = _ |- _ =>
    eapply (paid_step _ s) in E; [exact E|done|exact Hp|apply conserves_modify_res; weigh_eq] end.
Qed.

Lemma add_due_claims_paid now funds s0 s funds' s' :
  paid (total_awarded funds) s0 s → add_due_claims now funds s = Ok (funds', s') →
  paid (total_awarded funds') s0 s'.
Proof.
  unfold add_due_claims, index_where. intros Hp H. inv_ok.
  eapply (fold_m_pres (fun funds s1 => paid (total_awarded funds) s0 s1)) in H; [exact H| |done].
  intros itr l s1 l' s2 _ Hp' Hr. inv_ok. reads. case_match; inv_ok; [|done]. reads.
  match goal with E : fund_at _ _ _ = _ |- _ => unfold fund_at in E end. inv_ok.
  erewrite total_awarded_insert by eassumption.
  eapply paid_eq; [|exact Hp']. cbn. lia.
Qed.

(** What was awarded leaves the funds. *)
Lemma settle_funds_paid (l : list (nat * reward_fund_context)) s0 x s u s' :
  paid (x + total_awarded (l.*2)) s0 s →
  for_each l (fun '(i, f) =>
    modify_res (Ref (A := reward_fund_object) (Z.of_nat i)) (fun rfo =>
      let? b := asset_sub (rfo_reward_balance rfo) (mk_asset (rfc_liquid_awarded f) LIQUID_SYMBOL) in
      Ok (rfo <| rfo_recent_claims := rfc_recent_claims f |> <| rfo_reward_balance := b |>))) s = Ok (u, s') →
  paid x s0 s'.
Proof.
  revert s. induction l as [|[i f] l IH]; intros s Hp H; cbn in H; inv_ok.
  { eapply paid_eq; [|exact Hp]. cbn. lia. }
  eapply IH; [|exact H]. clear IH H.
  match goal with E : modify_res _ _ _ = _ |- _ => apply modify_res_gap in E as (o & o' & -> & Hr & Ho & Hg) end.
  inv_ok. destruct Hp as [Hwt [d Hd]]. split; [intros; apply wt_row; auto|].
  exists d. intros ch. rewrite Hg, Hd. cbn [fmap list_fmap snd]. unfold total_awarded. cbn [fmap list_fmap fold_right snd].
  fold (total_awarded (l.*2)). rewrite !flow_add. clear Hg Hd.
  destruct ch as [c| |]; unfold flow; try amt_facts c; weigh_simpl; lia.
Qed.

Lemma process_comment_cashout_gap s u s' :
  well_typed s → process_comment_cashout s = Ok (u, s') →
  well_typed s' ∧ ∃ d, ∀ ch, gap ch s' = gap ch s + drift ch d.
Proof.
  intros Hwt H. unfold process_comment_cashout, get_feed_history, head_block_time, table_size in H.
  inv_ok.
  match goal with E : decay_funds _ = _ |- _ => apply decay_funds_paid in E as Hp1; [|done] end.
  match goal with E : add_due_claims _ _ _ = _ |- _ => eapply add_due_claims_paid in E as Hp2; [|exact Hp1] end.
  match goal with E : cashout_due _ _ _ _ _ = Ok (?l, _) |- _ =>
    eapply cashout_due_paid in E as Hp3; [|exact Hwt|exact Hp2]; rename l into funds end.
  eapply (settle_funds_paid _ s 0) in H as [Hw [d Hd]].
  - split; [auto|]. exists d. intros ch. rewrite Hd, flow_zero. lia.
  - eapply paid_eq; [|exact Hp3]. rewrite Z.add_0_l. f_equal. rewrite fmap_imap.
    etrans; [symmetry; apply list_fmap_id|]. symmetry. apply (imap_const id).
Qed.

(** Paying out comments moves tokens and creates none.  Whatever comments are
    due, [process_comment_cashout] takes from the reward funds exactly what it
    credits to curators, beneficiaries and authors, as vesting shares, dollars
    or liquid tokens: a well-typed state stays well typed and every balance
    equation stays as it was, but for the rewards too small to buy a share,
    which are counted twice ([d], see [dust_reward_counted_twice]). *)
Theorem cashout_preserves_supply s u s' :
  well_typed s → process_comment_cashout s = Ok (u, s') →
  well_typed s' ∧ ∃ d, ∀ ch, gap ch s' = gap ch s + drift ch d.
Proof. apply process_comment_cashout_gap. Qed.

(** A comment that is due, with a reward fund of 50 ZTR at 1 ZBD per ZTR. *)
Definition sample_payout : database :=
  let comment := default_comment <| com_author := "temp" |> <| com_permlink := "post" |>
    <| com_net_rshares := 1000000 |> <| com_reward_weight := ZATTERA_100_PERCENT |>
    <| com_cashout_time := ZATTERA_GENESIS_TIME |> in
  add_row comment (sample_genesis
    <| gpo ::= fun g => g <| gpo_total_vesting_shares ::= set_amount 1000000000 |>
         <| gpo_total_vesting_fund_liquid ::= set_amount 1000000 |> |>
    <| feed_history ::= fun f => f <| fho_current_median_history :=
         mk_price (mk_asset 1000 DOLLAR_SYMBOL) (mk_asset 1000 LIQUID_SYMBOL) |> |>
    <| reward_fund_index ::= fun t => mk_table (next_id t)
         ((fun f => f <| rfo_reward_balance ::= set_amount 50000 |>) <$> rows t) |>).

Lemma cashout_preserves_supply_witness :
  let s' := run_state process_comment_cashout sample_payout in
  rfo_reward_balance <$> row (Ref 0) s' = Some (mk_asset 12500 LIQUID_SYMBOL) ∧
  acc_reward_dollar_balance <$> row (Ref 1) s' = Some (mk_asset 18750 DOLLAR_SYMBOL) ∧
  acc_reward_vesting_liquid_balance <$> row (Ref 1) s' = Some (mk_asset 18750 LIQUID_SYMBOL) ∧
  ∃ d, ∀ ch, gap ch s' = gap ch sample_payout + drift ch d.
Proof.
  intros s'. do 3 (split; [vm_compute; reflexivity|]).
  apply (cashout_preserves_supply sample_payout tt s').
  - split_and!; vm_compute; done.
  - vm_compute. reflexivity.
Defined.

(** A reward too small for a share is counted twice.  When the reward share
    price gives less than one share for the amount, [create_vesting] credits the
    account with liquid tokens but still adds the amount to the pending vesting
    rewards: the sum of the balances exceeds the recorded supply by the amount,
    and the pending rewards fall short by it.  [validate_invariants] then fails. *)
Theorem dust_reward_counted_twice a x s v s' :
  let g := gpo s in
  let shares := amount (gpo_total_vesting_shares g) + amount (gpo_pending_rewarded_vesting_shares g) in
  let liquid := amount (gpo_total_vesting_fund_liquid g) + amount (gpo_pending_rewarded_vesting_liquid g) in
  symbol (gpo_total_vesting_shares g) = VESTS_SYMBOL →
  symbol (gpo_total_vesting_fund_liquid g) = LIQUID_SYMBOL →
  0 < x < 2 ^ 63 → 0 ≤ shares < 2 ^ 63 → x * shares < liquid →
  create_vesting a (mk_asset x LIQUID_SYMBOL) true s = Ok (v, s') →
  amount v = 0 ∧
  gap (Held LIQUID_SYMBOL) s' = gap (Held LIQUID_SYMBOL) s + 2 * x ∧
  gap Pending_liquid s' = gap Pending_liquid s - x.
Proof.
  intros g shares liquid Hsv Hsl Hx Hs Hlt H.
  assert (amount v = 0) as Hv.
  { unfold create_vesting, get_dynamic_global_properties in H. inv_ok.
    match goal with E : get_reward_vesting_share_price _ = _ |- _ => rename E into Hp end.
    match goal with E : asset_mul_price _ _ = _ |- _ => rename E into Hm end.
    unfold get_reward_vesting_share_price, make_price in Hp. fold g in Hp. inv_ok.
    repeat match goal with E : asset_add _ _ = _ |- _ => apply asset_add_ok in E as (? & ? & ?) end.
    apply asset_mul_price_quote in Hm as (_ & _ & ->); cbn [base quote symbol amount]; [|lia|..].
    all: unfold shares, liquid in *; subst g; try congruence; try lia.
    - rewrite Z.div_small; [done|]. split; nia.
    - intros E. assert (VESTS_SYMBOL ≠ LIQUID_SYMBOL) by done. congruence. }
  split; [done|]. apply create_vesting_reward_exact in H as (_ & _ & Hg).
  rewrite !Hg. unfold stray, flow, drift. rewrite (proj2 (Z.eqb_eq _ _) Hv). cbn [amount].
  replace (amt LIQUID_SYMBOL (mk_asset x LIQUID_SYMBOL)) with x by done. lia.
Qed.

Lemma dust_reward_counted_twice_witness :
  let s := sample_genesis
    <| gpo ::= fun g => g <| gpo_total_vesting_shares ::= set_amount 10 |>
         <| gpo_total_vesting_fund_liquid ::= set_amount 1000000 |> |> in
  let s' := run_state (create_vesting (Ref 1) (mk_asset 5 LIQUID_SYMBOL) true) s in
  gap (Held LIQUID_SYMBOL) s' = gap (Held LIQUID_SYMBOL) s + 10.
Proof.
  intros s s'.
  destruct (dust_reward_counted_twice (Ref 1) 5 s (mk_asset 0 VESTS_SYMBOL) s') as (_ & Hg & _);
    [reflexivity|reflexivity|lia|vm_compute; intuition discriminate|vm_compute; reflexivity|
     vm_compute; reflexivity|exact Hg].
Defined.
