(* ===== verification/Schedule.v ===== *)
(** * Slots and the witness schedule

    The slot arithmetic of src/src/core/chain/database.cpp ([get_slot_time],
    [get_slot_at_time], [get_scheduled_witness]) and
    src/src/core/chain/witness_schedule.cpp: every twenty-first block the most voted
    witnesses and the runner ahead in virtual time are chosen and shuffled. *)
From S2P Require Import Prelude Ints Config Asset Authority State Store Ledger Balances EvalAccounts Genesis.

(** ** Slots *)

Definition get_slot_time (g : dynamic_global_property_object) (slot_num : Z) : time :=
  if slot_num =? 0 then 0
  else if gpo_head_block_number g =? 0 then wrap_u32 (gpo_time g + wrap_u32 (slot_num * ZATTERA_BLOCK_INTERVAL))
  else
    let head_block_abs_slot := gpo_time g / ZATTERA_BLOCK_INTERVAL in
    let head_slot_time := wrap_u32 (head_block_abs_slot * ZATTERA_BLOCK_INTERVAL) in
    wrap_u32 (head_slot_time + wrap_u32 (slot_num * ZATTERA_BLOCK_INTERVAL)).

Definition get_slot_at_time (g : dynamic_global_property_object) (when : time) : Z :=
  let first_slot_time := get_slot_time g 1 in
  if when <? first_slot_time then 0
  else wrap_u32 ((when - first_slot_time) / ZATTERA_BLOCK_INTERVAL + 1).

Definition get_scheduled_witness (g : dynamic_global_property_object) (wso : witness_schedule_object) (slot_num : Z)
    : res account_name_type :=
  let current_aslot := wrap_u64 (gpo_current_aslot g + slot_num) in
  of_option (wso_current_shuffled_witnesses wso !! Z.to_nat (current_aslot mod wso_num_scheduled_witnesses wso))
    (assert_exception "current_shuffled_witnesses[]").

Definition popcount128 (x : Z) : Z :=
  fold_right (fun i acc => (if Z.testbit x (Z.of_nat i) then 1 else 0) + acc) 0 (seq 0 128).
Definition witness_participation_rate (g : dynamic_global_property_object) : Z :=
  ZATTERA_100_PERCENT * popcount128 (gpo_recent_slots_filled g) / 128.

(** ** The shuffle *)

(** The generator of the shuffle: a hash of the time and the position. *)
Definition shuffle_hash (now_hi i : Z) : Z :=
  let k := wrap_u64 (now_hi + wrap_u64 (i * 2685821657736338717)) in
  let k := Z.lxor k (Z.shiftr k 12) in
  let k := Z.lxor k (wrap_u64 (Z.shiftl k 25)) in
  let k := Z.lxor k (Z.shiftr k 27) in
  wrap_u64 (k * 2685821657736338717).

(** [std::swap( l[i], l[j] )]. *)
Definition swap {A} (i j : nat) (l : list A) : list A :=
  match l !! i, l !! j with
  | Some x, Some y => <[i := y]> (<[j := x]> l)
  | _, _ => l
  end.

Definition shuffle_step (now_hi : Z) (n : nat) (l : list account_name_type) (i : nat) : list account_name_type :=
  let jmax := Z.of_nat n - Z.of_nat i in
  let j := wrap_u32 (Z.of_nat i + shuffle_hash now_hi (Z.of_nat i) mod jmax) in
  swap i (Z.to_nat j) l.
Definition shuffle (now_hi : Z) (n : nat) (l : list account_name_type) : list account_name_type :=
  foldl (shuffle_step now_hi n) l (seq 0 n).

(** ** Choosing the witnesses *)

Definition modify_wso (f : witness_schedule_object → witness_schedule_object) : C unit :=
  modify (fun s => s <| witness_schedule ::= f |>).

Definition reset_virtual_schedule_time : C unit :=
  modify_wso (fun o => o <| wso_current_virtual_time := 0 |>) ;;
  let* wso := get_witness_schedule_object in
  let* idx := index (A := witness_object) (fun _ => []) in
  for_each idx (fun w => modify_res w (fun wobj =>
    let? t := u128_div ZATTERA_VIRTUAL_SCHEDULE_LAP_LENGTH2 (wrap_u128 (wit_votes wobj + 1)) in
    Ok (wobj <| wit_virtual_position := 0 |> <| wit_virtual_last_update := wso_current_virtual_time wso |>
             <| wit_virtual_scheduled_time := t |>))).

(** The middle element of a list sorted by a key. *)
Definition median_by {A} (key : A → Z) (l : list A) : option A :=
  merge_sort (fun x y => Z.leb (key x) (key y)) l !! (length l / 2)%nat.

Definition scheduled_witnesses (wso : witness_schedule_object) : C (list witness_object) :=
  fold_m (fun acc i =>
    let! name := of_option (wso_current_shuffled_witnesses wso !! i) (assert_exception "current_shuffled_witnesses[]") in
    let* w := get_witness name in
    let* wo := load w in
    ret (acc ++ [wo])) [] (seq 0 (Z.to_nat (wso_num_scheduled_witnesses wso))).

Definition update_median_witness_props : C unit :=
  let* wso := get_witness_schedule_object in
  let* active := scheduled_witnesses wso in
  let median {B} (key : chain_properties → Z) (f : chain_properties → B) : C B :=
    lift (of_option ((fun w => f (wit_props w)) <$> median_by (fun w => key (wit_props w)) active) (assert_exception "active[]")) in
  let* fee := median (fun p => amount (cp_account_creation_fee p)) cp_account_creation_fee in
  let* size := median cp_maximum_block_size cp_maximum_block_size in
  let* rate := median cp_dollar_interest_rate cp_dollar_interest_rate in
  let* limit := median cp_account_subsidy_limit cp_account_subsidy_limit in
  modify_wso (fun w => w <| wso_median_props := mk_chain_properties fee size rate limit |>) ;;
  modify_gpo (fun g => Ok (g <| gpo_maximum_block_size := size |> <| gpo_dollar_interest_rate := rate |>)).

(** The most voted witnesses that have a signing key. *)
Definition null_key (w : witness_object) : bool := bool_decide (wit_signing_key w = "").
Definition select_voted (max_voted : Z) : C (list (ref witness_object) * list account_name_type) :=
  let* widx := index (fun w => [KZ (- wit_votes w); KS (wit_owner w)]) in
  fold_m (fun '(sel, act) itr =>
    if Z.of_nat (length sel) <? max_voted then
      let* w := load itr in
      if null_key w then ret (sel, act)
      else
        modify_row itr (fun wo => wo <| wit_schedule := top20 |>) ;;
        ret (sel ++ [itr], act ++ [wit_owner w])
    else ret (sel, act)) ([], []) widx.

(** The runners in the order of their virtual time: the witnesses visited, the
    time of the last one and the list with the chosen runners appended. *)
Definition select_runners (selected : list (ref witness_object)) (active : list account_name_type) (virtual_time : Z)
    : C (list (ref witness_object) * Z * list account_name_type) :=
  let* sidx := index (fun w => [KZ (wit_virtual_scheduled_time w)]) in
  let* (processed, vt, act, _) := fold_m (fun '(processed, vt, act, count) sitr =>
    if count <? ZATTERA_MAX_WITNESSES then
      let* w := load sitr in
      let vt := wit_virtual_scheduled_time w in
      let processed := processed ++ [sitr] in
      if null_key w || bool_decide (sitr ∈ selected) then ret (processed, vt, act, count)
      else
        modify_row sitr (fun wo => wo <| wit_schedule := timeshare |>) ;;
        ret (processed, vt, act ++ [wit_owner w], count + 1)
    else ret (processed, vt, act, count)) ([], virtual_time, active, Z.of_nat (length selected)) sidx in
  ret (processed, vt, act).

(** The next lap of the witnesses visited; [true] when the time overflows. *)
Fixpoint advance_virtual (virtual_time : Z) (processed : list (ref witness_object)) : C bool :=
  match processed with
  | [] => ret false
  | itr :: rest =>
      let* w := load itr in
      let! lap := u128_div ZATTERA_VIRTUAL_SCHEDULE_LAP_LENGTH2 (wrap_u128 (wit_votes w + 1)) in
      let t := u128_add virtual_time lap in
      if t <? virtual_time then ret true
      else
        modify_row itr (fun wo => wo <| wit_virtual_position := 0 |> <| wit_virtual_last_update := virtual_time |>
                                     <| wit_virtual_scheduled_time := t |>) ;;
        advance_virtual virtual_time rest
  end.

(** ** Versions *)

(** The highest version that enough witnesses run, going down from the highest. *)
Fixpoint majority_from (required : Z) (versions : list (Z * Z)) (on_version : Z) (default : Z) : Z :=
  match versions with
  | [] => default
  | (v, n) :: rest =>
      let on_version := on_version + n in
      if on_version >=? required then v else majority_from required rest on_version default
  end.
Definition count_of {A} `{EqDecision A} (x : A) (l : list A) : Z :=
  Z.of_nat (length (filter (fun y => y = x) l)).
(** The map from version to number of witnesses, highest version first. *)
Definition version_counts (l : list Z) : list (Z * Z) :=
  (fun v => (v, count_of v l)) <$> merge_sort (fun x y => Z.leb y x) (remove_dups l).
(** The map from a vote to its number, in ascending order of version and time. *)
Definition vote_leb (x y : Z * Z) : bool :=
  (x.1 <? y.1) || ((x.1 =? y.1) && (x.2 <=? y.2)).
Definition vote_counts (l : list (Z * Z)) : list (Z * Z * Z) :=
  (fun v => (v, count_of v l)) <$> merge_sort vote_leb (remove_dups l).

Definition tally_hardfork_votes (required : Z) (active : list witness_object) : C unit :=
  let votes := (fun w => (wit_hardfork_version_vote w, wit_hardfork_time_vote w)) <$> active in
  match List.find (fun q => q.2 >=? required) (vote_counts votes) with
  | Some (version, vtime, _) =>
      modify (fun s => s <| hardforks ::= fun h => h <| hpo_next_hardfork := version |> <| hpo_next_hardfork_time := vtime |> |>)
  | None =>
      modify (fun s => s <| hardforks ::= fun h => h <| hpo_next_hardfork := hpo_current_hardfork_version h |> |>)
  end.

Definition update_witness_schedule4 : C unit :=
  let* wso := get_witness_schedule_object in
  let* (selected, elected) := select_voted (wso_max_voted_witnesses wso) in
  let* (processed, vt, active) := select_runners selected elected (wso_current_virtual_time wso) in
  let num_elected := Z.of_nat (length elected) in
  let num_timeshare := Z.of_nat (length active) - num_elected in
  let* reset := advance_virtual vt processed in
  when reset reset_virtual_schedule_time ;;
  let vt := if reset then 0 else vt in
  let* wso := get_witness_schedule_object in
  let* scheduled := scheduled_witnesses wso in
  let majority := majority_from (wso_hardfork_required_witnesses wso)
    (version_counts (wit_running_version <$> scheduled)) 0 (wso_majority_version wso) in
  tally_hardfork_votes (wso_hardfork_required_witnesses wso) scheduled ;;
  let* now := head_block_time in
  let* num := head_block_num in
  modify_wso (fun w =>
    let names := active ++ replicate (Z.to_nat ZATTERA_MAX_WITNESSES - length active) "" in
    let n := Z.max (wrap_u8 (Z.of_nat (length active))) 1 in
    let factor := wrap_u32 (wso_top20_weight w * num_elected + wso_timeshare_weight w * num_timeshare) in
    w <| wso_current_shuffled_witnesses := shuffle (wrap_u64 (now * 2 ^ 32)) (Z.to_nat n) names |>
      <| wso_num_scheduled_witnesses := n |> <| wso_witness_pay_normalization_factor := factor |>
      <| wso_current_virtual_time := vt |> <| wso_next_shuffle_block_num := wrap_u32 (num + n) |>
      <| wso_majority_version := majority |>) ;;
  update_median_witness_props.

Definition update_witness_schedule : C unit :=
  let* num := head_block_num in
  when (num mod ZATTERA_MAX_WITNESSES =? 0) update_witness_schedule4.

(** ** Slots and times correspond *)

(** The time slot 0 would have. *)
Definition slot_base (g : dynamic_global_property_object) : time :=
  if gpo_head_block_number g =? 0 then gpo_time g else gpo_time g / ZATTERA_BLOCK_INTERVAL * ZATTERA_BLOCK_INTERVAL.

Lemma slot_base_bound g : 0 ≤ gpo_time g → 0 ≤ slot_base g ≤ gpo_time g.
Proof.
  unfold slot_base, ZATTERA_BLOCK_INTERVAL. intros H. destruct (_ =? 0); [lia|].
  pose proof (Z.mul_div_le (gpo_time g) 3 ltac:(lia)). pose proof (Z.div_pos (gpo_time g) 3). lia.
Qed.
Lemma get_slot_time_eq g n : 0 ≤ gpo_time g → 1 ≤ n → gpo_time g + n * ZATTERA_BLOCK_INTERVAL < 2 ^ 32 →
  get_slot_time g n = slot_base g + n * ZATTERA_BLOCK_INTERVAL.
Proof.
  intros Ht Hn Hb. pose proof (slot_base_bound g Ht). unfold get_slot_time, slot_base, ZATTERA_BLOCK_INTERVAL, wrap_u32 in *.
  replace (n =? 0) with false by lia. rewrite (Z.mod_small (n * 3)) by lia.
  destruct (gpo_head_block_number g =? 0); [rewrite Z.mod_small; lia|].
  rewrite (Z.mod_small (gpo_time g / 3 * 3)), Z.mod_small; lia.
Qed.

(** A chain whose head block was produced at second 1000. *)
Definition sample_gpo : dynamic_global_property_object := default_gpo <| gpo_time := 1000 |> <| gpo_head_block_number := 1 |>.

(** Slots and times agree: the slot of the time of slot [n] is [n], for every
    slot whose time fits the 32-bit clock. *)
Theorem slot_round_trip g n : 0 ≤ gpo_time g → 1 ≤ n → gpo_time g + n * ZATTERA_BLOCK_INTERVAL < 2 ^ 32 →
  get_slot_at_time g (get_slot_time g n) = n.
Proof.
  intros Ht Hn Hb. unfold get_slot_at_time.
  rewrite !get_slot_time_eq by (unfold ZATTERA_BLOCK_INTERVAL in *; lia). unfold ZATTERA_BLOCK_INTERVAL, wrap_u32 in *.
  replace (_ <? _) with false by lia.
  replace (slot_base g + n * 3 - (slot_base g + 1 * 3)) with ((n - 1) * 3) by lia.
  rewrite Z.div_mul, Z.mod_small by lia. lia.
Qed.

Lemma slot_round_trip_witness : get_slot_time sample_gpo 5 = 1014 ∧ get_slot_at_time sample_gpo (get_slot_time sample_gpo 5) = 5.
Proof. split; [vm_compute; reflexivity|]. apply (slot_round_trip sample_gpo 5); vm_compute; first [reflexivity|discriminate]. Defined.

(** A time belongs to the slot whose interval it lies in, and slot 0 stands
    for the times before the first slot. *)
Theorem slot_at_time_interval g t : 0 ≤ gpo_time g → gpo_time g + ZATTERA_BLOCK_INTERVAL < 2 ^ 32 → 0 ≤ t < 2 ^ 32 →
  let n := get_slot_at_time g t in
  (n = 0 ∧ t < get_slot_time g 1) ∨
  (0 < n ∧ slot_base g + n * ZATTERA_BLOCK_INTERVAL ≤ t < slot_base g + (n + 1) * ZATTERA_BLOCK_INTERVAL).
Proof.
  intros Hg Hb Ht. pose proof (slot_base_bound g Hg). unfold get_slot_at_time.
  rewrite !get_slot_time_eq by (unfold ZATTERA_BLOCK_INTERVAL in *; lia). unfold ZATTERA_BLOCK_INTERVAL, wrap_u32 in *.
  cbv zeta. destruct (_ <? _) eqn:E; bool_prop; [left; lia|right].
  set (q := t - (slot_base g + 1 * 3)). pose proof (Z.div_mod q 3 ltac:(lia)). pose proof (Z.mod_pos_bound q 3 ltac:(lia)).
  pose proof (Z.div_pos q 3 ltac:(lia) ltac:(lia)). assert (q / 3 ≤ q) by lia.
  rewrite Z.mod_small by lia. lia.
Qed.

Lemma slot_at_time_interval_witness : get_slot_at_time sample_gpo 1004 = 1 ∧ 1002 ≤ 1004 < 1005.
Proof.
  destruct (slot_at_time_interval sample_gpo 1004) as [[H _]|[_ H]]; [vm_compute; discriminate|vm_compute; reflexivity|lia|discriminate H|].
  split; [vm_compute; reflexivity|exact H].
Defined.

(** ** The shuffle permutes *)

Lemma swap_lt_permutation {A} i j x y (l : list A) : (i < j)%nat → l !! i = Some x → l !! j = Some y →
  <[i := y]> (<[j := x]> l) ≡ₚ l.
Proof.
  intros Hij Hi Hj. apply list_elem_of_split_length in Hi as (l1 & l2 & -> & ->).
  rewrite lookup_app_r in Hj by lia. destruct (j - length l1)%nat as [|k] eqn:Ek; [lia|]. cbn in Hj.
  apply list_elem_of_split_length in Hj as (l3 & l4 & -> & ->).
  rewrite (insert_app_r_alt l1) by lia. rewrite Ek. cbn. rewrite (insert_app_r_alt l3), Nat.sub_diag by lia. cbn.
  rewrite (insert_app_r_alt l1), Nat.sub_diag by lia. cbn.
  apply Permutation_app_head. rewrite <- !Permutation_middle. apply Permutation_swap.
Qed.
Lemma swap_permutation {A} i j (l : list A) : swap i j l ≡ₚ l.
Proof.
  unfold swap. destruct (l !! i) as [x|] eqn:Ei; [|done]. destruct (l !! j) as [y|] eqn:Ej; [|done].
  destruct (decide (i = j)) as [->|Hne]; [|destruct (decide (i < j)%nat)].
  - simplify_eq. rewrite list_insert_insert_eq, list_insert_id; done.
  - by apply swap_lt_permutation.
  - rewrite list_insert_insert_ne by done. apply swap_lt_permutation; [lia|done..].
Qed.
Lemma swap_length {A} i j (l : list A) : length (swap i j l) = length l.
Proof. apply Permutation_length, swap_permutation. Qed.
Lemma swap_drop {A} i j n (l : list A) : (i < n)%nat → (j < n)%nat → drop n (swap i j l) = drop n l.
Proof.
  unfold swap. intros. destruct (l !! i); [|done]. destruct (l !! j); [|done].
  by rewrite !drop_insert_lt.
Qed.

Lemma shuffle_index now n i : (i < n)%nat → Z.of_nat n < 2 ^ 31 →
  (Z.to_nat (wrap_u32 (Z.of_nat i + shuffle_hash now (Z.of_nat i) mod (Z.of_nat n - Z.of_nat i))) < n)%nat.
Proof.
  intros Hi Hn. pose proof (Z.mod_pos_bound (shuffle_hash now (Z.of_nat i)) (Z.of_nat n - Z.of_nat i) ltac:(lia)).
  unfold wrap_u32. rewrite Z.mod_small by lia. lia.
Qed.

Lemma shuffle_drop now n l js : Z.of_nat n < 2 ^ 31 → Forall (fun i => i < n)%nat js →
  foldl (shuffle_step now n) l js ≡ₚ l ∧ drop n (foldl (shuffle_step now n) l js) = drop n l.
Proof.
  intros Hn. revert l. induction js as [|i js IH]; intros l Hf; cbn; [done|].
  apply Forall_cons_1 in Hf as [Hi Hf]. destruct (IH (shuffle_step now n l i) Hf) as [Hp Hd].
  split; [rewrite Hp; apply swap_permutation|]. rewrite Hd. unfold shuffle_step.
  apply swap_drop; [done|]. by apply shuffle_index.
Qed.

(** The shuffle of the schedule permutes the scheduled witnesses: nobody is
    lost, duplicated or taken from behind the scheduled part of the array. *)
Theorem shuffle_permutes now n l : (n ≤ length l)%nat → Z.of_nat n < 2 ^ 31 →
  take n (shuffle now n l) ≡ₚ take n l ∧ drop n (shuffle now n l) = drop n l.
Proof.
  intros Hl Hn. unfold shuffle. destruct (shuffle_drop now n l (seq 0 n) Hn) as [Hp Hd].
  { apply list.Forall_forall. intros i Hi%elem_of_seq. lia. }
  split; [|done]. rewrite <- (take_drop n l) in Hp at 2. rewrite <- (take_drop n (foldl _ _ _)) in Hp.
  rewrite Hd in Hp. by apply Permutation_app_inv_r in Hp.
Qed.

Lemma shuffle_permutes_witness : take 3 (shuffle 7 3 ["a"; "b"; "c"; "d"]) ≡ₚ ["a"; "b"; "c"].
Proof. exact (proj1 (shuffle_permutes 7 3 ["a"; "b"; "c"; "d"] ltac:(cbn; lia) ltac:(cbn; lia))). Defined.

(** The witnesses of [n] consecutive slots, as a rotation of the schedule. *)
Lemma rotate_permutation {A} k (l : list A) : rotate k l ≡ₚ l.
Proof. unfold rotate. rewrite Permutation_app_comm. by rewrite take_drop. Qed.

(** In a round of as many consecutive slots as there are scheduled
    witnesses, every scheduled witness gets exactly one slot. *)
Theorem scheduled_round g wso slot :
  let n := wso_num_scheduled_witnesses wso in
  let names := wso_current_shuffled_witnesses wso in
  0 < n ≤ Z.of_nat (length names) → 0 ≤ slot → 0 ≤ gpo_current_aslot g → gpo_current_aslot g + slot + n < 2 ^ 64 →
  ∃ round, round ≡ₚ take (Z.to_nat n) names ∧
    ∀ i, 0 ≤ i < n → of_option (round !! Z.to_nat i) (assert_exception "current_shuffled_witnesses[]")
                      = get_scheduled_witness g wso (slot + i).
Proof.
  intros n names Hn Hs Ha Hb. set (a := gpo_current_aslot g) in *.
  exists (rotate (Z.to_nat (a + slot)) (take (Z.to_nat n) names)). split; [apply rotate_permutation|].
  intros i Hi. assert (Hlen : length (take (Z.to_nat n) names) = Z.to_nat n) by (rewrite length_take; lia).
  rewrite lookup_rotate_r by lia. unfold get_scheduled_witness, wrap_u64. fold n names a.
  rewrite (Z.mod_small (a + (slot + i))) by lia. f_equal.
  rewrite Hlen. unfold rotate_nat_add.
  replace (Z.of_nat (Z.to_nat (a + slot)) + Z.of_nat (Z.to_nat i)) with (a + (slot + i)) by lia.
  rewrite Z2Nat.id by lia. apply lookup_take_lt.
  pose proof (Z.mod_pos_bound (a + (slot + i)) n ltac:(lia)). lia.
Qed.

Lemma scheduled_round_witness :
  let wso := default_witness_schedule <| wso_current_shuffled_witnesses := ["a"; "b"; "c"; "" ] |> <| wso_num_scheduled_witnesses := 3 |> in
  ∃ round, round ≡ₚ ["a"; "b"; "c"].
Proof.
  intros wso. destruct (scheduled_round sample_gpo wso 1) as (round & Hr & _);
    [vm_compute; split; [reflexivity|discriminate]|vm_compute; discriminate|vm_compute; discriminate|vm_compute; reflexivity|].
  exists round. exact Hr.
Defined.
