(* ===== verification/Chain.v ===== *)
(** * Transactions and blocks

    [_apply_transaction], [validate_block_header], the updates of the global
    properties and [_apply_block] of src/src/core/chain/database.cpp: how the
    evaluators and the periodic processing are put together.  Hashes, serialized
    sizes and signature recovery (fc's cryptography) are parameters (Blocks.v); the undo
    sessions around a block are in Chainbase.v. *)
From S2P Require Import Prelude Ints Config Asset Authority Headers Operations State Blocks Store Ledger Balances Vesting Conserve.
From S2P Require Import Drain EvalAccounts EvalContent Evaluators Invariants Genesis Market BlockProc Withdrawals Expiry Payout Schedule.

(** ** Transactions and blocks *)

(** ** Steps a node may skip ([validation_steps]) *)
Definition skip_witness_signature : Z := 1.
Definition skip_transaction_signatures : Z := 2.
Definition skip_transaction_dupe_check : Z := 4.
Definition skip_tapos_check : Z := 32.
Definition skip_authority_check : Z := 64.
Definition skip_merkle_check : Z := 128.
Definition skip_undo_history_check : Z := 256.
Definition skip_witness_schedule_check : Z := 512.
Definition skip_validate : Z := 1024.
Definition skips (skip flag : Z) : bool := negb (Z.land skip flag =? 0).

(** [get_shared_db_merkle]: blocks whose merkle root, and whose missing active
    authorities, are accepted as they are. *)
Definition shared_db_merkle : list (Z * string) := [
  (3705111, "0a8f0fd5450c3706ec8b8cbad795cd0b3679bf35");
  (3705120, "2027edb72b671f7011c8cc4c7a8b59c39b305093");
  (3713940, "bf8a1d516927c506ebdbb7b38bef2e992435435f");
  (3714132, "e8b77773d268b72c8d650337b8cce360bbe64779");
  (3714567, "45af59a8c2d7d4a606151ef5dae03d2dfe13fbdd");
  (3714588, "e64275443bdc82f104ac936486d367af8f6d1584");
  (4138790, "f65a3a788a2ef52406d8ba5705d7288be228403f");
  (5435426, "0b32538b2d22bd3146d54b6e3cb5ae8b9780e8a5")].
Definition merkle_exception (num : Z) : option string :=
  snd <$> List.find (fun q => q.1 =? num) shared_db_merkle.

(** ** Applying a transaction *)

Section Chain.
Context `{Codec, DiffPatch, Crypto}.

(** A [flat_set] of names. *)
Definition name_leb (x y : account_name_type) : bool :=
  match String.compare x y with Gt => false | _ => true end.
Definition flat_set (l : list account_name_type) : list account_name_type :=
  merge_sort name_leb (remove_dups l).

Lemma elem_of_flat_set k l : k ∈ flat_set l ↔ k ∈ l.
Proof. unfold flat_set. by rewrite merge_sort_Permutation, elem_of_remove_dups. Qed.
Lemma flat_set_NoDup l : NoDup (flat_set l).
Proof. unfold flat_set. rewrite merge_sort_Permutation. apply NoDup_remove_dups. Qed.

Definition account_authority (s : database) (which : account_authority_object → authority) (name : string) : res authority :=
  let? r := of_option (find_row (fun a => bool_decide (auth_account a = name)) s) (key_not_found "account_authority_object") in
  let? a := of_option (row r s) (key_not_found "account_authority_object") in
  Ok (which a).
Definition chain_getters (s : database) : auth_getters :=
  mk_getters (account_authority s auth_active) (account_authority s auth_owner) (account_authority s auth_posting).

Definition transaction_authority (trx : signed_transaction) (s : database) : res unit :=
  let ops := trx_operations trx in
  let? keys := signature_keys trx in
  let? other := res_fold (fun acc op => let? a := get_required_authorities op in Ok (acc ++ a)) [] ops in
  verify_authority (chain_getters s) ZATTERA_MAX_SIG_CHECK_DEPTH ZATTERA_MAX_AUTHORITY_MEMBERSHIP
    (Z.of_nat ZATTERA_MAX_SIG_CHECK_ACCOUNTS)
    (flat_set (mjoin (get_required_active_authorities <$> ops)))
    (flat_set (mjoin (get_required_owner_authorities <$> ops)))
    (flat_set (mjoin (get_required_posting_authorities <$> ops))) other keys.

Definition transaction_validate (trx : signed_transaction) : res unit :=
  let? _ := res_assert (negb (bool_decide (length (trx_operations trx) = 0%nat)))
    "A transaction must have at least one operation" in
  operations_validate (trx_operations trx).

Definition tx_missing_active_auth : exn := assert_exception "Missing Active Authority".

Definition verify_transaction (trx : signed_transaction) : C unit := fun s =>
  match transaction_authority trx s with
  | Throw e =>
      if bool_decide (e = tx_missing_active_auth) && bool_decide (is_Some (merkle_exception (gpo_head_block_number (gpo s) + 1)))
      then Ok (tt, s) else Throw e
  | Ok _ => Ok (tt, s)
  end.

Definition check_reference_block (trx : signed_transaction) : C unit :=
  let* summary := load (Ref (A := block_summary_object) (trx_ref_block_num trx)) in
  fc_assert (trx_ref_block_prefix trx =? id_word 1 (bso_block_id summary)) "transaction_tapos_exception".

Definition check_expiration (trx : signed_transaction) : C unit :=
  let* now := head_block_time in
  fc_assert (trx_expiration trx <=? wrap_u32 (now + ZATTERA_MAX_TIME_UNTIL_EXPIRATION)) "transaction_expiration_exception" ;;
  fc_assert (now <? trx_expiration trx) "transaction_expiration_exception".

Definition _apply_transaction (skip : Z) (trx : signed_transaction) : C unit :=
  when (negb (skips skip skip_validate)) (lift (transaction_validate trx)) ;;
  let* dup := find_by (fun t => bool_decide (txo_trx_id t = transaction_id trx)) in
  fc_assert (skips skip skip_transaction_dupe_check || bool_decide (dup = None)) "Duplicate transaction check failed" ;;
  when (negb (skips skip (Z.lor skip_transaction_signatures skip_authority_check))) (verify_transaction trx) ;;
  let* num := head_block_num in
  when (num >? 0) (
    when (negb (skips skip skip_tapos_check)) (check_reference_block trx) ;;
    check_expiration trx) ;;
  when (negb (skips skip skip_transaction_dupe_check))
    (create (mk_transaction_object (transaction_id trx) (trx_expiration trx)) ;; ret tt) ;;
  for_each (trx_operations trx) apply_operation.

(** ** The global properties after a block *)

Definition validate_block_header (skip : Z) (next_block : signed_block) : C (ref witness_object) :=
  let* g := get_dynamic_global_properties in
  fc_assert (bool_decide (gpo_head_block_id g = blk_previous next_block)) "head_block_id() == next_block.previous" ;;
  fc_assert (gpo_time g <? blk_timestamp next_block) "head_block_time() < next_block.timestamp" ;;
  let* witness := get_witness (blk_witness next_block) in
  let* w := load witness in
  when (negb (skips skip skip_witness_signature))
    (let! valid := validate_signee next_block (wit_signing_key w) in
     fc_assert valid "next_block.validate_signee( witness.signing_key )") ;;
  when (negb (skips skip skip_witness_schedule_check)) (
    let slot_num := get_slot_at_time g (blk_timestamp next_block) in
    fc_assert (slot_num >? 0) "slot_num > 0" ;;
    let* wso := get_witness_schedule_object in
    let! scheduled_witness := get_scheduled_witness g wso slot_num in
    fc_assert (bool_decide (wit_owner w = scheduled_witness)) "Witness produced block at wrong time") ;;
  ret witness.

(** One slot enters the 128-slot window of produced blocks. *)
Definition slot_step (filled : bool) (w : Z * Z) : Z * Z :=
  let '(recent, count) := w in
  let bit := if filled then 1 else 0 in
  let count := wrap_u8 (count - (if Z.testbit recent 127 then 1 else 0)) in
  (u128_add (wrap_u128 (Z.shiftl recent 1)) bit, wrap_u8 (count + bit)).
Definition slots_update (missed : Z) (w : Z * Z) : Z * Z :=
  foldl (fun w i => slot_step (bool_decide (i = 0%nat)) w) w (seq 0 (Z.to_nat (wrap_u32 (missed + 1)))).

Definition update_global_dynamic_data (skip : Z) (b : signed_block) : C unit :=
  let* g := get_dynamic_global_properties in
  let missed_blocks :=
    if negb (gpo_time g =? 0) then wrap_u32 (get_slot_at_time g (blk_timestamp b) - 1) else 0 in
  for_each (seq 0 (Z.to_nat missed_blocks)) (fun i =>
    let* g := get_dynamic_global_properties in
    let* wso := get_witness_schedule_object in
    let! name := get_scheduled_witness g wso (Z.of_nat i + 1) in
    let* witness_missed := get_witness name in
    let* w := load witness_missed in
    when (negb (bool_decide (wit_owner w = blk_witness b)))
      (modify_with witness_missed (fun w =>
        let w := w <| wit_total_missed ::= fun n => wrap_u32 (n + 1) |> in
        if wrap_u32 (gpo_head_block_number g - wit_last_confirmed_block_num w) >? ZATTERA_BLOCKS_PER_DAY
        then push_virtual_operation (shutdown_witness_operation (wit_owner w)) ;; ret (w <| wit_signing_key := "" |>)
        else ret w))) ;;
  modify_gpo (fun g =>
    let '(recent, count) := slots_update missed_blocks (gpo_recent_slots_filled g, gpo_participation_count g) in
    Ok (g <| gpo_recent_slots_filled := recent |> <| gpo_participation_count := count |>
          <| gpo_head_block_number := block_num b |> <| gpo_head_block_id := block_id b |>
          <| gpo_time := blk_timestamp b |> <| gpo_current_aslot ::= fun a => wrap_u64 (a + wrap_u32 (missed_blocks + 1)) |>)) ;;
  let* g := get_dynamic_global_properties in
  when (negb (skips skip skip_undo_history_check))
    (fc_assert (wrap_u32 (gpo_head_block_number g - gpo_last_irreversible_block_num g) <? ZATTERA_MAX_UNDO_HISTORY)
       "undo_database_exception").

(** The share of the supply that is dollars, in hundredths of a percent, and the
    part of rewards it leaves to be printed as dollars. *)
Definition dollar_print_rate (percent_dollar : Z) : Z :=
  if percent_dollar <=? ZATTERA_DOLLAR_START_PERCENT then ZATTERA_100_PERCENT
  else if percent_dollar >=? ZATTERA_DOLLAR_STOP_PERCENT then 0
  else (ZATTERA_DOLLAR_STOP_PERCENT - percent_dollar) * ZATTERA_100_PERCENT
         / (ZATTERA_DOLLAR_STOP_PERCENT - ZATTERA_DOLLAR_START_PERCENT).

Definition update_virtual_supply : C unit :=
  let* fh := get_feed_history in
  let p := fho_current_median_history fh in
  modify_gpo (fun dgp =>
    let? d := if is_null p then Ok (mk_asset 0 LIQUID_SYMBOL) else asset_mul_price (gpo_current_dollar_supply dgp) p in
    let? v := asset_add (gpo_current_liquid_supply dgp) d in
    let dgp := dgp <| gpo_virtual_liquid_supply := v |> in
    if negb (is_null p) then
      let? q := u128_div (u128_mul (wrap_u128 (amount d)) ZATTERA_100_PERCENT) (wrap_u128 (amount v)) in
      let? q := u128_to_uint64 q in
      Ok (dgp <| gpo_dollar_print_rate := dollar_print_rate (wrap_u16 q) |>)
    else Ok dgp).

Definition update_signing_witness (signing_witness : ref witness_object) (new_block : signed_block) : C unit :=
  let* g := get_dynamic_global_properties in
  let new_block_aslot := wrap_u64 (gpo_current_aslot g + get_slot_at_time g (blk_timestamp new_block)) in
  modify_row signing_witness (fun w => w <| wit_last_aslot := new_block_aslot |>
    <| wit_last_confirmed_block_num := block_num new_block |>).

(** The block confirmed by three quarters of the scheduled witnesses: the value
    that [nth_element] puts at the offset. *)
Definition irreversible_offset (n : nat) : nat :=
  Z.to_nat ((ZATTERA_100_PERCENT - ZATTERA_IRREVERSIBLE_THRESHOLD) * Z.of_nat n / ZATTERA_100_PERCENT).
Definition confirmed_by_threshold (confirmed : list Z) : option Z :=
  merge_sort Z.le confirmed !! irreversible_offset (length confirmed).

Definition update_last_irreversible_block : C unit :=
  let* g := get_dynamic_global_properties in
  let head := gpo_head_block_number g in
  if head <? ZATTERA_START_WITNESS_VOTING_BLOCK then
    modify_gpo (fun g => Ok (if head >? ZATTERA_MAX_WITNESSES
      then g <| gpo_last_irreversible_block_num := head - ZATTERA_MAX_WITNESSES |> else g))
  else
    let* wso := get_witness_schedule_object in
    let* wits := scheduled_witnesses wso in
    let! new_last := of_option (confirmed_by_threshold (wit_last_confirmed_block_num <$> wits)) (assert_exception "wit_objs[]") in
    when (new_last >? gpo_last_irreversible_block_num g)
      (modify_gpo (fun g => Ok (g <| gpo_last_irreversible_block_num := new_last |>))).

Definition create_block_summary (next_block : signed_block) : C unit :=
  modify_row (Ref (A := block_summary_object) (Z.land (block_num next_block) 0xffff))
    (fun p => p <| bso_block_id := block_id next_block |>).

(** ** The price feed *)

Definition sort_prices (l : list price) : list price := merge_sort (fun x y => negb (price_ltb y x)) l.
Definition median_price (l : list price) : option price := sort_prices l !! (length l / 2)%nat.
Definition pop_front_over (window : Z) (l : list price) : list price :=
  if Z.of_nat (length l) >? window then tail l else l.

Definition feed_active (now : time) (w : witness_object) : bool :=
  (now <? wrap_u32 (wit_last_dollar_exchange_update w + ZATTERA_MAX_FEED_AGE_SECONDS)) && negb (is_null (wit_dollar_exchange_rate w)).

Definition next_feed_history (g : dynamic_global_property_object) (median_feed : price) (fho : feed_history_object) : res feed_history_object :=
  let hist := pop_front_over ZATTERA_FEED_HISTORY_WINDOW (fho_price_history fho ++ [median_feed]) in
  match median_price hist with
  | None => Ok (fho <| fho_price_history := hist |>)
  | Some m =>
      let? d := safe.mul 9 (amount (gpo_current_dollar_supply g)) in
      let? min_price := make_price (mk_asset d DOLLAR_SYMBOL) (gpo_current_liquid_supply g) in
      Ok (mk_feed_history_object (if price_gtb min_price m then min_price else m) hist)
  end.

Definition update_median_feed : C unit :=
  let* num := head_block_num in
  if negb (num mod ZATTERA_FEED_INTERVAL_BLOCKS =? 0) then ret tt
  else
    let* now := head_block_time in
    let* wso := get_witness_schedule_object in
    let* wits := scheduled_witnesses wso in
    let feeds := wit_dollar_exchange_rate <$> filter (fun w => feed_active now w = true) wits in
    when (Z.of_nat (length feeds) >=? ZATTERA_MIN_FEEDS) (
      let! median_feed := of_option (median_price feeds) (assert_exception "feeds[]") in
      let* g := get_dynamic_global_properties in
      let* fh := get_feed_history in
      let! fh := next_feed_history g median_feed fh in
      modify (fun s => s <| feed_history := fh |>)).

(** ** Hardforks *)

Definition hardfork_times : list time := [ZATTERA_GENESIS_TIME].
Definition hardfork_versions : list Z := [0].
Definition hardfork_at {A} (l : list A) (i : Z) : res A :=
  of_option (l !! Z.to_nat i) (assert_exception "_hardfork_versions[]").

Definition apply_hardfork (hardfork : Z) : C unit :=
  let* h := get_hardfork_property_object in
  fc_assert (hardfork =? hpo_last_hardfork h + 1) "Hardfork being applied out of order" ;;
  fc_assert (Z.of_nat (length (hpo_processed_hardforks h)) =? hardfork) "Hardfork being applied out of order" ;;
  let! t := hardfork_at hardfork_times hardfork in
  let! v := hardfork_at hardfork_versions hardfork in
  modify (fun s => s <| hardforks := h <| hpo_processed_hardforks := hpo_processed_hardforks h ++ [t] |>
    <| hpo_last_hardfork := hardfork |> <| hpo_current_hardfork_version := v |> |>) ;;
  push_virtual_operation (hardfork_operation hardfork).

Definition process_hardforks : C unit :=
  let fix go (fuel : nat) : C unit :=
    match fuel with
    | O => throw out_of_fuel
    | S fuel' =>
        let* h := get_hardfork_property_object in
        let* now := head_block_time in
        let! v := hardfork_at hardfork_versions (hpo_last_hardfork h) in
        if (v <? hpo_next_hardfork h) && (hpo_next_hardfork_time h <=? now) then
          if hpo_last_hardfork h <? ZATTERA_NUM_HARDFORKS then apply_hardfork (hpo_last_hardfork h + 1) ;; go fuel'
          else throw (assert_exception "unknown_hardfork_exception")
        else ret tt
    end in
  go (S (Z.to_nat ZATTERA_NUM_HARDFORKS)).

Definition process_header_extension (witness : account_name_type) (e : header_extension) : C unit :=
  match e with
  | void_t => ret tt
  | reported_version v =>
      let* w := get_witness witness in
      modify_row w (fun wo => wo <| wit_running_version := v |>)
  | hardfork_version_vote v t =>
      let* w := get_witness witness in
      modify_row w (fun wo => wo <| wit_hardfork_version_vote := v |> <| wit_hardfork_time_vote := t |>)
  end.

(** ** Applying a block *)

Definition check_merkle_root (b : signed_block) : C unit :=
  let root := calculate_merkle_root (blk_transactions b) in
  fc_assert (bool_decide (blk_transaction_merkle_root b = root) || bool_decide (merkle_exception (block_num b) = Some root))
    "Merkle check failed".

(** A block up to the update of the last irreversible block, which commits undo
    states and appends to the block log ... *)
Definition open_block (skip : Z) (b : signed_block) : C unit :=
  when (negb (skips skip skip_merkle_check)) (check_merkle_root b) ;;
  let* signing_witness := validate_block_header skip b in
  let* g := get_dynamic_global_properties in
  fc_assert (pack_size b <=? gpo_maximum_block_size g) "Block Size is too Big" ;;
  modify_gpo (fun g => Ok (g <| gpo_current_witness := blk_witness b |>)) ;;
  for_each (blk_extensions b) (process_header_extension (blk_witness b)) ;;
  let* witness := get_witness (blk_witness b) in
  let* w := load witness in
  let* h := get_hardfork_property_object in
  fc_assert (wit_running_version w >=? hpo_current_hardfork_version h)
    "Block produced by witness that is not running current hardfork" ;;
  for_each (blk_transactions b) (_apply_transaction skip) ;;
  update_global_dynamic_data skip b ;;
  update_signing_witness signing_witness b ;;
  update_last_irreversible_block.

(** ... and what follows it, in the code's order. *)
Definition close_block (b : signed_block) : C unit :=
  create_block_summary b ;;
  clear_expired_transactions ;;
  clear_expired_orders ;;
  clear_expired_delegations ;;
  update_witness_schedule ;;
  update_median_feed ;;
  update_virtual_supply ;;
  clear_null_account_balance ;;
  process_funds ;;
  process_conversions ;;
  process_comment_cashout ;;
  process_vesting_withdrawals ;;
  process_savings_withdraws ;;
  update_virtual_supply ;;
  account_recovery_processing ;;
  expire_escrow_ratification ;;
  process_decline_voting_rights ;;
  process_hardforks.

Definition _apply_block (skip : Z) (b : signed_block) : C unit :=
  open_block skip b ;; close_block b.
End Chain.

(** ** Reference blocks *)

Section ReferenceBlock.
Context `{Crypto}.

(** A transaction that refers to a block with [set_reference_block] passes the
    check of its reference block on every state in which the summary of that
    block is the last one recorded in its slot: the number in the identifier
    selects the slot [create_block_summary] wrote. *)
Theorem reference_block_round_trip b trx s u s' :
  sha224_header (signed_header_part b) ≠ [] →
  create_block_summary b s = Ok (u, s') →
  num_from_id (block_id b) = block_num b ∧
  check_reference_block (set_reference_block (block_id b) trx) s' = Ok (tt, s').
Proof.
  intros Hs Hc. split; [by apply num_from_block_id|].
  unfold create_block_summary in Hc. inv_store. subst. unfold check_reference_block.
  rewrite reference_block_index by done. unfold bind, load.
  rewrite row_set_row_eq. unfold fc_assert, lift, set_reference_block, upd.
  cbn [bso_block_id trx_ref_block_prefix]. by rewrite Z.eqb_refl.
Qed.
End ReferenceBlock.

(** ** The window of produced slots *)

Lemma popcount128_split x : popcount128 x =
  (if Z.testbit x 0 then 1 else 0) +
  fold_right (fun i acc => (if Z.testbit x (Z.of_nat (S i)) then 1 else 0) + acc) 0 (seq 0 127).
Proof. reflexivity. Qed.
Lemma popcount128_last x : popcount128 x =
  (if Z.testbit x 127 then 1 else 0) +
  fold_right (fun i acc => (if Z.testbit x (Z.of_nat i) then 1 else 0) + acc) 0 (seq 0 127).
Proof.
  unfold popcount128. change (seq 0 128) with (seq 0 127 ++ [127%nat]). rewrite fold_right_app.
  generalize (seq 0 127). intros l. cbn [fold_right].
  change (Z.of_nat 127) with 127. induction l as [|i l IH]; cbn [fold_right]; lia.
Qed.
Lemma bit_sum_ext (f g : nat → bool) n : (∀ i, (i < n)%nat → f i = g i) →
  fold_right (fun i acc => (if f i then 1 else 0) + acc) 0 (seq 0 n)
  = fold_right (fun i acc => (if g i then 1 else 0) + acc) 0 (seq 0 n).
Proof.
  intros Hfg. assert (∀ i, i ∈ seq 0 n → f i = g i) as Hl by (intros i Hi%elem_of_seq; apply Hfg; lia).
  induction (seq 0 n) as [|i l IH]; cbn; [done|]. rewrite Hl by apply list_elem_of_here.
  f_equal. apply IH. intros. by apply Hl, list_elem_of_further.
Qed.
Lemma bit_count_bound x l : 0 ≤ fold_right (fun i acc => (if Z.testbit x (Z.of_nat i) then 1 else 0) + acc) 0 l ≤ Z.of_nat (length l).
Proof. induction l as [|i l IH]; cbn [fold_right length]; [lia|]. destruct (Z.testbit _ _); lia. Qed.

(** A step pushes the new slot in as bit 0 and drops bit 127. *)
Lemma slot_step_bit filled recent count i : 0 ≤ recent < 2 ^ 128 → 0 ≤ i < 128 →
  Z.testbit (slot_step filled (recent, count)).1 i =
    if decide (i = 0) then filled else Z.testbit recent (i - 1).
Proof.
  intros Hr Hi. cbn.
  assert (u128_add (wrap_u128 (Z.shiftl recent 1)) (if filled then 1 else 0)
    = (2 * recent + (if filled then 1 else 0)) mod 2 ^ 128) as ->.
  { unfold u128_add, wrap_u128. rewrite Z.shiftl_mul_pow2 by lia.
    rewrite Zplus_mod_idemp_l. f_equal. destruct filled; lia. }
  rewrite Z.mod_pow2_bits_low by lia.
  destruct (decide (i = 0)) as [->|Hne].
  - destruct filled; [apply Z.testbit_odd_0|]. rewrite Z.add_0_r. apply Z.testbit_even_0.
  - replace i with (Z.succ (i - 1)) at 1 by lia.
    destruct filled; [by rewrite Z.testbit_odd_succ by lia|]. rewrite Z.add_0_r. by rewrite Z.testbit_even_succ by lia.
Qed.
Lemma slot_step_range filled w : 0 ≤ (slot_step filled w).1 < 2 ^ 128.
Proof. destruct w. cbn. unfold u128_add, wrap_u128. apply Z.mod_pos_bound. lia. Qed.

Definition window_ok (w : Z * Z) : Prop := 0 ≤ w.1 < 2 ^ 128 ∧ w.2 = popcount128 w.1.

Lemma slot_step_window filled w : window_ok w → window_ok (slot_step filled w).
Proof.
  destruct w as [recent count]. intros [Hr Hc]. cbn [fst snd] in *. split; [apply slot_step_range|].
  rewrite popcount128_split, slot_step_bit by lia. rewrite decide_True by done.
  rewrite popcount128_last in Hc.
  set (low := fold_right (fun i acc => (if Z.testbit recent (Z.of_nat i) then 1 else 0) + acc) 0 (seq 0 127)) in *.
  assert (fold_right (fun i acc => (if Z.testbit (slot_step filled (recent, count)).1 (Z.of_nat (S i)) then 1 else 0) + acc)
    0 (seq 0 127) = low) as ->.
  { apply bit_sum_ext. intros i Hi. rewrite slot_step_bit by lia. rewrite decide_False by lia.
    by replace (Z.of_nat (S i) - 1) with (Z.of_nat i) by lia. }
  cbn [slot_step snd].
  assert (0 ≤ low ≤ 127) by exact (bit_count_bound recent (seq 0 127)).
  subst count. unfold wrap_u8. replace (_ + low - _) with low by lia.
  rewrite (Z.mod_small low) by lia. destruct filled; rewrite Z.mod_small; lia.
Qed.

Lemma missed_steps_bit l w i : 0 ≤ w.1 < 2 ^ 128 → Forall (fun j => j ≠ 0%nat) l → 0 ≤ i < 128 →
  Z.testbit (foldl (fun w i => slot_step (bool_decide (i = 0%nat)) w) w l).1 i =
    if decide (i < Z.of_nat (length l)) then false else Z.testbit w.1 (i - Z.of_nat (length l)).
Proof.
  intros Hw Hl Hi. revert w Hw. induction Hl as [|j l Hj _ IH]; intros w Hw; cbn [foldl length].
  - rewrite decide_False by lia. by rewrite Z.sub_0_r.
  - rewrite IH by apply slot_step_range. rewrite bool_decide_eq_false_2 by done. destruct w as [recent count].
    destruct (decide (i < Z.of_nat (length l))); [by rewrite decide_True by lia|].
    rewrite slot_step_bit by (cbn in *; lia). cbn [fst].
    repeat case_decide; try lia. f_equal. lia.
Qed.

Lemma slots_update_window missed w : window_ok w → window_ok (slots_update missed w).
Proof.
  unfold slots_update. generalize (seq 0 (Z.to_nat (wrap_u32 (missed + 1)))). intros l. revert w.
  induction l as [|i l IH]; intros w Hw; cbn; [done|]. by apply IH, slot_step_window.
Qed.

(** C29: a block shifts the window of recent slots by the slots that passed.
    The participation count stays the number of filled slots of the window, the
    slot of the block is marked at the position of the first missed slot, the
    others as missed, and the older slots keep their marks. *)
Theorem participation_window missed w : window_ok w → 0 ≤ missed < 2 ^ 32 - 1 →
  window_ok (slots_update missed w) ∧
  ∀ i, 0 ≤ i < 128 → Z.testbit (slots_update missed w).1 i =
    if decide (i < missed) then false else if decide (i = missed) then true else Z.testbit w.1 (i - missed - 1).
Proof.
  intros Hw Hm. split; [by apply slots_update_window|]. intros i Hi. unfold slots_update.
  unfold wrap_u32. rewrite Z.mod_small by lia. rewrite Z2Nat.inj_add by lia. rewrite Nat.add_comm.
  change (seq 0 (Z.to_nat 1 + ?n)) with (0%nat :: seq 1 n). cbn [foldl].
  rewrite missed_steps_bit, length_seq, Z2Nat.id by
    first [lia | apply slot_step_range | apply list.Forall_forall; intros ? ?%elem_of_seq; lia].
  destruct w as [recent count]. destruct Hw as [Hr _]. case_decide; [done|].
  rewrite slot_step_bit by (cbn in *; lia). rewrite bool_decide_eq_true_2 by done.
  repeat case_decide; try lia. done.
Qed.

Lemma participation_window_witness : window_ok (0, 0) ∧ (slots_update 2 (0, 0)).2 = 1.
Proof.
  assert (window_ok (0, 0)) as Hw by (split; [cbn; lia|reflexivity]).
  split; [exact Hw|]. destruct (participation_window 2 (0, 0) Hw) as [[_ ->] _]; [lia|]. vm_compute. reflexivity.
Defined.

(** ** Irreversibility *)

(** How many of the witnesses have confirmed block [b]. *)
Definition confirmations (b : Z) (confirmed : list Z) : Z :=
  Z.of_nat (length (filter (fun c => b ≤ c) confirmed)).

Lemma filter_forall_length {A} (P : A → Prop) `{∀ x, Decision (P x)} l : Forall P l → length (filter P l) = length l.
Proof. induction 1 as [|x l Hx _ IH]; [done|]. rewrite filter_cons_True by done. cbn. by rewrite IH. Qed.

Lemma confirmations_sorted b l i x : StronglySorted Z.le l → l !! i = Some x →
  (b ≤ x → Z.of_nat (length l) - Z.of_nat i ≤ confirmations b l) ∧
  (x < b → confirmations b l < Z.of_nat (length l) - Z.of_nat i).
Proof.
  unfold confirmations. revert i. induction l as [|y l IH]; intros i Hs Hi; [done|].
  apply StronglySorted_inv in Hs as [Hs Hy]. rewrite filter_cons. destruct i as [|i]; cbn in Hi; simplify_eq.
  - split; intros Hb.
    + rewrite decide_True by done. cbn [length]. rewrite filter_forall_length; [lia|].
      eapply Forall_impl; [|exact Hy]. cbn. lia.
    + rewrite decide_False by lia. pose proof (length_filter (fun c => b ≤ c) l). cbn [length]. lia.
  - destruct (IH i Hs Hi) as [IH1 IH2]. assert (y ≤ x).
    { rewrite list.Forall_forall in Hy. apply Hy. by apply list_elem_of_lookup_2 in Hi. }
    split; intros Hb; cbn [length]; case_decide; cbn [length]; lia.
Qed.

Lemma irreversible_offset_bounds n : let k := Z.of_nat (irreversible_offset n) in
  4 * k ≤ Z.of_nat n < 4 * (k + 1).
Proof.
  cbv zeta. unfold irreversible_offset.
  change (ZATTERA_100_PERCENT - ZATTERA_IRREVERSIBLE_THRESHOLD) with 2500. change ZATTERA_100_PERCENT with 10000.
  rewrite Z2Nat.id by (apply Z.div_pos; lia).
  pose proof (Z.div_mod (2500 * Z.of_nat n) 10000 ltac:(lia)).
  pose proof (Z.mod_pos_bound (2500 * Z.of_nat n) 10000 ltac:(lia)). lia.
Qed.

Lemma confirmed_by_threshold_spec l b : confirmed_by_threshold l = Some b →
  ∀ c, c ≤ b ↔ ZATTERA_IRREVERSIBLE_THRESHOLD * Z.of_nat (length l) ≤ ZATTERA_100_PERCENT * confirmations c l.
Proof.
  unfold confirmed_by_threshold. intros Hb c.
  pose proof (StronglySorted_merge_sort Z.le l) as Hs.
  pose proof (merge_sort_Permutation Z.le l) as Hp.
  assert (confirmations c (merge_sort Z.le l) = confirmations c l) as <-.
  { unfold confirmations. by rewrite Hp. }
  rewrite <- (Permutation_length Hp) in *. pose proof (irreversible_offset_bounds (length (merge_sort Z.le l))) as Ho.
  destruct (confirmations_sorted c _ _ _ Hs Hb) as [H1 H2]. cbv zeta in Ho.
  change ZATTERA_100_PERCENT with 10000. change ZATTERA_IRREVERSIBLE_THRESHOLD with 7500. split; intros.
  - specialize (H1 ltac:(lia)). lia.
  - destruct (decide (c ≤ b)); [done|]. specialize (H2 ltac:(lia)). lia.
Qed.

Lemma scheduled_witnesses_pure wso s wits s' : scheduled_witnesses wso s = Ok (wits, s') → s' = s.
Proof.
  unfold scheduled_witnesses. intros Hr.
  eapply (fold_m_pres (fun _ t => t = s)) in Hr; [exact Hr| |done].
  intros i b t b' t' _ -> Hi. inv_ok. unfold get_witness, load in *.
  repeat match goal with E : get_by _ _ = _ |- _ => apply get_by_ok in E as [-> _] end. case_match; by inv_ok.
Qed.

(** C24: which block is irreversible.  Before witnesses vote it is the one 21 blocks
    below the head, as soon as there is one.  Once they do it moves to the highest
    block that three quarters of the scheduled witnesses have confirmed and never
    moves back.  Nothing else of the state changes. *)
Theorem irreversible_block_confirmed s u s' :
  update_last_irreversible_block s = Ok (u, s') →
  let head := gpo_head_block_number (gpo s) in
  let lib := gpo_last_irreversible_block_num (gpo s) in
  let lib' := gpo_last_irreversible_block_num (gpo s') in
  s' = s <| gpo ::= fun g => g <| gpo_last_irreversible_block_num := lib' |> |> ∧
  if head <? ZATTERA_START_WITNESS_VOTING_BLOCK
  then lib' = if head >? ZATTERA_MAX_WITNESSES then head - ZATTERA_MAX_WITNESSES else lib
  else ∃ wits, scheduled_witnesses (witness_schedule s) s = Ok (wits, s) ∧
    ∀ b, b ≤ lib' ↔
      b ≤ lib ∨ ZATTERA_IRREVERSIBLE_THRESHOLD * Z.of_nat (length wits) ≤
                  ZATTERA_100_PERCENT * confirmations b (wit_last_confirmed_block_num <$> wits).
Proof.
  intros H. unfold update_last_irreversible_block, get_dynamic_global_properties, get_witness_schedule_object in H.
  cbv zeta. inv_ok. destruct (Z.ltb_spec (gpo_head_block_number (gpo s)) ZATTERA_START_WITNESS_VOTING_BLOCK) as [Hhead|Hhead].
  { unfold modify_gpo, get_dynamic_global_properties in H. inv_ok. destruct (_ >? _); [by split|].
    split; [|done]. destruct s; match goal with g : dynamic_global_property_object |- _ => by destruct g end. }
  inv_ok. match goal with E : scheduled_witnesses _ _ = _ |- _ =>
    pose proof (scheduled_witnesses_pure _ _ _ _ E) as ->; rename E into Hw end.
  match goal with E : confirmed_by_threshold _ = Some ?b |- _ =>
    pose proof (confirmed_by_threshold_spec _ _ E) as Hb end.
  rewrite length_fmap in Hb. unfold when in H. destruct (_ >? _) eqn:Hn; inv_ok; bool_prop.
  - unfold modify_gpo, get_dynamic_global_properties in H. inv_ok. split; [reflexivity|].
    eexists. split; [exact Hw|]. intros b. rewrite <- Hb. cbn. lia.
  - split; [destruct s; match goal with g : dynamic_global_property_object |- _ => by destruct g end|].
    eexists. split; [exact Hw|]. intros b. rewrite <- Hb. lia.
Qed.

Lemma irreversible_block_confirmed_witness :
  let s := sample_genesis <| gpo ::= fun g => g <| gpo_head_block_number := 300000 |> |> in
  let s := set_row (Ref 0) (default_witness <| wit_owner := "genesis" |> <| wit_last_confirmed_block_num := 299999 |>) s in
  gpo_last_irreversible_block_num (gpo (run_state update_last_irreversible_block s)) = 299999 ∧
  ∃ wits, scheduled_witnesses (witness_schedule s) s = Ok (wits, s).
Proof.
  intros s0 s. split; [vm_compute; reflexivity|].
  destruct (irreversible_block_confirmed s tt (run_state update_last_irreversible_block s)) as (_ & Hw);
    [vm_compute; reflexivity|].
  change (gpo_head_block_number (gpo s)) with 300000 in Hw. destruct Hw as (wits & Hw & _). exists wits. exact Hw.
Defined.

(** The example in a comment of [update_last_irreversible_block] is for a threshold
    of seven tenths: by it seven of ten witnesses would make block 2 irreversible. *)
Example seven_tenths_are_not_enough : confirmed_by_threshold [1; 1; 1; 2; 2; 2; 2; 2; 2; 2] = Some 1.
Proof. reflexivity. Qed.

(** ** Transactions *)

Section Transactions.
Context `{Codec, DiffPatch, Crypto}.




End Transactions.

(** ** Transactions conserve the supply *)

(** Concrete stand-ins for the codecs. *)
Definition sample_codec : Codec := {|
  is_utf8 _ := true; json_is_valid _ := true; unpack_asset _ := Throw out_of_fuel; unpack_uint32 _ := Throw out_of_fuel;
  unpack_uint16 _ := Throw out_of_fuel; unpack_key _ := Throw out_of_fuel; unpack_price _ := Throw out_of_fuel;
  unpack_string _ := Throw out_of_fuel |}.
Definition sample_patch : DiffPatch := {| dmp_patch _ _ := Ok None; prune_invalid_utf8 s := s |}.
Definition sample_transfer (signatures : list string) : signed_transaction :=
  mk_signed_transaction 0 0 (ZATTERA_GENESIS_TIME + 30)
    [transfer_operation "genesis" "temp" (mk_asset 1000 LIQUID_SYMBOL) ""] [] signatures.


(** In the eight blocks that the merkle exceptions list, the active authority
    is not required: at height 3705110 a transfer out of the genesis account is
    applied with no signature at all, while at height 0 it is refused. *)
Theorem merkle_exception_unsigned :
  let _ := sample_codec in let _ := sample_patch in let _ := sample_crypto in
  let s := sample_genesis <| gpo ::= fun g => g <| gpo_head_block_number := 3705110 |> |> in
  _apply_transaction 0 (sample_transfer []) sample_genesis = Throw (assert_exception "Missing Active Authority") ∧
  ∃ s', _apply_transaction 0 (sample_transfer []) s = Ok (tt, s') ∧
    acc_liquid_balance <$> row (Ref 2) s' = Some (mk_asset (1000000000 - 1000) LIQUID_SYMBOL) ∧
    acc_liquid_balance <$> row (Ref 1) s' = Some (mk_asset 1000 LIQUID_SYMBOL).
Proof.
  intros C D K s. split; [vm_compute; reflexivity|].
  exists (run_state (_apply_transaction 0 (sample_transfer [])) s). split_and!; vm_compute; reflexivity.
Qed.

Section TransactionSupply.
Context `{Codec, DiffPatch, Crypto}.

(** The state in which the operations of a transaction run. *)
Definition recorded (skip : Z) (trx : signed_transaction) (s : database) : database :=
  if skips skip skip_transaction_dupe_check then s
  else add_row (mk_transaction_object (transaction_id trx) (trx_expiration trx)) s.

Lemma verify_transaction_pure (c : bool) trx s u s' :
  when c (verify_transaction trx) s = Ok (u, s') → s' = s.
Proof.
  unfold when, verify_transaction. destruct c; intros Hv; inv_ok; [|done].
  destruct (transaction_authority _ _); [by inv_ok|]. destruct (_ && _); by inv_ok.
Qed.

Lemma check_time_pure skip trx (num : Z) s u s' :
  when (num >? 0) (when (negb (skips skip skip_tapos_check)) (check_reference_block trx) ;; check_expiration trx) s
    = Ok (u, s') → s' = s.
Proof.
  unfold when, check_reference_block, check_expiration, head_block_time. intros Hr.
  repeat (case_match; inv_ok); inv_store; done.
Qed.

Lemma apply_transaction_run skip trx s u s' : _apply_transaction skip trx s = Ok (u, s') →
  (skips skip skip_validate = false → transaction_validate trx = Ok tt) ∧
  for_each (trx_operations trx) apply_operation (recorded skip trx s) = Ok (u, s').
Proof.
  unfold _apply_transaction, find_by, head_block_num. intros Hr. inv_ok.
  match goal with E : when (_ >? 0) _ _ = _ |- _ => apply check_time_pure in E as -> end.
  assert (x0 = s ∧ (skips skip skip_validate = false → transaction_validate trx = Ok tt)) as [-> Hval].
  { unfold when in *. destruct (skips skip skip_validate); cbn [negb] in *; inv_ok; done. }
  match goal with E : when _ (verify_transaction _) _ = Ok _ |- _ => apply verify_transaction_pure in E as -> end.
  split; [done|]. unfold recorded, when in *. destruct (skips skip skip_transaction_dupe_check); cbn [negb] in *; inv_ok; [done|].
  inv_store. by subst.
Qed.

(** C39: no transaction is applied twice.  Once a transaction is on record it stays
    so until the clean-up of a later block finds it expired, and from then on its
    expiration refuses it: after any clean-up, whether the record survived it or
    not, applying the transaction again fails. *)
Theorem replay_refused skip trx s i u s1 u' s2 :
  skips skip skip_transaction_dupe_check = false →
  rows (transaction_index s) !! i = Some (mk_transaction_object (transaction_id trx) (trx_expiration trx)) →
  0 < gpo_head_block_number (gpo s) →
  clear_expired_transactions s = Ok (u, s1) →
  _apply_transaction skip trx s1 ≠ Ok (u', s2).
Proof.
  intros Hskip Hi Hnum Hc Hr. apply clear_expired_transactions_keeps in Hc as [Hg Hk].
  unfold _apply_transaction, find_by, head_block_num in Hr. inv_ok. rewrite Hskip in *. cbn [orb] in *.
  assert (x0 = s1) as -> by (unfold when in *; destruct (negb _); by inv_ok).
  destruct (Hk _ _ Hi) as [Hrow|Hexp]; cbn in *.
  - match goal with E : bool_decide _ = true |- _ => apply bool_decide_eq_true in E; rename E into Hf end.
    apply (find_row_none (A := transaction_object) _ _ i _ Hf) in Hrow. cbn in Hrow.
    rewrite bool_decide_eq_true_2 in Hrow; done.
  - match goal with E : when _ (verify_transaction _) _ = Ok _ |- _ => apply verify_transaction_pure in E as -> end.
    rewrite Hg in *. match goal with E : when (_ >? 0) _ _ = Ok _ |- _ => rename E into Ht end.
    unfold when at 1 in Ht. rewrite (proj2 (Z.gtb_gt _ _)) in Ht by lia.
    apply bind_ok in Ht as ([] & s3 & Htapos & Ht).
    assert (s3 = s1) as -> by (unfold when, check_reference_block in Htapos; case_match; inv_ok; inv_store; done).
    unfold check_expiration, head_block_time in Ht. inv_ok. bool_prop. rewrite Hg in *. lia.
Qed.

(** C2: applying a transaction creates and destroys nothing: from a well-typed,
    balanced state, and with the proxy graph as the proxy operations expect it,
    every transaction that is applied leaves a well-typed and balanced state. *)
Theorem transaction_preserves_supply skip trx s u s' :
  skips skip skip_validate = false → well_typed s → balanced s → ops_pre (trx_operations trx) (recorded skip trx s) →
  _apply_transaction skip trx s = Ok (u, s') → well_typed s' ∧ balanced s'.
Proof.
  intros Hskip Hwt Hb Hpre Hrun. apply apply_transaction_run in Hrun as [Hval Hrun].
  specialize (Hval Hskip). unfold transaction_validate in Hval. inv_ok.
  assert (well_typed (recorded skip trx s) ∧ ∀ ch, gap ch (recorded skip trx s) = gap ch s) as [Hwt' Hg].
  { unfold recorded. destruct (skips _ skip_transaction_dupe_check); [done|]. split; [exact Hwt|reflexivity]. }
  apply run_operations_gap in Hrun as [? Hg']; [|by apply operations_validate_ok|done..].
  split; [done|]. intros ch Hk. rewrite Hg', Hg. by apply Hb.
Qed.
End TransactionSupply.

Lemma replay_refused_witness :
  let _ := sample_codec in let _ := sample_patch in let _ := sample_crypto in
  let trx := sample_transfer [ZATTERA_GENESIS_PUBLIC_KEY] in
  let s := run_state (_apply_transaction 0 trx) sample_genesis
             <| gpo ::= fun g => g <| gpo_head_block_number := 1 |> |> in
  rows (transaction_index s) = {[0 := mk_transaction_object (transaction_id trx) (trx_expiration trx)]} ∧
  ∀ u s2, _apply_transaction 0 trx (run_state clear_expired_transactions s) ≠ Ok (u, s2).
Proof.
  intros C D K trx s. split; [vm_compute; reflexivity|]. intros u s2.
  apply (replay_refused (H := C) (H0 := D) (H1 := K) 0 trx s 0 tt); vm_compute; reflexivity.
Defined.

Lemma transaction_preserves_supply_witness :
  let _ := sample_codec in let _ := sample_patch in let _ := sample_crypto in
  let s' := run_state (_apply_transaction 0 (sample_transfer [ZATTERA_GENESIS_PUBLIC_KEY])) sample_genesis in
  acc_liquid_balance <$> row (Ref 1) s' = Some (mk_asset 1000 LIQUID_SYMBOL) ∧ well_typed s' ∧ balanced s'.
Proof.
  intros C D K s'. split; [vm_compute; reflexivity|].
  apply (transaction_preserves_supply (H := C) (H0 := D) (H1 := K) 0 (sample_transfer [ZATTERA_GENESIS_PUBLIC_KEY]) sample_genesis tt s').
  - vm_compute. reflexivity.
  - split_and!; vm_compute; done.
  - intros ch Hk. destruct ch as [c| |]; [destruct Hk as [->|[->| ->]]|..]; vm_compute; reflexivity.
  - split; [exact I|]. intros ? _. exact I.
  - vm_compute. reflexivity.
Defined.

(** The first block after genesis as a reference block. *)
Lemma reference_block_round_trip_witness :
  let _ := sample_crypto in
  let b := mk_signed_block null_id 7 "genesis" null_checksum [] "" [] in
  let s := add_row (mk_block_summary_object null_id) sample_genesis in
  let s' := run_state (create_block_summary b) s in
  block_id b = [endian_reverse_u32 1; 7; 0; 0; 0] ∧
  check_reference_block (set_reference_block (block_id b) (sample_transfer [])) s' = Ok (tt, s').
Proof.
  intros K b s s'. split; [vm_compute; reflexivity|].
  apply (reference_block_round_trip (H := K) b (sample_transfer []) s tt s').
  - discriminate.
  - vm_compute. reflexivity.
Defined.

(** ** The price feed needs dollars *)

Lemma median_price_some l : l ≠ [] → ∃ m, median_price l = Some m.
Proof.
  intros Hl. unfold median_price, sort_prices. apply lookup_lt_is_Some.
  rewrite (Permutation_length (merge_sort_Permutation _ l)).
  destruct l as [|x l]; [done|]. apply Nat.div_lt; cbn; lia.
Qed.
Lemma pop_front_over_nonempty w l x : 1 ≤ w → pop_front_over w (l ++ [x]) ≠ [].
Proof.
  intros Hw. unfold pop_front_over. destruct (_ >? _) eqn:E; [|by destruct l].
  bool_prop. destruct l as [|y l]; cbn in *; [lia|]. by destruct l.
Qed.

Lemma next_feed_history_no_dollars g m fho : amount (gpo_current_dollar_supply g) = 0 →
  ∃ msg, next_feed_history g m fho = Throw (assert_exception msg).
Proof.
  intros Hd. unfold next_feed_history.
  destruct (median_price_some (pop_front_over ZATTERA_FEED_HISTORY_WINDOW (fho_price_history fho ++ [m]))) as [m' ->].
  { by apply pop_front_over_nonempty. }
  rewrite Hd. eexists. reflexivity.
Qed.

(** While no dollar exists, a price feed stops the chain: when at least seven
    scheduled witnesses have fresh feeds, [update_median_feed] builds the price floor
    from a dollar supply of zero, the validating constructor of [price] throws, and
    no block at that height can be applied.  The live network starts with a dollar
    supply of zero, and only a feed makes dollars be printed. *)
Theorem median_feed_needs_dollars s wits :
  gpo_head_block_number (gpo s) mod ZATTERA_FEED_INTERVAL_BLOCKS = 0 →
  amount (gpo_current_dollar_supply (gpo s)) = 0 →
  scheduled_witnesses (witness_schedule s) s = Ok (wits, s) →
  ZATTERA_MIN_FEEDS ≤ Z.of_nat (length (filter (fun w => feed_active (gpo_time (gpo s)) w = true) wits)) →
  ∃ msg, update_median_feed s = Throw (assert_exception msg).
Proof.
  intros Hhead Hd Hw Hn. unfold update_median_feed, head_block_num, head_block_time.
  erewrite bind_run by reflexivity. rewrite (proj2 (Z.eqb_eq _ _) Hhead). cbn [negb].
  do 2 (erewrite bind_run by reflexivity). erewrite bind_run by exact Hw.
  set (feeds := wit_dollar_exchange_rate <$> _). unfold when.
  replace (Z.of_nat (length feeds) >=? ZATTERA_MIN_FEEDS) with true
    by (symmetry; apply Z.geb_le; unfold feeds; by rewrite length_fmap).
  destruct (median_price feeds) as [m|]; [|by eexists]. cbn [of_option].
  do 3 (erewrite bind_run by reflexivity).
  destruct (next_feed_history_no_dollars (gpo s) m (feed_history s) Hd) as [msg Hf].
  exists msg. unfold bind, lift. by rewrite Hf.
Qed.

(** Seven witnesses with fresh feeds at block 1200 of a chain without dollars. *)
Definition sample_feeds : database :=
  let names := ["genesis"; "wit1"; "wit2"; "wit3"; "wit4"; "wit5"; "wit6"] in
  let feed w := w <| wit_dollar_exchange_rate := mk_price (mk_asset 1000 DOLLAR_SYMBOL) (mk_asset 2000 LIQUID_SYMBOL) |>
                  <| wit_last_dollar_exchange_update := ZATTERA_GENESIS_TIME |> in
  run_state (for_each (tail names) (fun n => create (feed (default_witness <| wit_owner := n |>)) ;; ret tt) ;;
             modify_row (Ref 0) feed)
    (sample_genesis <| gpo ::= fun g => g <| gpo_head_block_number := 1200 |> |>
       <| witness_schedule ::= fun w => w <| wso_current_shuffled_witnesses := names |> <| wso_num_scheduled_witnesses := 7 |> |>).

Lemma median_feed_needs_dollars_witness : ∃ msg, update_median_feed sample_feeds = Throw (assert_exception msg).
Proof.
  apply (median_feed_needs_dollars sample_feeds
    (match scheduled_witnesses (witness_schedule sample_feeds) sample_feeds with Ok (w, _) => w | _ => [] end));
    vm_compute; first [reflexivity|discriminate].
Defined.
