(* ===== verification/Loops.v ===== *)
(** * Loops and relations between states

    The rules of [respects] (Frames.v) for the loops of the chain code: a relation
    that the body of a loop respects is respected by the loop.  With them
    [respects] takes apart whole evaluators and blocks for any preorder. *)
From S2P Require Import Prelude Ints Config Asset Authority Headers Operations State Blocks Store Ledger Balances Vesting Conserve Frames Rows Drain EvalFunds Market EvalAccounts Proxy Reward EvalContent Evaluators Invariants Genesis BlockProc Withdrawals Expiry Payout Schedule Chain.

Section Loops.
Context {R : relation database} `{!PreOrder R}.

(** *** Votes through proxies *)

Lemma respects_adjust_proxied_from n a d :
  (∀ i (p : ref account_object), respects R (modify_res p (fun p =>
     let? v := add_proxied i d (acc_proxied_vsf_votes p) in Ok (p <| acc_proxied_vsf_votes := v |>)))) →
  (∀ a, respects R (adjust_witness_votes a d)) → respects R (adjust_proxied_from n a d).
Proof.
  intros Hp Hw. revert a. induction n as [|n IH]; intros a; cbn -[ZATTERA_MAX_PROXY_RECURSION_DEPTH];
    repeat first [apply Hw | apply Hp | apply IH | respects_step].
Qed.
Lemma respects_adjust_array_from n a d :
  (∀ k l (p : ref account_object), respects R (modify_res p (fun p =>
     let? v := res_fold (fun votes i => add_proxied (i + k) (nth i d 0) votes) (acc_proxied_vsf_votes p) l in
     Ok (p <| acc_proxied_vsf_votes := v |>)))) →
  (∀ a d, respects R (adjust_witness_votes a d)) → respects R (adjust_proxied_array_from n a d).
Proof.
  intros Hp Hw. revert a. induction n as [|n IH]; intros a; cbn -[ZATTERA_MAX_PROXY_RECURSION_DEPTH take seq rev];
    repeat first [apply Hw | apply Hp | apply IH | respects_step].
Qed.
Lemma respects_check_proxy_chain n p l : respects R (check_proxy_chain n p l).
Proof. revert p l. induction n; intros p l; cbn; respects. Qed.

(** *** Orders and comments *)

Lemma respects_match_all r l : (∀ r o p, respects R (match_orders r o p)) → respects R (match_all r l).
Proof. intros Hm. induction l; cbn; repeat first [apply Hm | respects_step]. Qed.
Lemma respects_walk_parents n f p :
  (∀ r : ref comment_object, respects R (modify_row r f)) → respects R (walk_parents n f p).
Proof. intros Hm. revert p. induction n as [|n IH]; intros p; cbn; repeat first [apply Hm | apply IH | respects_step]. Qed.

(** *** Periodic processing *)

Lemma respects_convert_due n now p net :
  (∀ name d, respects R (adjust_balance_name name d)) → (∀ op, respects R (push_virtual_operation op)) →
  (∀ r : ref convert_request_object, respects R (remove r)) → respects R (convert_due n now p net).
Proof.
  intros Hb Hv Hr. revert net. induction n as [|n IH]; intros net; cbn;
    repeat first [apply Hb | apply Hv | apply Hr | apply IH | respects_step].
Qed.
Lemma respects_cashout_due n now p l :
  (∀ ctx r b, respects R (cashout_comment_helper ctx r b)) → respects R (cashout_due n now p l).
Proof. intros Hh. revert l. induction n as [|n IH]; intros l; cbn; repeat first [apply Hh | apply IH | respects_step]. Qed.
Lemma respects_walk `{Table A} fuel key due (f : ref A → C unit) cur :
  (∀ r, respects R (f r)) → respects R (walk fuel key due f cur).
Proof.
  intros Hf. revert cur. induction fuel as [|fuel IH]; intros cur; cbn; repeat first [apply Hf | apply IH | respects_step].
Qed.
Lemma respects_advance_virtual t l :
  (∀ (w : ref witness_object) f, respects R (modify_row w f)) → respects R (advance_virtual t l).
Proof. intros Hm. induction l; cbn; repeat first [apply Hm | respects_step]. Qed.
Lemma respects_process_hardforks : (∀ h, respects R (apply_hardfork h)) → respects R process_hardforks.
Proof.
  intros Hh. cbv delta [process_hardforks]. generalize (S (Z.to_nat ZATTERA_NUM_HARDFORKS)). intros n. cbv zeta.
  induction n as [|n IH]; repeat first [apply Hh | apply IH | respects_step].
Qed.
End Loops.

(** The rules as hints: [respects] goes on with the bodies. *)
#[export] Hint Extern 1 (respects _ (check_proxy_chain _ _ _)) => (apply respects_check_proxy_chain) : respects.
#[export] Hint Extern 1 (respects _ (adjust_proxied_from _ _ _)) =>
  (apply respects_adjust_proxied_from; respects) : respects.
#[export] Hint Extern 1 (respects _ (adjust_proxied_array_from _ _ _)) =>
  (apply respects_adjust_array_from; respects) : respects.
#[export] Hint Extern 1 (respects _ (match_all _ _)) => (apply respects_match_all; respects) : respects.
#[export] Hint Extern 1 (respects _ (walk_parents _ _ _)) => (apply respects_walk_parents; respects) : respects.
#[export] Hint Extern 1 (respects _ (convert_due _ _ _ _)) => (apply respects_convert_due; respects) : respects.
#[export] Hint Extern 1 (respects _ (cashout_due _ _ _ _)) => (apply respects_cashout_due; respects) : respects.
#[export] Hint Extern 1 (respects _ (walk _ _ _ _ _)) => (apply respects_walk; respects) : respects.
#[export] Hint Extern 1 (respects _ (advance_virtual _ _)) => (apply respects_advance_virtual; respects) : respects.
#[export] Hint Extern 1 (respects _ process_hardforks) => (apply respects_process_hardforks; respects) : respects.
