(* ===== verification/AccountFrame.v ===== *)
(** * How the chain writes accounts

    [evolves o o']: what one write of the operations and of the periodic
    processing may do to an account: move one of its balances to a non-negative
    amount of the same asset that fits 64 bits if the old one did, change a
    vesting withdrawal, the received votes, or anything outside [critical].  Any
    relation between states that admits these writes and looks at no other table
    ([AccountFrame]) is respected by every evaluator; if it also admits the
    credit of vesting rewards ([RewardFrame]), whose backing is not checked, by
    every periodic step.  The two functions that write the proxy of an account
    and the vesting withdrawals are left to the instances (Sound.v, Solvent.v). *)
From S2P Require Import Prelude Ints Config Asset Authority Headers Operations State Blocks Store Ledger Balances Vesting Conserve Frames Rows Drain EvalFunds Market EvalAccounts Proxy Reward EvalContent Evaluators Invariants Genesis BlockProc Withdrawals Expiry Payout Schedule Chain Loops.

(** What the invariants of accounts read. *)
Definition critical (a : account_object) :=
  (acc_name a, acc_proxy a, acc_proxied_vsf_votes a,
   (acc_liquid_balance a, acc_savings_liquid_balance a, acc_reward_liquid_balance a),
   (acc_dollar_balance a, acc_savings_dollar_balance a, acc_reward_dollar_balance a),
   (acc_vesting_share_balance a, acc_reward_vesting_share_balance a, acc_reward_vesting_liquid_balance a),
   (acc_vesting_withdraw_rate a, acc_to_withdraw a)).

(** A balance that is checked. *)
Definition covers (old new : asset) : Prop :=
  symbol new = symbol old ∧ 0 ≤ amount new ∧ (amount old ≤ INT64_MAX → amount new ≤ INT64_MAX).

Inductive evolves (o o' : account_object) : Prop :=
| ev_quiet : critical o' = critical o → evolves o o'
| ev_liquid b : covers (acc_liquid_balance o) b →
    critical o' = critical (o <| acc_liquid_balance := b |>) → evolves o o'
| ev_savings_liquid b : covers (acc_savings_liquid_balance o) b →
    critical o' = critical (o <| acc_savings_liquid_balance := b |>) → evolves o o'
| ev_reward_liquid b : covers (acc_reward_liquid_balance o) b →
    critical o' = critical (o <| acc_reward_liquid_balance := b |>) → evolves o o'
| ev_dollar b : covers (acc_dollar_balance o) b →
    critical o' = critical (o <| acc_dollar_balance := b |>) → evolves o o'
| ev_savings_dollar b : covers (acc_savings_dollar_balance o) b →
    critical o' = critical (o <| acc_savings_dollar_balance := b |>) → evolves o o'
| ev_reward_dollar b : covers (acc_reward_dollar_balance o) b →
    critical o' = critical (o <| acc_reward_dollar_balance := b |>) → evolves o o'
| ev_vesting b : covers (acc_vesting_share_balance o) b →
    critical o' = critical (o <| acc_vesting_share_balance := b |>) → evolves o o'
| ev_reward_vesting v l : covers (acc_reward_vesting_share_balance o) v →
    covers (acc_reward_vesting_liquid_balance o) l →
    critical o' = critical (o <| acc_reward_vesting_share_balance := v |>
                              <| acc_reward_vesting_liquid_balance := l |>) → evolves o o'
| ev_claim v rv rl : covers (acc_reward_vesting_share_balance o) rv →
    symbol rl = symbol (acc_reward_vesting_liquid_balance o) →
    (0 ≤ amount (acc_reward_vesting_liquid_balance o) ≤ INT64_MAX →
     amount (acc_reward_vesting_share_balance o) ≤ INT64_MAX → 0 ≤ amount rl ≤ INT64_MAX) →
    symbol v = symbol (acc_vesting_share_balance o) →
    amount (acc_vesting_share_balance o) ≤ amount v →
    (amount (acc_vesting_share_balance o) ≤ INT64_MAX → amount v ≤ INT64_MAX) →
    critical o' = critical (o <| acc_vesting_share_balance := v |> <| acc_reward_vesting_share_balance := rv |>
                              <| acc_reward_vesting_liquid_balance := rl |>) → evolves o o'
| ev_power_down rate left : 0 ≤ rate → 0 ≤ left →
    critical o' = critical (o <| acc_vesting_withdraw_rate := mk_asset rate VESTS_SYMBOL |>
                              <| acc_to_withdraw := left |>) → evolves o o'
| ev_votes votes : length votes = length (acc_proxied_vsf_votes o) →
    critical o' = critical (o <| acc_proxied_vsf_votes := votes |>) → evolves o o'.

(** An account as it is opened. *)
Definition fresh_account (o : account_object) : Prop :=
  ∃ name, critical o = critical (default_account <| acc_name := name |>).

Class AccountFrame (R : relation database) := {
  af_preorder :: PreOrder R;
  af_same : ∀ s s', account_index s' = account_index s → R s s';
  af_write : ∀ (r : ref account_object) s o o',
    row r s = Some o → evolves o o' → R s (set_row r o' s);
  af_open : ∀ o s r s', fresh_account o → create o s = Ok (r, s') → R s s'
}.

(** The credit of a vesting reward: the shares are checked, the ZTR behind them
    are not. *)
Definition rewarded (o o' : account_object) : Prop := ∃ v l,
  covers (acc_reward_vesting_share_balance o) v ∧ symbol l = symbol (acc_reward_vesting_liquid_balance o) ∧
  critical o' = critical (o <| acc_reward_vesting_share_balance := v |>
                            <| acc_reward_vesting_liquid_balance := l |>).

Class RewardFrame (R : relation database) `{!AccountFrame R} := {
  af_reward : ∀ (r : ref account_object) s o o',
    row r s = Some o → rewarded o o' → R s (set_row r o' s)
}.

#[export] Hint Extern 0 (AccountFrame _) => exact _ : respects.
#[export] Hint Extern 0 (RewardFrame _) => exact _ : respects.

(** ** Rows *)

Section Writes.
Context {R : relation database} `{!AccountFrame R}.
Implicit Types a : ref account_object.

#[global] Instance free_other {A} `{Table A} `{!Free (same_rows account_object) A} : Free R A.
Proof. intros t s. apply af_same. exact (free_tbl (R := same_rows account_object) t s). Qed.

Lemma af_gpo f : respects R (modify_gpo f).
Proof. apply respects_modify_gpo. intros. by apply af_same. Qed.
Lemma af_virtual op : respects R (push_virtual_operation op).
Proof. apply respects_modify. intros. by apply af_same. Qed.
Lemma af_modify_row a f : (∀ o, evolves o (f o)) → respects R (modify_row a f).
Proof. intros Hf. apply respects_modify_row; [exact _|]. intros s o Hr. by eapply af_write. Qed.
Lemma af_modify_res a f : (∀ o o', f o = Ok o' → evolves o o') → respects R (modify_res a f).
Proof. intros Hf. apply respects_modify_res; [exact _|]. intros s o o' Hr Ho. eapply af_write; eauto. Qed.
Lemma af_create o : fresh_account o → respects R (create o).
Proof. intros Ho s r s' Hc. by eapply af_open. Qed.
Lemma af_modify_with a f :
  (∀ o, respects (same_rows account_object) (f o)) → (∀ o s o' s', f o s = Ok (o', s') → evolves o o') →
  respects R (modify_with a f).
Proof.
  intros Hsame Hf s u s' Hm. apply modify_with_gap in Hm as (o & o' & s1 & Ho & Hr & -> & _).
  pose proof (Hsame _ _ _ _ Hr) as E. etrans; [by apply af_same|].
  eapply af_write; [|by eapply Hf]. unfold row. by rewrite E.
Qed.
End Writes.

#[export] Hint Resolve af_gpo af_virtual : respects.
#[export] Hint Extern 3 (respects _ (modify _)) =>
  (apply respects_modify; intros; apply af_same; reflexivity) : respects.
(** Writes of fields outside [critical]. *)
#[export] Hint Extern 2 (respects _ (modify_row (A := account_object) _ _)) =>
  (apply af_modify_row; intros; apply ev_quiet; repeat case_match; reflexivity) : respects.
#[export] Hint Extern 2 (respects _ (modify_res (A := account_object) _ _)) =>
  (apply af_modify_res; intros; apply ev_quiet; inv_ok; reflexivity) : respects.
#[export] Hint Extern 2 (respects _ (create (A := account_object) _)) =>
  (apply af_create; eexists; unfold initialize_account_object; case_bool_decide; reflexivity) : respects.

(** ** The balance primitives *)

Lemma accrue_same_rows n b s1 t1 p1 : respects (same_rows account_object) (accrue_interest n b s1 t1 p1).
Proof. respects. Qed.
#[export] Hint Resolve accrue_same_rows : respects.

Lemma safe_add_max a b c : safe.add a b = Ok c → a ≤ INT64_MAX → c ≤ INT64_MAX.
Proof. unfold safe.add. intros H Ha. safe_case; inv_ok; bool_prop; lia. Qed.
Lemma asset_add_max a b c : asset_add a b = Ok c → amount a ≤ INT64_MAX → amount c ≤ INT64_MAX.
Proof. unfold asset_add. intros H. inv_ok. cbn. by eapply safe_add_max. Qed.

Lemma safe_sub_max a b c : safe.sub a b = Ok c → a ≤ INT64_MAX → c ≤ INT64_MAX.
Proof. unfold safe.sub. intros H Ha. safe_case; inv_ok; bool_prop; lia. Qed.
Lemma asset_sub_max a b c : asset_sub a b = Ok c → amount a ≤ INT64_MAX → amount c ≤ INT64_MAX.
Proof. unfold asset_sub. intros H. inv_ok. cbn. by eapply safe_sub_max. Qed.

Ltac covered :=
  repeat match goal with E : asset_add ?a _ = Ok ?c |- _ =>
    lazymatch goal with
    | _ : amount a ≤ INT64_MAX → amount c ≤ INT64_MAX |- _ => fail
    | _ => pose proof (asset_add_max _ _ _ E)
    end end;
  split; [by sym_facts; congruence|split; [bool_prop; lia|intros; intuition lia]].

Section Primitives.
Context {R : relation database} `{!AccountFrame R}.

Lemma accrued_symbol n b sec t1 p1 s r s' : accrue_interest n b sec t1 p1 s = Ok (r, s') →
  symbol r.1.1.1 = symbol b ∧ (amount b ≤ INT64_MAX → amount r.1.1.1 ≤ INT64_MAX).
Proof.
  unfold accrue_interest. intros H. inv_ok. case_run; inv_ok; [done|].
  case_run; inv_ok; [|done]. cbn.
  match goal with E : asset_add _ _ = Ok _ |- _ => pose proof (asset_add_max _ _ _ E) end. by sym_facts.
Qed.

Lemma af_modify_balance a d : respects R (modify_balance a d true).
Proof.
  apply af_modify_with.
  { respects. }
  intros o s o' s' H. cbn [when] in H. repeat case_run; inv_ok; cbn [when] in *; inv_ok; bool_prop.
  - eapply ev_liquid; [|reflexivity]. covered.
  - match goal with E : accrue_interest _ _ _ _ _ _ = Ok (?x, _) |- _ => apply accrued_symbol in E as [? ?]; destruct x as [[[b sec] t1] p1]; cbn [fst] in * end. inv_ok. bool_prop.
    eapply ev_dollar; [|reflexivity]. covered.
  - eapply ev_vesting; [|reflexivity]. covered.
Qed.

Lemma af_adjust_savings a d : respects R (adjust_savings_liquid_balance a d).
Proof.
  apply af_modify_with.
  { respects. }
  intros o s o' s' H. repeat case_run; inv_ok; bool_prop.
  - eapply ev_savings_liquid; [|reflexivity]. covered.
  - match goal with E : accrue_interest _ _ _ _ _ _ = Ok (?x, _) |- _ => apply accrued_symbol in E as [? ?]; destruct x as [[[b sec] t1] p1]; cbn [fst] in * end. inv_ok. bool_prop.
    eapply ev_savings_dollar; [|reflexivity]. covered.
Qed.

(** Without shares a reward is a liquid one. *)
Lemma af_modify_reward a v : respects R (modify_reward_balance a v no_shares true).
Proof.
  apply af_modify_res. intros o o' H. cbn [negb orb no_shares amount] in H.
  repeat (case_match; [|]); inv_ok; bool_prop; try (discriminate || lia).
  - eapply ev_reward_liquid; [|reflexivity]. covered.
  - eapply ev_reward_dollar; [|reflexivity]. covered.
Qed.
Lemma af_modify_vesting_reward `{!RewardFrame R} a v d : respects R (modify_reward_balance a v d true).
Proof.
  apply respects_modify_res; [exact _|]. intros s o o' Ho H. cbn [negb orb] in H.
  repeat (case_match; [|]); inv_ok; bool_prop; try discriminate.
  - eapply af_write, ev_reward_liquid; [done| |reflexivity]. covered.
  - eapply af_reward; [done|]. eexists _, _. split_and!; [| |reflexivity]; [|by sym_facts].
    match goal with E : asset_add (acc_reward_vesting_share_balance _) _ = _ |- _ =>
      pose proof (asset_add_max _ _ _ E); apply asset_add_ok in E as (_ & ? & ?) end.
    split; [done|split; [lia|done]].
  - eapply af_write, ev_reward_dollar; [done| |reflexivity]. covered.
Qed.
End Primitives.
#[export] Hint Resolve af_modify_balance af_adjust_savings af_modify_reward : respects.
#[export] Hint Extern 4 (respects _ (modify_reward_balance _ _ _ _)) =>
  (apply af_modify_vesting_reward) : respects.

(** ** The functions of the database *)

Lemma af_set_votes `{!AccountFrame R} a f :
  (∀ v v', f v = Ok v' → length v' = length v) →
  respects R (modify_res a (fun p => let? v := f (acc_proxied_vsf_votes p) in
                                     Ok (p <| acc_proxied_vsf_votes := v |>))).
Proof.
  intros Hf. apply af_modify_res. intros o o' H. inv_ok. eapply ev_votes; [|reflexivity]. by eapply Hf.
Qed.
Lemma add_proxied_length i d v v' : add_proxied i d v = Ok v' → length v' = length v.
Proof. unfold add_proxied. intros H. inv_ok. apply length_insert. Qed.
Lemma add_proxied_fold_length (g : nat → nat) (d : nat → Z) l v v' :
  res_fold (fun votes i => add_proxied (g i) (d i) votes) v l = Ok v' → length v' = length v.
Proof.
  revert v. induction l as [|i l IH]; cbn; intros v H; inv_ok; [done|].
  apply IH in H as ->. by eapply add_proxied_length.
Qed.

Section Functions.
Context {R : relation database} `{!AccountFrame R}.
Implicit Types a : ref account_object.

Lemma af_add_proxied i d a : respects R (modify_res a (fun p =>
  let? v := add_proxied i d (acc_proxied_vsf_votes p) in Ok (p <| acc_proxied_vsf_votes := v |>))).
Proof. apply af_set_votes, add_proxied_length. Qed.
Lemma af_fold_proxied k d l a : respects R (modify_res a (fun p =>
  let? v := res_fold (fun votes i => add_proxied (i + k) (nth i d 0) votes) (acc_proxied_vsf_votes p) l in
  Ok (p <| acc_proxied_vsf_votes := v |>))).
Proof.
  apply (af_set_votes a (fun v => res_fold (fun votes i => add_proxied (i + k) (nth i d 0) votes) v l)).
  intros v v'. apply (add_proxied_fold_length (fun i => (i + k)%nat) (fun i => nth i d 0)).
Qed.
End Functions.
#[export] Hint Resolve af_add_proxied af_fold_proxied : respects.

Section Functions.
Context {R : relation database} `{!AccountFrame R}.
Implicit Types a : ref account_object.
Lemma af_adjust_proxied a d : respects R (adjust_proxied_witness_votes a d).
Proof. respects. Qed.
Lemma af_adjust_proxied_array a d : respects R (adjust_proxied_witness_votes_array a d).
Proof. respects. Qed.
End Functions.
#[export] Hint Resolve af_adjust_proxied af_adjust_proxied_array : respects.

Section Functions.
Context {R : relation database} `{!AccountFrame R}.
Implicit Types a : ref account_object.

Lemma af_create_vesting a x : respects R (create_vesting a x false).
Proof. unfold create_vesting. cbn [negb when]. respects. Qed.
Lemma af_create_reward_vesting `{!RewardFrame R} a x : respects R (create_vesting a x true).
Proof. respects. Qed.
Lemma af_create_dollar a x r : respects R (create_dollar a x r).
Proof. respects. Qed.
Lemma af_clear_witness_votes a : respects R (clear_witness_votes a).
Proof. respects. Qed.
Lemma af_burn a b w t : (∀ d, respects R (w d)) → respects R (burn a b w t).
Proof. intros Hw. unfold burn. respects. Qed.
Lemma af_burn_vesting a t : respects R (burn_vesting a t).
Proof.
  unfold burn_vesting. repeat first [apply af_modify_row | respects_step].
  eapply ev_vesting with (b := set_amount 0 _); [split_and!; [done|cbn; lia|cbn; unfold INT64_MAX; lia]|reflexivity].
Qed.
Lemma af_burn_reward_vesting a t : respects R (burn_reward_vesting a t).
Proof.
  unfold burn_reward_vesting. repeat first [apply af_modify_row | respects_step].
  eapply ev_reward_vesting with (v := set_amount 0 _) (l := set_amount 0 _);
    [split_and!; [done|cbn; lia|cbn; unfold INT64_MAX; lia]..|reflexivity].
Qed.
End Functions.
#[export] Hint Resolve af_create_vesting af_create_reward_vesting af_create_dollar af_clear_witness_votes af_burn
  af_burn_vesting af_burn_reward_vesting : respects.

(** ** The end of a block *)

Section Block.
Context {R : relation database} `{!AccountFrame R}.

Lemma af_clear_null_account_balance : respects R clear_null_account_balance.
Proof. respects. Qed.
Lemma af_process_funds : respects R process_funds.
Proof. respects. Qed.
Lemma af_cashout_comment_helper `{!RewardFrame R} ctx r b : respects R (cashout_comment_helper ctx r b).
Proof. respects. Qed.
End Block.
#[export] Hint Resolve af_clear_null_account_balance af_process_funds af_cashout_comment_helper : respects.

Section Block.
Context {R : relation database} `{!AccountFrame R}.

Lemma af_update_witness_schedule : respects R update_witness_schedule.
Proof. respects. Qed.
Lemma af_update_median_feed : respects R update_median_feed.
Proof. respects. Qed.
End Block.
#[export] Hint Resolve af_update_witness_schedule af_update_median_feed : respects.

(** All of it, given the two steps that write more than [evolves] allows. *)
Lemma af_close_block `{!AccountFrame R, !RewardFrame R} `{Crypto} b :
  respects R process_vesting_withdrawals → respects R process_decline_voting_rights →
  respects R (close_block b).
Proof. intros Hw Hd. unfold close_block. respects. Qed.

(** ** The evaluators *)

(** A read leaves everything as it is: the steps before a write. *)
Ltac read_steps H :=
  repeat (apply (respects_then (=)) in H as (? & ? & ? & <- & H); [|solve [respects]]).
Ltac write_step H u s1 Hw := apply bind_ok in H as (u & s1 & Hw & H).
(** The rest of a function, from the state [s1] on. *)
Ltac rest_respects R H :=
  match type of H with ?m ?s1 = Ok (_, ?s2) =>
    let Hm := fresh in
    assert (respects R m) as Hm by respects; trans s1; [|exact (Hm _ _ _ H)]; clear Hm H
  end.

Section Spending.
Context {R : relation database} `{!AccountFrame R}.

(** Paying a fee that was checked against the balance. *)
Lemma af_pay (c : ref account_object) f fee s u s' :
  (∀ o, row c s = Some o → amount fee ≤ amount (acc_liquid_balance o)) →
  (∀ o o', f o = Ok o' → ∃ b, asset_sub (acc_liquid_balance o) fee = Ok b ∧
     critical o' = critical (o <| acc_liquid_balance := b |>)) →
  modify_res c f s = Ok (u, s') → R s s'.
Proof.
  intros Hfee Hf Hm. apply modify_res_gap in Hm as (o & o' & -> & Hr & Ho & _).
  destruct (Hf _ _ Ho) as (b & Hb & Hc). pose proof (asset_sub_max _ _ _ Hb). apply asset_sub_ok in Hb as (_ & Hs & Ha).
  eapply af_write; [exact Hr|]. eapply ev_liquid; [|exact Hc]. split; [done|].
  specialize (Hfee _ Hr). split; [lia|done].
Qed.

Lemma fee_checked a fee msg s u s' : assert_ge a fee msg s = Ok (u, s') → s' = s ∧ amount fee ≤ amount a.
Proof.
  unfold assert_ge. intros H. inv_ok.
  match goal with E : asset_ge _ _ = _ |- _ => apply asset_cmp_ok in E as [_ E] end.
  bool_prop. by split; [|lia].
Qed.
Ltac fee_paid fee Hm :=
  eapply (af_pay _ _ fee) in Hm; [exact Hm|by intros ? ?; simplify_eq|];
  let Hf := fresh in intros ? ? Hf; cbv beta in Hf; inv_ok; eexists; split; [eassumption|reflexivity].

Lemma af_account_create fee c n o a p k j : respects R (account_create_do_apply fee c n o a p k j).
Proof.
  intros s u s' H. unfold account_create_do_apply in H.
  do 2 (apply (respects_then (=)) in H as (? & ? & _ & <- & H); [|respects]).
  apply bind_ok in H as (co & s1 & [Hco ->]%load_ok & H).
  apply bind_ok in H as ([] & s1 & [-> Hfee]%fee_checked & H).
  read_steps H. write_step H v s1 Hm. rest_respects R H. fee_paid fee Hm.
Qed.
Lemma af_account_create_with_delegation fee d c n o a p k j :
  respects R (account_create_with_delegation_do_apply fee d c n o a p k j).
Proof.
  intros s u s' H. unfold account_create_with_delegation_do_apply in H.
  do 2 (apply (respects_then (=)) in H as (? & ? & _ & <- & H); [|respects]).
  apply (respects_then (=)) in H as (? & ? & _ & <- & H); [|respects].
  apply bind_ok in H as (co & s1 & [Hco ->]%load_ok & H).
  apply bind_ok in H as ([] & s1 & [-> Hfee]%fee_checked & H).
  read_steps H.
  write_step H v s1 Hm. rest_respects R H. fee_paid fee Hm.
Qed.

Lemma af_claim_account c fee : symbol fee = LIQUID_SYMBOL → 0 ≤ amount fee →
  respects R (claim_account_do_apply c fee).
Proof.
  intros Hsym Hpos s u s' H. unfold claim_account_do_apply in H.
  do 2 (apply (respects_then (=)) in H as (? & ? & _ & <- & H); [|respects]).
  apply bind_ok in H as (co & s1 & [Hco ->]%load_ok & H).
  apply bind_ok in H as ([] & s1 & [-> Hfee]%fee_checked & H).
  read_steps H. write_step H v s1 Hn.
  pose proof (af_modify_balance (R := R) _ _ _ _ _ Hn) as HR. etrans; [exact HR|]. clear HR.
  unfold adjust_balance, modify_balance in Hn. rewrite Hsym in Hn.
  apply modify_with_gap in Hn as (no & no' & s2 & Hno & Hn & -> & _).
  rewrite Z.eqb_refl in Hn. inv_ok. cbn [when] in *. inv_ok.
  match goal with E : asset_add _ _ = _ |- _ => apply asset_add_ok in E as (_ & _ & Hb) end.
  eapply (af_pay _ _ fee) in H; [exact H|..].
  - intros o1 Ho1. match type of Ho1 with row ?r (set_row ?q ?o' _) = _ =>
      destruct (decide (r = q)) as [->|Hne] end.
    + rewrite row_set_row_eq in Ho1. rewrite Hno in Hco. simplify_eq. cbn. lia.
    + rewrite row_set_row_ne in Ho1 by done. by simplify_eq.
  - intros o1 o2 Hf. cbv beta in Hf. inv_ok. eexists. split; [eassumption|reflexivity].
Qed.
End Spending.

(** *** Claiming rewards *)

(** The reward shares of an account and the ZTR behind them. *)
Definition reward_of (o : account_object) : asset * asset :=
  (acc_reward_vesting_share_balance o, acc_reward_vesting_liquid_balance o).
Definition reward_shares (s : database) : gmap Z (asset * asset) :=
  reward_of <$> rows (account_index s).
Definition same_reward_shares (s s' : database) : Prop := reward_shares s' = reward_shares s.
#[export] Instance same_reward_shares_preorder : PreOrder same_reward_shares.
Proof. split; [intros s; reflexivity|]. unfold same_reward_shares. intros s1 s2 s3 H1 H2. congruence. Qed.
Lemma reward_shares_set (r : ref account_object) s o o' : row r s = Some o →
  reward_of o' = reward_of o → same_reward_shares s (set_row r o' s).
Proof.
  unfold same_reward_shares, reward_shares, row. cbn. intros Hr Hs. rewrite fmap_insert, Hs.
  apply insert_id. by rewrite lookup_fmap, Hr.
Qed.
Lemma reward_shares_row (r : ref account_object) s s' o o' : same_reward_shares s s' →
  row r s = Some o → row r s' = Some o' → reward_of o' = reward_of o.
Proof.
  unfold same_reward_shares, reward_shares, row. cbn. intros E Hr Hr'.
  apply (f_equal (.!! ref_id r)) in E. rewrite !lookup_fmap, Hr, Hr' in E. by apply (inj Some) in E.
Qed.

(** The ZTR that move with claimed shares are part of those behind all of them. *)
Lemma to_move_bounds o v x : reward_vesting_liquid_to_move o v = Ok x →
  0 ≤ amount v ≤ amount (acc_reward_vesting_share_balance o) →
  amount (acc_reward_vesting_share_balance o) ≤ INT64_MAX →
  0 ≤ amount (acc_reward_vesting_liquid_balance o) ≤ INT64_MAX →
  0 ≤ amount x ≤ amount (acc_reward_vesting_liquid_balance o).
Proof.
  unfold reward_vesting_liquid_to_move. intros H Hv Hs Hl. case_match; inv_ok; [lia|]. cbn.
  unfold INT64_MAX in *.
  set (v' := amount v) in *. set (S := amount (acc_reward_vesting_share_balance o)) in *.
  set (L := amount (acc_reward_vesting_liquid_balance o)) in *.
  unfold u128_div, u128_mul, u128_to_uint64 in *. 
  repeat (case_match; inv_ok). bool_prop.
  unfold wrap_u128 in *. rewrite ?(Z.mod_small v'), ?(Z.mod_small L), ?(Z.mod_small S) in * by lia.
  rewrite (Z.mod_small (v' * L)) in * by nia.
  assert (v' * L / S ≤ L) as Hq by (apply Z.div_le_upper_bound; nia).
  assert (0 ≤ v' * L / S) by (apply Z.div_pos; nia).
  rewrite wrap_i64_id by (unfold in_i64, INT64_MIN, INT64_MAX; lia). lia.
Qed.

Lemma balance_keeps_reward_shares a d : respects same_reward_shares (modify_balance a d true).
Proof.
  intros s u s' Hm. apply modify_with_gap in Hm as (o & o' & s1 & Ho & Hf & -> & _).
  match type of Hf with ?m _ = _ => assert (respects (same_rows account_object) m) as Hs by respects end.
  specialize (Hs _ _ _ Hf). unfold same_rows in Hs. cbn in Hs.
  trans s1; [unfold same_reward_shares, reward_shares; by rewrite Hs|].
  apply reward_shares_set with o; [unfold row; cbn; by rewrite Hs|].
  cbn [when] in Hf. repeat case_run; inv_ok; cbn [when] in *; inv_ok; try done.
  match goal with p : asset * Z * Z * Z |- _ => destruct p as [[[? ?] ?] ?] end. by inv_ok.
Qed.
Lemma reward_keeps_reward_shares a v : respects same_reward_shares (modify_reward_balance a v no_shares true).
Proof.
  apply respects_modify_res; [exact _|]. intros s o o' Ho Hf. apply reward_shares_set with o; [done|].
  cbn [negb orb no_shares amount] in Hf. repeat (case_match; [|]); inv_ok; done.
Qed.

Section Claiming.
Context {R : relation database} `{!AccountFrame R}.

Lemma af_claim_reward_balance account l d v : 0 ≤ amount v →
  respects R (claim_reward_balance_do_apply account l d v).
Proof.
  intros Hv s u s' H. unfold claim_reward_balance_do_apply, assert_le in H.
  apply (respects_then (=)) in H as (a & ? & _ & <- & H); [|respects].
  apply bind_ok in H as (ao & s1 & [Hao ->]%load_ok & H). inv_ok.
  repeat match goal with E : asset_le _ _ = _ |- _ => apply asset_cmp_ok in E as [_ E] end.
  bool_prop.
  match goal with E : asset_neg l = _ |- _ => clear E end. match goal with E : asset_neg d = _ |- _ => clear E end.
  unfold adjust_reward_balance, adjust_balance in *. inv_ok.
  repeat match goal with
  | E : modify_reward_balance _ _ _ _ ?s1 = Ok (_, ?s2) |- R ?s1 _ =>
      trans s2; [exact (af_modify_reward (R := R) _ _ _ _ _ E)|]; apply reward_keeps_reward_shares in E
  | E : modify_balance _ _ _ ?s1 = Ok (_, ?s2) |- R ?s1 _ =>
      trans s2; [exact (af_modify_balance (R := R) _ _ _ _ _ E)|]; apply balance_keeps_reward_shares in E
  end.
  match goal with E : modify_res _ _ ?s1 = _ |- _ =>
    assert (same_reward_shares s s1) as Hsame by (repeat (etrans; [eassumption|]); reflexivity);
    apply modify_res_gap in E as (o & o' & -> & Ho & Hf & _) end.
  match goal with E : modify_gpo _ ?t = _ |- R ?x _ => trans t;
    [|etrans; [exact (af_gpo _ _ _ _ E)|exact (af_adjust_proxied (R := R) _ _ _ _ _ H)]];
    pose proof (reward_shares_row _ _ _ _ _ Hsame Hao Ho) as Hrs end.
  cbv beta in Hf. inv_ok. injection Hrs as Hrs Hrl.
  match goal with E : reward_vesting_liquid_to_move _ _ = _ |- _ =>
    pose proof (to_move_bounds _ _ _ E) as Hmove end.
  repeat match goal with
  | E : asset_sub _ _ = _ |- _ => apply asset_sub_ok in E as (_ & ? & ?)
  | E : asset_add _ _ = Ok ?v' |- _ =>
      pose proof (asset_add_max _ _ _ E); apply asset_add_ok in E as (_ & ? & ?) end.
  eapply af_write; [exact Ho|]. rewrite <- Hrs, <- Hrl in *.
  eapply ev_claim; [split_and!; [eassumption|lia|lia]|eassumption|intros; lia|eassumption|lia|eassumption|reflexivity].
Qed.
End Claiming.

Lemma af_withdraw_vesting `{!AccountFrame R} a v : respects R (withdraw_vesting_do_apply a v).
Proof.
  intros s u s' H. unfold withdraw_vesting_do_apply, assert_ge, head_block_time in H.
  apply (respects_then (=)) in H as (a' & ? & _ & <- & H); [|respects].
  apply bind_ok in H as (ao & s1 & [_ ->]%load_ok & H). inv_ok. bool_prop.
  case_match; inv_ok; bool_prop.
  - revert H. apply (af_modify_row a'). intros o. apply ev_power_down with (rate := 0) (left := 0); done.
  - revert H. apply (af_modify_res a'). intros o o' Hf. inv_ok.
    match goal with E : safe.div _ _ = Ok ?q |- _ =>
      apply safe_div_ok in E as [E _]; apply ev_power_down with (rate := if q =? 0 then 1 else q) (left := amount v);
      [case_match; [done|]; rewrite E; apply Z.quot_pos; done || lia|lia|reflexivity] end.
Qed.
#[export] Hint Resolve af_account_create af_account_create_with_delegation af_withdraw_vesting : respects.

(** *** Every operation *)

Section Operation.
Context {R : relation database} `{!AccountFrame R, Codec, DiffPatch, HeaderCrypto}.

Lemma af_apply_operation op : operation_validate op = Ok tt →
  (∀ a p, op = account_witness_proxy_operation a p → respects R (account_witness_proxy_do_apply a p)) →
  respects R (apply_operation op).
Proof.
  intros Hval Hproxy.
  destruct op; cbn [apply_operation operation_validate] in *; try by apply Hproxy.
  6: { apply af_claim_account; unfold claim_account_validate in Hval; validated Hval; done. }
  38: { apply af_claim_reward_balance. unfold claim_reward_balance_validate in Hval. validated Hval. lia. }
  all: clear Hval Hproxy; respects.
Qed.
End Operation.
