(* ===== verification/Sound.v ===== *)
(** * Sound accounts

    What the ledger relies on about accounts, proved to survive every operation
    and every step of a block: vesting balances are representable amounts of VESTS
    ([Withdrawals.vests_ok]), received votes have four levels, the graph of proxies
    has no cycle and routes hold percentages.  Acyclicity rests on the walk of
    [account_witness_proxy_evaluator] up from the new proxy
    (src/src/core/chain/zattera_evaluator.cpp) and on account names being unique. *)
From S2P Require Import Prelude Ints Config Asset Authority Headers Operations State Blocks Store Ledger Balances Vesting Conserve Frames Rows Drain EvalFunds Market EvalAccounts Proxy Reward EvalContent Evaluators Invariants Genesis BlockProc Withdrawals Expiry Payout Schedule Chain Loops AccountFrame.

(** ** The graph of proxies *)

(** Who is who, and whom each account has named as its proxy. *)
Definition link (o : account_object) : account_name_type * account_name_type := (acc_name o, acc_proxy o).
Definition links (s : database) : gmap Z (account_name_type * account_name_type) := link <$> rows (account_index s).

Section Graph.
Implicit Types g : gmap Z (account_name_type * account_name_type).

Definition named g (i : Z) (n : account_name_type) : Prop := fst <$> g !! i = Some n.
(** Account [j] is the proxy of account [i]. *)
Definition proxied g (i j : Z) : Prop :=
  ∃ n p, g !! i = Some (n, p) ∧ p ≠ ZATTERA_PROXY_TO_SELF_ACCOUNT ∧ named g j p.
Definition unique_names g : Prop := ∀ i j n, named g i n → named g j n → i = j.
Definition acyclic g : Prop := ∀ i, ¬ tc (proxied g) i i.

Lemma named_update g a n old new i m : g !! a = Some (n, old) →
  named (<[a := (n, new)]> g) i m ↔ named g i m.
Proof.
  intros Ha. unfold named. destruct (decide (i = a)) as [->|Hne].
  - by rewrite lookup_insert_eq, Ha.
  - by rewrite lookup_insert_ne.
Qed.
Lemma unique_names_update g a n old new : g !! a = Some (n, old) →
  unique_names g → unique_names (<[a := (n, new)]> g).
Proof.
  intros Ha Hu i j m Hi Hj. rewrite (named_update g a n old new) in Hi, Hj by done. by eapply Hu.
Qed.

Lemma proxied_update g a n old new i j : g !! a = Some (n, old) → i ≠ a →
  proxied (<[a := (n, new)]> g) i j → proxied g i j.
Proof.
  intros Ha Hne (m & p & Hi & Hp & Hj). rewrite lookup_insert_ne in Hi by done.
  rewrite (named_update g a n old new) in Hj by done. by exists m, p.
Qed.
Lemma proxied_from g a n old new j : g !! a = Some (n, old) →
  proxied (<[a := (n, new)]> g) a j → new ≠ ZATTERA_PROXY_TO_SELF_ACCOUNT ∧ named g j new.
Proof.
  intros Ha (m & p & Hi & Hp & Hj). rewrite lookup_insert_eq in Hi. simplify_eq.
  by rewrite (named_update g a m old p) in Hj.
Qed.

(** A new proxy from which the account cannot be reached closes no cycle. *)
Lemma acyclic_update g a n old new : g !! a = Some (n, old) →
  (new ≠ ZATTERA_PROXY_TO_SELF_ACCOUNT → ∀ b, named g b new → ¬ rtc (proxied g) b a) →
  acyclic g → acyclic (<[a := (n, new)]> g).
Proof.
  intros Ha Hnew Hg. set (g' := <[a := (n, new)]> g).
  assert (Hout : ∀ x y, tc (proxied g') x y →
    tc (proxied g) x y ∨ (rtc (proxied g) x a ∧ ∃ b, proxied g' a b ∧ rtc (proxied g') b y)).
  { induction 1 as [x y Hxy|x z y Hxz Hzy IH]; destruct (decide (x = a)) as [->|Hne].
    - right. split; [done|]. by exists y.
    - left. apply tc_once. by eapply proxied_update.
    - right. split; [done|]. exists z. split; [done|]. by apply tc_rtc.
    - apply (proxied_update g a n old new) in Hxz; [|done..]. destruct IH as [IH|[Hza Hb]].
      + left. by eapply tc_l.
      + right. split; [by eapply rtc_l|done]. }
  assert (Hin : ∀ b y, proxied g' a b → rtc (proxied g') b y → rtc (proxied g) b y).
  { intros b y Hb. destruct (proxied_from _ _ _ _ _ _ Ha Hb) as [Hne Hnb].
    revert y. apply rtc_ind_r; [done|]. intros y z _ Hyz IH.
    eapply rtc_r; [exact IH|]. eapply proxied_update; [exact Ha| |exact Hyz].
    intros ->. by eapply Hnew. }
  intros x Hx. destruct (Hout _ _ Hx) as [?|(Hxa & b & Hb & Hbx)]; [by eapply Hg|].
  destruct (proxied_from _ _ _ _ _ _ Ha Hb) as [Hne Hnb].
  apply (Hnew Hne b Hnb). etrans; [by eapply Hin|done].
Qed.

(** A new account has no proxy. *)
Lemma acyclic_open g a n : g !! a = None → acyclic g → acyclic (<[a := (n, ZATTERA_PROXY_TO_SELF_ACCOUNT)]> g).
Proof.
  intros Ha Hg. set (g' := <[a := (n, ZATTERA_PROXY_TO_SELF_ACCOUNT)]> g).
  assert (Hstep : ∀ x y z, proxied g' x y → proxied g' y z → proxied g x y).
  { intros x y z (m & p & Hx & Hp & Hy) (m' & p' & Hy' & Hp' & _).
    unfold g', named in *. rewrite lookup_insert in Hx, Hy, Hy'.
    destruct (decide (a = x)); [by simplify_eq|]. destruct (decide (a = y)); [by simplify_eq|]. by exists m, p. }
  assert (Htc : ∀ x y z, tc (proxied g') x y → proxied g' y z → tc (proxied g) x y).
  { intros x y z Hxy. induction Hxy as [x y Hxy|x w y Hxw Hwy IH]; intros Hyz.
    - apply tc_once. by eapply Hstep.
    - eapply tc_l; [|by apply IH]. inversion Hwy; subst; by eapply Hstep. }
  intros x Hx. apply (Hg x). assert (∃ y, proxied g' x y) as [y Hxy] by (inversion Hx; eauto).
  by eapply Htc.
Qed.
End Graph.

(** ** Proxies *)

Definition levels_ok (o : account_object) : Prop :=
  length (acc_proxied_vsf_votes o) = ZATTERA_MAX_PROXY_RECURSION_DEPTH.
(** The null account burns what it receives; its shares must vote for itself. *)
Definition null_proxy_unset (g : gmap Z (account_name_type * account_name_type)) : Prop :=
  ∀ i p, g !! i = Some (ZATTERA_NULL_ACCOUNT, p) → p = ZATTERA_PROXY_TO_SELF_ACCOUNT.
Definition proxies_ok (s : database) : Prop :=
  all_rows levels_ok s ∧ unique_names (links s) ∧ acyclic (links s) ∧ null_proxy_unset (links s).
Definition proxies_step (s s' : database) : Prop := proxies_ok s → proxies_ok s'.
#[export] Instance proxies_step_preorder : PreOrder proxies_step.
Proof. split; [intros s Hs; exact Hs|]. intros s1 s2 s3 H1 H2 H3. by apply H2, H1. Qed.

Lemma links_set (r : ref account_object) o s : links (set_row r o s) = <[ref_id r := link o]> (links s).
Proof. unfold links. cbn. by rewrite fmap_insert. Qed.
Lemma links_row (r : ref account_object) o s : row r s = Some o → links s !! ref_id r = Some (link o).
Proof. unfold links, row. cbn. intros Hr. by rewrite lookup_fmap, Hr. Qed.
Lemma links_row_inv i n p s : links s !! i = Some (n, p) →
  ∃ o, row (Ref (A := account_object) i) s = Some o ∧ acc_name o = n ∧ acc_proxy o = p.
Proof.
  unfold links, row, link. cbn. intros Hi. rewrite lookup_fmap in Hi.
  apply fmap_Some in Hi as (o & Ho & Hl). exists o. by simplify_eq.
Qed.
Lemma named_row i n s : named (links s) i n → ∃ o, row (Ref (A := account_object) i) s = Some o ∧ acc_name o = n.
Proof.
  unfold named. intros Hn. apply fmap_Some in Hn as ([m p] & Hi & ->).
  apply links_row_inv in Hi as (o & ? & ? & ?). by exists o.
Qed.

(** A write that leaves the name and the proxy. *)
Lemma proxies_write (r : ref account_object) s o o' : row r s = Some o → link o' = link o →
  (levels_ok o → levels_ok o') → proxies_step s (set_row r o' s).
Proof.
  intros Hr Hl Hlen (H1 & H2 & H3 & H4). split; [by eapply rows_step_set|].
  rewrite links_set, Hl, insert_id by by apply links_row. done.
Qed.
(** A write of the proxy. *)
Lemma proxies_write_proxy (r : ref account_object) s o p : row r s = Some o →
  (p ≠ ZATTERA_PROXY_TO_SELF_ACCOUNT → ∀ b, named (links s) b p → ¬ rtc (proxied (links s)) b (ref_id r)) →
  (acc_name o = ZATTERA_NULL_ACCOUNT → p = ZATTERA_PROXY_TO_SELF_ACCOUNT) →
  ∀ o', link o' = (acc_name o, p) → acc_proxied_vsf_votes o' = acc_proxied_vsf_votes o →
  proxies_step s (set_row r o' s).
Proof.
  intros Hr Hp Hnull o' Hl Hv (H1 & H2 & H3 & H4). apply links_row in Hr as Hg. split_and!.
  - eapply rows_step_set; [exact Hr| |done]. unfold levels_ok. by rewrite Hv.
  - rewrite links_set, Hl. by eapply unique_names_update.
  - rewrite links_set, Hl. by eapply acyclic_update.
  - rewrite links_set, Hl. intros i q Hi. rewrite lookup_insert in Hi. case_decide; [|by eapply H4].
    simplify_eq. by apply Hnull.
Qed.

Lemma fresh_name (o : account_object) s r s' : create o s = Ok (r, s') →
  rows (account_index s) !! next_id (account_index s) = None ∧
  ∀ i, ¬ named (links s) i (acc_name o).
Proof.
  unfold create. case_match eqn:E; [done|]. intros _.
  apply orb_false_iff in E as [E1%bool_decide_eq_false E2].
  split; [by apply eq_None_not_Some|]. intros i (o' & Ho & Hn)%named_row.
  assert (existsb (clash o) (map_to_list (rows (tbl (A := account_object) s))) = true) as E3; [|by rewrite E3 in E2].
  apply existsb_exists. exists (i, o'). split; [by apply list_elem_of_In, elem_of_map_to_list|].
  unfold clash. cbn. rewrite Hn, bool_decide_eq_true_2; [done|]. apply list_elem_of_singleton. done.
Qed.

Lemma critical_fields o o' : critical o' = critical o →
  acc_name o' = acc_name o ∧ acc_proxy o' = acc_proxy o ∧ acc_proxied_vsf_votes o' = acc_proxied_vsf_votes o.
Proof. unfold critical. intros H. by simplify_eq. Qed.

Lemma proxies_open o s r s' : acc_proxy o = ZATTERA_PROXY_TO_SELF_ACCOUNT → levels_ok o →
  create o s = Ok (r, s') → proxies_step s s'.
Proof.
  intros Ep Ev Hc (H1 & H2 & H3 & H4). destruct (fresh_name _ _ _ _ Hc) as [Hi Hn].
  apply create_gap in Hc as (-> & _). set (n := acc_name o) in *.
  assert (links (add_row o s) = <[next_id (account_index s) := (n, ZATTERA_PROXY_TO_SELF_ACCOUNT)]> (links s)) as El.
  { unfold links, add_row, link. cbn. by rewrite fmap_insert, Ep. }
  assert (links s !! next_id (account_index s) = None) as Hl by (unfold links; by rewrite lookup_fmap, Hi).
  split_and!.
  - by apply rows_step_add.
  - rewrite El. intros i j m. unfold named. rewrite !lookup_insert.
    repeat case_decide; intros; simplify_eq/=; try done; [by destruct (Hn j)|by destruct (Hn i)|by eapply H2].
  - rewrite El. by apply acyclic_open.
  - rewrite El. intros i p Hi'. rewrite lookup_insert in Hi'. case_decide; [by simplify_eq|by eapply H4].
Qed.

Lemma evolves_link o o' : evolves o o' → link o' = link o ∧ (levels_ok o → levels_ok o').
Proof.
  unfold link, levels_ok. intros He.
  assert (acc_name o' = acc_name o ∧ acc_proxy o' = acc_proxy o ∧
    length (acc_proxied_vsf_votes o') = length (acc_proxied_vsf_votes o)) as (-> & -> & ->); [|done].
  destruct He; match goal with Hc : critical o' = _ |- _ => apply critical_fields in Hc as (-> & -> & ->) end; done.
Qed.

#[export] Instance proxies_frame : AccountFrame proxies_step.
Proof.
  split.
  - exact _.
  - unfold proxies_step, proxies_ok, all_rows, links. cbn. by intros s s' ->.
  - intros r s o o' Hr [Hl Hv]%evolves_link. by eapply proxies_write.
  - intros o s r s' [n (_ & Ep & Ev)%critical_fields]. apply proxies_open; [done|]. unfold levels_ok. by rewrite Ev.
Qed.

#[export] Instance proxies_reward : RewardFrame proxies_step.
Proof.
  split. intros r s o o' Hr (v & l & _ & _ & (En & Ep & Ev)%critical_fields). cbn in *.
  eapply proxies_write; [done|unfold link; congruence|]. unfold levels_ok. by rewrite Ev.
Qed.

(** *** Finding accounts by name *)

Lemma find_account_row name s (r : ref account_object) o :
  find_row (is_name name) s = Some r → row r s = Some o → acc_name o = name.
Proof. intros Hf Hr. by apply (find_row_some _ _ _ _ Hf), bool_decide_eq_true in Hr. Qed.
Lemma named_link (r : ref account_object) o s : row r s = Some o → named (links s) (ref_id r) (acc_name o).
Proof. intros Hr. unfold named. by rewrite (links_row _ _ _ Hr). Qed.
Lemma proxied_link (r q : ref account_object) o qo s : row r s = Some o →
  acc_proxy o ≠ ZATTERA_PROXY_TO_SELF_ACCOUNT → row q s = Some qo → acc_name qo = acc_proxy o →
  proxied (links s) (ref_id r) (ref_id q).
Proof.
  intros Hr Hp Hq Hn. exists (acc_name o), (acc_proxy o). split_and!; [by apply links_row|done|].
  rewrite <- Hn. by apply named_link.
Qed.

(** Without cycles no account is on its own proxy chain. *)
Lemma acyclic_avoids s (a : ref account_object) left r o : acyclic (links s) →
  row r s = Some o → rtc (proxied (links s)) (ref_id a) (ref_id r) → avoids (ref_id a) left s (acc_proxy o).
Proof.
  intros Hc. revert r o. induction left as [|left IH]; intros r o Hr Har; cbn; [done|].
  intros Hp q qo Hq Hqo. apply (find_account_row _ _ _ qo) in Hq as Hn; [|done].
  assert (proxied (links s) (ref_id r) (ref_id q)) as Hrq by by eapply proxied_link.
  split; [|eapply IH; [exact Hqo|by eapply rtc_r]].
  intros E. apply (Hc (ref_id a)). rewrite <- E at 2. by eapply tc_rtc_l; [|apply tc_once].
Qed.
Lemma proxies_proxy_ok account s : proxies_ok s → proxy_ok account s.
Proof.
  intros (Hv & Hu & Hc & _) acc o Ha Ho. split; [exact (all_rows_row _ _ _ _ Hv Ho)|].
  by eapply acyclic_avoids.
Qed.

(** ** Operations on proxies *)

Lemma check_proxy_chain_reach fuel proxy chain s u s' : unique_names (links s) →
  check_proxy_chain fuel proxy chain s = Ok (u, s') → proxy ≠ ZATTERA_PROXY_TO_SELF_ACCOUNT →
  ∀ b k, named (links s) b proxy → rtc (proxied (links s)) b k → k ∉ chain.
Proof.
  intros Hu. revert proxy chain. induction fuel as [|fuel IH]; intros proxy chain H Hp b k Hb Hk; cbn in H; [inv_ok|].
  case_run; [by match goal with E : (strlen _ =? 0) = true |- _ => apply strlen_0 in E as -> end|].
  apply bind_ok in H as (q & s1 & [-> Hq]%get_by_ok & H).
  apply bind_ok in H as (qo & s1 & [Hqo ->]%load_ok & H). inv_ok. bool_prop.
  apply (find_account_row _ _ _ qo) in Hq as Hn; [|done].
  assert (ref_id q = b) as Hqb by (eapply Hu; [|exact Hb]; rewrite <- Hn; by apply named_link). subst b.
  apply rtc_inv in Hk as [<-|(y & (n & p & Hx & Hpne & Hy) & Hyk)]; [done|].
  pose proof (eq_trans (eq_sym Hx) (links_row _ _ _ Hqo)) as El. unfold link in El. simplify_eq.
  assert (k ∉ ref_id q :: chain) as Hz; [|by apply not_elem_of_cons in Hz as [_ ?]].
  eapply IH; eauto.
Qed.

(** Steps that leave names and proxies. *)
Definition same_links (s s' : database) : Prop := links s' = links s.
#[export] Instance same_links_preorder : PreOrder same_links.
Proof. split; [intros s; reflexivity|]. unfold same_links. intros s1 s2 s3 H1 H2. congruence. Qed.
#[export] Instance same_links_free {A} `{Table A} `{!Free (same_rows account_object) A} : Free same_links A.
Proof.
  intros t s. unfold same_links, links. pose proof (free_tbl (R := same_rows account_object) t s) as E.
  unfold same_rows in E. cbn in E. by rewrite E.
Qed.
Lemma same_links_set (r : ref account_object) s o o' : row r s = Some o → link o' = link o →
  same_links s (set_row r o' s).
Proof. intros Hr Hl. unfold same_links. rewrite links_set, Hl. apply insert_id. by apply links_row. Qed.
#[export] Hint Extern 2 (respects same_links (modify_row _ _)) =>
  (apply respects_modify_row; [exact _|]; intros; eapply same_links_set; [eassumption|reflexivity]) : respects.
#[export] Hint Extern 2 (respects same_links (modify_res _ _)) =>
  (apply respects_modify_res; [exact _|]; intros; inv_ok; eapply same_links_set; [eassumption|reflexivity]) : respects.

Lemma same_links_array a d : respects same_links (adjust_proxied_witness_votes_array a d).
Proof. respects. Qed.
Lemma same_links_clear a : respects same_links (clear_witness_votes a).
Proof. respects. Qed.

Lemma write_proxy_step (acc : ref account_object) p f s u s' :
  (∀ o, row acc s = Some o → acc_name o = ZATTERA_NULL_ACCOUNT → p = ZATTERA_PROXY_TO_SELF_ACCOUNT) →
  (p ≠ ZATTERA_PROXY_TO_SELF_ACCOUNT → ∀ b, named (links s) b p → ¬ rtc (proxied (links s)) b (ref_id acc)) →
  (∀ o, link (f o) = (acc_name o, p) ∧ acc_proxied_vsf_votes (f o) = acc_proxied_vsf_votes o) →
  modify_row acc f s = Ok (u, s') → proxies_step s s'.
Proof.
  intros Hn Hp Hf Hm. apply modify_row_gap in Hm as (o & -> & Hr & _). destruct (Hf o) as [Hl Hv].
  eapply proxies_write_proxy; eauto.
Qed.

Lemma proxies_account_witness_proxy account proxy : account ≠ proxy → account ≠ ZATTERA_NULL_ACCOUNT →
  respects proxies_step (account_witness_proxy_do_apply account proxy).
Proof.
  intros Hne Hnull s u s' H Hs. unfold account_witness_proxy_do_apply in H.
  apply bind_ok in H as (acc & s1 & [-> Hacc]%get_by_ok & H).
  apply bind_ok in H as (ao & s1 & [Hao ->]%load_ok & H).
  apply (find_account_row _ _ _ ao) in Hacc as Hname; [|done]. inv_ok.
  match goal with E : adjust_proxied_witness_votes_array _ _ _ = Ok (_, ?t) |- _ => rename t into s1;
    pose proof (same_links_array _ _ _ _ _ E) as Hl1;
    pose proof (af_adjust_proxied_array (R := proxies_step) _ _ _ _ _ E Hs) as Hs1; clear E end.
  unfold same_links in Hl1. destruct (strlen proxy =? 0) eqn:Ep; cbn [negb] in H.
  { apply strlen_0 in Ep as ->. revert Hs1. eapply write_proxy_step in H; [exact H|done..]. }
  apply bind_ok in H as (q & s2 & [-> Hq]%get_by_ok & H).
  apply bind_ok in H as (qo & s2 & [Hqo ->]%load_ok & H).
  apply bind_ok in H as ([] & s2 & Hcheck & H). pose proof (check_proxy_chain_ok _ _ _ _ _ _ Hcheck) as ->.
  apply (find_account_row _ _ _ qo) in Hq as Hqn; [|done].
  apply bind_ok in H as ([] & s2 & Hclear & H).
  pose proof (same_links_clear _ _ _ _ Hclear) as Hl2. unfold same_links in Hl2.
  pose proof (af_clear_witness_votes (R := proxies_step) _ _ _ _ Hclear Hs1) as Hs2.
  apply bind_ok in H as ([] & s3 & Hwrite & H). inv_ok.
  refine (af_adjust_proxied_array (R := proxies_step) _ _ _ _ _ H _).
  revert Hs2. eapply (write_proxy_step acc (acc_name qo)); [| | |exact Hwrite]; [| |done].
  { intros o2 Ho2 E. apply named_link in Ho2. rewrite Hl2, Hl1, E in Ho2. apply named_link in Hao.
    unfold named in *. congruence. }
  intros Hpne b Hb Hreach. rewrite Hl2 in Hb, Hreach.
  destruct Hs1 as (_ & Hu & _).
  assert (b = ref_id q) as -> by (eapply Hu; [exact Hb|]; by apply named_link).
  apply rtc_inv in Hreach as [E|(y & (n & p & Hx & Hp & Hy) & Hyk)].
  - assert (named (links s1) (ref_id acc) (acc_name ao)) as Ha by (rewrite Hl1; by apply named_link).
    rewrite <- E in Ha. unfold named in *. congruence.
  - pose proof (eq_trans (eq_sym Hx) (links_row _ _ _ Hqo)) as El. unfold link in El. simplify_eq.
    eapply check_proxy_chain_reach in Hyk; [|exact Hu|exact Hcheck|exact Hp|exact Hy].
    apply Hyk. rewrite elem_of_remove_dups. set_solver.
Qed.

(** ** The other steps *)

Lemma proxies_modify_res (a : ref account_object) f :
  (∀ o o', f o = Ok o' → link o' = link o ∧ acc_proxied_vsf_votes o' = acc_proxied_vsf_votes o) →
  respects proxies_step (modify_res a f).
Proof.
  intros Hf. apply respects_modify_res; [exact _|]. intros s o o' Hr [Hl Hv]%Hf.
  eapply proxies_write; [done..|]. unfold levels_ok. by rewrite Hv.
Qed.

Lemma proxies_decline_voting itr : respects proxies_step (decline_voting itr).
Proof.
  unfold decline_voting. respects. intros s u s' H.
  eapply (write_proxy_step _ ZATTERA_PROXY_TO_SELF_ACCOUNT) in H; [exact H|done..].
Qed.
#[local] Hint Resolve proxies_decline_voting : respects.
Lemma proxies_process_decline : respects proxies_step process_decline_voting_rights.
Proof. respects. Qed.

Lemma proxies_withdraw_from a : respects proxies_step (withdraw_from a).
Proof.
  unfold withdraw_from. respects; apply proxies_modify_res; intros o o' H; unfold settle_withdrawal in H; inv_ok; by repeat case_match.
Qed.
#[local] Hint Resolve proxies_withdraw_from : respects.
Lemma proxies_process_withdrawals : respects proxies_step process_vesting_withdrawals.
Proof. respects. Qed.

(** ** Vesting balances *)

Lemma evolves_vests o o' : evolves o o' → vests_ok o → vests_ok o'.
Proof.
  unfold vests_ok. intros He Ho.
  assert (∀ a a', critical a' = critical a →
    acc_vesting_share_balance a' = acc_vesting_share_balance a ∧
    acc_vesting_withdraw_rate a' = acc_vesting_withdraw_rate a ∧ acc_to_withdraw a' = acc_to_withdraw a) as Hc.
  { unfold critical. intros a a' E. by simplify_eq. }
  destruct He; match goal with E : critical o' = _ |- _ => apply Hc in E as (-> & -> & ->) end; cbn;
    repeat match goal with E : covers _ _ |- _ => destruct E end; split_and!; intuition (congruence || lia).
Qed.

#[export] Instance vests_frame : AccountFrame (rows_step vests_ok).
Proof.
  split.
  - exact _.
  - unfold rows_step, all_rows. cbn. by intros s s' ->.
  - intros r s o o' Hr He. eapply rows_step_set; [done|]. by apply evolves_vests.
  - intros o s r s' [n Ho] Hc. apply create_gap in Hc as (-> & _). apply rows_step_add.
    unfold critical in Ho. unfold vests_ok. simplify_eq. 
    repeat match goal with E : _ = _ |- _ => progress (rewrite ?E; clear E) end. done.
Qed.

#[export] Instance vests_reward : RewardFrame (rows_step vests_ok).
Proof.
  split. intros r s o o' Hr (v & l & _ & _ & Hc). eapply rows_step_set; [done|].
  unfold critical, vests_ok in *. cbn in Hc. simplify_eq.
  repeat match goal with E : _ = _ |- _ => progress (rewrite ?E; clear E) end. done.
Qed.

(** ** Routes *)

Definition route_ok (r : withdraw_vesting_route_object) : Prop := 0 ≤ wvr_percent r ≤ ZATTERA_100_PERCENT.

Lemma routes_set_route from to p av : 0 ≤ p ≤ ZATTERA_100_PERCENT →
  respects (rows_step route_ok) (set_withdraw_vesting_route_do_apply from to p av).
Proof.
  intros Hp. unfold set_withdraw_vesting_route_do_apply.
  repeat first [apply rows_create | apply rows_modify_row; intros | respects_step]; done.
Qed.
Notation keeps_routes := (respects (rows_step route_ok)).
Section Routes.
Context `{Codec, DiffPatch, HeaderCrypto}.
Lemma routes_apply_operation op : operation_validate op = Ok tt → keeps_routes (apply_operation op).
Proof.
  intros Hval. destruct op; cbn [apply_operation operation_validate] in *.
  17: { apply routes_set_route. unfold set_withdraw_vesting_route_validate in Hval. validated Hval. lia. }
  all: clear Hval; respects.
Qed.
End Routes.
