(* ===== verification/Solvent.v ===== *)
(** * No operation overdraws an account

    Every balance of an account, the liquid value of its reward shares included,
    is an amount of the asset its field stands for, is not negative and fits 64
    bits.  No operation of a transaction breaks that, whatever the amounts it
    names: the instance of [AccountFrame] for [solvent], and its consequence for
    transactions. *)
From S2P Require Import Prelude Ints Config Asset Authority Headers Operations State Blocks Store Ledger Balances Vesting Conserve Frames Rows Drain EvalFunds Market EvalAccounts Proxy Reward EvalContent Evaluators Invariants Genesis BlockProc Withdrawals Expiry Payout Schedule Chain Loops AccountFrame Sound.

(** An amount of an asset, not negative and within 64 bits. *)
Definition holds (sym : Z) (a : asset) : Prop := symbol a = sym ∧ 0 ≤ amount a ≤ INT64_MAX.
Definition solvent (a : account_object) : Prop :=
  (holds LIQUID_SYMBOL (acc_liquid_balance a) ∧ holds LIQUID_SYMBOL (acc_savings_liquid_balance a) ∧
   holds LIQUID_SYMBOL (acc_reward_liquid_balance a)) ∧
  (holds DOLLAR_SYMBOL (acc_dollar_balance a) ∧ holds DOLLAR_SYMBOL (acc_savings_dollar_balance a) ∧
   holds DOLLAR_SYMBOL (acc_reward_dollar_balance a)) ∧
  (holds VESTS_SYMBOL (acc_vesting_share_balance a) ∧ holds VESTS_SYMBOL (acc_reward_vesting_share_balance a) ∧
   holds LIQUID_SYMBOL (acc_reward_vesting_liquid_balance a)).
#[export] Instance solvent_dec a : Decision (solvent a).
Proof. unfold solvent, holds. apply _. Defined.

Lemma covers_holds sym old new : covers old new → holds sym old → holds sym new.
Proof. unfold covers, holds. intros (-> & ? & Hm) (-> & ? & ?). split_and!; auto. Qed.
#[local] Hint Resolve covers_holds : solvent.

(** What [solvent] reads of an account. *)
Definition balances_of (a : account_object) :=
  (acc_liquid_balance a, acc_savings_liquid_balance a, acc_reward_liquid_balance a,
   (acc_dollar_balance a, acc_savings_dollar_balance a, acc_reward_dollar_balance a),
   (acc_vesting_share_balance a, acc_reward_vesting_share_balance a, acc_reward_vesting_liquid_balance a)).
Lemma critical_balances o o' : critical o' = critical o → balances_of o' = balances_of o.
Proof. unfold critical, balances_of. intros E. simplify_eq. congruence. Qed.
Lemma balances_solvent o o' : balances_of o' = balances_of o → solvent o → solvent o'.
Proof. unfold balances_of, solvent. intros E. injection E as -> -> -> -> -> -> -> -> ->. done. Qed.

Lemma evolves_solvent o o' : evolves o o' → solvent o → solvent o'.
Proof.
  intros He Ho. assert (∃ o1, critical o' = critical o1 ∧ solvent o1) as (o1 & Hc & H1);
    [|by apply critical_balances in Hc; eapply balances_solvent].
  destruct Ho as ((? & ? & ?) & (? & ? & ?) & (Hv & Hr & Hl)).
  destruct He; eexists; (split; [eassumption|]); unfold solvent; cbn; split_and!; eauto with solvent; try congruence.
  - destruct Hv as (? & ? & ?). split; [congruence|lia].
  - destruct Hr as (? & ? & ?), Hl as (? & ? & ?). split; [congruence|auto].
Qed.

#[export] Instance solvent_frame : AccountFrame (rows_step solvent).
Proof.
  split.
  - exact _.
  - unfold rows_step, all_rows. cbn. by intros s s' ->.
  - intros r s o o' Hr He. eapply rows_step_set; [done|]. by apply evolves_solvent.
  - intros o s r s' [n Ho%critical_balances] Hc. apply create_gap in Hc as (-> & _). apply rows_step_add.
    eapply balances_solvent; [exact Ho|]. by split_and!.
Qed.

Section Operations.
Context `{Codec, DiffPatch, Crypto}.

Lemma solvent_apply_operation op : operation_validate op = Ok tt → respects (rows_step solvent) (apply_operation op).
Proof. intros Hval. apply af_apply_operation; [done|]. intros a p _. respects. Qed.
Lemma solvent_operations ops : (∀ op, op ∈ ops → operation_validate op = Ok tt) →
  respects (rows_step solvent) (for_each ops apply_operation).
Proof.
  induction ops as [|op ops IH]; intros Hval; cbn; [apply respects_ret; exact _|].
  apply respects_bind; [exact _|apply solvent_apply_operation, Hval; left|].
  intros _. apply IH. intros op' Hop. apply Hval. by right.
Qed.

(** C6: no transaction overdraws an account.  If in every account each of the nine
    balances is an amount of the asset of its field (liquid, savings and rewards in
    ZTR; the same in ZBD; vesting and reward shares in VESTS, and the ZTR behind the
    reward shares) that is not negative and fits 64 bits, then so it is after every
    transaction that is applied, whatever its operations and the amounts they
    name. *)
Theorem accounts_stay_solvent skip trx s u s' :
  skips skip skip_validate = false → all_rows solvent s → _apply_transaction skip trx s = Ok (u, s') →
  all_rows solvent s'.
Proof.
  intros Hskip Hs Hr. apply apply_transaction_run in Hr as [Hval Hr]. specialize (Hval Hskip).
  unfold transaction_validate in Hval. inv_ok.
  eapply solvent_operations in Hr; [apply Hr|by apply operations_validate_ok].
  unfold recorded. by destruct (skips _ skip_transaction_dupe_check).
Qed.
End Operations.

Lemma accounts_stay_solvent_witness :
  let _ := sample_codec in let _ := sample_patch in let _ := sample_crypto in
  let s' := run_state (_apply_transaction 0 (sample_transfer [ZATTERA_GENESIS_PUBLIC_KEY])) sample_genesis in
  acc_liquid_balance <$> row (Ref 1) s' = Some (mk_asset 1000 LIQUID_SYMBOL) ∧ all_rows solvent s'.
Proof.
  intros C D K s'. split; [vm_compute; reflexivity|].
  apply (accounts_stay_solvent (H := C) (H0 := D) (H1 := K) 0 (sample_transfer [ZATTERA_GENESIS_PUBLIC_KEY]) sample_genesis tt).
  - vm_compute. reflexivity.
  - unfold all_rows. apply (bool_decide_unpack _). vm_compute. exact I.
  - vm_compute. reflexivity.
Defined.
