(* ===== verification/BlockSupply.v ===== *)
(** * The books of a chain

    The conservation results of the evaluators and of the periodic steps, put
    together: [sound] is the invariant they need of a state, and applying a block
    ([database::_apply_block], src/src/core/chain/database.cpp) keeps it and
    settles the books, from the state [init_genesis] builds on. *)
From S2P Require Import Prelude Ints Config Asset Authority Headers Operations State Blocks Store Ledger Balances Vesting Conserve Frames Rows Drain EvalFunds Market EvalAccounts Proxy Reward EvalContent Evaluators Invariants Genesis BlockProc Withdrawals Expiry Payout Schedule Chain Loops AccountFrame Sound.

Record sound (s : database) : Prop := mk_sound {
  sound_typed : well_typed s;
  sound_vests : all_rows vests_ok s;
  sound_routes : all_rows route_ok s;
  sound_proxies : proxies_ok s
}.

(** How far a computation may move the books.  [d]: rewards too small to buy a
    share, which are counted twice ([Payout.drift]).  [e]: what the null account
    burns when the total is not positive (a conversion that wraps around), which
    is then not taken from the supply.  Dollars, vesting shares and votes never
    move. *)
Definition settled (s s' : database) : Prop :=
  ∃ d e, 0 ≤ e ∧ ∀ ch, gap ch s' = gap ch s + drift ch d + flow ch (mk_asset e LIQUID_SYMBOL).
Definition settles {A} (m : C A) : Prop :=
  ∀ s a s', sound s → m s = Ok (a, s') → sound s' ∧ settled s s'.

#[export] Instance settled_preorder : PreOrder settled.
Proof.
  split.
  - intros s. exists 0, 0. split; [done|]. intros ch. rewrite drift_0, flow_zero. lia.
  - intros s1 s2 s3 (d & e & He & H1) (d' & e' & He' & H2). exists (d + d'), (e + e'). split; [lia|].
    intros ch. rewrite H2, H1, drift_add, flow_add. lia.
Qed.
Lemma settled_same s s' : (∀ ch, gap ch s' = gap ch s) → settled s s'.
Proof.
  intros Hg. exists 0, 0. split; [done|]. intros ch. rewrite Hg, drift_0, flow_zero. lia.
Qed.

Lemma settles_bind {A B} (m : C A) (k : A → C B) :
  settles m → (∀ a, settles (k a)) → settles (bind m k).
Proof.
  intros Hm Hk s b s' Hs (a & s1 & H1 & H2)%bind_ok.
  apply Hm in H1 as [Hs1 Hg1]; [|done]. apply Hk in H2 as [Hs2 Hg2]; [|done]. split; [done|by etrans].
Qed.
Lemma settles_for_each {A} (l : list A) f : (∀ x, x ∈ l → settles (f x)) → settles (for_each l f).
Proof.
  induction l as [|x l IH]; intros Hf; cbn; [intros s u s' Hs Hr; inv_ok; by split|].
  apply settles_bind; [apply Hf; left|]. intros _. apply IH. intros y Hy. apply Hf. by right.
Qed.
(** Steps that keep each part. *)
Lemma settles_steady {A} (m : C A) : conserves m → respects (rows_step vests_ok) m → keeps_routes m →
  respects proxies_step m → settles m.
Proof.
  intros Hc Hv Hr Hp s a s' [H1 H2 H3 H4] H. destruct (Hc _ _ _ H1 H) as [Hwt Hg].
  split; [split; [done|by eapply Hv|by eapply Hr|by eapply Hp]|by apply settled_same].
Qed.

(** ** The steps of a block on the ledger *)

Lemma conserves_modify (f : database → database) :
  (∀ s, well_typed s → well_typed (f s)) → (∀ s ch, gap ch (f s) = gap ch s) → conserves (modify f).
Proof. intros Hw Hg s u s' Hwt H. inv_ok. auto. Qed.
Lemma conserves_modify_gpo f :
  (∀ g g', f g = Ok g' → symbol (gpo_total_vesting_shares g') = symbol (gpo_total_vesting_shares g) ∧
     ∀ ch, weigh ch g' = weigh ch g) → conserves (modify_gpo f).
Proof.
  intros Hf s u s' Hwt H. unfold modify_gpo, get_dynamic_global_properties in H. inv_ok.
  match goal with E : f _ = Ok _ |- _ => apply Hf in E as [Hs Hw] end. split.
  - destruct Hwt as [E ?]. split; [|done]. cbn. by rewrite Hs.
  - intros ch. unfold gap. cbn. by rewrite Hw.
Qed.

Create HintDb books.
#[export] Hint Resolve conserves_push_virtual : books.
Ltac block_step :=
  match goal with
  | |- conserves (modify_gpo _) =>
      apply conserves_modify_gpo; intros ? ? ?; repeat (inv_ok_step || case_match);
      solve [split; [reflexivity|intros []; reflexivity]]
  | |- conserves (modify _) => apply conserves_modify; [intros ? Hwt; exact Hwt|intros ? []; reflexivity]
  | |- conserves (modify_wso _) => apply conserves_modify; [intros ? Hwt; exact Hwt|intros ? []; reflexivity]
  | |- conserves (match ?x with _ => _ end _) => destruct x
  | |- conserves _ => solve [auto with books nocore]
  | |- conserves (let _ := _ in _) => cbv zeta
  | _ => conserve_step
  end.
Ltac block_steps := repeat block_step.

Lemma create_block_summary_conserves `{Crypto} b : conserves (create_block_summary b).
Proof. unfold create_block_summary. block_steps. Qed.
Lemma update_virtual_supply_conserves : conserves update_virtual_supply.
Proof. unfold update_virtual_supply. block_steps. Qed.
Lemma scheduled_witnesses_conserves w : conserves (scheduled_witnesses w).
Proof. unfold scheduled_witnesses. block_steps. Qed.
#[export] Hint Resolve scheduled_witnesses_conserves : books.
Lemma update_median_feed_conserves : conserves update_median_feed.
Proof. unfold update_median_feed. block_steps. Qed.
Lemma reset_virtual_schedule_time_conserves : conserves reset_virtual_schedule_time.
Proof. unfold reset_virtual_schedule_time. block_steps. Qed.
Lemma update_median_witness_props_conserves : conserves update_median_witness_props.
Proof. unfold update_median_witness_props. block_steps. Qed.
Lemma select_voted_conserves n : conserves (select_voted n).
Proof. unfold select_voted. block_steps. Qed.
Lemma select_runners_conserves sel act t : conserves (select_runners sel act t).
Proof. unfold select_runners. block_steps. Qed.
Lemma advance_virtual_conserves t l : conserves (advance_virtual t l).
Proof. induction l; cbn; block_steps. Qed.
Lemma tally_hardfork_votes_conserves n l : conserves (tally_hardfork_votes n l).
Proof. unfold tally_hardfork_votes. block_steps. Qed.
#[export] Hint Resolve reset_virtual_schedule_time_conserves update_median_witness_props_conserves select_voted_conserves
  select_runners_conserves advance_virtual_conserves tally_hardfork_votes_conserves : books.
Lemma update_witness_schedule_conserves : conserves update_witness_schedule.
Proof. unfold update_witness_schedule, update_witness_schedule4. block_steps. Qed.
Lemma process_hardforks_conserves : conserves process_hardforks.
Proof.
  cbv delta [process_hardforks]. generalize (S (Z.to_nat ZATTERA_NUM_HARDFORKS)). intros n. cbv zeta.
  induction n as [|n IH]; [apply conserves_throw|]. unfold apply_hardfork in *.
  repeat first [exact IH | block_step].
Qed.
Lemma conserves_modify_witness (r : ref witness_object) f :
  (∀ o, conserves (f o)) → conserves (modify_with r f).
Proof.
  intros Hf s u s' Hwt H. apply modify_with_gap in H as (o & o' & s1 & _ & H & -> & _).
  apply Hf in H as [Hwt1 Hg]; [|done]. split; [by apply wt_row|]. intros ch. rewrite <- Hg.
  unfold set_row. rewrite gap_set. pose proof (msum_weightless ch (<[ref_id r := o']> (rows (tbl s1)))).
  pose proof (msum_weightless ch (rows (tbl (A := witness_object) s1))).
  change (@weigh witness_object _ ch) with (@weightless witness_object ch). cbn in *. lia.
Qed.
Lemma update_global_dynamic_data_conserves `{Crypto} skip b : conserves (update_global_dynamic_data skip b).
Proof. unfold update_global_dynamic_data. repeat first [apply conserves_modify_witness | block_step]. Qed.
Lemma update_signing_witness_conserves w b : conserves (update_signing_witness w b).
Proof. unfold update_signing_witness. block_steps. Qed.
Lemma update_last_irreversible_block_conserves : conserves update_last_irreversible_block.
Proof. unfold update_last_irreversible_block. block_steps. Qed.
Lemma validate_block_header_conserves `{Crypto} skip b : conserves (validate_block_header skip b).
Proof. unfold validate_block_header. block_steps. Qed.
Lemma process_header_extension_conserves w e : conserves (process_header_extension w e).
Proof. unfold process_header_extension. block_steps. Qed.

(** *** What the null account burns *)

(** From [s] to [s'] the tokens between the totals [t] and [t'] left the books. *)
Definition burnt (t t' : asset) (s s' : database) : Prop :=
  (well_typed s → well_typed s') ∧ symbol t' = symbol t ∧
  ∀ ch, gap ch s' = gap ch s - (flow ch t' - flow ch t).

Lemma burnt_same t s : burnt t t s s.
Proof. split; [done|]. split; [done|]. intros ch. lia. Qed.
Lemma flow_add_ok ch a b c : asset_add a b = Ok c → flow ch c = flow ch a + flow ch b.
Proof. intros H. destruct ch as [c'| |]; cbn; [|done..]. by apply amt_add. Qed.
Lemma flow_neg_ok ch a b : asset_neg a = Ok b → flow ch b = - flow ch a.
Proof.
  intros H. destruct ch as [c| |]; cbn; [|done..]. apply asset_neg_ok in H as [Hs Ha].
  unfold amt. rewrite Hs, Ha. by case_match.
Qed.

Lemma burn_burnt a b w t s t' s' :
  (∀ d s u s', symbol d = symbol t → w d s = Ok (u, s') → bal_effect d s s') →
  burn a b w t s = Ok (t', s') → burnt t t' s s' ∧ statics s' = statics s ∧ amount t ≤ amount t'.
Proof.
  intros Hw H. unfold burn in H. apply bind_ok in H as (n & s1 & [_ ->]%load_ok & H).
  case_run; inv_ok; [|split_and!; [by apply burnt_same|done|lia]]. bool_prop.
  match goal with E : asset_add _ _ = _ |- _ => pose proof (asset_add_ok _ _ _ E) as (Hs1 & Hs2 & Hs4); rename E into Ha end.
  match goal with E : asset_neg _ = _ |- _ => pose proof (asset_neg_ok _ _ E) as [Hs3 _]; rename E into Hn end.
  match goal with E : w _ _ = _ |- _ => apply Hw in E as [Hf Hg]; [|congruence] end.
  split_and!; [|by apply Hf|lia]. split; [by apply wt_bal_frame|]. split; [congruence|]. intros ch.
  rewrite Hg, (flow_add_ok _ _ _ _ Ha), (flow_neg_ok _ _ _ Hn). lia.
Qed.

Lemma burn_vesting_burnt (a : ref account_object) t s t' s' :
  (∀ o, row a s = Some o → acc_proxy o = ZATTERA_PROXY_TO_SELF_ACCOUNT) →
  burn_vesting a t s = Ok (t', s') → burnt t t' s s'.
Proof.
  intros Hp H. unfold burn_vesting, get_dynamic_global_properties in H.
  apply bind_ok in H as (n & s1 & [Hr ->]%load_ok & H). specialize (Hp _ Hr).
  case_run; [|inv_ok; by apply burnt_same]. inv_store. subst. frame_rows.
  match goal with E : asset_add t _ = _ |- _ => pose proof (asset_add_ok _ _ _ E) as (Hs1 & Hs2 & _); rename E into Ht end.
  match goal with E : asset_mul_price _ _ = _ |- _ => clear E end.
  split; [eauto 20 with wt|]. split; [done|]. intros ch.
  rewrite (flow_add_ok _ _ _ _ Ht).
  repeat match goal with H : ∀ ch, gap ch ?s2 = _ |- context [gap ch ?s2] => rewrite (H ch) end.
  destruct ch as [c| |]; unfold flow; try amt_facts c; asset_facts; weigh_simpl;
    rewrite ?(amt_zero c (set_amount 0 _)), ?(bool_decide_eq_true_2 _ Hp) by done; lia.
Qed.

Lemma burn_reward_vesting_burnt (a : ref account_object) t s t' s' :
  burn_reward_vesting a t s = Ok (t', s') → burnt t t' s s'.
Proof.
  intros H. unfold burn_reward_vesting in H.
  apply bind_ok in H as (n & s1 & [Hr ->]%load_ok & H).
  case_run; [|inv_ok; by apply burnt_same]. inv_store. subst. frame_rows.
  match goal with E : asset_add t _ = _ |- _ => pose proof (asset_add_ok _ _ _ E) as (Hs1 & Hs2 & _); rename E into Ht end.
  split; [eauto 20 with wt|]. split; [done|]. intros ch.
  rewrite (flow_add_ok _ _ _ _ Ht).
  repeat match goal with H : ∀ ch, gap ch ?s2 = _ |- context [gap ch ?s2] => rewrite (H ch) end.
  destruct ch as [c| |]; unfold flow; try amt_facts c; asset_facts; weigh_simpl;
    rewrite ?(amt_zero c (set_amount 0 _)) by done; lia.
Qed.


(** In the middle of burning: [tl] tokens and [td] dollars are off the books. *)
Definition burning (s0 : database) (tl td : asset) (s : database) : Prop :=
  (well_typed s0 → well_typed s) ∧ symbol tl = LIQUID_SYMBOL ∧ symbol td = DOLLAR_SYMBOL ∧ 0 ≤ amount td ∧
  ∀ ch, gap ch s = gap ch s0 - flow ch tl - flow ch td.

Lemma burning_liquid s0 tl td s tl' s' : burning s0 tl td s → burnt tl tl' s s' → burning s0 tl' td s'.
Proof.
  intros (Hw & Hl & Hd & Hp & Hg) (Hw' & Hs & Hg'). split_and!; [auto|congruence|done..|].
  intros ch. rewrite Hg', Hg. lia.
Qed.
Lemma burning_dollars s0 tl td s td' s' : burning s0 tl td s → burnt td td' s s' → amount td ≤ amount td' →
  burning s0 tl td' s'.
Proof.
  intros (Hw & Hl & Hd & Hp & Hg) (Hw' & Hs & Hg') Hle. split_and!; [auto|done|congruence|lia|].
  intros ch. rewrite Hg', Hg. lia.
Qed.
(** The burnt amounts leave the supply, unless the total is not positive. *)
Lemma burning_done s0 tl td s u s1 u' s2 : burning s0 tl td s →
  when (amount tl >? 0) (let! n := asset_neg tl in adjust_supply n false) s = Ok (u, s1) →
  when (amount td >? 0) (let! n := asset_neg td in adjust_supply n false) s1 = Ok (u', s2) →
  (well_typed s0 → well_typed s2) ∧ settled s0 s2.
Proof.
  intros (Hw & Hl & Hd & Hp & Hg) H1 H2.
  assert (∀ t s u s', when (amount t >? 0) (let! n := asset_neg t in adjust_supply n false) s = Ok (u, s') →
    (well_typed s → well_typed s') ∧ ∀ ch, gap ch s' = gap ch s + if amount t >? 0 then flow ch t else 0) as Hsup.
  { intros t t1 v t2 H. unfold when in H. destruct (amount t >? 0); inv_ok; [|split; [done|intros; lia]].
    match goal with E : asset_neg _ = _ |- _ => rename E into Hn end.
    apply adjust_supply_effect in H as [Hf Hg']. split; [by apply wt_bal_frame|].
    intros ch. rewrite Hg', (flow_neg_ok _ _ _ Hn). lia. }
  apply Hsup in H1 as [Hw1 Hg1]. apply Hsup in H2 as [Hw2 Hg2]. split; [auto|].
  exists 0, (if amount tl >? 0 then 0 else - amount tl). split; [destruct (amount tl >? 0) eqn:E; bool_prop; lia|].
  intros ch. rewrite Hg2, Hg1, Hg, drift_0.
  assert (flow ch td = if amount td >? 0 then flow ch td else 0) as Htd.
  { destruct (amount td >? 0) eqn:E; [done|]. bool_prop. destruct td as [x sym]. cbn in *.
    replace x with 0 by lia. apply flow_zero. }
  assert (flow ch tl + flow ch (mk_asset (if amount tl >? 0 then 0 else - amount tl) LIQUID_SYMBOL)
    = if amount tl >? 0 then flow ch tl else 0) as Htl.
  { destruct tl as [x sym]. cbn in *. subst sym. destruct (x >? 0); [rewrite flow_zero; lia|].
    rewrite <- flow_add, Z.add_opp_diag_r. apply flow_zero. }
  lia.
Qed.

Lemma symbols_differ : LIQUID_SYMBOL ≠ VESTS_SYMBOL ∧ DOLLAR_SYMBOL ≠ VESTS_SYMBOL.
Proof. done. Qed.
Lemma burn_step_balance a t d s u s' : symbol t = LIQUID_SYMBOL ∨ symbol t = DOLLAR_SYMBOL → symbol d = symbol t →
  adjust_balance a d s = Ok (u, s') → bal_effect d s s'.
Proof. intros Ht Hd. apply adjust_balance_effect. destruct symbols_differ. destruct Ht; congruence. Qed.
Lemma burn_step_savings a (t d : asset) s u s' : symbol d = symbol t →
  adjust_savings_liquid_balance a d s = Ok (u, s') → bal_effect d s s'.
Proof. intros _. apply adjust_savings_effect. Qed.
Lemma burn_step_reward a (t d : asset) s u s' : symbol d = symbol t →
  adjust_reward_balance a d no_shares s = Ok (u, s') → bal_effect d s s'.
Proof. intros _ [Hf Hg]%adjust_reward_balance_effect. split; [done|]. intros ch. by rewrite Hg, reward_flow_no_shares. Qed.

Lemma clear_null_settled s u s' : proxies_ok s → clear_null_account_balance s = Ok (u, s') →
  (well_typed s → well_typed s') ∧ settled s s'.
Proof.
  intros (_ & _ & _ & Hnull) H. unfold clear_null_account_balance in H.
  apply bind_ok in H as (n & s0 & [-> Hn]%get_by_ok & H). cbv zeta in H.
  assert (burning s (mk_asset 0 LIQUID_SYMBOL) (mk_asset 0 DOLLAR_SYMBOL) s) as Hb.
  { split_and!; [done..|]. intros ch. rewrite !flow_zero. lia. }
  apply bind_ok in H as (t1 & s1 & [H1 [Hst1 _]]%burn_burnt & H); [|intros ? ? ? ?; by apply burn_step_balance; left].
  apply bind_ok in H as (t2 & s2 & [H2 [Hst2 _]]%burn_burnt & H); [|apply burn_step_savings].
  apply bind_ok in H as (t3 & s3 & (H3 & Hst3 & Hle3)%burn_burnt & H); [|intros ? ? ? ?; by apply burn_step_balance; right].
  apply bind_ok in H as (t4 & s4 & (H4 & Hst4 & Hle4)%burn_burnt & H); [|apply burn_step_savings].
  apply bind_ok in H as (t5 & s5 & H5%burn_vesting_burnt & H).
  2: { intros o Ho. apply (statics_row s) in Ho as (o0 & Ho0 & Hs); [|congruence].
    rewrite (static_proxy _ _ Hs). apply (find_account_row _ _ _ o0) in Hn; [|done].
    eapply (Hnull (ref_id n)). refine (eq_trans (links_row _ _ _ Ho0) _). unfold link. by rewrite Hn. }
  apply bind_ok in H as (t6 & s6 & [H6 _]%burn_burnt & H); [|apply burn_step_reward].
  apply bind_ok in H as (t7 & s7 & (H7 & _ & Hle7)%burn_burnt & H); [|apply burn_step_reward].
  apply bind_ok in H as (t8 & s8 & H8%burn_reward_vesting_burnt & H).
  apply bind_ok in H as (v & s9 & H9 & H).
  assert (burning s t8 t7 s8) as Hb8; [|by eapply burning_done].
  eapply burning_liquid; [|exact H8]. eapply burning_dollars; [|exact H7|done].
  eapply burning_liquid; [|exact H6]. eapply burning_liquid; [|exact H5].
  eapply burning_dollars; [|exact H4|done]. eapply burning_dollars; [|exact H3|done].
  eapply burning_liquid; [|exact H2]. by eapply burning_liquid.
Qed.
#[export] Hint Resolve create_block_summary_conserves update_virtual_supply_conserves update_median_feed_conserves
  update_witness_schedule_conserves process_hardforks_conserves update_global_dynamic_data_conserves
  update_signing_witness_conserves update_last_irreversible_block_conserves validate_block_header_conserves
  process_header_extension_conserves clear_expired_transactions_conserves clear_expired_orders_conserves
  clear_expired_delegations_conserves process_funds_conserves process_conversions_conserves
  process_savings_withdraws_conserves account_recovery_processing_conserves
  expire_escrow_ratification_conserves : books.

(** ** The end of a block *)

Section Close.
Context `{Crypto}.

(** A step whose ledger effect is known; the rest of [sound] by the frames. *)
Lemma settles_frame {A} (m : C A) :
  (∀ s a s', sound s → m s = Ok (a, s') → (well_typed s → well_typed s') ∧ settled s s') →
  respects (rows_step vests_ok) m → keeps_routes m → respects proxies_step m → settles m.
Proof.
  intros Hg Hv Hr Hp s a s' Hs Hm. destruct (Hg _ _ _ Hs Hm) as [Hwt Hset]. split; [|done].
  destruct Hs. split; [by apply Hwt|by eapply Hv|by eapply Hr|by eapply Hp].
Qed.

Lemma settles_process_comment_cashout : settles process_comment_cashout.
Proof.
  apply settles_frame; [|respects..]. intros s u s' [Hs _ _ _] Hr.
  apply process_comment_cashout_gap in Hr as [Hwt [d Hg]]; [|done]. split; [done|].
  exists d, 0. split; [done|]. intros ch. rewrite Hg, flow_zero. lia.
Qed.
Lemma settles_clear_null : settles clear_null_account_balance.
Proof. apply settles_frame; [|respects..]. intros s u s' [_ _ _ Hs] Hr. by eapply clear_null_settled. Qed.
Lemma settles_decline_voting itr : settles (decline_voting itr).
Proof.
  apply settles_frame; [|respects; apply rows_modify_row; rows_same|respects|apply proxies_decline_voting].
  intros s u s' [Hwt _ _ Hp] Hr. apply decline_voting_conserves in Hr as [Hwt' Hg]; [|intros; by apply proxies_proxy_ok|done].
  split; [done|]. by apply settled_same.
Qed.
Lemma settles_process_decline : settles process_decline_voting_rights.
Proof.
  intros s u s' Hs Hr. unfold process_decline_voting_rights, head_block_time in Hr. inv_ok.
  apply (drain_pres _ _ _ (fun s1 => sound s1 ∧ settled s s1)) in Hr; [done| |by split].
  intros r o s1 v s2 _ _ [Hs1 Hg1] Hd. apply settles_decline_voting in Hd as [? Hg2]; [|done].
  split; [done|by etrans].
Qed.
Lemma settles_withdrawals : settles process_vesting_withdrawals.
Proof.
  intros s u s' [Hwt Hv Hr Hp] Hrun.
  destruct (process_vesting_withdrawals_conserves s u s') as [(Hwt' & Hv' & Hr') Hg]; [by split_and!|done|].
  split; [split; [done..|by eapply proxies_process_withdrawals]|by apply settled_same].
Qed.

Lemma settles_close_block b : settles (close_block b).
Proof.
  unfold close_block.
  repeat (apply settles_bind; [|intros _]).
  all: first [apply settles_process_comment_cashout | apply settles_clear_null | apply settles_withdrawals
    | apply settles_process_decline | idtac].
  all: apply settles_steady; [auto with books|respects..].
Qed.
End Close.

(** ** Transactions *)

(** The null account never names a proxy: it has no key to sign with. *)
Definition null_is_silent (op : operation) : Prop :=
  ∀ p, op ≠ account_witness_proxy_operation ZATTERA_NULL_ACCOUNT p.

Section Transactions.
Context `{Codec, DiffPatch, Crypto}.

Lemma settles_apply_operation op : operation_validate op = Ok tt → null_is_silent op → settles (apply_operation op).
Proof.
  intros Hval Hnull. apply settles_frame.
  - intros s u s' [Hwt _ _ Hp] Hr.
    assert (op_pre op s) as Hpre by (destruct op; try exact I; by apply proxies_proxy_ok).
    apply apply_operation_gap in Hr as [Hwt' Hg]; [|done..].
    split; [done|]. by apply settled_same.
  - apply af_apply_operation; [done|]. intros a p ->. respects.
  - by apply routes_apply_operation.
  - apply af_apply_operation; [done|]. intros a p ->. apply proxies_account_witness_proxy.
    + intros ->. cbn in Hval. inv_ok. bool_prop. done.
    + intros ->. by eapply Hnull.
Qed.
Lemma settles_transaction skip trx : skips skip skip_validate = false →
  Forall null_is_silent (trx_operations trx) → settles (_apply_transaction skip trx).
Proof.
  intros Hskip Hnull s u s' Hs Hr. apply apply_transaction_run in Hr as [Hval Hr]. specialize (Hval Hskip).
  unfold transaction_validate in Hval. inv_ok.
  assert (sound (recorded skip trx s) ∧ settled s (recorded skip trx s)) as [Hs1 Hg1].
  { unfold recorded. destruct (skips _ skip_transaction_dupe_check); [done|].
    split; [|by apply settled_same]. destruct Hs. by split. }
  apply settles_for_each in Hr as [? Hg]; [|intros op Hop|done].
  - split; [done|by etrans].
  - apply settles_apply_operation; [by eapply operations_validate_ok|].
    rewrite list.Forall_forall in Hnull. by apply Hnull.
Qed.
End Transactions.

(** ** From genesis on *)

Lemma proxies_create o : acc_proxy o = ZATTERA_PROXY_TO_SELF_ACCOUNT → levels_ok o → respects proxies_step (create o).
Proof. intros Hp Hl s r s' Hc. by eapply proxies_open. Qed.
Lemma genesis_proxies n l d : respects proxies_step (init_genesis_with n l d).
Proof. unfold init_genesis_with. respects; by apply proxies_create. Qed.
Lemma genesis_vests n l d : respects (rows_step vests_ok) (init_genesis_with n l d).
Proof. unfold init_genesis_with. respects; by apply rows_create. Qed.
Lemma genesis_routes n l d : keeps_routes (init_genesis_with n l d).
Proof. unfold init_genesis_with. respects. Qed.

Lemma init_genesis_sound n l d s : init_genesis_with n l d empty_database = Ok (tt, s) → sound s ∧ balanced s.
Proof.
  intros Hi. destruct (init_genesis_ok n l d) as (s' & Hi' & Hwt & Hb). rewrite Hi in Hi'. inv_ok.
  split; [|done]. split; [done|..].
  - eapply genesis_vests; [exact Hi|]. intros i o [=].
  - eapply genesis_routes; [exact Hi|]. intros i o [=].
  - eapply genesis_proxies; [exact Hi|]. split_and!.
    + intros i o [=].
    + intros i j m [=].
    + intros i Hc. assert (∃ j, proxied (links empty_database) i j) as (j & n' & p & [=] & _) by (inversion Hc; eauto).
    + intros i p [=].
Qed.

Section Blocks.
Context `{Codec, DiffPatch, Crypto}.

Definition silent_block (b : signed_block) : Prop :=
  Forall (fun trx => Forall null_is_silent (trx_operations trx)) (blk_transactions b).

Lemma settles_apply_block skip b : skips skip skip_validate = false → silent_block b → settles (_apply_block skip b).
Proof.
  intros Hskip Hb. unfold _apply_block. apply settles_bind; [|intros _; apply settles_close_block].
  unfold open_block. repeat match goal with |- settles (bind _ _) => apply settles_bind; [|intros ?] end.
  11: { apply settles_for_each. intros trx Htrx. apply settles_transaction; [done|].
       unfold silent_block in Hb. rewrite list.Forall_forall in Hb. by apply Hb. }
  all: apply settles_steady; [unfold check_merkle_root; block_steps|respects..].
Qed.
Lemma settles_blocks skip blocks : skips skip skip_validate = false → Forall silent_block blocks →
  settles (for_each blocks (_apply_block skip)).
Proof.
  intros Hskip Hb. apply settles_for_each. intros b Hin. apply settles_apply_block; [done|].
  rewrite list.Forall_forall in Hb. by apply Hb.
Qed.

(** C1: the books of a whole chain.  From genesis with any initial supplies, and
    after any number of blocks that [_apply_block] accepts (transactions validated,
    and the null account, which has no key, silent about proxies), the state
    is sound; the recorded dollar supply and vesting shares are exactly what is
    held, and the votes of all accounts add up to the vesting shares.  The liquid
    supply and the pending rewards are off by [d], the rewards too small to buy a
    share, and the supply by a further [e] that is never negative: no token held is
    missing from the books without being accounted for here. *)
Theorem chain_keeps_books n liquid dollar skip blocks s0 s :
  init_genesis_with n liquid dollar empty_database = Ok (tt, s0) →
  skips skip skip_validate = false → Forall silent_block blocks →
  for_each blocks (_apply_block skip) s0 = Ok (tt, s) →
  sound s ∧ gap (Held DOLLAR_SYMBOL) s = 0 ∧ gap (Held VESTS_SYMBOL) s = 0 ∧ gap Vsf s = 0 ∧
  ∃ d e, 0 ≤ e ∧ gap (Held LIQUID_SYMBOL) s = d + e ∧ gap Pending_liquid s = - d.
Proof.
  intros Hi Hskip Hb Hr. apply init_genesis_sound in Hi as [Hs Hbal].
  destruct (settles_blocks _ _ Hskip Hb _ _ _ Hs Hr) as (Hs' & d & e & He & Hg). split; [done|].
  rewrite !Hg, !Hbal by (cbn; auto). unfold drift, flow, amt. cbn -[LIQUID_SYMBOL DOLLAR_SYMBOL VESTS_SYMBOL symbol].
  split_and!; [done..|]. exists d, e. split_and!; [done|..]; rewrite ?Hbal by (cbn; auto); cbn; lia.
Qed.
End Blocks.

(** Two blocks on genesis; the first carries a transfer. *)
Lemma chain_keeps_books_witness :
  let _ := sample_codec in let _ := sample_patch in let _ := sample_crypto in
  let s0 := run_state (init_genesis_with 3 1000000000 0) empty_database in
  let trx := sample_transfer [ZATTERA_GENESIS_PUBLIC_KEY] in
  let b1 := mk_signed_block null_id (ZATTERA_GENESIS_TIME + 3) "genesis" (calculate_merkle_root [trx]) []
              ZATTERA_GENESIS_PUBLIC_KEY [trx] in
  let b2 := mk_signed_block (block_id b1) (ZATTERA_GENESIS_TIME + 6) "genesis" null_checksum []
              ZATTERA_GENESIS_PUBLIC_KEY [] in
  let s := run_state (for_each [b1; b2] (_apply_block 0)) s0 in
  gpo_head_block_number (gpo s) = 2 ∧ acc_liquid_balance <$> row (Ref 1) s = Some (mk_asset 1000 LIQUID_SYMBOL) ∧
  sound s ∧ gap (Held DOLLAR_SYMBOL) s = 0.
Proof.
  intros C D K s0 trx b1 b2 s. split; [vm_compute; reflexivity|]. split; [vm_compute; reflexivity|].
  destruct (chain_keeps_books (H := C) (H0 := D) (H1 := K) 3 1000000000 0 0 [b1; b2] s0 s) as (Hs & Hd & _).
  - vm_compute. reflexivity.
  - vm_compute. reflexivity.
  - repeat constructor. intros p. discriminate.
  - vm_compute. reflexivity.
  - by split.
Defined.
