(* ===== verification/Heads.v ===== *)
(** * What a block leaves alone

    The head of the chain (the id, number and time of the head block, its slot and
    the last irreversible block) is written by [update_global_dynamic_data] and
    [update_last_irreversible_block] and by nothing else.  [keeps_head] is the
    frame property (Frames.v) of a computation that leaves it alone. *)
From S2P Require Import Prelude Ints Config Asset Authority Headers Operations State Blocks Store Ledger Balances Vesting Conserve Frames Drain EvalFunds Market EvalAccounts Proxy Reward EvalContent Evaluators Invariants Genesis BlockProc Withdrawals Expiry Payout Schedule Chain Loops.

(** The part of the dynamic global properties that describes the head block. *)
Record chain_head := mk_chain_head {
  head_id : block_id_type;
  head_num : Z;
  head_time : time;
  head_aslot : Z;
  head_irreversible : Z
}.
Definition gpo_head (g : dynamic_global_property_object) : chain_head :=
  mk_chain_head (gpo_head_block_id g) (gpo_head_block_number g) (gpo_time g)
    (gpo_current_aslot g) (gpo_last_irreversible_block_num g).
Definition head_of (s : database) : chain_head := gpo_head (gpo s).

Definition same_head (s s' : database) : Prop := head_of s' = head_of s.
#[export] Instance same_head_preorder : PreOrder same_head.
Proof. split; [done|]. unfold same_head. intros s1 s2 s3 E1 E2. congruence. Qed.
Notation keeps_head m := (respects same_head m).

(** No table stores the head. *)
#[export] Hint Extern 0 (Free same_head _) => (intros ??; reflexivity) : typeclass_instances.

(** A change of the global properties that leaves the head. *)
Lemma same_head_gpo s g : gpo_head g = gpo_head (gpo s) → same_head s (s <| gpo := g |>).
Proof. done. Qed.
#[export] Hint Extern 1 (∀ s g', _ → same_head s (s <| gpo := g' |>)) =>
  (intros; apply same_head_gpo; repeat (case_match || inv_ok_step); reflexivity) : respects.
#[export] Hint Extern 1 (∀ s, same_head s _) => (intros; reflexivity) : respects.

(** ** The functions of a block *)

Lemma keeps_adjust_supply d v : keeps_head (adjust_supply d v).
Proof. respects. Qed.
Lemma keeps_adjust_balance a d : keeps_head (adjust_balance a d).
Proof. respects. Qed.
Lemma keeps_adjust_reward_balance a v d : keeps_head (adjust_reward_balance a v d).
Proof. respects. Qed.
#[export] Hint Resolve keeps_adjust_supply keeps_adjust_balance keeps_adjust_reward_balance : respects.

Lemma keeps_create_vesting a x r : keeps_head (create_vesting a x r).
Proof. respects. Qed.
#[export] Hint Resolve keeps_create_vesting : respects.
Lemma keeps_clear_null_account_balance : keeps_head clear_null_account_balance.
Proof. respects. Qed.
Lemma keeps_process_funds : keeps_head process_funds.
Proof. respects. Qed.
Lemma keeps_cashout_comment_helper ctx r b : keeps_head (cashout_comment_helper ctx r b).
Proof. respects. Qed.
#[export] Hint Resolve keeps_cashout_comment_helper
  keeps_clear_null_account_balance keeps_process_funds : respects.
Lemma keeps_withdraw_from r : keeps_head (withdraw_from r).
Proof. respects. Qed.
#[export] Hint Resolve keeps_withdraw_from : respects.
Lemma keeps_process_vesting_withdrawals : keeps_head process_vesting_withdrawals.
Proof. respects. Qed.
#[export] Hint Resolve keeps_process_vesting_withdrawals : respects.
Lemma keeps_update_witness_schedule : keeps_head update_witness_schedule.
Proof. respects. Qed.
#[export] Hint Resolve keeps_update_witness_schedule : respects.

Section Block.
Context `{Codec, DiffPatch, Crypto}.

Lemma keeps_process_comment_cashout : keeps_head process_comment_cashout.
Proof. respects. Qed.
Lemma keeps_update_median_feed : keeps_head update_median_feed.
Proof. respects. Qed.
Lemma keeps_update_virtual_supply : keeps_head update_virtual_supply.
Proof. respects. Qed.

(** From here to the end of a block the head stays. *)
Lemma keeps_close_block b : keeps_head (close_block b).
Proof.
  pose proof keeps_process_comment_cashout.
  pose proof keeps_update_median_feed. pose proof keeps_update_virtual_supply.
  unfold close_block. respects.
Qed.

(** ** Transactions *)

Lemma keeps_apply_operation op : keeps_head (apply_operation op).
Proof. destruct op; cbn [apply_operation]; respects.
Qed.
#[local] Hint Resolve keeps_apply_operation : respects.
Lemma keeps_verify_transaction trx : keeps_head (verify_transaction trx).
Proof.
  intros s a s' Hv. unfold verify_transaction in Hv.
  destruct (transaction_authority trx s); [by inv_ok|]. case_match; by inv_ok.
Qed.
#[local] Hint Resolve keeps_verify_transaction : respects.
Lemma keeps_apply_transaction skip trx : keeps_head (_apply_transaction skip trx).
Proof. respects. Qed.
#[local] Hint Resolve keeps_apply_transaction keeps_close_block : respects.

(** ** The head moves one block at a time *)

Lemma bind_keeps {A B} (m : C A) (k : A → C B) s b s' :
  keeps_head m → bind m k s = Ok (b, s') → ∃ a s1, head_of s1 = head_of s ∧ k a s1 = Ok (b, s').
Proof. intros Hm (a & s1 & E1 & E2)%bind_ok. exists a, s1. split; [by eapply Hm|done]. Qed.

Lemma irreversible_head u s s' : update_last_irreversible_block s = Ok (u, s') →
  ∃ n, head_of s' = mk_chain_head (head_id (head_of s)) (head_num (head_of s)) (head_time (head_of s))
                      (head_aslot (head_of s)) n.
Proof.
  unfold update_last_irreversible_block, get_dynamic_global_properties, get_witness_schedule_object.
  intros Hr. inv_ok. destruct (_ <? _).
  - unfold modify_gpo, get_dynamic_global_properties in Hr. inv_ok.
    destruct (_ >? _); eexists; reflexivity.
  - inv_ok. match goal with E : scheduled_witnesses _ _ = _ |- _ =>
      pose proof (scheduled_witnesses_pure _ _ _ _ E) as -> end.
    unfold when in Hr. destruct (_ >? _); inv_ok; [|eexists; reflexivity].
    unfold modify_gpo, get_dynamic_global_properties in Hr. inv_ok. eexists; reflexivity.
Qed.

Lemma update_global_dynamic_data_head skip b u s s' :
  update_global_dynamic_data skip b s = Ok (u, s') →
  head_id (head_of s') = block_id b ∧ head_num (head_of s') = block_num b ∧
  head_time (head_of s') = blk_timestamp b ∧
  head_irreversible (head_of s') = head_irreversible (head_of s).
Proof.
  unfold update_global_dynamic_data. intros Hr.
  apply bind_keeps in Hr as (g & s1 & E1 & Hr); [|respects].
  apply bind_keeps in Hr as ([] & s2 & E2 & Hr); [|respects].
  apply bind_ok in Hr as ([] & s3 & E3 & Hr).
  apply bind_keeps in Hr as (g' & s4 & E4 & Hr); [|respects].
  assert (head_of s' = head_of s4) as -> by (eapply (respects_when same_head), Hr; respects).
  rewrite E4, <- E1, <- E2. unfold modify_gpo, get_dynamic_global_properties in E3. inv_ok.
  destruct (slots_update _ _). inv_ok. done.
Qed.

Lemma validate_block_header_links skip b w s s' : validate_block_header skip b s = Ok (w, s') →
  head_id (head_of s) = blk_previous b ∧ head_time (head_of s) < blk_timestamp b ∧
  head_of s' = head_of s.
Proof.
  intros Hr. assert (keeps_head (validate_block_header skip b)) as Hk by respects.
  apply Hk in Hr as Hh. clear Hk.
  unfold validate_block_header, get_dynamic_global_properties in Hr. inv_ok. bool_prop. done.
Qed.

Lemma open_block_links skip b u s s' : open_block skip b s = Ok (u, s') → head_id (head_of s) = blk_previous b.
Proof.
  unfold open_block. intros Ho. apply bind_keeps in Ho as ([] & s0 & <- & Ho); [|respects].
  by apply bind_ok in Ho as (wit & s1 & (-> & _ & _)%validate_block_header_links & _).
Qed.
Lemma apply_block_head skip b u s s' :
  _apply_block skip b s = Ok (u, s') →
  head_id (head_of s) = blk_previous b ∧ head_time (head_of s) < blk_timestamp b ∧
  head_id (head_of s') = block_id b ∧ head_num (head_of s') = block_num b ∧
  head_time (head_of s') = blk_timestamp b.
Proof.
  unfold _apply_block. intros ([] & s2 & Ho & Hc)%bind_ok.
  rewrite (keeps_close_block b _ _ _ Hc). clear Hc. unfold open_block in Ho.
  apply bind_keeps in Ho as ([] & s0 & <- & Ho); [|respects].
  apply bind_ok in Ho as (wit & s1 & (-> & Ht & E1)%validate_block_header_links & Ho).
  split; [done|]. split; [done|].
  apply bind_keeps in Ho as (g & s3 & _ & Ho); [|respects].
  do 8 (apply bind_keeps in Ho as (? & ? & _ & Ho); [|respects]).
  apply bind_ok in Ho as ([] & s4 & E4%update_global_dynamic_data_head & Ho).
  apply bind_keeps in Ho as (? & s5 & E5 & Ho); [|respects].
  apply irreversible_head in Ho as [n ->]. rewrite E5. cbn. tauto.
Qed.

(** C14: a block extends the chain by exactly itself: it is applied only on the
    block it names as its predecessor and only with a later time stamp, and then
    the head of the chain is this block, with its id, number and time.  Nothing
    in the operations or in the periodic processing moves the head again. *)
Theorem block_becomes_head skip b u s s' :
  _apply_block skip b s = Ok (u, s') →
  head_id (head_of s) = blk_previous b ∧ head_time (head_of s) < blk_timestamp b ∧
  head_id (head_of s') = block_id b ∧ head_num (head_of s') = block_num b ∧
  head_time (head_of s') = blk_timestamp b.
Proof. apply apply_block_head. Qed.
End Block.

Lemma block_becomes_head_witness :
  let _ := sample_codec in let _ := sample_patch in let _ := sample_crypto in
  let s := add_row (mk_block_summary_object null_id) sample_genesis in
  let b := mk_signed_block null_id (ZATTERA_GENESIS_TIME + 3) "genesis" null_checksum []
             ZATTERA_GENESIS_PUBLIC_KEY [] in
  _apply_block 0 b s = Ok (tt, run_state (_apply_block 0 b) s) ∧
  head_num (head_of (run_state (_apply_block 0 b) s)) = 1.
Proof.
  intros C D K s b.
  assert (_apply_block 0 b s = Ok (tt, run_state (_apply_block 0 b) s)) as E by (vm_compute; reflexivity).
  split; [exact E|]. destruct (block_becomes_head (H := C) (H0 := D) (H1 := K) 0 b tt s _ E) as (_ & _ & _ & -> & _).
  vm_compute. reflexivity.
Defined.
