(* ===== verification/Termination.v ===== *)
(** * The end of a block always ends

    The loops of the periodic processing take the first due row of an index until
    none is due.  In the model they carry fuel, and running out of it would be the
    exception [out_of_fuel]; here no step of [close_block] ever raises it: a round
    takes its row out, puts it off or ends it, and the fuel is a bound of the
    rounds.  [ends] is the property, [ends_step] its rules. *)
From S2P Require Import Prelude Ints Config Asset Authority Headers Operations State Blocks Store Ledger Balances Vesting Conserve Frames Rows Drain EvalFunds Market EvalAccounts Proxy Reward EvalContent Invariants Genesis BlockProc Withdrawals Expiry Payout Schedule Chain Loops AccountFrame Sound Heads BlockSupply.

(** ** Computations that never run out of fuel *)

Definition ends_res {A} (r : res A) : Prop := r ≠ Throw out_of_fuel.
Definition ends {A} (m : C A) : Prop := ∀ s, m s ≠ Throw out_of_fuel.

Lemma ends_res_bind {A B} (r : res A) (k : A → res B) : ends_res r → (∀ a, ends_res (k a)) → ends_res (res_bind r k).
Proof. unfold ends_res. destruct r as [a|e]; cbn; [done|congruence]. Qed.
Lemma ends_res_fold {A B} (f : B → A → res B) b l : (∀ b a, ends_res (f b a)) → ends_res (res_fold f b l).
Proof. intros Hf. revert b. induction l; intros b; cbn; [done|]. by apply ends_res_bind. Qed.
Lemma ends_res_assert c msg : ends_res (res_assert c msg).
Proof. by destruct c. Qed.
Lemma ends_of_option {A} (o : option A) e : e ≠ out_of_fuel → ends_res (of_option o e).
Proof. unfold ends_res. destruct o; cbn; congruence. Qed.

Lemma ends_bind {A B} (m : C A) (k : A → C B) : ends m → (∀ a, ends (k a)) → ends (bind m k).
Proof.
  unfold ends, bind. intros Hm Hk s. specialize (Hm s). destruct (m s) as [[a s1]|e]; [apply Hk|congruence].
Qed.
Lemma ends_lift {A} (r : res A) : ends_res r → ends (lift r).
Proof. unfold ends, ends_res, lift. intros Hr s. destruct r; congruence. Qed.
Lemma ends_for_each {A} (l : list A) f : (∀ x, ends (f x)) → ends (for_each l f).
Proof. intros Hf. induction l; cbn; [done|]. by apply ends_bind. Qed.
Lemma ends_fold_m {A B} (f : B → A → C B) b l : (∀ b x, ends (f b x)) → ends (fold_m f b l).
Proof. intros Hf. revert b. induction l; intros b; cbn; [done|]. by apply ends_bind. Qed.

Section Rows.
Context {A : Type} `{Table A}.
Implicit Types r : ref A.
Lemma ends_load r : ends (load r).
Proof. intros s. unfold load. by case_match. Qed.
Lemma ends_get_by p : ends (get_by (A := A) p).
Proof. apply ends_bind; [done|]. intros o. apply ends_lift, ends_of_option. done. Qed.
Lemma ends_create (o : A) : ends (create o).
Proof. intros s. unfold create. by case_match. Qed.
Lemma ends_modify_with r f : (∀ o, ends (f o)) → ends (modify_with r f).
Proof.
  intros Hf. apply ends_bind; [apply ends_load|]. intros o. apply ends_bind; [apply Hf|]. intros o'.
  apply ends_bind; [done|]. intros l. by case_match.
Qed.
Lemma ends_modify_res r f : (∀ o, ends_res (f o)) → ends (modify_res r f).
Proof. intros Hf. apply ends_modify_with. intros o. by apply ends_lift. Qed.
Lemma ends_modify_row r f : ends (modify_row r f).
Proof. by apply ends_modify_with. Qed.
Lemma ends_remove r : ends (remove r).
Proof. apply ends_bind; [apply ends_load|done]. Qed.
End Rows.

Create HintDb ends.
Ltac ends_step :=
  lazymatch goal with
  | |- forall _, _ => intro
  | |- ends_res (res_bind _ _) => apply ends_res_bind
  | |- ends_res (Ok _) => discriminate
  | |- ends_res (Throw _) => discriminate
  | |- ends_res (res_assert _ _) => apply ends_res_assert
  | |- ends_res (of_option _ _) => apply ends_of_option; discriminate
  | |- ends_res (res_fold _ _ _) => apply ends_res_fold
  | |- ends_res (match ?x with _ => _ end) => destruct x
  | |- ends_res ?m => let m' := eval red in m in change (ends_res m')
  | |- ends (bind _ _) => apply ends_bind
  | |- ends (ret _) => discriminate
  | |- ends (gets _) => discriminate
  | |- ends get => discriminate
  | |- ends (modify _) => discriminate
  | |- ends (throw _) => discriminate
  | |- ends (lift _) => apply ends_lift
  | |- ends (fc_assert _ _) => apply ends_lift, ends_res_assert
  | |- ends (when ?c _) => destruct c; [cbn [when]|discriminate]
  | |- ends (for_each _ _) => apply ends_for_each
  | |- ends (fold_m _ _ _) => apply ends_fold_m
  | |- ends (load _) => apply ends_load
  | |- ends (find_by _) => discriminate
  | |- ends (get_by _) => apply ends_get_by
  | |- ends (create _) => apply ends_create
  | |- ends (modify_with _ _) => apply ends_modify_with
  | |- ends (modify_res _ _) => apply ends_modify_res
  | |- ends (modify_row _ _) => apply ends_modify_row
  | |- ends (remove _) => apply ends_remove
  | |- ends (match ?x with _ => _ end) => destruct x
  | |- ends (match ?x with _ => _ end _) => destruct x
  | |- ends (let _ := _ in _) => cbv zeta
  | |- ends ?m => first [solve [auto with ends nocore] | let m' := eval red in m in change (ends m')]
  end.
Ltac ends := repeat ends_step.

(** ** Functions *)

Lemma ends_adjust_proxied n a d : ends (adjust_proxied_from n a d).
Proof. revert a. induction n; intros a; cbn -[ZATTERA_MAX_PROXY_RECURSION_DEPTH]; ends. Qed.
Lemma ends_adjust_array n a d : ends (adjust_proxied_array_from n a d).
Proof. revert a. induction n; intros a; cbn -[ZATTERA_MAX_PROXY_RECURSION_DEPTH take seq rev]; ends. Qed.
Lemma ends_adjust_proxied_votes a d : ends (adjust_proxied_witness_votes a d).
Proof. apply ends_adjust_proxied. Qed.
Lemma ends_adjust_proxied_array a d : ends (adjust_proxied_witness_votes_array a d).
Proof. apply ends_adjust_array. Qed.
#[export] Hint Resolve ends_adjust_proxied_votes ends_adjust_proxied_array : ends.
Lemma ends_modify_balance a d c : ends (modify_balance a d c).
Proof. ends. Qed.
Lemma ends_savings a d : ends (adjust_savings_liquid_balance a d).
Proof. ends. Qed.
Lemma ends_modify_reward a v d c : ends (modify_reward_balance a v d c).
Proof. ends. Qed.
Lemma ends_asset_mul_price a p : ends_res (asset_mul_price a p).
Proof. ends. Qed.
Lemma ends_create_vesting a x r : ends (create_vesting a x r).
Proof. ends. Qed.
Lemma ends_create_dollar a x r : ends (create_dollar a x r).
Proof. ends. Qed.
#[export] Hint Resolve ends_modify_balance ends_savings ends_modify_reward ends_create_vesting ends_create_dollar : ends.

Lemma ends_create_block_summary `{Crypto} b : ends (create_block_summary b).
Proof. ends. Qed.
Lemma ends_advance_virtual t l : ends (advance_virtual t l).
Proof. induction l; cbn; ends. Qed.
#[export] Hint Resolve ends_advance_virtual : ends.
Lemma ends_update_witness_schedule : ends update_witness_schedule.
Proof. ends. Qed.
Lemma ends_update_median_feed : ends update_median_feed.
Proof. ends. Qed.
Lemma ends_update_virtual_supply : ends update_virtual_supply.
Proof. ends. Qed.
Lemma ends_clear_null : ends clear_null_account_balance.
Proof. ends. Qed.
Lemma ends_process_funds : ends process_funds.
Proof. ends. Qed.
Lemma ends_decline_voting r : ends (decline_voting r).
Proof. ends. Qed.
Lemma ends_cashout_comment_helper ctx r b : ends (cashout_comment_helper ctx r b).
Proof. ends. Qed.
Lemma ends_withdraw_from r : ends (withdraw_from r).
Proof. ends. Qed.
#[export] Hint Resolve ends_decline_voting ends_cashout_comment_helper ends_withdraw_from ends_create_block_summary
  ends_update_witness_schedule ends_update_median_feed ends_update_virtual_supply ends_clear_null ends_process_funds : ends.

(** ** Loops that take their row out *)

Section Removing.
Context {A : Type} `{Counted A}.
Definition removes {B} (r : ref A) (m : C B) : Prop :=
  ∀ s b s', m s = Ok (b, s') → rows (tbl s') ⊆ delete (ref_id r) (rows (tbl s)).

Lemma removes_bind {B B'} r (m : C B) (k : B → C B') :
  respects (same_rows A) m → (∀ a, removes r (k a)) → removes r (bind m k).
Proof.
  intros Hm Hk s b s' (a & s1 & Hr1 & Hr2)%bind_ok. apply Hm in Hr1. apply Hk in Hr2.
  unfold same_rows in Hr1. by rewrite Hr1 in Hr2.
Qed.
Lemma removes_remove r : removes r (remove r).
Proof. intros s u s' (o & -> & _ & _)%remove_gap. unfold delete_row. by rewrite tbl_set. Qed.

(** A loop that removes its row in every round needs one round more than there
    are rows. *)
Lemma ends_drain key due (f : ref A → C unit) : (∀ r, removes r (f r)) → (∀ r, ends (f r)) → ends (drain key due f).
Proof. intros Hr Hf s. apply drain_terminates; [|by intros r s1; apply Hf]. intros r o s1 u s2 _ _ Hs. by eapply Hr. Qed.
End Removing.

Ltac removes_row :=
  intros; repeat match goal with |- removes _ (bind _ _) => apply removes_bind; [respects|intros] end;
  try match goal with |- removes _ (decline_voting _) => unfold decline_voting; removes_row
               | |- removes _ (cancel_order _) => unfold cancel_order; removes_row end;
  apply removes_remove.
Ltac ends_drains :=
  repeat lazymatch goal with |- ends (drain _ _ _) => apply ends_drain; [removes_row|] | |- _ => ends_step end.

Lemma ends_process_savings : ends process_savings_withdraws.
Proof. ends_drains. Qed.
Lemma ends_clear_expired_transactions : ends clear_expired_transactions.
Proof. ends_drains. Qed.
Lemma ends_clear_expired_orders : ends clear_expired_orders.
Proof. ends_drains. Qed.
Lemma ends_clear_expired_delegations : ends clear_expired_delegations.
Proof. ends_drains. Qed.
Lemma ends_account_recovery : ends account_recovery_processing.
Proof. ends_drains. Qed.
Lemma ends_expire_escrow : ends expire_escrow_ratification.
Proof. ends_drains. Qed.
Lemma ends_process_decline : ends process_decline_voting_rights.
Proof. ends_drains. Qed.

(** ** Loops with a measure *)

(** One computation after the other, from a given state. *)
Lemma ends_at {A B} (m : C A) (k : A → C B) s : ends m →
  (∀ a s1, m s = Ok (a, s1) → k a s1 ≠ Throw out_of_fuel) → bind m k s ≠ Throw out_of_fuel.
Proof.
  unfold bind. intros Hm Hk. specialize (Hm s). destruct (m s) as [[a s1]|e]; [by apply Hk|congruence].
Qed.
Lemma ends_first {A B} (m : C A) (k : A → C B) s : m s ≠ Throw out_of_fuel → (∀ a, ends (k a)) →
  bind m k s ≠ Throw out_of_fuel.
Proof. unfold bind. intros Hm Hk. destruct (m s) as [[a s1]|e]; [apply Hk|congruence]. Qed.
Ltac end_step a s1 E := apply ends_at; [ends|intros a s1 E].

(** [E] says that a computation went from the current state to [s1]. *)
Ltac unchanged E s1 :=
  match type of E with ?m ?s = _ =>
    match goal with |- ?R s _ =>
      trans s1; [let Hm := fresh in assert (respects R m) as Hm by respects; exact (Hm _ _ _ E)|] end end.

(** *** Conversions *)

Lemma ends_convert_due n now p net s :
  (size (rows (convert_request_index s)) < n)%nat → convert_due n now p net s ≠ Throw out_of_fuel.
Proof.
  revert net s. induction n as [|n IH]; intros net s Hn; [lia|]. cbn [convert_due].
  end_step r s0 Hb. apply index_begin_spec in Hb as [-> _]. destruct r as [r|]; [|discriminate].
  end_step o s0 Ho. apply load_ok in Ho as [Ho ->]. destruct (_ <=? now); [|discriminate].
  end_step x1 s1 E1. end_step x2 s2 E2. end_step x3 s3 E3. end_step x4 s4 E4. end_step x5 s5 E5. end_step x6 s6 E6.
  apply IH.
  assert (same_rows convert_request_object s s5) as Hs.
  { unchanged E1 s1. unchanged E2 s2. unchanged E3 s3. unchanged E4 s4. unchanged E5 s5. reflexivity. }
  apply remove_gap in E6 as (o' & -> & Ho' & _). unfold row, same_rows in *. cbn in *.
  rewrite map_size_delete_Some by done. rewrite Hs.
  assert (size (rows (convert_request_index s)) ≠ 0)%nat; [|lia].
  intros Hz%map_size_empty_inv. by rewrite Hz in Ho.
Qed.

(** *** Payouts *)

Definition cashouts (s : database) : gmap Z Z := com_cashout_time <$> rows (comment_index s).
Definition same_cashouts (s s' : database) : Prop := cashouts s' = cashouts s.
#[export] Instance same_cashouts_preorder : PreOrder same_cashouts.
Proof. split; [intros s; reflexivity|]. unfold same_cashouts. intros s1 s2 s3 H1 H2. congruence. Qed.
#[export] Instance same_cashouts_free {A} `{Table A} `{!Free (same_rows comment_object) A} : Free same_cashouts A.
Proof.
  intros t s. unfold same_cashouts, cashouts. pose proof (free_tbl (R := same_rows comment_object) t s) as E.
  unfold same_rows in E. cbn in E. by rewrite E.
Qed.
Lemma cashouts_set (r : ref comment_object) o s :
  cashouts (set_row r o s) = <[ref_id r := com_cashout_time o]> (cashouts s).
Proof. unfold cashouts. cbn. by rewrite fmap_insert. Qed.
Lemma cashouts_row (r : ref comment_object) o s : row r s = Some o → cashouts s !! ref_id r = Some (com_cashout_time o).
Proof. unfold cashouts, row. cbn. intros Hr. by rewrite lookup_fmap, Hr. Qed.
Lemma same_cashouts_set (r : ref comment_object) s o o' : row r s = Some o →
  com_cashout_time o' = com_cashout_time o → same_cashouts s (set_row r o' s).
Proof. intros Hr Hl. unfold same_cashouts. rewrite cashouts_set, Hl. by apply insert_id, cashouts_row. Qed.
#[export] Hint Extern 2 (respects same_cashouts (modify_row _ _)) =>
  (apply respects_modify_row; [exact _|]; intros; eapply same_cashouts_set; [eassumption|reflexivity]) : respects.
#[export] Hint Extern 2 (respects same_cashouts (modify_res _ _)) =>
  (apply respects_modify_res; [exact _|]; intros; inv_ok; eapply same_cashouts_set; [eassumption|reflexivity]) : respects.
#[export] Hint Extern 1 (∀ s g', _ → same_cashouts s (s <| gpo := g' |>)) => (intros; reflexivity) : respects.
#[export] Hint Extern 1 (∀ s, same_cashouts s _) => (intros ?; reflexivity) : respects.

Lemma pay_reward_cashouts r t b : respects same_cashouts (pay_reward r t b).
Proof. respects. Qed.
#[export] Hint Resolve pay_reward_cashouts : respects.
Lemma cashout_helper_puts_off ctx r b s v s' : cashout_comment_helper ctx r b s = Ok (v, s') →
  cashouts s' = <[ref_id r := time_maximum]> (cashouts s).
Proof.
  intros H. unfold cashout_comment_helper in H.
  apply (respects_then same_cashouts) in H as (c & s1 & _ & E1 & H); [|respects].
  apply (respects_then same_cashouts) in H as (x & s2 & _ & E2 & H); [|respects].
  apply (respects_then same_cashouts) in H as (now & s3 & _ & E3 & H); [|respects].
  apply bind_ok in H as ([] & s4 & Hm & H).
  assert (same_cashouts s4 s') as E4.
  { match type of H with ?m _ = _ => assert (respects same_cashouts m) as Hk by respects end. exact (Hk _ _ _ H). }
  apply modify_row_gap in Hm as (o & -> & _ & _). rewrite E4, cashouts_set.
  assert (com_cashout_time (paid_out now o) = time_maximum) as -> by (unfold paid_out; by case_match).
  unfold same_cashouts in *. congruence.
Qed.

(** The comments still to be paid. *)
Definition due_by (now : time) (q : Z * Z) : Prop := q.2 ≤ now.
#[export] Instance due_by_dec now q : Decision (due_by now q).
Proof. unfold due_by. apply _. Defined.
Definition cashouts_due (now : time) (s : database) : nat := size (filter (due_by now) (cashouts s)).

Lemma put_off_due (now : time) (m : gmap Z Z) i t x : m !! i = Some t → t ≤ now → now < x →
  (S (size (filter (due_by now) (<[i := x]> m))) = size (filter (due_by now) m))%nat.
Proof.
  intros Hi Ht Hx. rewrite map_filter_insert_False by (unfold due_by; cbn; lia). rewrite map_filter_delete.
  assert (filter (due_by now) m !! i = Some t) as Hf by by apply map_lookup_filter_Some.
  rewrite map_size_delete_Some by by eexists.
  assert (size (filter (due_by now) m) ≠ 0)%nat; [|lia].
  intros Hz%map_size_empty_inv. by rewrite Hz in Hf.
Qed.

Lemma ends_cashout_due n now p funds s : now < time_maximum →
  (cashouts_due now s < n)%nat → cashout_due n now p funds s ≠ Throw out_of_fuel.
Proof.
  intros Hnow. revert funds s. induction n as [|n IH]; intros funds s Hn; [lia|]. cbn [cashout_due].
  end_step r s0 Hb. apply index_begin_spec in Hb as [-> _]. destruct r as [r|]; [|discriminate].
  end_step c s0 Hc. apply load_ok in Hc as [Hc ->]. destruct (_ <=? now) eqn:Hdue; [|discriminate]. bool_prop.
  end_step x1 s1 E1. end_step x2 s2 E2. cbv zeta. end_step x3 s3 E3. end_step x4 s4 E4. apply IH.
  assert (same_cashouts s s2) as H2 by (unchanged E1 s1; unchanged E2 s2; reflexivity).
  apply cashout_helper_puts_off in E3. apply lift_ok in E4 as [_ ->].
  unfold cashouts_due, same_cashouts in *. rewrite E3, H2.
  pose proof (put_off_due now (cashouts s) (ref_id r) _ time_maximum (cashouts_row _ _ _ Hc) Hdue Hnow). lia.
Qed.
Lemma cashouts_due_size now s : (cashouts_due now s ≤ size (rows (comment_index s)))%nat.
Proof.
  unfold cashouts_due, cashouts. rewrite <- (map_size_fmap com_cashout_time (rows (comment_index s))).
  apply map_subseteq_size, map_filter_subseteq.
Qed.
Lemma ends_process_comment_cashout s : gpo_time (gpo s) < time_maximum →
  process_comment_cashout s ≠ Throw out_of_fuel.
Proof.
  intros Hnow. unfold process_comment_cashout.
  end_step fh s0 E0. end_step now s1 E1. end_step f1 s2 E2. end_step f2 s3 E3. end_step n s4 E4.
  apply gets_ok in E0 as [-> ->]. apply gets_ok in E1 as [-> ->]. apply gets_ok in E4 as [-> ->].
  apply ends_first; [|intros; ends]. apply ends_cashout_due; [done|].
  pose proof (cashouts_due_size (gpo_time (gpo s)) s3). cbn in *. lia.
Qed.

(** *** Vesting withdrawals *)

(** When each account withdraws next. *)
Definition withdrawals (s : database) : gmap Z Z := acc_next_vesting_withdrawal <$> rows (account_index s).
Definition same_withdrawals (s s' : database) : Prop := withdrawals s' = withdrawals s.
#[export] Instance same_withdrawals_preorder : PreOrder same_withdrawals.
Proof. split; [intros s; reflexivity|]. unfold same_withdrawals. intros s1 s2 s3 H1 H2. congruence. Qed.
#[export] Instance same_withdrawals_free {A} `{Table A} `{!Free (same_rows account_object) A} : Free same_withdrawals A.
Proof.
  intros t s. unfold same_withdrawals, withdrawals. pose proof (free_tbl (R := same_rows account_object) t s) as E.
  unfold same_rows in E. cbn in E. by rewrite E.
Qed.
Lemma withdrawals_set (r : ref account_object) o s :
  withdrawals (set_row r o s) = <[ref_id r := acc_next_vesting_withdrawal o]> (withdrawals s).
Proof. unfold withdrawals. cbn. by rewrite fmap_insert. Qed.
Lemma withdrawals_row (r : ref account_object) o s :
  row r s = Some o → withdrawals s !! ref_id r = Some (acc_next_vesting_withdrawal o).
Proof. unfold withdrawals, row. cbn. intros Hr. by rewrite lookup_fmap, Hr. Qed.
Lemma same_withdrawals_set (r : ref account_object) s o o' : row r s = Some o →
  acc_next_vesting_withdrawal o' = acc_next_vesting_withdrawal o → same_withdrawals s (set_row r o' s).
Proof. intros Hr Hl. unfold same_withdrawals. rewrite withdrawals_set, Hl. by apply insert_id, withdrawals_row. Qed.
#[export] Hint Extern 2 (respects same_withdrawals (modify_row _ _)) =>
  (apply respects_modify_row; [exact _|]; intros; eapply same_withdrawals_set; [eassumption|reflexivity]) : respects.
#[export] Hint Extern 2 (respects same_withdrawals (modify_res _ _)) =>
  (apply respects_modify_res; [exact _|]; intros; inv_ok; eapply same_withdrawals_set; [eassumption|reflexivity]) : respects.
#[export] Hint Extern 1 (∀ s g', _ → same_withdrawals s (s <| gpo := g' |>)) => (intros; reflexivity) : respects.
#[export] Hint Extern 1 (∀ s, same_withdrawals s _) => (intros ?; reflexivity) : respects.
Lemma same_withdrawals_modify_with (a : ref account_object) f :
  (∀ o, respects (same_rows account_object) (f o)) →
  (∀ o s o' s', f o s = Ok (o', s') → acc_next_vesting_withdrawal o' = acc_next_vesting_withdrawal o) →
  respects same_withdrawals (modify_with a f).
Proof.
  intros Hsame Hf s u s' Hm. apply modify_with_gap in Hm as (o & o' & s1 & Ho & Hr & -> & _).
  pose proof (Hsame _ _ _ _ Hr) as E. unfold same_rows in E. cbn in E. trans s1.
  - unfold same_withdrawals, withdrawals. by rewrite E.
  - eapply same_withdrawals_set; [|by eapply Hf]. unfold row in *. cbn in *. by rewrite E.
Qed.
Lemma modify_balance_withdrawals a d c : respects same_withdrawals (modify_balance a d c).
Proof.
  apply same_withdrawals_modify_with; [respects|]. intros o s o' s' H.
  repeat case_run; inv_ok; try done. destruct x as [[[? ?] ?] ?]. by inv_ok.
Qed.
Lemma savings_withdrawals a d : respects same_withdrawals (adjust_savings_liquid_balance a d).
Proof.
  apply same_withdrawals_modify_with; [respects|]. intros o s o' s' H.
  repeat case_run; inv_ok; try done. destruct x as [[[? ?] ?] ?]. by inv_ok.
Qed.
Lemma reward_withdrawals a v d c : respects same_withdrawals (modify_reward_balance a v d c).
Proof.
  apply respects_modify_res; [exact _|]. intros s o o' Ho Hf. eapply same_withdrawals_set; [exact Ho|].
  repeat (case_match; [|]); by inv_ok.
Qed.
#[export] Hint Resolve modify_balance_withdrawals savings_withdrawals reward_withdrawals : respects.
(** A round puts the account off by a week, or for good. *)
Lemma withdraw_from_puts_off r s u s' : withdraw_from r s = Ok (u, s') →
  ∃ t t', withdrawals s !! ref_id r = Some t ∧ withdrawals s' = <[ref_id r := t']> (withdrawals s) ∧
    (t' = time_maximum ∨ t' = wrap_u32 (t + ZATTERA_VESTING_WITHDRAW_INTERVAL_SECONDS)).
Proof.
  intros H. unfold withdraw_from in H.
  assert (∃ s1, same_withdrawals s s1 ∧ ∃ w l n, (modify_res r (fun a => settle_withdrawal a w l) ;; n) s1 = Ok (u, s') ∧
    respects same_withdrawals n) as (s1 & Hs1 & w & l & n & H1 & Hn).
  { do 5 (apply (respects_then same_withdrawals) in H as (? & ? & _ & ? & H); [|respects]).
    case_match. do 6 (apply (respects_then same_withdrawals) in H as (? & ? & _ & ? & H); [|respects]).
    match type of H with _ ?s1 = _ => exists s1 end. split; [repeat (etrans; [eassumption|]); reflexivity|].
    do 3 eexists. split; [exact H|respects]. }
  apply bind_ok in H1 as ([] & s2 & (o & o' & -> & Ho & Hf & _)%modify_res_gap & H2). apply Hn in H2.
  unfold same_withdrawals in *. exists (acc_next_vesting_withdrawal o), (acc_next_vesting_withdrawal o').
  split_and!.
  - rewrite <- Hs1. by apply withdrawals_row.
  - by rewrite H2, withdrawals_set, Hs1.
  - unfold settle_withdrawal in Hf. inv_ok. case_match; cbn; tauto.
Qed.

(** How many rounds an account may still take: one per week that has passed. *)
Definition rounds_left (now t : time) : Z :=
  if t <=? now then (now - t) / ZATTERA_VESTING_WITHDRAW_INTERVAL_SECONDS + 1 else 0.
Definition all_rounds (now : time) (s : database) : Z := msum (rounds_left now) (withdrawals s).
(** Times are unsigned, and a week from now still fits 32 bits. *)
Definition week_fits (now : time) : Prop := 0 ≤ now ∧ now + ZATTERA_VESTING_WITHDRAW_INTERVAL_SECONDS < 2 ^ 32.
Definition withdrawal_times_ok (s : database) : Prop := map_Forall (fun _ t => 0 ≤ t) (withdrawals s).

Lemma rounds_left_nonneg now t : 0 ≤ rounds_left now t.
Proof.
  unfold rounds_left. case_match; [|done]. bool_prop.
  pose proof (Z.div_pos (now - t) ZATTERA_VESTING_WITHDRAW_INTERVAL_SECONDS ltac:(lia) ltac:(done)). lia.
Qed.
Lemma rounds_put_off now t t' : week_fits now → 0 ≤ t ≤ now →
  t' = time_maximum ∨ t' = wrap_u32 (t + ZATTERA_VESTING_WITHDRAW_INTERVAL_SECONDS) →
  rounds_left now t' < rounds_left now t ∧ 0 ≤ t'.
Proof.
  unfold week_fits, rounds_left, wrap_u32, time_maximum, ZATTERA_VESTING_WITHDRAW_INTERVAL_SECONDS.
  change (60 * 60 * 24 * 7) with 604800. intros Hn Ht Ht'. rewrite (proj2 (Z.leb_le t now)) by lia.
  assert (0 ≤ (now - t) / 604800) as Hq by (apply Z.div_pos; lia).
  destruct Ht' as [->| ->].
  - split; [|done]. case_match; bool_prop; lia.
  - rewrite Z.mod_small by lia. split; [|lia]. case_match; bool_prop; [|lia].
    replace (now - t) with ((now - (t + 604800)) + 1 * 604800) by lia. rewrite Z.div_add by done. lia.
Qed.
Lemma msum_nonneg {A} (w : A → Z) (m : gmap Z A) : (∀ x, 0 ≤ w x) → 0 ≤ msum w m.
Proof.
  intros Hw. induction m as [|i x m Hi IH] using map_ind; [by rewrite msum_empty|].
  rewrite msum_insert_fresh by done. specialize (Hw x). lia.
Qed.
Lemma msum_bound {A} (w : A → Z) (m : gmap Z A) c : map_Forall (fun _ x => w x ≤ c) m → msum w m ≤ Z.of_nat (size m) * c.
Proof.
  induction m as [|i x m Hi IH] using map_ind; [by rewrite msum_empty, map_size_empty|].
  intros Hall. apply map_Forall_insert in Hall as [Hx Hm]; [|done]. rewrite msum_insert_fresh, map_size_insert_None by done.
  specialize (IH Hm). lia.
Qed.

Lemma ends_withdrawals_walk now fuel cur s : week_fits now → withdrawal_times_ok s →
  all_rounds now s < Z.of_nat fuel →
  walk fuel by_next_vesting_withdrawal (fun a => acc_next_vesting_withdrawal a <=? now) withdraw_from cur s
    ≠ Throw out_of_fuel.
Proof.
  intros Hnow. revert cur s. induction fuel as [|fuel IH]; intros cur s Hok Hf.
  { pose proof (msum_nonneg _ (withdrawals s) (rounds_left_nonneg now)). unfold all_rounds in Hf. lia. }
  cbn [walk]. destruct cur as [r|]; [|discriminate].
  end_step o s1 Ho. apply load_ok in Ho as [Ho ->]. destruct (_ <=? now) eqn:Hdue; [|discriminate]. bool_prop.
  end_step q s1 Hq. assert (s1 = s) as -> by (unfold index_next, index in Hq; by inv_ok). end_step v s1 Hr.
  apply withdraw_from_puts_off in Hr as (t & t' & Ht & Hs1 & Ht').
  assert (t = acc_next_vesting_withdrawal o) as -> by (apply withdrawals_row in Ho; congruence).
  pose proof (Hok _ _ Ht) as Ht0. destruct (rounds_put_off now _ t' Hnow (conj Ht0 Hdue) Ht') as [Hlt Hpos].
  apply IH.
  - unfold withdrawal_times_ok. rewrite Hs1. by apply map_Forall_insert_2.
  - unfold all_rounds in *. rewrite Hs1. erewrite msum_insert by exact Ht. lia.
Qed.
Lemma ends_process_withdrawals s : week_fits (gpo_time (gpo s)) → withdrawal_times_ok s →
  process_vesting_withdrawals s ≠ Throw out_of_fuel.
Proof.
  intros Hnow Hok. unfold process_vesting_withdrawals.
  end_step now s1 E1. end_step n s2 E2. end_step cur s3 E3.
  apply gets_ok in E1 as [-> ->]. apply gets_ok in E2 as [-> ->]. apply index_begin_spec in E3 as [-> _].
  apply ends_withdrawals_walk; [done..|]. set (now := gpo_time (gpo s)) in *.
  assert (all_rounds now s ≤ Z.of_nat (size (withdrawals s)) *
    (now / ZATTERA_VESTING_WITHDRAW_INTERVAL_SECONDS + 1)) as Hb.
  { apply msum_bound. intros i t Ht. specialize (Hok _ _ Ht). cbn in Hok.
    assert (0 ≤ now / ZATTERA_VESTING_WITHDRAW_INTERVAL_SECONDS) by (apply Z.div_pos; [apply Hnow|done]).
    unfold rounds_left. case_match; [|lia].
    pose proof (Z.div_le_mono (now - t) now ZATTERA_VESTING_WITHDRAW_INTERVAL_SECONDS ltac:(done) ltac:(lia)). lia. }
  unfold withdrawal_rounds. unfold withdrawals in Hb. rewrite map_size_fmap in Hb. cbn in *.
  assert (0 ≤ now / ZATTERA_VESTING_WITHDRAW_INTERVAL_SECONDS) by (apply Z.div_pos; [apply Hnow|done]).
  nia.
Qed.

(** *** Conversions and hardforks *)

Lemma ends_process_conversions : ends process_conversions.
Proof.
  intros s. unfold process_conversions. end_step now s1 E1. end_step fh s2 E2. cbv zeta.
  destruct (is_null _); [discriminate|]. end_step n s3 E3. apply gets_ok in E3 as [-> ->].
  apply ends_first; [|intros [? ?]; ends]. apply ends_convert_due. cbn. lia.
Qed.

Definition last_hardfork (s : database) : Z := hpo_last_hardfork (hardforks s).
Definition same_last (s s' : database) : Prop := last_hardfork s' = last_hardfork s.
#[export] Instance same_last_preorder : PreOrder same_last.
Proof. split; [intros s; reflexivity|]. unfold same_last. intros s1 s2 s3 H1 H2. congruence. Qed.
#[export] Hint Extern 0 (Free same_last _) => (intros ? ?; reflexivity) : typeclass_instances.
#[export] Hint Extern 1 (∀ s g', _ → same_last s (s <| gpo := g' |>)) => (intros; reflexivity) : respects.
#[export] Hint Extern 1 (∀ s, same_last s _) => (intros; reflexivity) : respects.

(** Each round applies one hardfork, and there are finitely many. *)
Lemma ends_process_hardforks s : 0 ≤ last_hardfork s → process_hardforks s ≠ Throw out_of_fuel.
Proof.
  intros Hs. cbv delta [process_hardforks]. cbv beta.
  assert (Z.max 0 (ZATTERA_NUM_HARDFORKS - last_hardfork s) < Z.of_nat (S (Z.to_nat ZATTERA_NUM_HARDFORKS))) as Hn by lia.
  revert Hn. generalize (S (Z.to_nat ZATTERA_NUM_HARDFORKS)). intros n. cbv zeta. revert s Hs.
  induction n as [|n IH]; intros s Hs Hn; [lia|].
  end_step h s1 E1. end_step now s2 E2. end_step v s3 E3.
  apply gets_ok in E1 as [-> ->]. apply gets_ok in E2 as [-> ->]. apply lift_ok in E3 as [_ ->].
  destruct (_ && _); [|discriminate]. destruct (_ <? _) eqn:El; [|discriminate]. bool_prop.
  end_step x s4 E4.
  assert (last_hardfork s4 = last_hardfork s + 1) as Hl.
  { unfold apply_hardfork, get_hardfork_property_object, push_virtual_operation in E4. inv_ok. reflexivity. }
  unfold last_hardfork in Hn. apply IH; rewrite Hl; unfold last_hardfork in *; lia.
Qed.

(** ** The whole of it *)

(** What the loops rely on: times are unsigned and a week from now fits 32 bits
    (until the year 2106), and hardforks are counted from 0. *)
Definition timely (s : database) : Prop :=
  week_fits (gpo_time (gpo s)) ∧ withdrawal_times_ok s ∧ 0 ≤ last_hardfork s.

Definition keeps_timely {A} (m : C A) : Prop :=
  keeps_head m ∧ respects same_withdrawals m ∧ respects same_last m.
Lemma timely_step {A} (m : C A) s a s' : keeps_timely m → m s = Ok (a, s') → timely s → timely s'.
Proof.
  intros (Hh & Hw & Hl) Hm (H1 & H2 & H3). apply Hh in Hm as E1. apply Hw in Hm as E2. apply Hl in Hm as E3.
  unfold same_head, same_withdrawals, same_last, timely, withdrawal_times_ok in *.
  apply (f_equal head_time) in E1. cbn in E1. by rewrite E1, E2, E3.
Qed.
Lemma ends_timely {A B} (m : C A) (k : A → C B) s : timely s → m s ≠ Throw out_of_fuel → keeps_timely m →
  (∀ a s1, timely s1 → k a s1 ≠ Throw out_of_fuel) → bind m k s ≠ Throw out_of_fuel.
Proof.
  intros Hs Hm Hk Hn. unfold bind. destruct (m s) as [[a s1]|e] eqn:E; [|congruence].
  eapply Hn, timely_step; eauto.
Qed.

Lemma ends_same_last {A B} (m : C A) (k : A → C B) s : 0 ≤ last_hardfork s → m s ≠ Throw out_of_fuel →
  respects same_last m → (∀ a s1, 0 ≤ last_hardfork s1 → k a s1 ≠ Throw out_of_fuel) → bind m k s ≠ Throw out_of_fuel.
Proof.
  intros Hs Hm Hk Hn. unfold bind. destruct (m s) as [[a s1]|e] eqn:E; [|congruence].
  apply Hn. apply Hk in E. unfold same_last in E. lia.
Qed.
#[local] Hint Resolve ends_clear_expired_transactions ends_clear_expired_orders ends_clear_expired_delegations
  ends_process_conversions ends_process_savings ends_account_recovery ends_expire_escrow ends_process_decline : ends.

Section Close.
Context `{Crypto}.

(** C4: the end of a block always ends.  As long as a week from now fits 32 bits,
    and with unsigned times and hardforks counted from 0, none of the loops of the
    periodic processing (expirations, conversions, payouts, vesting withdrawals,
    savings, recoveries, ratifications, declined votes, hardforks) runs out of its
    bound on any state: the number of rounds is at most one more than the rows of
    the table, or one per account and week passed for the withdrawals. *)
Theorem close_block_terminates b s : timely s → close_block b s ≠ Throw out_of_fuel.
Proof.
  intros Hs. unfold close_block.
  repeat match goal with
  | Hs : timely ?s |- bind process_vesting_withdrawals _ ?s ≠ _ => fail 1
  | Hs : timely ?s |- bind ?m ?k ?s ≠ _ =>
      apply ends_timely; [exact Hs|revert s Hs|split_and!; respects|clear s Hs; intros _ s Hs]
  end.
  1-10: intros s _; revert s; match goal with |- ∀ s, ?m s ≠ _ => change (ends m) end; auto with ends.
  - intros s [[_ Hn] _]. apply ends_process_comment_cashout. unfold time_maximum.
    change ZATTERA_VESTING_WITHDRAW_INTERVAL_SECONDS with 604800 in Hn. lia.
  - destruct Hs as (Ht & Hw & Hl). apply ends_same_last; [done|by apply ends_process_withdrawals|respects|].
    clear s Ht Hw Hl. intros _ s Hs.
    repeat (apply ends_same_last; [exact Hs|revert s Hs|respects|clear s Hs; intros _ s Hs]).
    6: by apply ends_process_hardforks.
    all: intros s _; revert s; match goal with |- ∀ s, ?m s ≠ _ => change (ends m) end; auto with ends.
Qed.
End Close.

(** A state with a vesting withdrawal that has been due since 1970. *)
Lemma close_block_terminates_witness :
  let _ := sample_crypto in
  let s := add_row (mk_block_summary_object null_id) sample_withdrawal in
  let b := mk_signed_block null_id (ZATTERA_GENESIS_TIME + 3) "genesis" null_checksum [] ZATTERA_GENESIS_PUBLIC_KEY [] in
  timely s ∧ close_block b s ≠ Throw out_of_fuel.
Proof.
  intros K s b.
  assert (timely s) as Ht.
  { split_and!; [vm_compute; split; [discriminate|reflexivity]..| |vm_compute; discriminate].
    unfold withdrawal_times_ok. apply (bool_decide_unpack _). vm_compute. exact I. }
  split; [exact Ht|]. apply (close_block_terminates (H := K) b s Ht).
Defined.
