(* ===== verification/Due.v ===== *)
(** * Everything that is due is done

    After the end of a block ([close_block]) no transaction record, order,
    delegation, conversion, comment, savings withdrawal, recovery, escrow or
    declined vote is left whose time has come: whatever is due is handled in the
    first block that reaches its time. *)
From S2P Require Import Prelude Ints Config Asset Authority Headers Operations State Blocks Store Ledger Balances Vesting Conserve Frames Rows Drain EvalFunds Market EvalAccounts Proxy Reward EvalContent Invariants Genesis BlockProc Withdrawals Expiry Payout Schedule Chain Loops Heads.

(** ** Payouts and conversions *)

Lemma first_not_due `{Table A} (t : A → Z) now s (r : ref A) o :
  (∀ i p, rows (tbl s) !! i = Some p → index_leb (fun o => [KZ (t o)]) (ref_id r, o) (i, p) = true) →
  now < t o → all_rows (fun p => now < t p) s.
Proof.
  intros Hb Ho i p Hp. specialize (Hb _ _ Hp). unfold index_leb in Hb. cbn [fst snd app] in Hb.
  apply key_leb_cons in Hb as [Hle _]. change (t o ≤ t p) in Hle. lia.
Qed.
Lemma no_row_due `{Table A} (P : A → Prop) s : rows (tbl s) = ∅ → all_rows P s.
Proof. unfold all_rows. intros ->. apply map_Forall_empty. Qed.

Lemma cashout_due_complete n now p funds s funds' s' : cashout_due n now p funds s = Ok (funds', s') →
  all_rows (fun c => now < com_cashout_time c) s'.
Proof.
  revert funds s. induction n as [|n IH]; intros funds s Hr; cbn [cashout_due] in Hr; [inv_ok|].
  apply bind_ok in Hr as (r & s1 & [-> Hb]%index_begin_spec & Hr). destruct r as [r|]; [|inv_ok; by apply no_row_due].
  apply bind_ok in Hr as (c & s1 & [Hc ->]%load_ok & Hr). destruct (_ <=? now) eqn:Hdue.
  - inv_ok. by eapply IH.
  - inv_ok. bool_prop. destruct Hb as (o & Ho & Hb). assert (o = c) as -> by congruence. by eapply first_not_due.
Qed.
Lemma convert_due_complete n now p net s net' s' : convert_due n now p net s = Ok (net', s') →
  all_rows (fun r => now < cro_conversion_date r) s'.
Proof.
  revert net s. induction n as [|n IH]; intros net s Hr; cbn [convert_due] in Hr; [inv_ok|].
  apply bind_ok in Hr as (r & s1 & [-> Hb]%index_begin_spec & Hr). destruct r as [r|]; [|inv_ok; by apply no_row_due].
  apply bind_ok in Hr as (c & s1 & [Hc ->]%load_ok & Hr). destruct (_ <=? now) eqn:Hdue.
  - inv_ok. by eapply IH.
  - inv_ok. bool_prop. destruct Hb as (o & Ho & Hb). assert (o = c) as -> by congruence. by eapply first_not_due.
Qed.
Lemma payouts_complete s u s' : process_comment_cashout s = Ok (u, s') →
  all_rows (fun c => gpo_time (gpo s) < com_cashout_time c) s'.
Proof.
  unfold process_comment_cashout, get_feed_history, head_block_time, table_size. intros Hr. inv_ok.
  match goal with E : cashout_due _ _ _ _ _ = _ |- _ => apply cashout_due_complete in E as Hc end.
  match type of Hr with ?m _ = _ => assert (respects (rows_step (fun c => gpo_time (gpo s) < com_cashout_time c)) m) as Hm by respects end.
  by eapply Hm.
Qed.
Lemma conversions_complete s u s' : is_null (fho_current_median_history (feed_history s)) = false →
  process_conversions s = Ok (u, s') → all_rows (fun r => gpo_time (gpo s) < cro_conversion_date r) s'.
Proof.
  unfold process_conversions, get_feed_history, head_block_time, table_size. intros Hp Hr. inv_ok. rewrite Hp in Hr. inv_ok.
  match goal with E : convert_due _ _ _ _ _ = _ |- _ => apply convert_due_complete in E as Hc end.
  match type of Hr with ?m _ = _ => assert (respects (rows_step (fun c => gpo_time (gpo s) < cro_conversion_date c)) m) as Hm by respects end.
  by eapply Hm.
Qed.

(** ** The whole block *)

(** Prices stay as they are after the feed is updated. *)
Definition same_feed (s s' : database) : Prop := feed_history s' = feed_history s.
#[export] Instance same_feed_preorder : PreOrder same_feed.
Proof. split; [intros s; reflexivity|]. unfold same_feed. intros s1 s2 s3 H1 H2. congruence. Qed.
#[export] Hint Extern 0 (Free same_feed _) => (intros ? ?; reflexivity) : typeclass_instances.
#[export] Hint Extern 1 (∀ s g', _ → same_feed s (s <| gpo := g' |>)) => (intros; reflexivity) : respects.
#[export] Hint Extern 1 (∀ s, same_feed s _) => (intros; reflexivity) : respects.

(** The next step of [H] leaves the head; it ends in [s1]. *)
Ltac next_step H s1 Hs Hh :=
  apply bind_ok in H as ([] & s1 & Hs & H);
  match type of Hs with ?m ?s = _ =>
    let Hm := fresh in assert (keeps_head m) as Hm by respects; pose proof (Hm _ _ _ Hs) as Hh; clear Hm;
    unfold same_head in Hh end.
(** A property of the rows of a table, established by now, stays until the end. *)
Ltac stays H HP :=
  match type of H with ?m ?s1 = _ =>
    match type of HP with all_rows ?P s1 =>
      let Hm := fresh in assert (respects (rows_step P) m) as Hm by respects; apply (Hm _ _ _ H) in HP; clear Hm end end.

Section Close.
Context `{Crypto}.

Definition nothing_due (now : time) (s : database) : Prop :=
  all_rows (fun t => now ≤ txo_expiration t) s ∧
  all_rows (fun o => now ≤ loo_expiration o) s ∧
  all_rows (fun d => now ≤ vde_expiration d) s ∧
  (is_null (fho_current_median_history (feed_history s)) = false → all_rows (fun r => now < cro_conversion_date r) s) ∧
  all_rows (fun c => now < com_cashout_time c) s ∧
  all_rows (fun w => now < swo_complete w) s ∧
  all_rows (fun e => is_approved e = true ∨ now < esc_ratification_deadline e) s ∧
  all_rows (fun r => now < dvr_effective_date r) s.

Lemma close_block_nothing_due b s u s' : close_block b s = Ok (u, s') → nothing_due (gpo_time (gpo s')) s'.
Proof.
  intros H1. pose proof (keeps_close_block b _ _ _ H1) as Hend. unfold close_block in H1.
  assert (∀ x, head_of x = head_of s → gpo_time (gpo x) = gpo_time (gpo s')) as Ht.
  { intros x Hx. unfold same_head in Hend. rewrite <- Hx in Hend. by apply (f_equal head_time) in Hend. }
  set (now := gpo_time (gpo s')) in *. pose proof (fun s u s' => no_overdue_left s u s') as Hover. cbv zeta in Hover.
  next_step H1 s1 E1 Hh1. next_step H1 s2 E2 Hh2.
  assert (all_rows (fun t => now ≤ txo_expiration t) s2) as Htrx
    by (rewrite <- (Ht s1) by congruence; by apply (Hover s1 tt)).
  stays H1 Htrx. next_step H1 s3 E3 Hh3.
  assert (all_rows (fun o => now ≤ loo_expiration o) s3) as Hord
    by (rewrite <- (Ht s2) by congruence; by apply (Hover s2 tt)).
  stays H1 Hord. next_step H1 s4 E4 Hh4.
  assert (all_rows (fun d => now ≤ vde_expiration d) s4) as Hdel
    by (rewrite <- (Ht s3) by congruence; by apply (Hover s3 tt)).
  stays H1 Hdel. next_step H1 s5 E5 Hh5. next_step H1 s6 E6 Hh6. next_step H1 s7 E7 Hh7. next_step H1 s8 E8 Hh8.
  next_step H1 s9 E9 Hh9. next_step H1 s10 E10 Hh10.
  assert (is_null (fho_current_median_history (feed_history s')) = false →
    all_rows (fun r => now < cro_conversion_date r) s') as Hcon.
  { assert (feed_history s' = feed_history s9) as ->.
    { trans (feed_history s10).
      - match type of H1 with ?m _ = _ => assert (respects same_feed m) as Hm by respects; exact (Hm _ _ _ H1) end.
      - assert (respects same_feed process_conversions) as Hm by respects. exact (Hm _ _ _ E10). }
    intros Hp. assert (all_rows (fun r => now < cro_conversion_date r) s10) as Hc
      by (rewrite <- (Ht s9) by congruence; by eapply conversions_complete).
    by stays H1 Hc. }
  next_step H1 s11 E11 Hh11.
  assert (all_rows (fun c => now < com_cashout_time c) s11) as Hpay
    by (rewrite <- (Ht s10) by congruence; by eapply payouts_complete).
  stays H1 Hpay. next_step H1 s12 E12 Hh12. next_step H1 s13 E13 Hh13.
  assert (all_rows (fun w => now < swo_complete w) s13) as Hsav
    by (rewrite <- (Ht s12) by congruence; by apply (Hover s12 tt)).
  stays H1 Hsav. next_step H1 s14 E14 Hh14. next_step H1 s15 E15 Hh15. next_step H1 s16 E16 Hh16.
  assert (all_rows (fun e => is_approved e = true ∨ now < esc_ratification_deadline e) s16) as Hesc
    by (rewrite <- (Ht s15) by congruence; by apply (Hover s15 tt)).
  stays H1 Hesc. next_step H1 s17 E17 Hh17.
  assert (all_rows (fun r => now < dvr_effective_date r) s17) as Hdec
    by (rewrite <- (Ht s16) by congruence; by apply (Hover s16 tt)).
  stays H1 Hdec. by split_and!.
Qed.
End Close.

Section Block.
Context `{Codec, DiffPatch, Crypto}.

(** C5: whatever is due is done by the next block.  After every block that is
    applied, at its own time stamp: no expired transaction record, order or returning
    delegation is left; no conversion whose date has come, once a price is known; no
    comment to be paid out; no savings withdrawal to be completed; no escrow past its
    ratification deadline without approval; no request to decline voting rights that
    has taken effect. *)
Theorem due_work_is_done skip b s u s' : _apply_block skip b s = Ok (u, s') → nothing_due (blk_timestamp b) s'.
Proof.
  intros Hr. apply apply_block_head in Hr as Hh. destruct Hh as (_ & _ & _ & _ & Ht).
  unfold _apply_block in Hr. apply bind_ok in Hr as ([] & s1 & _ & Hc).
  rewrite <- Ht. by eapply close_block_nothing_due.
Qed.
End Block.

(** A block that finds an expired order and a comment to be paid. *)
Lemma due_work_is_done_witness :
  let _ := sample_codec in let _ := sample_patch in let _ := sample_crypto in
  let order := mk_limit_order_object ZATTERA_GENESIS_TIME ZATTERA_GENESIS_TIME "temp" 1 0
    (mk_price (mk_asset 1 LIQUID_SYMBOL) (mk_asset 1 DOLLAR_SYMBOL)) in
  let s := add_row order (add_row (mk_block_summary_object null_id) sample_payout) in
  let b := mk_signed_block null_id (ZATTERA_GENESIS_TIME + 3) "genesis" null_checksum []
             ZATTERA_GENESIS_PUBLIC_KEY [] in
  let s' := run_state (_apply_block 0 b) s in
  size (rows (limit_order_index s')) = 0%nat ∧ nothing_due (blk_timestamp b) s'.
Proof.
  intros C D K order s b s'. split; [vm_compute; reflexivity|].
  apply (due_work_is_done (H := C) (H0 := D) (H1 := K) 0 b s tt s'). vm_compute. reflexivity.
Defined.
