(* ===== verification/Node.v ===== *)
(** * A node: blocks, forks and pending transactions

    The part of src/src/core/chain/database.cpp around [_apply_block]: pushing
    blocks and transactions, switching forks, popping blocks and producing them,
    with the scope guards of db_with.hpp.  The state of a node is the object
    tables with their undo stack (a stack of complete copies, which is what
    Chainbase.v proves the undo states to be), the fork database, the block log
    and the pending transactions.  An exception leaves behind what was done
    before it: a computation returns its outcome and the state in either case. *)
From S2P Require Import Prelude Ints Config Asset Authority Headers Operations State Blocks ForkDb BlockLog Store Ledger Balances Vesting Conserve EvalFunds Market EvalAccounts Proxy Reward EvalContent Evaluators Genesis Schedule Chain Heads.

Record node := mk_node {
  nd_db : database;
  nd_undo : list (Z * database);
  nd_revision : Z;
  nd_fork : fork_database;
  nd_log : block_log;
  nd_pending_tx : list signed_transaction;
  (** whether [_pending_tx_session] is valid *)
  nd_pending_session : bool;
  nd_popped_tx : list signed_transaction;
  nd_skip_flags : Z;
  nd_checkpoints : list (Z * block_id_type)
}.
#[export] Instance eta_node : Eta node := fun r =>
  mk_node (nd_db r) (nd_undo r) (nd_revision r) (nd_fork r) (nd_log r) (nd_pending_tx r)
    (nd_pending_session r) (nd_popped_tx r) (nd_skip_flags r) (nd_checkpoints r).
#[export] Instance set_nd_db : Setter nd_db := ltac:(derive_setter nd_db).
#[export] Instance set_nd_undo : Setter nd_undo := ltac:(derive_setter nd_undo).
#[export] Instance set_nd_revision : Setter nd_revision := ltac:(derive_setter nd_revision).
#[export] Instance set_nd_fork : Setter nd_fork := ltac:(derive_setter nd_fork).
#[export] Instance set_nd_log : Setter nd_log := ltac:(derive_setter nd_log).
#[export] Instance set_nd_pending_tx : Setter nd_pending_tx := ltac:(derive_setter nd_pending_tx).
#[export] Instance set_nd_pending_session : Setter nd_pending_session := ltac:(derive_setter nd_pending_session).
#[export] Instance set_nd_popped_tx : Setter nd_popped_tx := ltac:(derive_setter nd_popped_tx).
#[export] Instance set_nd_skip_flags : Setter nd_skip_flags := ltac:(derive_setter nd_skip_flags).
#[export] Instance set_nd_checkpoints : Setter nd_checkpoints := ltac:(derive_setter nd_checkpoints).

Definition skip_fork_db : Z := 8.
Definition skip_block_size_check : Z := 16.
Definition skip_validate_invariants : Z := 2048.
Definition skip_block_log : Z := 8192.

(** ** Computations of a node *)

Definition N (A : Type) : Type := node → res A * node.

Definition n_ret {A} (a : A) : N A := fun n => (Ok a, n).
Definition n_throw {A} (e : exn) : N A := fun n => (Throw e, n).
Definition n_bind {A B} (m : N A) (k : A → N B) : N B := fun n =>
  match m n with
  | (Ok a, n') => k a n'
  | (Throw e, n') => (Throw e, n')
  end.
Definition n_gets {A} (f : node → A) : N A := fun n => (Ok (f n), n).
Definition n_modify (f : node → node) : N unit := fun n => (Ok tt, f n).
Definition n_lift {A} (r : res A) : N A := fun n => (r, n).
Definition n_assert (c : bool) (msg : string) : N unit := n_lift (res_assert c msg).
Definition n_when (c : bool) (m : N unit) : N unit := if c then m else n_ret tt.

Notation "'let+' x ':=' m 'in' k" := (n_bind m (fun x => k))
  (at level 10, x pattern, m at level 200, k at level 200,
   format "'[v' 'let+'  x  ':='  m  'in' '/' k ']'") : chain_scope.
Notation "m ;;; k" := (n_bind m (fun _ => k))
  (at level 100, k at level 200, right associativity) : chain_scope.

(** [try { m } catch( const fc::exception& e ) { h( e ) }]. *)
Definition n_catch {A} (m : N A) (h : exn → N A) : N A := fun n =>
  match m n with
  | (Throw e, n') => h e n'
  | ok => ok
  end.
(** What a scope guard does when it goes out of scope, either way. *)
Definition n_finally {A} (m : N A) (f : node → node) : N A := fun n =>
  let '(r, n') := m n in (r, f n').

Fixpoint n_for_each {A} (l : list A) (f : A → N unit) : N unit :=
  match l with
  | [] => n_ret tt
  | x :: l' => f x ;;; n_for_each l' f
  end.

(** Computations of the parts.  A failure of the chain code leaves the tables in
    a state that nobody sees: every caller that handles the exception undoes the
    session the code ran in. *)
Definition on_db {A} (m : C A) : N A := fun n =>
  match m (nd_db n) with
  | Ok (a, s) => (Ok a, n <| nd_db := s |>)
  | Throw e => (Throw e, n)
  end.
Definition on_fork {A} (m : M fork_database A) : N A := fun n =>
  match m (nd_fork n) with
  | Ok (a, f) => (Ok a, n <| nd_fork := f |>)
  | Throw e => (Throw e, n)
  end.
Definition on_log {A} (m : M block_log A) : N A := fun n =>
  match m (nd_log n) with
  | Ok (a, l) => (Ok a, n <| nd_log := l |>)
  | Throw e => (Throw e, n)
  end.

(** ** Sessions *)

Definition start_undo_session (n : node) : node :=
  n <| nd_undo ::= cons (nd_revision n + 1, nd_db n) |> <| nd_revision ::= Z.succ |>.

(** The flag [_is_producing] is no object and stays. *)
Definition undo (n : node) : node :=
  match nd_undo n with
  | [] => n
  | (_, s) :: rest =>
      n <| nd_db := s <| is_producing := is_producing (nd_db n) |> |>
        <| nd_undo := rest |> <| nd_revision ::= Z.pred |>
  end.

Definition squash (n : node) : node :=
  match nd_undo n with
  | [] => n
  | [_] => n <| nd_undo := [] |>
  | _ :: rest => n <| nd_undo := rest |> <| nd_revision ::= Z.pred |>
  end.

Definition commit (revision : Z) (n : node) : node :=
  n <| nd_undo ::= filter (fun u => revision < u.1) |>.

(** A computation in a session of its own: [close] is [push] or [squash], and an
    exception lets the destructor undo the session. *)
Definition in_session {A} (close : node → node) (m : N A) : N A := fun n =>
  match m (start_undo_session n) with
  | (Ok a, n') => (Ok a, close n')
  | (Throw e, n') => (Throw e, undo n')
  end.
Definition push (n : node) : node := n.

(** [_pending_tx_session.reset()]. *)
Definition reset_pending_session (n : node) : node :=
  if nd_pending_session n then (undo n) <| nd_pending_session := false |> else n.

Definition clear_pending (n : node) : node :=
  reset_pending_session (n <| nd_pending_tx := [] |>).

Definition with_skip_flags {A} (skip : Z) (m : N A) : N A := fun n =>
  n_finally m (fun n' => n' <| nd_skip_flags := nd_skip_flags n |>) (n <| nd_skip_flags := skip |>).

Definition head_block_id (n : node) : block_id_type := gpo_head_block_id (gpo (nd_db n)).
Definition head_block_number (n : node) : Z := gpo_head_block_number (gpo (nd_db n)).

Definition set_producing (p : bool) : N unit :=
  n_modify (fun n => n <| nd_db ::= fun s => s <| is_producing := p |> |>).

Section Node.
Context `{Codec, DiffPatch, Crypto, Packing}.

(** ** Lookups *)

Definition fetch_block_by_id (n : node) (id : block_id_type) : res (option signed_block) :=
  match fetch_block (nd_fork n) id with
  | Some p => let? i := find_item (nd_fork n) p in Ok (Some (itm_data i))
  | None =>
      let? tmp := read_block_by_num (nd_log n) (num_from_id id) in
      match tmp with
      | Some b => if bool_decide (block_id b = id) then Ok tmp else Ok None
      | None => Ok None
      end
  end.
Definition is_known_block_id (n : node) (id : block_id_type) : res bool :=
  let? b := fetch_block_by_id n id in Ok (bool_decide (is_Some b)).

Definition fetch_block_by_number_node (n : node) (num : Z) : res (option signed_block) :=
  match fetch_block_by_number (nd_fork n) num with
  | [p] => let? i := find_item (nd_fork n) p in Ok (Some (itm_data i))
  | _ => read_block_by_num (nd_log n) num
  end.

Definition find_logged_id (n : node) (num : Z) : res block_id_type :=
  let? b := read_block_by_num (nd_log n) num in
  match b with
  | Some b => Ok (block_id b)
  | None =>
      let? fitem := fetch_block_on_main_branch_by_number (nd_fork n) num in
      match fitem with
      | Some p => let? i := find_item (nd_fork n) p in Ok (itm_id i)
      | None => Ok null_id
      end
  end.

(** The table of recent block ids, then the log, then the fork database. *)
Definition find_block_id_for_num (n : node) (num : Z) : res block_id_type :=
  if num =? 0 then Ok null_id
  else
    match row (Ref (A := block_summary_object) (Z.land num 0xffff)) (nd_db n) with
    | Some bs =>
        if num_from_id (bso_block_id bs) =? num then Ok (bso_block_id bs)
        else find_logged_id n num
    | None => find_logged_id n num
    end.
Definition get_block_id_for_num (n : node) (num : Z) : res block_id_type :=
  let? bid := find_block_id_for_num n num in
  let? _ := res_assert (negb (bool_decide (bid = null_id))) "bid != block_id_type()" in
  Ok bid.

Definition get_block_ids_on_fork (n : node) (head_of_fork : block_id_type)
  : res (list block_id_type) :=
  let? (first, second) := fetch_branch_from (nd_fork n) (head_block_id n) head_of_fork in
  let? ids := res_fold (fun l p => let? i := find_item (nd_fork n) p in Ok (l ++ [itm_id i])) [] second in
  let? p := of_option (list.last first) null_pointer in
  let? i := find_item (nd_fork n) p in
  Ok (ids ++ [previous_id i]).

Definition is_known_transaction (id : string) (n : node) : bool :=
  bool_decide (is_Some (find_row (A := transaction_object)
    (fun t => bool_decide (txo_trx_id t = id)) (nd_db n))).

Definition before_last_checkpoint (n : node) : bool :=
  match list.last (nd_checkpoints n) with
  | Some (num, _) => num >=? head_block_number n
  | None => false
  end.
(** [_checkpoints[i.first] = i.second], in the order of the numbers. *)
Fixpoint add_checkpoint (num : Z) (id : block_id_type) (l : list (Z * block_id_type))
  : list (Z * block_id_type) :=
  match l with
  | [] => [(num, id)]
  | (num', id') :: l' =>
      if num <? num' then (num, id) :: l
      else if num =? num' then (num, id) :: l'
      else (num', id') :: add_checkpoint num id l'
  end.
Definition add_checkpoints (checkpts : list (Z * block_id_type)) : N unit :=
  n_modify (fun n => n <| nd_checkpoints ::= fun l =>
    foldl (fun l c => add_checkpoint c.1 c.2 l) l checkpts |>).

(** ** Applying a block *)

(** [while( log_head_num < last_irreversible_block_num )]. *)
Fixpoint log_irreversible (rounds : nat) (log_head_num : Z) : N unit :=
  match rounds with
  | O => n_ret tt
  | S rounds' =>
      let+ f := n_gets nd_fork in
      let+ block := n_lift (fetch_block_on_main_branch_by_number f (log_head_num + 1)) in
      match block with
      | None => n_throw (assert_exception
          "Current fork in the fork database does not contain the last_irreversible_block")
      | Some p =>
          let+ i := n_lift (find_item f p) in
          on_log (append (itm_data i)) ;;;
          log_irreversible rounds' (log_head_num + 1)
      end
  end.

(** The end of [update_last_irreversible_block]. *)
Definition settle_irreversible : N unit :=
  let+ g := n_gets (fun n => gpo (nd_db n)) in
  let lib := gpo_last_irreversible_block_num g in
  n_modify (commit lib) ;;;
  let+ skip := n_gets nd_skip_flags in
  n_when (negb (skips skip skip_block_log))
    (let+ head := n_gets (fun n => log_head (nd_log n)) in
     let log_head_num := from_option block_num 0 head in
     log_irreversible (Z.to_nat (lib - log_head_num)) log_head_num) ;;;
  on_fork (set_max_size (wrap_u32 (gpo_head_block_number g - lib + 1))).

Definition _apply_block (b : signed_block) : N unit :=
  let+ skip := n_gets nd_skip_flags in
  on_db (open_block skip b) ;;;
  settle_irreversible ;;;
  on_db (close_block b).

(** What need not be checked up to the last checkpoint. *)
Definition checkpoint_skip : Z :=
  foldl Z.lor 0 [skip_witness_signature; skip_transaction_signatures; skip_transaction_dupe_check;
    skip_fork_db; skip_block_size_check; skip_tapos_check; skip_authority_check;
    skip_undo_history_check; skip_witness_schedule_check; skip_validate;
    skip_validate_invariants].

Definition checkpoint_flags (l : list (Z * block_id_type)) (b : signed_block) (skip : Z) : res Z :=
  match list.last l with
  | None => Ok skip
  | Some (last_num, last_id) =>
      if bool_decide (last_id = null_id) then Ok skip
      else
        let checkpoint := List.find (fun c => c.1 =? block_num b) l in
        let? _ := res_assert (from_option (fun c => bool_decide (block_id b = c.2)) true checkpoint)
                    "Block did not match checkpoint" in
        Ok (if last_num >=? block_num b then checkpoint_skip else skip)
  end.

Definition apply_block (b : signed_block) (skip : Z) : N unit :=
  let+ l := n_gets nd_checkpoints in
  let+ skip := n_lift (checkpoint_flags l b skip) in
  with_skip_flags skip (_apply_block b).

(** ** Popping and switching *)

Definition pop_block : N unit :=
  n_modify reset_pending_session ;;;
  let+ head_id := n_gets head_block_id in
  let+ n := n_gets Datatypes.id in
  let+ head_block := n_lift (fetch_block_by_id n head_id) in
  match head_block with
  | None => n_throw (assert_exception "there are no blocks to pop")
  | Some b =>
      on_fork ForkDb.pop_block ;;;
      n_modify undo ;;;
      n_modify (fun n => n <| nd_popped_tx ::= app (blk_transactions b) |>)
  end.

(** [while( head_block_id() != id ) pop_block();].  Every round moves the head of the
    fork database to an older item, so its address bounds the rounds. *)
Fixpoint pop_until (fuel : nat) (id : block_id_type) : N unit :=
  match fuel with
  | O => n_throw out_of_fuel
  | S fuel' =>
      let+ head_id := n_gets head_block_id in
      if bool_decide (head_id = id) then n_ret tt
      else pop_block ;;; pop_until fuel' id
  end.
Definition pop_to (id : block_id_type) : N unit :=
  let+ f := n_gets nd_fork in
  pop_until (S (from_option S 0%nat (_head f))) id.

Definition item_of (p : item_ptr) : N fork_item :=
  let+ f := n_gets nd_fork in n_lift (find_item f p).

(** A block in a session of its own, which stays on the undo stack. *)
Definition apply_pushed (skip : Z) (b : signed_block) : N unit :=
  in_session push (apply_block b skip).

Definition apply_items (skip : Z) (l : list item_ptr) : N unit :=
  n_for_each l (fun p => let+ i := item_of p in apply_pushed skip (itm_data i)).

(** The blocks of the new branch, from the fork point up; if one fails, the rest
    of the branch is dropped and the old branch comes back. *)
Fixpoint push_branch (skip : Z) (old : list item_ptr) (common : block_id_type) (l : list item_ptr)
  : N unit :=
  match l with
  | [] => n_ret tt
  | p :: l' =>
      let+ i := item_of p in
      let+ except := n_catch (apply_pushed skip (itm_data i) ;;; n_ret None) (fun e => n_ret (Some e)) in
      match except with
      | None => push_branch skip old common l'
      | Some e =>
          n_for_each (p :: l') (fun q => let+ j := item_of q in on_fork (remove_block (block_id (itm_data j)))) ;;;
          let+ front := n_lift (of_option (head old) null_pointer) in
          on_fork (set_head front) ;;;
          pop_to common ;;;
          apply_items skip (rev old) ;;;
          n_throw e
      end
  end.

(** [branches] keeps its items alive while it is in scope. *)
Definition holding {A} (l : list item_ptr) (m : N A) : N A := fun n =>
  n_finally m (fun n' => n' <| nd_fork ::= fun f => f <| fdb_held := [] |> |>)
    (n <| nd_fork ::= fun f => f <| fdb_held := l |> |>).

Definition switch_forks (skip : Z) (new_head : fork_item) : N unit :=
  let+ n := n_gets Datatypes.id in
  let+ (first, second) := n_lift (fetch_branch_from (nd_fork n) (itm_id new_head) (head_block_id n)) in
  holding (first ++ second) (
    let+ back := n_lift (of_option (list.last second) null_pointer) in
    let+ last := item_of back in
    pop_to (previous_id last) ;;;
    push_branch skip second (previous_id last) (rev first)).

(** ** Pushing a block *)

Definition extend_chain (b : signed_block) (skip : Z) : N unit :=
  n_catch (apply_pushed skip b) (fun e => on_fork (remove_block (block_id b)) ;;; n_throw e).

(** Returns whether the node switched forks. *)
Definition _push_block (b : signed_block) : N bool :=
  let+ skip := n_gets nd_skip_flags in
  if negb (skips skip skip_fork_db) then
    let+ head := on_fork (ForkDb.push_block b) in
    let+ head := n_lift (of_option head null_pointer) in
    let+ new_head := item_of head in
    let+ head_id := n_gets head_block_id in
    let+ head_num := n_gets head_block_number in
    if negb (bool_decide (previous_id new_head = head_id)) then
      if block_num (itm_data new_head) >? head_num then switch_forks skip new_head ;;; n_ret true
      else n_ret false
    else extend_chain b skip ;;; n_ret false
  else extend_chain b skip ;;; n_ret false.

(** ** Pending transactions *)

Definition _push_transaction (trx : signed_transaction) : N unit :=
  n_modify (fun n => if nd_pending_session n then n
                     else (start_undo_session n) <| nd_pending_session := true |>) ;;;
  in_session squash (
    let+ skip := n_gets nd_skip_flags in
    on_db (_apply_transaction skip trx) ;;;
    n_modify (fun n => n <| nd_pending_tx ::= fun l => l ++ [trx] |>)).

Definition push_transaction (trx : signed_transaction) (skip : Z) : N unit :=
  let+ g := n_gets (fun n => gpo (nd_db n)) in
  n_catch (
    n_assert (trx_pack_size trx <=? wrap_u32 (gpo_maximum_block_size g - 256)) "fc::raw::pack_size(trx)" ;;;
    set_producing true ;;;
    with_skip_flags skip (_push_transaction trx) ;;;
    set_producing false)
    (fun e => set_producing false ;;; n_throw e).

(** The destructor of [pending_transactions_restorer]. *)
Definition restore_one (trx : signed_transaction) : N unit :=
  n_catch (
    let+ n := n_gets Datatypes.id in
    n_when (negb (is_known_transaction (transaction_id trx) n)) (_push_transaction trx))
    (fun _ => n_ret tt).
Definition restore_pending (pending : list signed_transaction) : N unit :=
  let+ popped := n_gets nd_popped_tx in
  n_for_each popped restore_one ;;;
  n_modify (fun n => n <| nd_popped_tx := [] |>) ;;;
  n_for_each pending restore_one.

Definition without_pending_transactions {A} (m : N A) : N A := fun n =>
  let '(r, n') := m (clear_pending n) in
  (r, (restore_pending (nd_pending_tx n) n').2).

Definition push_block (b : signed_block) (skip : Z) : N bool :=
  with_skip_flags skip (without_pending_transactions (_push_block b)).

(** ** Producing a block *)

Definition blockchain_version : Z := 0.

Definition version_extensions (w : witness_object) (h : hardfork_property_object)
  : res (list header_extension) :=
  let reported :=
    if bool_decide (wit_running_version w = blockchain_version) then [] else [reported_version blockchain_version] in
  if hpo_current_hardfork_version h <? blockchain_version then
    let? v := hardfork_at hardfork_versions (hpo_last_hardfork h + 1) in
    let? t := hardfork_at hardfork_times (hpo_last_hardfork h + 1) in
    if negb (wit_hardfork_version_vote w =? v) || negb (wit_hardfork_time_vote w =? t)
    then Ok (reported ++ [hardfork_version_vote v t]) else Ok reported
  else if (hpo_current_hardfork_version h =? blockchain_version)
       && (wit_hardfork_version_vote w >? blockchain_version) then
    let? v := hardfork_at hardfork_versions (hpo_last_hardfork h) in
    let? t := hardfork_at hardfork_times (hpo_last_hardfork h) in
    Ok (reported ++ [hardfork_version_vote v t])
  else Ok reported.

(** A pending transaction enters the block if it has not expired, fits and
    applies on top of the ones before it. *)
Definition include_transaction (when : time) (maximum_block_size : Z)
    (acc : Z * list signed_transaction) (tx : signed_transaction)
  : N (Z * list signed_transaction) :=
  let '(total_block_size, included) := acc in
  if trx_expiration tx <? when then n_ret acc
  else if wrap_u64 (total_block_size + trx_pack_size tx) >=? maximum_block_size then n_ret acc
  else
    n_catch (
      in_session squash (let+ skip := n_gets nd_skip_flags in on_db (_apply_transaction skip tx)) ;;;
      n_ret (wrap_u64 (total_block_size + trx_pack_size tx), included ++ [tx]))
      (fun _ => n_ret acc).
Fixpoint include_transactions (when : time) (maximum_block_size : Z)
    (acc : Z * list signed_transaction) (l : list signed_transaction)
  : N (Z * list signed_transaction) :=
  match l with
  | [] => n_ret acc
  | tx :: l' =>
      let+ acc := include_transaction when maximum_block_size acc tx in
      include_transactions when maximum_block_size acc l'
  end.

Definition _generate_block (when : time) (witness_owner : account_name_type) (key : string)
  : N signed_block :=
  let+ skip := n_gets nd_skip_flags in
  let+ s := n_gets nd_db in
  let slot_num := get_slot_at_time (gpo s) when in
  n_assert (slot_num >? 0) "slot_num > 0" ;;;
  let+ scheduled_witness := n_lift (get_scheduled_witness (gpo s) (witness_schedule s) slot_num) in
  n_assert (bool_decide (scheduled_witness = witness_owner)) "scheduled_witness == witness_owner" ;;;
  let+ w := on_db (let* r := get_witness witness_owner in load r) in
  n_when (negb (skips skip skip_witness_signature))
    (n_assert (bool_decide (wit_signing_key w = get_public_key key)) "witness_obj.signing_key") ;;;
  let+ extensions := n_lift (version_extensions w (hardforks s)) in
  let pending_block :=
    mk_signed_block (gpo_head_block_id (gpo s)) when witness_owner null_checksum extensions "" [] in
  n_modify reset_pending_session ;;;
  n_modify (fun n => (start_undo_session n) <| nd_pending_session := true |>) ;;;
  let+ pending := n_gets nd_pending_tx in
  let+ (_, included) := include_transactions when (gpo_maximum_block_size (gpo s))
    (pack_size pending_block + 4, []) pending in
  n_modify reset_pending_session ;;;
  let pending_block := pending_block <| blk_transactions := included |>
    <| blk_transaction_merkle_root := calculate_merkle_root included |> in
  let pending_block :=
    if negb (skips skip skip_witness_signature) then sign_block key pending_block else pending_block in
  n_when (negb (skips skip skip_block_size_check))
    (n_assert (pack_size pending_block <=? ZATTERA_MAX_BLOCK_SIZE) "fc::raw::pack_size(pending_block)") ;;;
  push_block pending_block skip ;;;
  n_ret pending_block.

Definition generate_block (when : time) (witness_owner : account_name_type) (key : string) (skip : Z)
  : N signed_block :=
  with_skip_flags skip (_generate_block when witness_owner key).

End Node.

(** ** Pending transactions are what the tables hold *)

(** The tables, without the flag that is no object. *)
Definition objects (s : database) : database := s <| is_producing := false |>.

(** Running transactions one after the other; each may run under its own flags. *)
Inductive applied `{Codec, DiffPatch, Crypto} : list signed_transaction → database → database → Prop :=
| applied_nil s s' : objects s' = objects s → applied [] s s'
| applied_snoc l trx skip s s1 s2 s3 s4 :
    applied l s s1 → objects s2 = objects s1 → _apply_transaction skip trx s2 = Ok (tt, s3) →
    objects s4 = objects s3 → applied (l ++ [trx]) s s4.

(** The tables without the pending transactions: those of the head block. *)
Definition chain_state (n : node) : database :=
  match nd_pending_session n, nd_undo n with
  | true, (_, s) :: _ => s
  | _, _ => nd_db n
  end.

Section Pending.
Context `{Codec, DiffPatch, Crypto, Packing}.

(** The invariant the comments of the code state: the pending session is the
    result of applying the pending transactions. *)
Definition pending_ok (n : node) : Prop :=
  if nd_pending_session n then
    nd_undo n ≠ [] ∧ applied (nd_pending_tx n) (chain_state n) (nd_db n)
  else nd_pending_tx n = [].

(** Everything but the pending transactions and their session. *)
Definition same_chain (n n' : node) : Prop :=
  objects (chain_state n') = objects (chain_state n) ∧ nd_fork n' = nd_fork n ∧
  nd_log n' = nd_log n ∧ nd_skip_flags n' = nd_skip_flags n ∧
  nd_checkpoints n' = nd_checkpoints n ∧ nd_popped_tx n' = nd_popped_tx n.

#[global] Instance same_chain_refl : Reflexive same_chain.
Proof. intros n. by split_and!. Qed.
#[global] Instance same_chain_trans : Transitive same_chain.
Proof. intros n1 n2 n3 (?&?&?&?&?&?) (?&?&?&?&?&?). split_and!; congruence. Qed.

Lemma objects_producing s p : objects (s <| is_producing := p |>) = objects s.
Proof. done. Qed.
Lemma applied_objects l s s' t t' : applied l s s' → objects t = objects s → objects t' = objects s' →
  applied l t t'.
Proof.
  intros Ha. revert t t'. induction Ha as [s s' Hs|l trx skip s s1 s2 s3 s4 Ha IH E2 Hr E4]; intros t t' Ht Ht'.
  - apply applied_nil. congruence.
  - eapply applied_snoc; [by apply (IH t s1)|done|done|]. congruence.
Qed.

(** A session for the pending transactions is opened if there is none. *)
Definition open_pending (n : node) : node :=
  if nd_pending_session n then n else (start_undo_session n) <| nd_pending_session := true |>.
Lemma open_pending_ok n : pending_ok n →
  pending_ok (open_pending n) ∧ same_chain n (open_pending n) ∧
  nd_pending_session (open_pending n) = true ∧ nd_pending_tx (open_pending n) = nd_pending_tx n ∧
  nd_db (open_pending n) = nd_db n.
Proof.
  unfold pending_ok, open_pending. destruct (nd_pending_session n) eqn:E.
  - rewrite E. intros [? ?]. by split_and!.
  - intros Hp. cbn. split_and!; try done.
    + rewrite Hp. by apply applied_nil.
    + unfold same_chain, chain_state. cbn. rewrite E. by split_and!.
Qed.

Lemma push_transaction_pending trx n : pending_ok n →
  let '(r, n') := _push_transaction trx n in
  pending_ok n' ∧ same_chain n n' ∧
  match r with
  | Ok _ => nd_pending_tx n' = nd_pending_tx n ++ [trx]
  | Throw _ => nd_pending_tx n' = nd_pending_tx n ∧ objects (nd_db n') = objects (nd_db n)
  end.
Proof.
  intros Hp. destruct (open_pending_ok n Hp) as (Hp1 & Hs1 & Hv & Ht & Hd).
  unfold _push_transaction, n_bind, n_modify. fold (open_pending n).
  generalize dependent (open_pending n). intros n1 Hp1 Hs1 Hv Ht Hd.
  destruct n1 as [db un rev fk lg ptx ps pop sk cp]. cbn in Hv, Ht, Hd. subst ps ptx db.
  unfold pending_ok in Hp1. cbn in Hp1. destruct Hp1 as [Hu Ha].
  unfold same_chain, chain_state at 1 in Hs1. cbn in Hs1.
  destruct un as [|[r base] rest]; [done|]. unfold chain_state in Ha. cbn in Ha.
  unfold in_session, n_gets, on_db, start_undo_session, upd. cbn.
  destruct (_apply_transaction sk trx (nd_db n)) as [[[] s]|e] eqn:Er; unfold squash, undo, upd; cbn.
  - split; [|split; [unfold same_chain, chain_state at 1; cbn; exact Hs1|done]]. unfold pending_ok. cbn. split; [done|].
    unfold chain_state. cbn. by eapply applied_snoc.
  - split; [|split; [unfold same_chain, chain_state at 1; cbn; exact Hs1|done]]. unfold pending_ok. cbn. split; [done|].
    unfold chain_state. cbn. by eapply applied_objects.
Qed.
Lemma restore_one_pending trx n : pending_ok n →
  pending_ok (restore_one trx n).2 ∧ same_chain n (restore_one trx n).2.
Proof.
  intros Hp. unfold restore_one, n_catch, n_bind, n_gets, n_when, Datatypes.id.
  destruct (is_known_transaction _ _); cbn [negb]; [done|].
  pose proof (push_transaction_pending trx n Hp) as Ht.
  destruct (_push_transaction trx n) as [[[]|e] n']; destruct Ht as (Hp' & Hs' & _); by split.
Qed.
Lemma restore_one_returns trx n : (restore_one trx n).1 = Ok tt.
Proof. unfold restore_one, n_catch. by destruct (n_bind _ _ n) as [[[]|] ?]. Qed.
Lemma restore_each_pending l n : pending_ok n →
  (n_for_each l restore_one n).1 = Ok tt ∧ pending_ok (n_for_each l restore_one n).2 ∧
  same_chain n (n_for_each l restore_one n).2.
Proof.
  revert n. induction l as [|trx l IH]; intros n Hp; cbn [n_for_each]; [done|].
  destruct (restore_one_pending trx n Hp) as [Hp1 Hs1]. unfold n_bind.
  pose proof (restore_one_returns trx n) as E.
  destruct (restore_one trx n) as [r n1]; cbn in *. subst r.
  destruct (IH n1 Hp1) as (? & ? & Hs2). split_and!; [done..|]. by etrans.
Qed.
Lemma restore_pending_ok pending n : pending_ok n →
  pending_ok (restore_pending pending n).2 ∧
  same_chain (n <| nd_popped_tx := [] |>) (restore_pending pending n).2.
Proof.
  intros Hp. unfold restore_pending, n_bind, n_gets, n_modify.
  destruct (restore_each_pending (nd_popped_tx n) n Hp) as (E1 & Hp1 & Hs1).
  destruct (n_for_each (nd_popped_tx n) restore_one n) as [r n1]. cbn in *. subst r.
  set (n2 := n1 <| nd_popped_tx := [] |>).
  destruct (restore_each_pending pending n2) as (_ & Hp2 & Hs2); [exact Hp1|].
  split; [exact Hp2|]. etrans; [|exact Hs2]. destruct Hs1 as (?&?&?&?&?&?). by split_and!.
Qed.

(** *** Computations that leave the pending transactions alone *)

Definition idle (n : node) : Prop := nd_pending_session n = false ∧ nd_pending_tx n = [].
Definition stays_idle {A} (m : N A) : Prop := ∀ n, idle n → idle (m n).2.

Lemma idle_ok n : idle n → pending_ok n.
Proof. intros [E ?]. unfold pending_ok. by rewrite E. Qed.

Lemma idle_bind {A B} (m : N A) (k : A → N B) :
  stays_idle m → (∀ a, stays_idle (k a)) → stays_idle (n_bind m k).
Proof.
  intros Hm Hk n Hn. unfold n_bind. specialize (Hm n Hn). destruct (m n) as [[a|e] n']; [|done].
  by apply Hk.
Qed.
Lemma idle_ret {A} (a : A) : stays_idle (n_ret a).
Proof. by intros n Hn. Qed.
Lemma idle_throw {A} e : stays_idle (n_throw (A := A) e).
Proof. by intros n Hn. Qed.
Lemma idle_gets {A} (f : node → A) : stays_idle (n_gets f).
Proof. by intros n Hn. Qed.
Lemma idle_lift {A} (r : res A) : stays_idle (n_lift r).
Proof. by intros n Hn. Qed.
Lemma idle_modify f : (∀ n, idle n → idle (f n)) → stays_idle (n_modify f).
Proof. intros Hf n Hn. by apply Hf. Qed.
Lemma idle_on_db {A} (m : C A) : stays_idle (on_db m).
Proof. intros n Hn. unfold on_db. by destruct (m _) as [[]|]. Qed.
Lemma idle_on_fork {A} (m : M fork_database A) : stays_idle (on_fork m).
Proof. intros n Hn. unfold on_fork. by destruct (m _) as [[]|]. Qed.
Lemma idle_on_log {A} (m : M block_log A) : stays_idle (on_log m).
Proof. intros n Hn. unfold on_log. by destruct (m _) as [[]|]. Qed.
Lemma idle_catch {A} (m : N A) h : stays_idle m → (∀ e, stays_idle (h e)) → stays_idle (n_catch m h).
Proof.
  intros Hm Hh n Hn. unfold n_catch. specialize (Hm n Hn). destruct (m n) as [[a|e] n']; [done|].
  by apply Hh.
Qed.
Lemma idle_for_each {A} (l : list A) f : (∀ x, stays_idle (f x)) → stays_idle (n_for_each l f).
Proof. intros Hf. induction l; cbn; [apply idle_ret|]. by apply idle_bind. Qed.
Lemma idle_undo n : idle n → idle (undo n).
Proof. unfold undo. by destruct (nd_undo n) as [|[]]. Qed.
Lemma idle_in_session {A} (m : N A) : stays_idle m → stays_idle (in_session push m).
Proof.
  intros Hm n Hn. unfold in_session. specialize (Hm (start_undo_session n) Hn).
  destruct (m _) as [[a|e] n']; [done|]. by apply idle_undo.
Qed.
Lemma idle_with_skip_flags {A} skip (m : N A) : stays_idle m → stays_idle (with_skip_flags skip m).
Proof.
  intros Hm n Hn. unfold with_skip_flags, n_finally.
  pose proof (Hm (n <| nd_skip_flags := skip |>)) as Hm'. specialize (Hm' Hn). by destruct (m _).
Qed.
Lemma idle_holding {A} l (m : N A) : stays_idle m → stays_idle (holding l m).
Proof.
  intros Hm n Hn. unfold holding, n_finally.
  pose proof (Hm (n <| nd_fork ::= fun f => f <| fdb_held := l |> |>)) as Hm'.
  specialize (Hm' Hn). by destruct (m _).
Qed.

Ltac idle_step :=
  lazymatch goal with
  | |- forall _, _ => intro
  | |- stays_idle (n_bind _ _) => apply idle_bind
  | |- stays_idle (n_ret _) => apply idle_ret
  | |- stays_idle (n_throw _) => apply idle_throw
  | |- stays_idle (n_gets _) => apply idle_gets
  | |- stays_idle (n_lift _) => apply idle_lift
  | |- stays_idle (on_db _) => apply idle_on_db
  | |- stays_idle (on_fork _) => apply idle_on_fork
  | |- stays_idle (on_log _) => apply idle_on_log
  | |- stays_idle (n_catch _ _) => apply idle_catch
  | |- stays_idle (n_for_each _ _) => apply idle_for_each
  | |- stays_idle (in_session push _) => apply idle_in_session
  | |- stays_idle (with_skip_flags _ _) => apply idle_with_skip_flags
  | |- stays_idle (holding _ _) => apply idle_holding
  | |- stays_idle (n_modify undo) => apply idle_modify, idle_undo
  | |- stays_idle (n_modify _) => apply idle_modify; intros ? []; by split
  | |- stays_idle (match ?x with _ => _ end) => destruct x
  | |- stays_idle (let _ := _ in _) => cbv zeta
  | |- stays_idle ?m => let m' := eval red in m in change (stays_idle m')
  end.

Lemma idle_log_irreversible n k : stays_idle (log_irreversible n k).
Proof. revert k. induction n; intros k; cbn; repeat idle_step. apply IHn. Qed.
Lemma idle_apply_pushed skip b : stays_idle (apply_pushed skip b).
Proof. repeat first [apply idle_log_irreversible | idle_step]. Qed.
Lemma idle_pop_block : stays_idle pop_block.
Proof.
  unfold pop_block. apply idle_bind; [|repeat idle_step].
  apply idle_modify. intros n Hn. unfold reset_pending_session. by rewrite (proj1 Hn).
Qed.
Lemma idle_pop_until n id : stays_idle (pop_until n id).
Proof. induction n; cbn; repeat first [apply idle_pop_block | assumption | idle_step]. Qed.
Lemma idle_push_branch skip old c l : stays_idle (push_branch skip old c l).
Proof.
  induction l; cbn; repeat first [apply idle_apply_pushed | apply idle_pop_until | assumption | idle_step].
Qed.
Lemma idle_push_block b : stays_idle (_push_block b).
Proof.
  repeat first [apply idle_apply_pushed | apply idle_pop_until | apply idle_push_branch | idle_step].
Qed.

Lemma clear_pending_idle n : idle (clear_pending n).
Proof.
  unfold clear_pending, reset_pending_session, undo, idle. cbn.
  destruct (nd_pending_session n) eqn:E; [|by cbn; rewrite E].
  by destruct (nd_undo n) as [|[r s] rest].
Qed.
Lemma clear_pending_same n : pending_ok n → same_chain n (clear_pending n).
Proof.
  intros Hp. unfold clear_pending, reset_pending_session, same_chain, chain_state, pending_ok in *. cbn.
  destruct (nd_pending_session n) eqn:E.
  - destruct Hp as [Hu Ha]. unfold undo. cbn. destruct (nd_undo n) as [|[r s] rest]; [done|].
    cbn. by split_and!.
  - cbn. rewrite E. by split_and!.
Qed.

(** *** The operations *)

Lemma pending_ok_ext n n' : nd_undo n' = nd_undo n → nd_pending_tx n' = nd_pending_tx n →
  nd_pending_session n' = nd_pending_session n → objects (nd_db n') = objects (nd_db n) →
  pending_ok n → pending_ok n' ∧ objects (chain_state n') = objects (chain_state n).
Proof.
  unfold pending_ok, chain_state. intros -> -> -> Hd.
  destruct (nd_pending_session n); [|done]. destruct (nd_undo n) as [|[r s] rest]; [by intros [? _]|].
  intros [Hu Ha]. split; [|done]. split; [done|]. by eapply applied_objects.
Qed.

Lemma with_skip_flags_2 {A} skip (m : N A) n :
  (with_skip_flags skip m n).2 = (m (n <| nd_skip_flags := skip |>)).2 <| nd_skip_flags := nd_skip_flags n |> ∧
  (with_skip_flags skip m n).1 = (m (n <| nd_skip_flags := skip |>)).1.
Proof. unfold with_skip_flags, n_finally. by destruct (m _). Qed.

(** Pushing a block restores the pending transactions from any state. *)
Lemma push_block_pending b skip n :
  pending_ok (push_block b skip n).2 ∧
  (let n1 := clear_pending (n <| nd_skip_flags := skip |>) in
   (push_block b skip n).1 = (_push_block b n1).1 ∧
   same_chain ((_push_block b n1).2 <| nd_popped_tx := [] |> <| nd_skip_flags := nd_skip_flags n |>)
     (push_block b skip n).2).
Proof.
  unfold push_block. destruct (with_skip_flags_2 skip (without_pending_transactions (_push_block b)) n) as [E2 E1].
  rewrite E1, E2. clear E1 E2. set (n0 := n <| nd_skip_flags := skip |>).
  unfold without_pending_transactions.
  pose proof (idle_push_block b _ (clear_pending_idle n0)) as Hi'.
  destruct (_push_block b (clear_pending n0)) as [r n2]. cbn [fst snd] in *.
  destruct (restore_pending_ok (nd_pending_tx n0) n2 (idle_ok _ Hi')) as [Hp2 (?&?&?&?&?&?)].
  split_and!; [exact Hp2|done|done..].
Qed.

Lemma push_transaction_ok trx skip n : pending_ok n →
  let '(r, n') := push_transaction trx skip n in
  pending_ok n' ∧ objects (chain_state n') = objects (chain_state n) ∧ nd_fork n' = nd_fork n ∧
  nd_log n' = nd_log n ∧
  match r with
  | Ok _ => nd_pending_tx n' = nd_pending_tx n ++ [trx]
  | Throw _ => nd_pending_tx n' = nd_pending_tx n ∧ objects (nd_db n') = objects (nd_db n)
  end.
Proof.
  intros Hp. unfold push_transaction, n_catch, n_bind at 1, n_gets.
  unfold n_bind at 1, n_assert, n_lift. destruct (res_assert _ _) as [[]|e].
  2:{ unfold set_producing, n_bind, n_modify, n_throw.
      destruct (pending_ok_ext n (n <| nd_db ::= fun s => s <| is_producing := false |> |>)) as [Hp' Hc]; done. }
  unfold n_bind at 1, set_producing at 1, n_modify at 1.
  set (n1 := n <| nd_db ::= fun s => s <| is_producing := true |> |>).
  destruct (pending_ok_ext n n1) as [Hp1 Hc1]; [done..|].
  unfold n_bind at 1. set (n2 := n1 <| nd_skip_flags := skip |>).
  assert (pending_ok n2) as Hp2 by exact Hp1.
  pose proof (push_transaction_pending trx n2 Hp2) as Hr.
  unfold with_skip_flags, n_finally. fold n2.
  destruct (_push_transaction trx n2) as [r n3]. destruct Hr as (Hp3 & (Hc3 & Hf3 & Hl3 & _) & Hr).
  set (n4 := n3 <| nd_skip_flags := nd_skip_flags n1 |>).
  set (n5 := n4 <| nd_db ::= fun s => s <| is_producing := false |> |>).
  destruct (pending_ok_ext n3 n5) as [Hp5 Hc5]; [done..|].
  assert (objects (chain_state n5) = objects (chain_state n)) as Hc
    by (etrans; [exact Hc5|]; etrans; [exact Hc3|exact Hc1]).
  destruct r as [[]|e]; unfold set_producing, n_bind, n_modify, n_throw; fold n5.
  - split_and!; [exact Hp5|exact Hc|exact Hf3|exact Hl3|exact Hr].
  - destruct Hr as [Ht Hd]. split_and!; [exact Hp5|exact Hc|exact Hf3|exact Hl3|exact Ht|exact Hd].
Qed.

Inductive node_step : node → node → Prop :=
| step_push_block b skip n : node_step n (push_block b skip n).2
| step_push_transaction trx skip n : node_step n (push_transaction trx skip n).2
| step_generate_block when witness key skip b n n' :
    generate_block when witness key skip n = (Ok b, n') → node_step n n'
| step_clear_pending n : node_step n (clear_pending n)
| step_add_checkpoints l n : node_step n (add_checkpoints l n).2.

Lemma n_bind_ok {A B} (m : N A) (k : A → N B) n b n' : n_bind m k n = (Ok b, n') →
  ∃ a n1, m n = (Ok a, n1) ∧ k a n1 = (Ok b, n').
Proof. unfold n_bind. destruct (m n) as [[a|e] n1]; [|done]. by exists a, n1. Qed.

Lemma generate_pushes when witness key skip b n n' :
  generate_block when witness key skip n = (Ok b, n') →
  ∃ b' skip' n1, n' = (push_block b' skip' n1).2 <| nd_skip_flags := nd_skip_flags n |>.
Proof.
  unfold generate_block. intros Hr.
  destruct (with_skip_flags_2 skip (_generate_block when witness key) n) as [E2 E1].
  rewrite Hr in E1, E2. cbn [fst snd] in E1, E2. subst n'.
  destruct (_generate_block when witness key _) as [r n1] eqn:Hg. cbn [fst snd] in *. subst r.
  unfold _generate_block in Hg.
  do 11 (apply n_bind_ok in Hg as (? & ? & _ & Hg); cbv zeta in Hg).
  apply n_bind_ok in Hg as ([size included] & ? & _ & Hg).
  do 2 (apply n_bind_ok in Hg as (? & ? & _ & Hg); cbv zeta in Hg).
  apply n_bind_ok in Hg as (switched & n2 & Hp & Hg). injection Hg as _ <-.
  eexists _, _, _. by rewrite Hp.
Qed.

(** C8: in every state that pushing blocks and transactions and producing blocks
    lead to, from a state without pending transactions, the tables are what the
    pending transactions make of the tables of the head block: pushing a block,
    whatever comes of it, and failing to push a transaction keep it so. *)
Theorem reachable_pending_ok n n' : rtc node_step n n' → idle n → pending_ok n'.
Proof.
  intros Hr Hn. assert (pending_ok n) as Hp by by apply idle_ok. clear Hn. revert Hp.
  induction Hr as [|n n1 n2 Hs _ IH]; [done|]. intros Hp. apply IH. clear IH. destruct Hs.
  - by apply push_block_pending.
  - pose proof (push_transaction_ok trx skip n Hp) as Ht.
    destruct (push_transaction trx skip n) as [r n3]. apply Ht.
  - destruct (generate_pushes _ _ _ _ _ _ _ H3) as (b' & skip' & n4 & ->).
    exact (proj1 (push_block_pending b' skip' n4)).
  - by apply idle_ok, clear_pending_idle.
  - exact Hp.
Qed.

End Pending.

(** ** A block that fails leaves the chain as it was *)

Section Extending.
Context `{Codec, DiffPatch, Crypto, Packing}.

(** What [settle_irreversible] leaves alone. *)
Definition settled (lib : Z) (n n' : node) : Prop :=
  nd_db n' = nd_db n ∧ nd_revision n' = nd_revision n ∧
  nd_undo n' = filter (fun u => lib < u.1) (nd_undo n).

Lemma log_irreversible_frame k num n :
  let n' := (log_irreversible k num n).2 in
  nd_db n' = nd_db n ∧ nd_revision n' = nd_revision n ∧ nd_undo n' = nd_undo n.
Proof.
  revert num n. induction k as [|k IH]; intros num n; cbn [log_irreversible]; [done|].
  unfold n_bind, n_gets, n_lift. destruct (fetch_block_on_main_branch_by_number _ _) as [[p|]|e]; [|done..].
  destruct (find_item _ _) as [i|e]; [|done]. unfold on_log.
  destruct (append (itm_data i) (nd_log n)) as [[pos l]|e]; [|done].
  pose proof (IH (num + 1) (n <| nd_log := l |>)) as Hl. exact Hl.
Qed.

Lemma settle_irreversible_frame n :
  settled (gpo_last_irreversible_block_num (gpo (nd_db n))) n (settle_irreversible n).2.
Proof.
  unfold settle_irreversible, n_bind, n_gets, n_modify, settled.
  set (lib := gpo_last_irreversible_block_num _). set (n1 := commit lib n).
  assert (∀ c m, (∀ n, let n' := (m n).2 in nd_db n' = nd_db n ∧ nd_revision n' = nd_revision n ∧ nd_undo n' = nd_undo n) →
    let n' := (n_when c m n1).2 in nd_db n' = nd_db n1 ∧ nd_revision n' = nd_revision n1 ∧ nd_undo n' = nd_undo n1) as Hw.
  { intros [] m Hm; [apply Hm|done]. }
  match goal with |- context [n_when ?c ?m n1] => specialize (Hw c m); destruct (n_when c m n1) as [r n2] end.
  destruct Hw as (Hd & Hr & Hu).
  { intros n3. unfold n_bind. apply log_irreversible_frame. }
  cbn in Hd, Hr, Hu. destruct r as [[]|e]; [|by split_and!].
  unfold on_fork. by destruct (set_max_size _ _) as [[]|].
Qed.
Definition irreversible_num (s : database) : Z := gpo_last_irreversible_block_num (gpo s).

Lemma apply_block_run b n :
  let '(r, n') := _apply_block b n in
  nd_revision n' = nd_revision n ∧
  (nd_undo n' = nd_undo n ∨ ∃ s1, open_block (nd_skip_flags n) b (nd_db n) = Ok (tt, s1) ∧
     nd_undo n' = filter (fun u => irreversible_num s1 < u.1) (nd_undo n)) ∧
  match r with
  | Ok _ => Chain._apply_block (nd_skip_flags n) b (nd_db n) = Ok (tt, nd_db n')
  | Throw _ => True
  end.
Proof.
  unfold _apply_block, n_bind, n_gets. unfold on_db at 1.
  destruct (open_block _ _ _) as [[[] s1]|e] eqn:Eo; [|by split_and!; auto].
  pose proof (settle_irreversible_frame (n <| nd_db := s1 |>)) as (Hd & Hr & Hu).
  change (gpo_last_irreversible_block_num (gpo (nd_db (n <| nd_db := s1 |>))))
    with (irreversible_num s1) in Hu.
  destruct (settle_irreversible _) as [[[]|e] n2]; cbn in Hd, Hr, Hu.
  2:{ split_and!; [done| |done]. right. by exists s1. }
  unfold on_db. rewrite Hd. destruct (close_block b s1) as [[[] s2]|e] eqn:Ec.
  - split_and!; [exact Hr|right; by exists s1|]. unfold Chain._apply_block. cbn.
    by rewrite (bind_run _ _ _ _ _ Eo).
  - split_and!; [done|right; by exists s1|done].
Qed.

(** Some number is below all saved revisions. *)
Lemma below_all (u : list (Z * database)) r : ∃ lib, lib ≤ r ∧ filter (fun v => lib < v.1) u = u.
Proof.
  assert (∃ lib, lib ≤ r ∧ ∀ v, v ∈ u → lib < v.1) as (lib & Hl & Hf).
  { induction u as [|[k s] u (lib & Hl & Hf)]; [exists r; split; [done|by inversion 1]|].
    exists (Z.min lib (k - 1)). split; [lia|]. intros v [->|Hv]%elem_of_cons; [cbn; lia|].
    specialize (Hf v Hv). lia. }
  exists lib. split; [done|]. induction u as [|v u IH]; [done|].
  rewrite filter_cons_True by (apply Hf, list_elem_of_here). f_equal. apply IH.
  intros w Hw. by apply Hf, list_elem_of_further.
Qed.

Lemma removed_unknown f id : find_id (f <| _index ::= filter (fun p => has_id f id p = false) |>)
  (filter (fun p => has_id f id p = false) (_index f)) id = None.
Proof.
  unfold find_id. rewrite (proj2 (list_find_None _ _)); [done|].
  apply Stdlib.Lists.List.Forall_forall. intros p [Hp _]%list_elem_of_In%list_elem_of_filter.
  change (has_id f id p ≠ true). by rewrite Hp.
Qed.

Lemma extend_chain_outcome b skip n :
  (∀ skip' s1, checkpoint_flags (nd_checkpoints n) b skip = Ok skip' →
     open_block skip' b (nd_db n) = Ok (tt, s1) → irreversible_num s1 ≤ nd_revision n) →
  let '(r, n') := extend_chain b skip n in
  ∃ lib, lib ≤ nd_revision n ∧
  match r with
  | Ok _ => ∃ skip', Chain._apply_block skip' b (nd_db n) = Ok (tt, nd_db n') ∧
      nd_revision n' = nd_revision n + 1 ∧
      nd_undo n' = (nd_revision n + 1, nd_db n) :: filter (fun u => lib < u.1) (nd_undo n)
  | Throw _ => objects (nd_db n') = objects (nd_db n) ∧ nd_revision n' = nd_revision n ∧
      nd_undo n' = filter (fun u => lib < u.1) (nd_undo n) ∧
      find_id (nd_fork n') (_index (nd_fork n')) (block_id b) = None
  end.
Proof.
  intros Hlib. unfold extend_chain, n_catch, apply_pushed, in_session.
  set (n1 := start_undo_session n).
  assert (let '(r, n2) := apply_block b skip n1 in ∃ lib, lib ≤ nd_revision n ∧
    nd_revision n2 = nd_revision n + 1 ∧
    nd_undo n2 = (nd_revision n + 1, nd_db n) :: filter (fun u => lib < u.1) (nd_undo n) ∧
    match r with Ok _ => ∃ skip', Chain._apply_block skip' b (nd_db n) = Ok (tt, nd_db n2) | Throw _ => True end) as Hr.
  { unfold apply_block, n_bind, n_gets, n_lift. change (nd_checkpoints n1) with (nd_checkpoints n).
    destruct (below_all (nd_undo n) (nd_revision n)) as (lib0 & Hl0 & Hf0).
    destruct (checkpoint_flags _ _ _) as [skip'|e].
    2:{ exists lib0. split_and!; [done|cbn; lia|cbn; by rewrite Hf0|done]. }
    destruct (with_skip_flags_2 skip' (_apply_block b) n1) as [E2 E1].
    pose proof (apply_block_run b (n1 <| nd_skip_flags := skip' |>)) as Hr.
    destruct (with_skip_flags skip' (_apply_block b) n1) as [r n2]. cbn [fst snd] in E1, E2. subst r n2.
    destruct (_apply_block b _) as [r n2]. cbn [fst snd]. destruct Hr as (Hr & Hu & Ha).
    assert (∃ lib, lib ≤ nd_revision n ∧
      nd_undo n2 = (nd_revision n + 1, nd_db n) :: filter (fun u => lib < u.1) (nd_undo n)) as (lib & Hl & Hu').
    { destruct Hu as [Hu|(s1 & Ho & Hu)].
      - exists lib0. split; [done|]. rewrite Hu, Hf0. done.
      - pose proof (Hlib skip' s1 eq_refl Ho) as Hi. exists (irreversible_num s1). split; [done|].
        rewrite Hu. change (nd_undo (n1 <| nd_skip_flags := skip' |>)) with ((nd_revision n + 1, nd_db n) :: nd_undo n).
        rewrite filter_cons_True; [done|]. by apply Z.lt_succ_r. }
    exists lib. split_and!; [done|exact Hr|exact Hu'|]. destruct r as [[]|e]; [|done].
    exists skip'. exact Ha. }
  destruct (apply_block b skip n1) as [[[]|e] n2]; destruct Hr as (lib & Hl & Hr & Hu & Ha).
  - exists lib. split; [done|]. destruct Ha as [skip' Ha]. by exists skip'.
  - exists lib. split; [done|]. unfold n_bind, on_fork, undo. rewrite Hu. cbn.
    split_and!; [done|lia|done|]. apply removed_unknown.
Qed.

(** C9: a block that extends the chain takes effect completely or not at all.  If
    it applies, the tables are the result and the tables before it are saved on
    the undo stack; if it fails anywhere, the tables and the revision are what
    they were, no saved state that is not irreversible is lost, and the block is
    no longer in the fork database.  The block must not make itself irreversible. *)
Theorem extend_chain_atomic b skip n :
  (∀ skip' s1, checkpoint_flags (nd_checkpoints n) b skip = Ok skip' →
     open_block skip' b (nd_db n) = Ok (tt, s1) → irreversible_num s1 ≤ nd_revision n) →
  let '(r, n') := extend_chain b skip n in
  ∃ lib, lib ≤ nd_revision n ∧
  match r with
  | Ok _ => ∃ skip', Chain._apply_block skip' b (nd_db n) = Ok (tt, nd_db n') ∧
      nd_revision n' = nd_revision n + 1 ∧
      nd_undo n' = (nd_revision n + 1, nd_db n) :: filter (fun u => lib < u.1) (nd_undo n)
  | Throw _ => objects (nd_db n') = objects (nd_db n) ∧ nd_revision n' = nd_revision n ∧
      nd_undo n' = filter (fun u => lib < u.1) (nd_undo n) ∧
      find_id (nd_fork n') (_index (nd_fork n')) (block_id b) = None
  end.
Proof. apply extend_chain_outcome. Qed.

(** *** The head of the fork database *)

(** What applying a block leaves alone in the fork database. *)
Definition tip_kept (n n' : node) : Prop :=
  (fork_ok (nd_fork n) → fork_ok (nd_fork n')) ∧ head_block (nd_fork n') = head_block (nd_fork n) ∧
  nd_skip_flags n' = nd_skip_flags n.
Definition keeps_tip {A} (m : N A) : Prop := ∀ n, tip_kept n (m n).2.

#[local] Instance tip_kept_preorder : PreOrder tip_kept.
Proof.
  split; [by intros n; split_and!|]. intros n1 n2 n3 (G1 & E1 & F1) (G2 & E2 & F2).
  split_and!; [auto|congruence..].
Qed.
Lemma tip_kept_same n n' : nd_fork n' = nd_fork n → nd_skip_flags n' = nd_skip_flags n → tip_kept n n'.
Proof. intros E Es. unfold tip_kept. by rewrite E, Es. Qed.
Lemma tip_bind {A B} (m : N A) (k : A → N B) : keeps_tip m → (∀ a, keeps_tip (k a)) → keeps_tip (n_bind m k).
Proof.
  intros Hm Hk n. specialize (Hm n). unfold n_bind. destruct (m n) as [[a|e] n1]; [|done].
  etrans; [exact Hm|apply Hk].
Qed.
Lemma tip_gets {A} (f : node → A) : keeps_tip (n_gets f).
Proof. by intros n. Qed.
Lemma tip_lift {A} (r : res A) : keeps_tip (n_lift r).
Proof. by intros n. Qed.
Lemma tip_ret {A} (a : A) : keeps_tip (n_ret a).
Proof. by intros n. Qed.
Lemma tip_throw {A} e : keeps_tip (n_throw (A := A) e).
Proof. by intros n. Qed.
Lemma tip_on_db {A} (m : C A) : keeps_tip (on_db m).
Proof. intros n. unfold on_db. destruct (m _) as [[]|]; by apply tip_kept_same. Qed.
Lemma tip_on_log {A} (m : M block_log A) : keeps_tip (on_log m).
Proof. intros n. unfold on_log. destruct (m _) as [[]|]; by apply tip_kept_same. Qed.
Lemma tip_on_fork (m : M fork_database unit) :
  (∀ f u f', m f = Ok (u, f') → fdb_heap f' = fdb_heap f ∧ _head f' = _head f ∧ (fork_ok f → fork_ok f')) →
  keeps_tip (on_fork m).
Proof.
  intros Hm n. unfold on_fork. destruct (m (nd_fork n)) as [[u f']|e] eqn:E; [|done].
  destruct (Hm _ _ _ E) as (Eh & Ed & Hf). split_and!; [done| |done]. unfold head_block. cbn. by rewrite Eh, Ed.
Qed.
Lemma tip_set_max_size k : keeps_tip (on_fork (set_max_size k)).
Proof.
  apply tip_on_fork. intros f u f' Hr. destruct u. split_and!; [..|intros; by eapply set_max_size_ok].
  all: unfold set_max_size in Hr; inv_ok; destruct (_head _) eqn:E; inv_ok; [|done].
  all: unfold deref, lift in *; case_match; [|done]; inv_ok; done.
Qed.
Lemma tip_remove_block id : keeps_tip (on_fork (remove_block id)).
Proof.
  apply tip_on_fork. intros f u f' Hr. destruct u. split_and!.
  1,2: unfold remove_block in Hr; by inv_ok.
  intros Hf. by eapply fork_step_ok; [by apply (step_remove id)|].
Qed.
Lemma tip_log_irreversible k num : keeps_tip (log_irreversible k num).
Proof.
  revert num. induction k as [|k IH]; intros num; cbn [log_irreversible]; [apply tip_ret|].
  apply tip_bind; [apply tip_gets|]. intros f. apply tip_bind; [apply tip_lift|]. intros [p|]; [|apply tip_throw].
  apply tip_bind; [apply tip_lift|]. intros i. apply tip_bind; [apply tip_on_log|]. intros _. apply IH.
Qed.
Lemma tip_settle : keeps_tip settle_irreversible.
Proof.
  unfold settle_irreversible. apply tip_bind; [apply tip_gets|]. intros g.
  apply tip_bind; [by intros n; apply tip_kept_same|]. intros _. apply tip_bind; [apply tip_gets|]. intros skip.
  apply tip_bind; [|intros _; apply tip_set_max_size]. unfold n_when. case_match; [|apply tip_ret].
  apply tip_bind; [apply tip_gets|]. intros h. apply tip_log_irreversible.
Qed.
Lemma tip_with_skip_flags {A} skip (m : N A) : keeps_tip m → keeps_tip (with_skip_flags skip m).
Proof.
  intros Hm n. destruct (with_skip_flags_2 skip m n) as [-> _].
  destruct (Hm (n <| nd_skip_flags := skip |>)) as (Hf & Hh & _). by split_and!.
Qed.
Lemma tip_apply_block b skip : keeps_tip (apply_block b skip).
Proof.
  unfold apply_block. apply tip_bind; [apply tip_gets|]. intros l. apply tip_bind; [apply tip_lift|]. intros k.
  apply tip_with_skip_flags. unfold _apply_block. apply tip_bind; [apply tip_gets|]. intros sk.
  apply tip_bind; [apply tip_on_db|]. intros _. apply tip_bind; [apply tip_settle|]. intros _. apply tip_on_db.
Qed.
Lemma tip_undo n : tip_kept n (undo n).
Proof. unfold undo. destruct (nd_undo n) as [|[]]; by apply tip_kept_same. Qed.
Lemma tip_extend_chain b skip : keeps_tip (extend_chain b skip).
Proof.
  intros n. unfold extend_chain, n_catch, apply_pushed, in_session.
  pose proof (tip_apply_block b skip (start_undo_session n)) as Ha.
  destruct (apply_block b skip (start_undo_session n)) as [[[]|e] n1]; [exact Ha|].
  change (tip_kept n n1) in Ha.
  etrans; [exact Ha|]. etrans; [apply tip_undo|].
  apply (tip_bind (on_fork (remove_block (block_id b))) (fun _ => n_throw e)); [apply tip_remove_block|].
  intros _. apply tip_throw.
Qed.

(** *** An invalid block on top of the chain *)

Lemma objects_head s s' : objects s = objects s' → head_of s = head_of s'.
Proof. intros E. exact (f_equal head_of E). Qed.
Lemma head_block_num f b : fork_ok f → head_block f = Some b → ForkDb.head_num f = Some (block_num b).
Proof.
  unfold head_block, ForkDb.head_num, num_of. intros Hf Hb. destruct (_head f) as [p|]; [|done]. cbn in *.
  destruct (fdb_heap f !! p) as [i|] eqn:E; [|done]. injection Hb as <-. cbn.
  by destruct (heap_items f Hf p i E) as (-> & _).
Qed.

(** A push by which the head of the fork database is a block on top of the chain,
    the pushed one or another. *)
Lemma push_block_on_top b h n f1 x :
  skips (nd_skip_flags n) skip_fork_db = false →
  ForkDb.push_block b (nd_fork n) = Ok (h, f1) → h = _head f1 →
  head_block f1 = Some x → blk_previous x = head_block_id n →
  _push_block b n = n_bind (extend_chain b (nd_skip_flags n)) (fun _ => n_ret false) (n <| nd_fork := f1 |>).
Proof.
  intros Hskip Hp -> Hx Hprev. unfold _push_block. unfold n_bind at 1, n_gets at 1. rewrite Hskip. cbn [negb].
  unfold n_bind at 1, on_fork. rewrite Hp.
  unfold head_block in Hx. destruct (_head f1) as [p|] eqn:Eh; [|done]. cbn in Hx.
  destruct (fdb_heap f1 !! p) as [j|] eqn:Ej; [|done]. injection Hx as Hj.
  unfold n_bind at 1, n_lift at 1. cbn [of_option].
  unfold n_bind at 1, item_of at 1. unfold n_bind at 1, n_gets at 1, n_lift at 1, find_item. cbn [nd_fork].
  change (nd_fork (n <| nd_fork := f1 |>)) with f1. rewrite Ej. cbn [of_option].
  unfold n_bind at 1, n_gets at 1. unfold n_bind at 1, n_gets at 1.
  rewrite bool_decide_eq_true_2 by (unfold previous_id; rewrite Hj; exact Hprev). done.
Qed.

Lemma push_on_top_throws b h n f1 x e n1 :
  skips (nd_skip_flags n) skip_fork_db = false →
  ForkDb.push_block b (nd_fork n) = Ok (h, f1) → h = _head f1 →
  head_block f1 = Some x → blk_previous x = head_block_id n →
  _push_block b n = (Throw e, n1) → extend_chain b (nd_skip_flags n) (n <| nd_fork := f1 |>) = (Throw e, n1).
Proof.
  intros Hs Hp Hh Hx Hprev. rewrite (push_block_on_top b h n f1 x) by done. unfold n_bind.
  destruct (extend_chain _ _ _) as [[[]|e'] n']; [done|]. by intros [= <- <-].
Qed.

(** A block that does not name the head of the chain fails to extend it. *)
Lemma extend_chain_elsewhere b skip n : blk_previous b ≠ head_block_id n →
  ∃ e n', extend_chain b skip n = (Throw e, n') ∧ objects (nd_db n') = objects (nd_db n) ∧
    find_id (nd_fork n') (_index (nd_fork n')) (block_id b) = None.
Proof.
  intros Hne. pose proof (extend_chain_outcome b skip n) as Hx.
  destruct (extend_chain b skip n) as [[[]|e] n']; destruct Hx as (lib & _ & Hx).
  1,3: intros skip' s1 _ Ho%open_block_links; by destruct Hne.
  - destruct Hx as (skip' & Hx & _). apply apply_block_head in Hx as [Hx _]. by destruct Hne.
  - exists e, n'. tauto.
Qed.

(** C15: a block that extends the chain, is higher than anything known and turns out
    to be invalid stays the head of the fork database, although it is removed from
    its index.  Any block of another branch that is not higher is then taken for an
    extension of the chain, whatever it is worth and however well it links: it is
    refused, and forgotten as well, so nothing that builds on it links either.
    The branch, which could have become the longer one, is lost. *)
Theorem invalid_block_hides_fork bad n e n1 :
  fork_ok (nd_fork n) → skips (nd_skip_flags n) skip_fork_db = false →
  blk_previous bad = head_block_id n → default (-1) (ForkDb.head_num (nd_fork n)) < block_num bad →
  refusal (nd_fork n) bad = None →
  (∀ skip' s1, checkpoint_flags (nd_checkpoints n) bad (nd_skip_flags n) = Ok skip' →
     open_block skip' bad (nd_db n) = Ok (tt, s1) → irreversible_num s1 ≤ nd_revision n) →
  _push_block bad n = (Throw e, n1) →
  head_block_id n1 = head_block_id n ∧ head_block (nd_fork n1) = Some bad ∧
  find_id (nd_fork n1) (_index (nd_fork n1)) (block_id bad) = None ∧
  ∀ x, blk_previous x ≠ head_block_id n → block_num x ≤ block_num bad → refusal (nd_fork n1) x = None →
    ∃ e' n2, _push_block x n1 = (Throw e', n2) ∧ objects (nd_db n2) = objects (nd_db n) ∧
      head_block (nd_fork n2) = Some bad ∧ find_id (nd_fork n2) (_index (nd_fork n2)) (block_id x) = None.
Proof.
  intros Hf Hskip Hprev Hnum Href Hlib Hpush.
  assert (ForkDb.push_block bad (nd_fork n) = Ok (_head (pushed (nd_fork n) bad), pushed (nd_fork n) bad)) as Hp
    by by rewrite push_block_run, Href.
  set (n' := n <| nd_fork := pushed (nd_fork n) bad |>).
  assert (head_block (nd_fork n') = Some bad) as Hh by by apply pushed_head.
  apply (push_on_top_throws bad _ n _ bad e n1 Hskip Hp) in Hpush; [|done..]. fold n' in Hpush.
  pose proof (tip_extend_chain bad (nd_skip_flags n) n') as Ht. pose proof (extend_chain_outcome bad (nd_skip_flags n) n' Hlib) as Hx.
  rewrite Hpush in Ht, Hx. cbn [snd] in Ht. destruct Ht as (Hok & Ehead & Eflags), Hx as (_ & _ & Eo & _ & _ & Hbad).
  specialize (Hok (pushed_ok _ _ Hf)). rewrite Hh in Ehead.
  assert (head_block_id n1 = head_block_id n) as Eid by exact (f_equal head_id (objects_head _ _ Eo)).
  split_and!; [done..|]. intros x Hne Hle Hrefx.
  assert (ForkDb.push_block x (nd_fork n1) = Ok (_head (pushed (nd_fork n1) x), pushed (nd_fork n1) x)) as Hpx
    by by rewrite push_block_run, Hrefx.
  destruct (push_block_low _ _ _ _ Hok Hpx) as [_ Ehx]; [by rewrite (head_block_num _ _ Hok Ehead)|].
  rewrite Ehead in Ehx. rewrite (push_block_on_top x (_head (pushed (nd_fork n1) x)) n1 (pushed (nd_fork n1) x) bad); [|by rewrite Eflags|exact Hpx|done|done|by rewrite Eid].
  set (n1' := n1 <| nd_fork := pushed (nd_fork n1) x |>).
  destruct (extend_chain_elsewhere x (nd_skip_flags n1) n1') as (e' & n2 & E2 & Eo2 & Hx2).
  { change (head_block_id n1') with (head_block_id n1). by rewrite Eid. }
  pose proof (tip_extend_chain x (nd_skip_flags n1) n1') as (_ & Ht2 & _). rewrite E2 in Ht2. cbn [snd] in Ht2.
  exists e', n2. unfold n_bind. rewrite E2. split_and!; [done|by rewrite Eo2|by rewrite Ht2|done].
Qed.
End Extending.

(** ** Runs on a small chain *)

#[local] Existing Instance sample_codec.
#[local] Existing Instance sample_patch.
#[local] Existing Instance sample_crypto.
(** Blocks of these runs never reach the log. *)
#[local] Instance no_packing : Packing := {| pack_block _ := []; unpack_block _ := None |}.

(** Genesis with room for the summaries of the first blocks. *)
Definition sample_node : node :=
  mk_node (Nat.iter 5 (add_row (mk_block_summary_object null_id)) sample_genesis) [] 0
    empty_fork_database empty_block_log [] false [] 0 [].
Definition sample_node_block (prev : block_id_type) (seconds : Z) (root : string) : signed_block :=
  mk_signed_block prev (ZATTERA_GENESIS_TIME + seconds) "genesis" root [] ZATTERA_GENESIS_PUBLIC_KEY [].

Lemma reachable_pending_ok_witness :
  let trx := sample_transfer [ZATTERA_GENESIS_PUBLIC_KEY] in
  let n' := (push_transaction trx 0 sample_node).2 in
  nd_pending_tx n' = [trx] ∧ rtc node_step sample_node n' ∧ pending_ok n'.
Proof.
  intros trx n'. assert (rtc node_step sample_node n') as Hr by (apply rtc_once; constructor).
  split; [vm_compute; reflexivity|]. split; [exact Hr|].
  apply (reachable_pending_ok sample_node n' Hr). by split.
Defined.

Lemma extend_chain_atomic_witness :
  let b := sample_node_block null_id 3 "bad" in
  let n' := (extend_chain b 0 sample_node).2 in
  (extend_chain b 0 sample_node).1 = Throw (assert_exception "Merkle check failed") ∧
  objects (nd_db n') = objects (nd_db sample_node).
Proof.
  intros b n'. split; [vm_compute; reflexivity|]. unfold n'.
  pose proof (extend_chain_atomic b 0 sample_node) as Ha.
  destruct (extend_chain b 0 sample_node) as [r n1] eqn:E. destruct Ha as (lib & _ & Ha).
  - intros skip' s1 Hs. injection Hs as <-. intros Ho. exfalso.
    revert Ho. vm_compute. discriminate.
  - assert (r = (extend_chain b 0 sample_node).1) as Er by by rewrite E.
    vm_compute in Er. subst r. apply Ha.
Defined.

Fixpoint push_blocks (l : list signed_block) (n : node) : list (res bool) * node :=
  match l with
  | [] => ([], n)
  | b :: l' =>
      let '(r, n1) := push_block b 0 n in
      let '(rs, n2) := push_blocks l' n1 in
      (r :: rs, n2)
  end.
(** The number of the head of the fork database. *)
Definition fork_head_number (n : node) : option Z :=
  itm_num <$> (_head (nd_fork n) ≫= (fdb_heap (nd_fork n) !!.)).

Section Runs.
Let b1 := sample_node_block null_id 3 null_checksum.
Let a2 := sample_node_block (block_id b1) 6 null_checksum.
Let x2 := sample_node_block (block_id b1) 9 null_checksum.
Let x3 := sample_node_block (block_id x2) 12 null_checksum.
Let bad := sample_node_block (block_id a2) 15 "bad".

(** After a switch to the longer fork the head of the chain is its third
    block, but the head of the fork database is the second block: popping the old
    branch has moved it back and nothing moves it forward again. *)
Theorem switch_leaves_fork_head_behind :
  let '(rs, n) := push_blocks [b1; a2; x2; x3] sample_node in
  rs = [Ok false; Ok false; Ok false; Ok true] ∧
  head_block_number n = 3 ∧ head_block_id n = block_id x3 ∧ fork_head_number n = Some 2.
Proof. vm_compute. by split_and!. Qed.

(** On its own the valid longer fork is switched to; after an invalid block on top
    of the chain it is refused and dropped. *)
Example invalid_block_hides_longer_fork :
  (push_blocks [b1; a2; x2; bad; x3] sample_node).1 =
    [Ok false; Ok false; Ok false; Throw (assert_exception "Merkle check failed");
     Throw (assert_exception "head_block_id() == next_block.previous")] ∧
  (push_blocks [b1; a2; x2; x3] sample_node).1 = [Ok false; Ok false; Ok false; Ok true] ∧
  let n := (push_blocks [b1; a2; x2; bad; x3] sample_node).2 in
  head_block_id n = block_id a2 ∧ fork_head_number n = Some 3 ∧
  find_id (nd_fork n) (_index (nd_fork n)) (block_id x3) = None.
Proof. vm_compute. by split_and!. Qed.

(** The node after the first three blocks, all of them in its fork database. *)
Let forked : node := (push_blocks [b1; a2; x2] sample_node).2 <| nd_fork :=
  fork_of (for_each [b1; a2; x2] (fun b => ForkDb.push_block b ;; ret tt)) empty_fork_database |>.

Lemma invalid_block_hides_fork_witness :
  let n1 := (_push_block bad forked).2 in
  (_push_block bad forked).1 = Throw (assert_exception "Merkle check failed") ∧ refusal (nd_fork n1) x3 = None ∧
  ∃ e' n2, _push_block x3 n1 = (Throw e', n2) ∧ objects (nd_db n2) = objects (nd_db forked) ∧
    find_id (nd_fork n2) (_index (nd_fork n2)) (block_id x3) = None.
Proof.
  intros n1. assert ((_push_block bad forked).1 = Throw (assert_exception "Merkle check failed")) as Er
    by (vm_compute; reflexivity).
  assert (refusal (nd_fork n1) x3 = None) as Hx by (vm_compute; reflexivity).
  split; [exact Er|]. split; [exact Hx|].
  destruct (invalid_block_hides_fork bad forked (assert_exception "Merkle check failed") n1) as (_ & _ & _ & Hall).
  - apply reachable_ok, (for_each_reachable [b1; a2; x2] empty_fork_database); [apply rtc_refl|].
    vm_compute. reflexivity.
  - vm_compute. reflexivity.
  - vm_compute. reflexivity.
  - vm_compute. reflexivity.
  - vm_compute. reflexivity.
  - intros skip' s1 Hs Ho. exfalso.
    assert (checkpoint_flags (nd_checkpoints forked) bad (nd_skip_flags forked) = Ok 0) as Ec by (vm_compute; reflexivity).
    rewrite Ec in Hs. injection Hs as <-. revert Ho. vm_compute. discriminate.
  - rewrite <-Er. unfold n1. by destruct (_push_block bad forked).
  - destruct (Hall x3) as (e' & n2 & E & Eo & _ & Hn); [vm_compute; discriminate|vm_compute; discriminate|exact Hx|].
    exists e', n2. split; [exact E|]. split; [exact Eo|exact Hn].
Defined.
End Runs.
