(* ===== verification/Impacted.v ===== *)
(** * The accounts an operation concerns

    [get_impacted_account_visitor] of src/src/core/chain/utils/impacted.cpp, with
    which the history plugins file an operation under accounts.  Operations and
    the virtual operations of the chain are one variant in the code and two types
    here.  Whoever has to sign an operation is among the accounts it is filed
    under ([signers_are_impacted]). *)
From S2P Require Import Prelude Ints Config Asset Authority Headers Operations State Blocks.

Abbreviation names l := (list_to_set l : gset account_name_type).

(** The default: the accounts that must sign. *)
Definition required_signers (op : operation) : list account_name_type :=
  get_required_posting_authorities op ++ get_required_active_authorities op
    ++ get_required_owner_authorities op.

Definition operation_get_impacted_accounts (op : operation) : gset account_name_type :=
  match op with
  | account_create_operation _ creator new_account_name _ _ _ _ _
  | account_create_with_delegation_operation _ _ creator new_account_name _ _ _ _ _ _
  | create_claimed_account_operation creator new_account_name _ _ _ _ _ _ =>
      names [new_account_name; creator]
  | comment_operation parent_author _ author _ _ _ _ =>
      names (author :: if strlen parent_author =? 0 then [] else [parent_author])
  | vote_operation voter author _ _ => names [voter; author]
  | transfer_operation from to _ _ => names [from; to]
  | escrow_transfer_operation from to agent _ _ _ _ _ _ _
  | escrow_approve_operation from to agent _ _ _
  | escrow_dispute_operation from to agent _ _
  | escrow_release_operation from to agent _ _ _ _ _ => names [from; to; agent]
  | transfer_to_vesting_operation from to _ =>
      names (from :: if bool_decide (to ≠ ""%string ∧ to ≠ from) then [to] else [])
  | set_withdraw_vesting_route_operation from_account to_account _ _ => names [from_account; to_account]
  | account_witness_vote_operation account witness _ => names [account; witness]
  | account_witness_proxy_operation account proxy => names [account; proxy]
  | feed_publish_operation publisher _ => names [publisher]
  | request_account_recovery_operation recovery_account account_to_recover _ _ =>
      names [account_to_recover; recovery_account]
  | recover_account_operation account_to_recover _ _ _ => names [account_to_recover]
  | change_recovery_account_operation account_to_recover _ _ => names [account_to_recover]
  | transfer_to_savings_operation from to _ _ => names [from; to]
  | transfer_from_savings_operation from _ to _ _ => names [from; to]
  | delegate_vesting_shares_operation delegator delegatee _ => names [delegator; delegatee]
  | witness_set_properties_operation owner _ _ => names [owner]
  | _ => names (required_signers op)
  end.

(** A virtual operation requires no authority. *)
Definition virtual_get_impacted_accounts (op : virtual_operation) : gset account_name_type :=
  match op with
  | author_reward_operation author _ _ _ _ => names [author]
  | curation_reward_operation curator _ _ _ => names [curator]
  | liquidity_reward_operation owner _ => names [owner]
  | interest_operation owner _ => names [owner]
  | fill_convert_request_operation owner _ _ _ => names [owner]
  | fill_vesting_withdraw_operation from_account to_account _ _ => names [from_account; to_account]
  | shutdown_witness_operation owner => names [owner]
  | fill_order_operation current_owner _ _ open_owner _ _ => names [current_owner; open_owner]
  | fill_transfer_from_savings_operation from to _ _ _ => names [from; to]
  | return_vesting_delegation_operation account _ => names [account]
  | comment_benefactor_reward_operation benefactor author _ _ => names [benefactor; author]
  | producer_reward_operation producer _ => names [producer]
  | comment_reward_operation _ _ _ | hardfork_operation _ | comment_payout_update_operation _ _ => ∅
  end.

Definition transaction_get_impacted_accounts (trx : signed_transaction) : gset account_name_type :=
  foldl (fun acc op => acc ∪ operation_get_impacted_accounts op) ∅ (trx_operations trx).

(** ** Signers are impacted *)

Lemma transaction_impacts_operations trx op : op ∈ trx_operations trx →
  operation_get_impacted_accounts op ⊆ transaction_get_impacted_accounts trx.
Proof.
  intros Hop. unfold transaction_get_impacted_accounts.
  enough (∀ l acc, op ∈ l ∨ operation_get_impacted_accounts op ⊆ acc →
    operation_get_impacted_accounts op ⊆ foldl (fun acc op => acc ∪ operation_get_impacted_accounts op) acc l)
    as Hl by (apply Hl; by left).
  intros l. induction l as [|o l IH]; intros acc Hin; cbn; [destruct Hin as [Hin|Hin]; [inversion Hin|done]|].
  apply IH. destruct Hin as [[->|Hin]%elem_of_cons|Hin]; [right; set_solver|by left|right; set_solver].
Qed.

(** Whoever has to sign one of the operations of a valid transaction is among the
    accounts the transaction is filed under. *)
Theorem signers_are_impacted `{Codec, HeaderCrypto} trx op name :
  op ∈ trx_operations trx → operation_validate op = Ok tt → name ∈ required_signers op →
  name ∈ transaction_get_impacted_accounts trx.
Proof.
  intros Hop Hv Hn. apply (transaction_impacts_operations trx op Hop). unfold required_signers in Hn.
  destruct op; cbn in *; repeat (case_match || case_bool_decide); try set_solver.
  all: unfold escrow_approve_validate, escrow_dispute_validate, escrow_release_validate, seq_res in Hv; cbn in Hv; inv_ok; bool_prop; set_solver.
Qed.
