(* ===== verification/Bandwidth.v ===== *)
(** * Bandwidth

    The rate limits of src/src/plugins/witness/witness_plugin.cpp, which a
    producing node imposes on the transactions it accepts: each account may use
    the network in proportion to its vesting shares, measured by an average that
    decays over a week and scaled by a reserve ratio that follows how full the
    blocks are; an account has one custom operation per block; a memo must not
    give away a private key.  The tables of the plugin are keyed by their unique
    index.  [bandwidth_limit_enforced] says what a transaction that passes has
    paid for, [reserve_ratio_stays_bounded] how the reserve ratio follows the
    blocks and that it stays within its bounds. *)
From S2P Require Import Prelude Ints Config Asset Authority Headers Operations State Blocks Store Ledger Balances EvalContent Genesis Schedule Chain Impacted.

Definition RESERVE_RATIO_PRECISION : Z := 10000.
Definition RESERVE_RATIO_MIN_INCREMENT : Z := 5000.
Definition DISTANCE_CALC_PRECISION : Z := 10000.
Definition ZATTERA_BANDWIDTH_AVERAGE_WINDOW_SECONDS : Z := 60 * 60 * 24 * 7.
Definition ZATTERA_BANDWIDTH_PRECISION : Z := 1000000.
Definition ZATTERA_MAX_RESERVE_RATIO : Z := 20000.
Definition ZATTERA_SOFT_MAX_COMMENT_DEPTH : Z := 0xff.

(** ** Objects *)

Inductive bandwidth_type : Set := post | forum | market.
#[export] Instance bandwidth_type_eq_dec : EqDecision bandwidth_type.
Proof. solve_decision. Defined.
#[export] Instance bandwidth_type_countable : Countable bandwidth_type.
Proof.
  refine (inj_countable' (fun t => match t with post => 0 | forum => 1 | market => 2 end)
    (fun z => if z =? 0 then post else if z =? 1 then forum else market) _).
  by intros [].
Defined.

Record account_bandwidth_object := mk_account_bandwidth_object {
  average_bandwidth : Z;
  lifetime_bandwidth : Z;
  last_bandwidth_update : time
}.
Record reserve_ratio_object := mk_reserve_ratio_object {
  average_block_size : Z;
  current_reserve_ratio : Z;
  max_virtual_bandwidth : Z
}.
Record witness_tables := mk_witness_tables {
  account_bandwidths : gmap (account_name_type * bandwidth_type) account_bandwidth_object;
  reserve_ratio : option reserve_ratio_object
}.
#[export] Instance eta_witness_tables : Eta witness_tables := fun r =>
  mk_witness_tables (account_bandwidths r) (reserve_ratio r).
#[export] Instance set_account_bandwidths : Setter account_bandwidths := ltac:(derive_setter account_bandwidths).
#[export] Instance set_reserve_ratio : Setter reserve_ratio := ltac:(derive_setter reserve_ratio).

(** A signed 32-bit result. *)
Definition wrap_i32 (z : Z) : Z := (z + 2 ^ 31) mod 2 ^ 32 - 2 ^ 31.

(** What the check of memos uses of fc: the public key of an extended private
    key in base 58, if the text is one, and that of a key made from a seed. *)
Class KeyDerivation := {
  base58_public_key : string → option public_key_type;
  seed_public_key : string → public_key_type
}.

(** ** The reserve ratio *)

Definition initial_reserve_ratio : res reserve_ratio_object :=
  let? v := u128_div
    (u128_mul (u128_mul (u128_mul ZATTERA_MAX_BLOCK_SIZE ZATTERA_MAX_RESERVE_RATIO)
       ZATTERA_BANDWIDTH_PRECISION) ZATTERA_BANDWIDTH_AVERAGE_WINDOW_SECONDS) ZATTERA_BLOCK_INTERVAL in
  Ok (mk_reserve_ratio_object 0 (ZATTERA_MAX_RESERVE_RATIO * RESERVE_RATIO_PRECISION) v).

Definition average_size (avg block_size : Z) : Z :=
  wrap_i32 (wrap_i32 (99 * avg) + block_size) ÷ 100.

Definition adjust_reserve_ratio (avg max_block_size ratio : Z) : Z :=
  let quarter := max_block_size ÷ 4 in
  let distance := wrap_i64 (wrap_i64 (avg - quarter) * DISTANCE_CALC_PRECISION) ÷ quarter in
  if distance >? 0 then
    let r := wrap_i64 (ratio - wrap_i64 (ratio * distance) ÷ wrap_i64 (distance + DISTANCE_CALC_PRECISION)) in
    if r <? RESERVE_RATIO_PRECISION then RESERVE_RATIO_PRECISION else r
  else
    let r := wrap_i64 (ratio + Z.max RESERVE_RATIO_MIN_INCREMENT
               (wrap_i64 (ratio * distance) ÷ wrap_i64 (distance - DISTANCE_CALC_PRECISION))) in
    if r >? ZATTERA_MAX_RESERVE_RATIO * RESERVE_RATIO_PRECISION
    then ZATTERA_MAX_RESERVE_RATIO * RESERVE_RATIO_PRECISION else r.

Definition virtual_bandwidth (max_block_size ratio : Z) : res Z :=
  u128_div (u128_mul (u128_mul (wrap_u128 max_block_size) (wrap_u128 ratio))
              (ZATTERA_BANDWIDTH_PRECISION * ZATTERA_BANDWIDTH_AVERAGE_WINDOW_SECONDS))
    (ZATTERA_BLOCK_INTERVAL * RESERVE_RATIO_PRECISION).

Section Bandwidth.
Context `{Codec, Crypto}.

(** [on_post_apply_block]; [s] are the tables of the chain after the block. *)
Definition on_post_apply_block (s : database) (b : signed_block) : M witness_tables unit :=
  let max_block_size := gpo_maximum_block_size (gpo s) in
  let* t := get in
  match reserve_ratio t with
  | None => let! r := initial_reserve_ratio in modify (fun t => t <| reserve_ratio := Some r |>)
  | Some r =>
      let avg := average_size (average_block_size r) (wrap_i32 (pack_size b)) in
      if gpo_head_block_number (gpo s) mod 20 =? 0 then
        when (max_block_size ÷ 4 =? 0) (throw divide_by_zero_exception) ;;
        let ratio := adjust_reserve_ratio avg max_block_size (current_reserve_ratio r) in
        let! v := virtual_bandwidth max_block_size ratio in
        modify (fun t => t <| reserve_ratio := Some (mk_reserve_ratio_object avg ratio v) |>)
      else
        modify (fun t => t <| reserve_ratio :=
          Some (mk_reserve_ratio_object avg (current_reserve_ratio r) (max_virtual_bandwidth r)) |>)
  end.

(** ** The bandwidth of an account *)

(** What is left of an average after [delta_time] seconds. *)
Definition decayed (delta_time average : Z) : res Z :=
  if delta_time >? ZATTERA_BANDWIDTH_AVERAGE_WINDOW_SECONDS then Ok 0
  else
    let? q := u128_div (u128_mul (wrap_u128 (ZATTERA_BANDWIDTH_AVERAGE_WINDOW_SECONDS - delta_time))
                          (wrap_u128 average)) ZATTERA_BANDWIDTH_AVERAGE_WINDOW_SECONDS in
    let? v := u128_to_uint64 q in Ok (wrap_i64 v).

Definition has_bandwidth (vshares max_virtual average total : Z) : bool :=
  u128_mul (wrap_u128 average) (wrap_u128 total) <? u128_mul (wrap_u128 vshares) max_virtual.

Definition update_account_bandwidth (s : database) (a : account_object) (trx_size : Z)
    (type : bandwidth_type) : M witness_tables unit :=
  let total := amount (gpo_total_vesting_shares (gpo s)) in
  if negb (total >? 0) then ret tt else
  let* t := get in
  let band := default (mk_account_bandwidth_object 0 0 0) (account_bandwidths t !! (acc_name a, type)) in
  let trx_bandwidth := wrap_i64 (wrap_u64 (trx_size * ZATTERA_BANDWIDTH_PRECISION)) in
  let now := gpo_time (gpo s) in
  let! kept := decayed (now - last_bandwidth_update band) (average_bandwidth band) in
  let! new_bandwidth := safe.add kept trx_bandwidth in
  let! lifetime := safe.add (lifetime_bandwidth band) trx_bandwidth in
  put (t <| account_bandwidths ::=
         <[(acc_name a, type) := mk_account_bandwidth_object new_bandwidth lifetime now]> |>) ;;
  let! vshares := get_effective_vesting_shares a VESTS_SYMBOL in
  let! rr := of_option (reserve_ratio t) (key_not_found "reserve_ratio_object") in
  when (is_producing s)
    (fc_assert (has_bandwidth (amount vshares) (max_virtual_bandwidth rr) new_bandwidth total)
       "Account: bandwidth limit exceeded. Please wait to transact or power up ZTR.").

Definition is_market_operation (op : operation) : bool :=
  match op with
  | limit_order_create_operation _ _ _ _ _ _ | limit_order_cancel_operation _ _
  | transfer_operation _ _ _ _ | transfer_to_vesting_operation _ _ _ => true
  | _ => false
  end.

(** [get_required_authorities( required, required, required, other )]. *)
Definition required_accounts (trx : signed_transaction) : list account_name_type :=
  flat_set (mjoin ((fun op => get_required_active_authorities op ++ get_required_owner_authorities op
                              ++ get_required_posting_authorities op) <$> trx_operations trx)).

Definition account_of (name : account_name_type) (s : database) : res account_object :=
  let? (a, _) := (let* r := get_account name in load r) s in Ok a.

Definition on_pre_apply_transaction (s : database) (trx : signed_transaction) : M witness_tables unit :=
  lift (res_fold (fun _ op => let? _ := get_required_authorities op in Ok tt) tt (trx_operations trx)) ;;
  let trx_size := trx_pack_size trx in
  for_each (required_accounts trx) (fun auth =>
    let! a := account_of auth s in
    update_account_bandwidth s a (wrap_u32 trx_size) forum ;;
    when (existsb is_market_operation (trx_operations trx))
      (update_account_bandwidth s a (wrap_u32 (trx_size * 10)) market)).

(** ** Checks before an operation *)

Definition authority_of (name : account_name_type) (s : database) : res account_authority_object :=
  let? r := of_option (find_row (fun a => bool_decide (auth_account a = name)) s) (key_not_found "account_authority_object") in
  of_option (row r s) (key_not_found "account_authority_object").

(** The keys a memo gives away: it may be a private key or a password. *)
Definition memo_keys `{KeyDerivation} (memo : string) (name : account_name_type) : list public_key_type :=
  from_option (fun k => [k]) [] (base58_public_key memo) ++
  ((fun role => seed_public_key (name +:+ role +:+ memo)) <$> ["owner"; "active"; "posting"]%string).
Definition check_memo `{KeyDerivation} (memo : string) (account : account_object)
    (auth : account_authority_object) : res unit :=
  let keys := memo_keys memo (acc_name account) in
  let unused (a : authority) := forallb (fun kw => forallb (fun k => negb (bool_decide (fst kw = k))) keys) (key_auths a) in
  let? _ := res_assert (unused (auth_owner auth)) "Detected private owner key in memo field." in
  let? _ := res_assert (unused (auth_active auth)) "Detected private active key in memo field." in
  let? _ := res_assert (unused (auth_posting auth)) "Detected private posting key in memo field." in
  res_assert (forallb (fun k => negb (bool_decide (acc_memo_key account = k))) keys) "Detected private memo key in memo field.".

Definition check_memo_of `{KeyDerivation} (memo : string) (from : account_name_type) (s : database) : res unit :=
  if strlen memo >? 0 then
    let? account := account_of from s in
    let? auth := authority_of from s in
    check_memo memo account auth
  else Ok tt.

(** [on_pre_apply_operation] with its [operation_visitor]. *)
Definition on_pre_apply_operation `{KeyDerivation} (s : database) (op : operation) : res unit :=
  if negb (is_producing s) then Ok tt else
  match op with
  | comment_options_operation author permlink _ _ _ _ extensions =>
      let? _ := get_comment author permlink s in
      res_assert (forallb (fun beneficiaries => Z.of_nat (length beneficiaries) <=? 8) extensions)
        "Cannot specify more than 8 beneficiaries."
  | comment_operation parent_author parent_permlink _ _ _ _ _ =>
      if bool_decide (parent_author = ZATTERA_ROOT_POST_PARENT) then Ok tt else
      match find_row (is_comment parent_author parent_permlink) s with
      | Some r =>
          let? parent := of_option (row r s) (key_not_found "comment_object") in
          res_assert (com_depth parent <? ZATTERA_SOFT_MAX_COMMENT_DEPTH) "Comment is nested too deep"
      | None => Ok tt
      end
  | transfer_operation from _ _ memo | transfer_to_savings_operation from _ _ memo
  | transfer_from_savings_operation from _ _ _ memo => check_memo_of memo from s
  | _ => Ok tt
  end.

(** [on_post_apply_operation], with [_dupe_customs], which no undo restores. *)
Fixpoint insert_customs (l : list account_name_type) (dupes : gset account_name_type)
  : res unit * gset account_name_type :=
  match l with
  | [] => (Ok tt, dupes)
  | a :: l' =>
      if bool_decide (a ∈ dupes)
      then (Throw (assert_exception "Account already submitted a custom json operation this block."), dupes)
      else insert_customs l' ({[a]} ∪ dupes)
  end.
Definition on_post_apply_operation (s : database) (op : operation) (dupes : gset account_name_type)
  : res unit * gset account_name_type :=
  match op with
  | custom_operation _ _ _ | custom_json_operation _ _ _ _ | custom_binary_operation _ _ _ _ _ _ =>
      if is_producing s then insert_customs (flat_set (elements (operation_get_impacted_accounts op))) dupes
      else (Ok tt, dupes)
  | _ => (Ok tt, dupes)
  end.

End Bandwidth.

(** ** The arithmetic of the reserve ratio *)

(** The average is any 32-bit integer: its update can overflow, see
    [average_block_size_overflows]. *)
Record ratio_ok (r : reserve_ratio_object) : Prop := {
  ratio_size : - 2 ^ 31 ≤ average_block_size r < 2 ^ 31;
  ratio_range : RESERVE_RATIO_PRECISION ≤ current_reserve_ratio r ≤ ZATTERA_MAX_RESERVE_RATIO * RESERVE_RATIO_PRECISION
}.

Lemma wrap_i32_id z : - 2 ^ 31 ≤ z < 2 ^ 31 → wrap_i32 z = z.
Proof. intros Hz. unfold wrap_i32. rewrite Z.mod_small; lia. Qed.
Lemma wrap_i32_range z : - 2 ^ 31 ≤ wrap_i32 z < 2 ^ 31.
Proof. unfold wrap_i32. pose proof (Z.mod_pos_bound (z + 2 ^ 31) (2 ^ 32)). lia. Qed.
Lemma wrap_i32_add x y : wrap_i32 (wrap_i32 x + wrap_i32 y) = wrap_i32 (x + y).
Proof.
  unfold wrap_i32. f_equal.
  replace ((x + 2 ^ 31) mod 2 ^ 32 - 2 ^ 31 + ((y + 2 ^ 31) mod 2 ^ 32 - 2 ^ 31) + 2 ^ 31)
    with ((x + 2 ^ 31) mod 2 ^ 32 + (y + 2 ^ 31) mod 2 ^ 32 - 2 ^ 31) by lia.
  rewrite Zminus_mod, <-Zplus_mod, <-Zminus_mod. f_equal. lia.
Qed.

(** The sum of the decaying mean, as 32 bits hold it. *)
Lemma average_size_wrap avg size :
  average_size avg (wrap_i32 size) = wrap_i32 (99 * avg + size) ÷ 100 ∧
  - 2 ^ 31 ≤ average_size avg (wrap_i32 size) < 2 ^ 31.
Proof.
  unfold average_size. rewrite wrap_i32_add. split; [done|].
  pose proof (wrap_i32_range (99 * avg + size)) as Hr. set (z := wrap_i32 _) in *. clearbody z.
  pose proof (Z.quot_rem' z 100). pose proof (Z.rem_bound_abs z 100 ltac:(lia)). lia.
Qed.
(** While the sum fits 32 bits it is the mean. *)
Lemma average_size_exact avg size : 0 ≤ avg → 0 ≤ size → 99 * avg + size < 2 ^ 31 →
  average_size avg (wrap_i32 size) = (99 * avg + size) / 100.
Proof.
  intros Ha Hs Hfit. rewrite (proj1 (average_size_wrap _ _)), wrap_i32_id by lia.
  by rewrite Z.quot_div_nonneg by lia.
Qed.

(** A product of a ratio and a fraction below one. *)
Lemma fraction_bound ratio d p : 0 ≤ ratio → 0 ≤ d → 0 < p → 0 ≤ ratio * d ÷ (d + p) ≤ ratio.
Proof.
  intros Hr Hd Hp. rewrite Z.quot_div_nonneg by nia. split; [apply Z.div_pos; nia|].
  apply Z.div_le_upper_bound; nia.
Qed.

(** The adjustment without machine arithmetic.  The distance is that of the average
    from a quarter of the maximum, in 1/10000 of this quarter. *)
Definition adjusted_ratio (avg max ratio : Z) : Z :=
  let d := (avg - max / 4) * DISTANCE_CALC_PRECISION ÷ (max / 4) in
  if 0 <? d
  then Z.max RESERVE_RATIO_PRECISION (ratio - ratio * d / (d + DISTANCE_CALC_PRECISION))
  else Z.min (ZATTERA_MAX_RESERVE_RATIO * RESERVE_RATIO_PRECISION)
         (ratio + Z.max RESERVE_RATIO_MIN_INCREMENT (ratio * - d / (- d + DISTANCE_CALC_PRECISION))).

Lemma distance_bound avg q : - 2 ^ 31 ≤ avg < 2 ^ 31 → 16384 ≤ q < 2 ^ 30 →
  - 2 * 10 ^ 9 ≤ (avg - q) * 10000 ÷ q ≤ 2 * 10 ^ 9.
Proof.
  intros Ha Hq. destruct (Z_le_gt_dec 0 (avg - q)).
  - rewrite Z.quot_div_nonneg by lia. split; [pose proof (Z.div_pos ((avg - q) * 10000) q); lia|].
    apply Z.div_le_upper_bound; lia.
  - rewrite <-(Z.opp_involutive ((avg - q) * 10000)), Z.quot_opp_l by lia.
    rewrite Z.quot_div_nonneg by lia. pose proof (Z.div_pos (- ((avg - q) * 10000)) q).
    assert (- ((avg - q) * 10000) / q ≤ 2 * 10 ^ 9) by (apply Z.div_le_upper_bound; lia). lia.
Qed.

Lemma adjust_reserve_ratio_spec avg max ratio :
  - 2 ^ 31 ≤ avg < 2 ^ 31 → 65536 ≤ max < 2 ^ 32 →
  RESERVE_RATIO_PRECISION ≤ ratio ≤ ZATTERA_MAX_RESERVE_RATIO * RESERVE_RATIO_PRECISION →
  adjust_reserve_ratio avg max ratio = adjusted_ratio avg max ratio ∧
  RESERVE_RATIO_PRECISION ≤ adjusted_ratio avg max ratio ≤ ZATTERA_MAX_RESERVE_RATIO * RESERVE_RATIO_PRECISION.
Proof.
  unfold RESERVE_RATIO_PRECISION, ZATTERA_MAX_RESERVE_RATIO. intros Ha Hm Hr.
  unfold adjust_reserve_ratio, adjusted_ratio, DISTANCE_CALC_PRECISION,
    RESERVE_RATIO_PRECISION, ZATTERA_MAX_RESERVE_RATIO, RESERVE_RATIO_MIN_INCREMENT.
  rewrite (Z.quot_div_nonneg max 4) by lia. set (q := max / 4).
  assert (16384 ≤ q < 2 ^ 30) as Hq by (unfold q; split; [apply Z.div_le_lower_bound|apply Z.div_lt_upper_bound]; lia).
  rewrite (wrap_i64_id (avg - q)) by (unfold in_i64, INT64_MIN, INT64_MAX; lia).
  rewrite (wrap_i64_id ((avg - q) * 10000)) by (unfold in_i64, INT64_MIN, INT64_MAX; lia).
  pose proof (distance_bound avg q Ha Hq) as Hd. set (d := (avg - q) * 10000 ÷ q) in *. clearbody d. cbv zeta.
  rewrite (Z.gtb_ltb d 0). destruct (0 <? d) eqn:Ed; bool_prop.
  - pose proof (fraction_bound ratio d 10000) as Hf.
    rewrite (wrap_i64_id (ratio * d)), (wrap_i64_id (d + 10000)) by (unfold in_i64, INT64_MIN, INT64_MAX; nia).
    rewrite wrap_i64_id by (unfold in_i64, INT64_MIN, INT64_MAX; nia).
    rewrite Z.quot_div_nonneg in * by nia.
    destruct (_ <? _) eqn:E; bool_prop; lia.
  - pose proof (fraction_bound ratio (- d) 10000) as Hf.
    rewrite (wrap_i64_id (ratio * d)), (wrap_i64_id (d - 10000)) by (unfold in_i64, INT64_MIN, INT64_MAX; nia).
    replace (ratio * d ÷ (d - 10000)) with (ratio * - d ÷ (- d + 10000)).
    2:{ rewrite <-Z.quot_opp_opp by lia. f_equal; lia. }
    rewrite wrap_i64_id by (unfold in_i64, INT64_MIN, INT64_MAX; lia).
    rewrite Z.quot_div_nonneg in * by nia.
    destruct (_ >? _) eqn:E; bool_prop; lia.
Qed.

Section Properties.
Context `{Codec, Crypto}.

Lemma virtual_bandwidth_exact max ratio : 0 ≤ max < 2 ^ 32 →
  0 ≤ ratio ≤ ZATTERA_MAX_RESERVE_RATIO * RESERVE_RATIO_PRECISION →
  virtual_bandwidth max ratio = Ok (max * ratio * (ZATTERA_BANDWIDTH_PRECISION * ZATTERA_BANDWIDTH_AVERAGE_WINDOW_SECONDS)
                                    / (ZATTERA_BLOCK_INTERVAL * RESERVE_RATIO_PRECISION)).
Proof.
  unfold ZATTERA_MAX_RESERVE_RATIO, RESERVE_RATIO_PRECISION. intros Hm Hr.
  unfold virtual_bandwidth, u128_div, u128_mul, wrap_u128.
  rewrite (Z.mod_small max), (Z.mod_small ratio), (Z.mod_small (max * ratio)), Z.mod_small; [done|..];
    unfold ZATTERA_BANDWIDTH_PRECISION, ZATTERA_BANDWIDTH_AVERAGE_WINDOW_SECONDS; nia.
Qed.

(** C33: after every block, whatever its size, and with the least block limit that
    witnesses can vote for, the reserve ratio is exactly what its definition says
    and between one and its maximum.  The first block starts it at
    the maximum.  On every twentieth block it falls by the fraction
    [d / (d + 1)] if the average block is fuller than a quarter by [d] quarters,
    not below one, and otherwise rises by the corresponding fraction but at least
    half a unit, up to the maximum, and the virtual bandwidth is recomputed from
    it; the 64-bit and 128-bit arithmetic never overflows or divides by zero.
    Other blocks leave it.  The average block size is the decaying mean as long as
    99 times the average and the size together fit the 32 bits they are added in,
    and what remains of them modulo 2^32 if not (the signed addition overflows). *)
Theorem reserve_ratio_stays_bounded s b t :
  65536 ≤ gpo_maximum_block_size (gpo s) < 2 ^ 32 →
  (∀ r, reserve_ratio t = Some r → ratio_ok r) →
  ∃ r', on_post_apply_block s b t = Ok (tt, t <| reserve_ratio := Some r' |>) ∧ ratio_ok r' ∧
  let max := gpo_maximum_block_size (gpo s) in
  let bandwidth m ratio := m * ratio * (ZATTERA_BANDWIDTH_PRECISION * ZATTERA_BANDWIDTH_AVERAGE_WINDOW_SECONDS)
                             / (ZATTERA_BLOCK_INTERVAL * RESERVE_RATIO_PRECISION) in
  match reserve_ratio t with
  | None =>
      let highest := ZATTERA_MAX_RESERVE_RATIO * RESERVE_RATIO_PRECISION in
      r' = mk_reserve_ratio_object 0 highest (bandwidth ZATTERA_MAX_BLOCK_SIZE highest)
  | Some r =>
      let sum := 99 * average_block_size r + pack_size b in
      average_block_size r' = wrap_i32 sum ÷ 100 ∧
      (0 ≤ average_block_size r → 0 ≤ pack_size b → sum < 2 ^ 31 → average_block_size r' = sum / 100) ∧
      if gpo_head_block_number (gpo s) mod 20 =? 0 then
        current_reserve_ratio r' = adjusted_ratio (average_block_size r') max (current_reserve_ratio r) ∧
        max_virtual_bandwidth r' = bandwidth max (current_reserve_ratio r')
      else current_reserve_ratio r' = current_reserve_ratio r ∧ max_virtual_bandwidth r' = max_virtual_bandwidth r
  end.
Proof.
  intros Hmax Hok. unfold on_post_apply_block. erewrite bind_run by reflexivity.
  destruct (reserve_ratio t) as [r|].
  2:{ eexists. split; [reflexivity|]. split; [|vm_compute; reflexivity].
      split; vm_compute; split; first [discriminate|reflexivity]. }
  destruct (Hok r eq_refl) as [Hs Hr].
  destruct (average_size_wrap (average_block_size r) (pack_size b)) as [Ea Hs'].
  pose proof (average_size_exact (average_block_size r) (pack_size b)) as Ex.
  set (avg := average_size _ _) in *. clearbody avg.
  destruct (_ =? 0).
  - destruct (adjust_reserve_ratio_spec _ _ _ Hs' Hmax Hr) as [Er Hr'].
    assert (gpo_maximum_block_size (gpo s) ÷ 4 =? 0 = false) as ->.
    { apply Z.eqb_neq. rewrite Z.quot_div_nonneg by lia. pose proof (Z.div_le_lower_bound (gpo_maximum_block_size (gpo s)) 4 1). lia. }
    erewrite bind_run by reflexivity. rewrite Er. clear Er. set (ratio := adjusted_ratio _ _ _) in *.
    assert (0 ≤ ratio ≤ ZATTERA_MAX_RESERVE_RATIO * RESERVE_RATIO_PRECISION) as Hr0 by (unfold RESERVE_RATIO_PRECISION in *; lia).
    pose proof (virtual_bandwidth_exact (gpo_maximum_block_size (gpo s)) ratio ltac:(lia) Hr0) as Hv.
    destruct (virtual_bandwidth _ _) as [v|e]; [|discriminate Hv]. injection Hv as Hv.
    exists (mk_reserve_ratio_object avg ratio v). split; [reflexivity|]. split; [by split|]. by split_and!.
  - eexists. split; [reflexivity|]. split; [by split|]. by split_and!.
Qed.

(** Blocks of 22 million bytes are well below the maximum the chain starts with.
    At the 372nd of them 99 times the average no longer fits 32 bits, and the
    average of these blocks is negative. *)
Example average_block_size_overflows :
  22000000 < ZATTERA_MAX_BLOCK_SIZE ∧
  Nat.iter 372 (fun avg => average_size avg 22000000) 0 < 0.
Proof. split; vm_compute; reflexivity. Qed.

(** ** What a transaction pays *)

Definition bands_ok (now : time) (t : witness_tables) : Prop :=
  ∀ k b, account_bandwidths t !! k = Some b →
    0 ≤ average_bandwidth b ≤ INT64_MAX ∧ 0 ≤ last_bandwidth_update b ≤ now.

(** The part of an average that is left, as a fraction of the window. *)
Definition remaining (delta average : Z) : Z :=
  Z.max 0 (ZATTERA_BANDWIDTH_AVERAGE_WINDOW_SECONDS - delta) * average / ZATTERA_BANDWIDTH_AVERAGE_WINDOW_SECONDS.

Lemma decayed_exact delta average : 0 ≤ delta → 0 ≤ average ≤ INT64_MAX →
  decayed delta average = Ok (remaining delta average) ∧ 0 ≤ remaining delta average ≤ average.
Proof.
  unfold decayed, remaining, ZATTERA_BANDWIDTH_AVERAGE_WINDOW_SECONDS, INT64_MAX. intros Hd Ha.
  change (60 * 60 * 24 * 7) with 604800.
  assert (0 ≤ Z.max 0 (604800 - delta) * average / 604800 ≤ average) as Hb.
  { split; [apply Z.div_pos; nia|]. apply Z.div_le_upper_bound; nia. }
  split; [|done]. destruct (_ >? _) eqn:E; bool_prop.
  { replace (Z.max 0 (604800 - delta)) with 0 by lia. done. }
  rewrite Z.max_r in * by lia. unfold u128_div, u128_mul, wrap_u128.
  rewrite (Z.mod_small (604800 - delta)), (Z.mod_small average) by lia. rewrite Z.mod_small by nia.
  cbn [res_bind]. change (604800 =? 0) with false. cbn [res_bind].
  unfold u128_to_uint64, res_assert. rewrite (proj2 (Z.ltb_lt _ _)) by lia. cbn [res_bind].
  rewrite wrap_i64_id; [done|]. unfold in_i64, INT64_MIN, INT64_MAX. lia.
Qed.

(** The check of the limit is sound: its products wrap at 128 bits only on the
    side of what the account may use. *)
Lemma has_bandwidth_sound vshares max_virtual average total :
  0 ≤ vshares → 0 ≤ max_virtual → 0 ≤ average ≤ INT64_MAX → 0 ≤ total ≤ INT64_MAX →
  has_bandwidth vshares max_virtual average total = true → average * total < vshares * max_virtual.
Proof.
  unfold INT64_MAX, has_bandwidth, u128_mul, wrap_u128. intros Hv Hm Ha Ht Hl. bool_prop.
  rewrite (Z.mod_small average), (Z.mod_small total), (Z.mod_small (average * total)) in Hl by nia.
  pose proof (Z.mod_le (vshares mod 2 ^ 128 * max_virtual) (2 ^ 128)).
  pose proof (Z.mod_le vshares (2 ^ 128)). pose proof (Z.mod_pos_bound vshares (2 ^ 128)). nia.
Qed.

Definition band_of (t : witness_tables) (k : account_name_type * bandwidth_type) : account_bandwidth_object :=
  default (mk_account_bandwidth_object 0 0 0) (account_bandwidths t !! k).
(** The average after using [size] bytes now. *)
Definition charged (now : time) (t : witness_tables) (k : account_name_type * bandwidth_type) (size : Z) : Z :=
  remaining (now - last_bandwidth_update (band_of t k)) (average_bandwidth (band_of t k))
    + size * ZATTERA_BANDWIDTH_PRECISION.

Section Charge.
Context (s : database).
Let now := gpo_time (gpo s).
Let total := amount (gpo_total_vesting_shares (gpo s)).
Context (Hnow : 0 ≤ now) (Htotal : 0 < total ≤ INT64_MAX).

Lemma band_of_ok t k : bands_ok now t →
  0 ≤ average_bandwidth (band_of t k) ≤ INT64_MAX ∧ 0 ≤ last_bandwidth_update (band_of t k) ≤ now.
Proof.
  intros Hb. unfold band_of. destruct (account_bandwidths t !! k) eqn:E; [by eapply Hb|].
  cbn. unfold INT64_MAX. lia.
Qed.

Lemma update_account_bandwidth_ok a size type k t u t' :
  update_account_bandwidth s a size type t = Ok (u, t') → 0 ≤ size < 2 ^ 32 → bands_ok now t →
  k = (acc_name a, type) →
  ∃ lifetime vshares rr,
    t' = t <| account_bandwidths ::= <[k := mk_account_bandwidth_object (charged now t k size) lifetime now]> |> ∧
    get_effective_vesting_shares a VESTS_SYMBOL = Ok vshares ∧ reserve_ratio t = Some rr ∧
    0 ≤ charged now t k size ≤ INT64_MAX ∧
    (is_producing s = true →
     has_bandwidth (amount vshares) (max_virtual_bandwidth rr) (charged now t k size) total = true).
Proof.
  intros Hr Hs Hb Ek. destruct (band_of_ok t k Hb) as [Ha Hl]. unfold update_account_bandwidth in Hr.
  fold total now in Hr. rewrite Z.gtb_ltb, (proj2 (Z.ltb_lt _ _)) in Hr by lia. cbn [negb] in Hr.
  inv_ok.
  destruct (decayed_exact (now - last_bandwidth_update (band_of t (acc_name a, type)))
    (average_bandwidth (band_of t (acc_name a, type)))) as [Ed Hd]; [lia|done|].
  assert (wrap_i64 (wrap_u64 (size * ZATTERA_BANDWIDTH_PRECISION)) = size * ZATTERA_BANDWIDTH_PRECISION) as Ew.
  { unfold ZATTERA_BANDWIDTH_PRECISION. unfold wrap_u64. rewrite Z.mod_small by lia.
    apply wrap_i64_id. unfold in_i64, INT64_MIN, INT64_MAX. lia. }
  rewrite Ew in *. assert (x1 = remaining (now - last_bandwidth_update (band_of t (acc_name a, type)))
    (average_bandwidth (band_of t (acc_name a, type)))) as -> by (unfold band_of in *; congruence).
  assert (x2 = charged now t (acc_name a, type) size) as -> by (by apply safe_add_ok in H3).
  assert (0 ≤ charged now t (acc_name a, type) size ≤ INT64_MAX) as Hc.
  { split; [unfold charged, ZATTERA_BANDWIDTH_PRECISION; lia|].
    apply safe_add_exact in H3; [apply H3|..]; unfold in_i64, INT64_MIN, INT64_MAX, ZATTERA_BANDWIDTH_PRECISION in *; lia. }
  exists x3, x6, x7. unfold when in Hr. destruct (is_producing s); inv_ok;
    (split_and!; [done..|apply Hc|apply Hc|done]).
Qed.

Lemma bands_ok_insert t k average lifetime : bands_ok now t → 0 ≤ average ≤ INT64_MAX →
  bands_ok now (t <| account_bandwidths ::= <[k := mk_account_bandwidth_object average lifetime now]> |>).
Proof.
  intros Hb Ha k' b. cbn. rewrite lookup_insert_Some. intros [[_ <-]|[_ Hk]]; [|by eapply Hb]. cbn. lia.
Qed.

(** [name] was charged for [size] bytes and stays within its share. *)
Definition paid (size : Z) (t t' : witness_tables) (name : account_name_type) : Prop :=
  let used := charged now t (name, forum) size in
  ∃ a vshares rr lifetime, account_of name s = Ok a ∧ get_effective_vesting_shares a VESTS_SYMBOL = Ok vshares ∧
    reserve_ratio t = Some rr ∧
    account_bandwidths t' !! (name, forum) = Some (mk_account_bandwidth_object used lifetime now) ∧
    (0 ≤ amount vshares → 0 ≤ max_virtual_bandwidth rr → used * total < amount vshares * max_virtual_bandwidth rr).

(** Only rows of [name] differ. *)
Definition only_rows (names : list account_name_type) (t t' : witness_tables) : Prop :=
  reserve_ratio t' = reserve_ratio t ∧
  ∀ name type, name ∉ names → account_bandwidths t' !! (name, type) = account_bandwidths t !! (name, type).

Lemma account_of_name name a : account_of name s = Ok a → acc_name a = name.
Proof.
  unfold account_of. intros Ha. inv_ok. destruct x as [a' s']. inv_ok.
  match goal with E : get_account _ _ = _ |- _ => apply get_by_ok in E as [-> Hf] end.
  match goal with E : load _ _ = _ |- _ => apply load_ok in E as [Hr _] end.
  by apply (find_row_some _ _ _ _ Hf), bool_decide_eq_true in Hr.
Qed.

Section Loop.
Context (Hprod : is_producing s = true) (size : Z) (Hsize : 0 ≤ size < 2 ^ 32).

Lemma paid_frame t t1 t' name names : only_rows names t t1 → name ∉ names → paid size t1 t' name → paid size t t' name.
Proof.
  intros [Er Hrows] Hn. unfold paid. cbv zeta. rewrite Er.
  assert (charged now t1 (name, forum) size = charged now t (name, forum) size) as ->; [|done].
  unfold charged, band_of. by rewrite Hrows.
Qed.

Lemma charge_account name (is_market : bool) t t' :
  (let! a := account_of name s in
   update_account_bandwidth s a (wrap_u32 size) forum ;;
   when is_market (update_account_bandwidth s a (wrap_u32 (size * 10)) market)) t = Ok (tt, t') →
  bands_ok now t → bands_ok now t' ∧ only_rows [name] t t' ∧ paid size t t' name.
Proof.
  intros Hr Hb. inv_ok. rename x into a. pose proof (account_of_name _ _ H1) as En.
  assert (wrap_u32 size = size) as Ew by by apply Z.mod_small. rewrite Ew in *.
  match goal with E : update_account_bandwidth _ _ _ forum _ = _ |- _ =>
    destruct (update_account_bandwidth_ok _ _ _ (name, forum) _ _ _ E) as (l1 & v1 & rr1 & -> & Hv & Hrr & Hc & Hh);
      [done|done|by rewrite En|] end.
  match type of Hr with when _ _ ?x = _ => set (t1 := x) in * end.
  assert (bands_ok now t1) as Hb1 by (by apply bands_ok_insert).
  assert (bands_ok now t' ∧ reserve_ratio t' = reserve_ratio t ∧
    ∀ k, k ≠ (name, market) → account_bandwidths t' !! k = account_bandwidths t1 !! k) as (Hb' & Er & Hk).
  { unfold when in Hr. destruct is_market; [|by inv_ok].
    apply (update_account_bandwidth_ok _ _ _ (name, market)) in Hr as (l2 & v2 & rr2 & -> & _ & _ & Hc2 & _);
      [|apply Z.mod_pos_bound; lia|done|by rewrite En].
    split_and!; [by apply bands_ok_insert|done|]. intros k Hne. cbn. by rewrite lookup_insert_ne. }
  split; [done|]. split.
  - split; [done|]. intros n ty Hn. assert (n ≠ name) by (intros ->; apply Hn; left).
    rewrite Hk by congruence. cbn. rewrite lookup_insert_ne by congruence. done.
  - exists a, v1, rr1, l1. split_and!; [done..| |].
    + rewrite Hk by congruence. cbn. by rewrite lookup_insert_eq.
    + intros Hv0 Hm0. apply has_bandwidth_sound; [done..|lia|auto].
Qed.

Lemma charge_accounts is_market l t t' : NoDup l →
  for_each l (fun auth =>
    let! a := account_of auth s in
    update_account_bandwidth s a (wrap_u32 size) forum ;;
    when is_market (update_account_bandwidth s a (wrap_u32 (size * 10)) market)) t = Ok (tt, t') →
  bands_ok now t → bands_ok now t' ∧ only_rows l t t' ∧ Forall (paid size t t') l.
Proof.
  intros Hnd. revert t. induction Hnd as [|name l Hin _ IH]; intros t Hr Hb; cbn [for_each] in Hr.
  { inv_ok. split_and!; [done..|]. by constructor. }
  apply bind_ok in Hr as ([] & t1 & H1%charge_account & Hr); [|done]. destruct H1 as (Hb1 & [Er1 Ho1] & Hp1).
  destruct (IH t1 Hr Hb1) as (Hb' & [Er2 Ho2] & Hf). split; [done|]. split.
  - split; [congruence|]. intros n ty [Hn1 Hn2]%not_elem_of_cons.
    rewrite Ho2 by done. apply Ho1. by rewrite list_elem_of_singleton.
  - constructor.
    + destruct Hp1 as (a & v & rr & lt & ? & ? & ? & Hl & ?). exists a, v, rr, lt.
      split_and!; try done. by rewrite Ho2.
    + rewrite Forall_lookup in *. intros i n Hn. apply (paid_frame _ t1 _ _ [name]); [by split| |by eapply Hf].
      rewrite list_elem_of_singleton. intros ->. by apply Hin, list_elem_of_lookup_2 with i.
Qed.
End Loop.
End Charge.

(** *** One custom operation per account and block *)

Lemma insert_customs_spec l dupes dupes' : insert_customs l dupes = (Ok tt, dupes') →
  (∀ a, a ∈ l → a ∉ dupes) ∧ ∀ a, a ∈ dupes' ↔ a ∈ l ∨ a ∈ dupes.
Proof.
  revert dupes. induction l as [|a l IH]; intros dupes Hr; cbn in Hr.
  { injection Hr as <-. set_solver. }
  case_bool_decide as Ha; [discriminate Hr|]. destruct (IH _ Hr) as [H1 H2]. split.
  - intros b [->|Hb]%elem_of_cons; [done|]. specialize (H1 b Hb). set_solver.
  - intros b. rewrite H2. set_solver.
Qed.

Definition is_custom (op : operation) : bool :=
  match op with
  | custom_operation _ _ _ | custom_json_operation _ _ _ _ | custom_binary_operation _ _ _ _ _ _ => true
  | _ => false
  end.
(** The operations of a block one after the other. *)
Fixpoint run_customs (s : database) (l : list operation) (dupes : gset account_name_type)
  : res unit * gset account_name_type :=
  match l with
  | [] => (Ok tt, dupes)
  | op :: l' =>
      match on_post_apply_operation s op dupes with
      | (Ok _, dupes') => run_customs s l' dupes'
      | bad => bad
      end
  end.

Lemma customs_disjoint s l dupes dupes' : is_producing s = true →
  run_customs s l dupes = (Ok tt, dupes') →
  (∀ op name, op ∈ l → is_custom op = true → name ∈ operation_get_impacted_accounts op → name ∉ dupes) ∧
  ∀ i j op op', (i < j)%nat → l !! i = Some op → l !! j = Some op' → is_custom op = true → is_custom op' = true →
    operation_get_impacted_accounts op ## operation_get_impacted_accounts op'.
Proof.
  intros Hp. revert dupes. induction l as [|o l IH]; intros dupes Hr; cbn [run_customs] in Hr.
  { split; [by inversion 1|by intros i j]. }
  destruct (on_post_apply_operation s o dupes) as [[[]|e] d1] eqn:E; [|discriminate Hr].
  destruct (IH _ Hr) as [Hd Hl].
  assert (dupes ⊆ d1 ∧ (is_custom o = true → operation_get_impacted_accounts o ## dupes ∧
    operation_get_impacted_accounts o ⊆ d1)) as [Hsub Ho].
  { unfold on_post_apply_operation in E. rewrite Hp in E.
    destruct (is_custom o) eqn:Ec; [|destruct o; try discriminate Ec; injection E as <-; done].
    assert (insert_customs (flat_set (elements (operation_get_impacted_accounts o))) dupes = (Ok tt, d1)) as E'
      by (by destruct o). apply insert_customs_spec in E' as [H1 H2].
    assert (∀ a, a ∈ flat_set (elements (operation_get_impacted_accounts o)) ↔ a ∈ operation_get_impacted_accounts o) as Hf.
    { intros a. unfold flat_set. rewrite merge_sort_Permutation, elem_of_remove_dups, elem_of_elements. done. }
    split; [|intros _; split]; intros a Ha; [apply H2; by right|by apply H1, Hf|apply H2; left; by apply Hf]. }
  split.
  - intros op name [->|Hop]%elem_of_cons Hc Hn; [destruct (Ho Hc); set_solver|].
    intros Hin. by apply (Hd op name Hop Hc Hn), Hsub.
  - intros [|i] [|j] op op' Hij Hi Hj Hc Hc'; [lia| |lia|by eapply (Hl i j); [lia|..]].
    injection Hi as <-. intros a Ha Ha'. apply (Hd op' a); [by eapply list_elem_of_lookup_2|done..|].
    by apply (proj2 (Ho Hc)).
Qed.

(** C32: a producing node accepts a transaction only from accounts that can afford
    it: every account whose authority the transaction needs is charged for its
    size, on top of what is left of its use in the last week, and the result is
    below the account's share of the virtual bandwidth, in exact arithmetic.  No
    other row is touched. *)
Theorem bandwidth_limit_enforced s trx t t' :
  on_pre_apply_transaction s trx t = Ok (tt, t') →
  is_producing s = true → 0 ≤ gpo_time (gpo s) → 0 < amount (gpo_total_vesting_shares (gpo s)) ≤ INT64_MAX →
  0 ≤ trx_pack_size trx < 2 ^ 32 → bands_ok (gpo_time (gpo s)) t →
  bands_ok (gpo_time (gpo s)) t' ∧ only_rows (required_accounts trx) t t' ∧
  Forall (paid s (trx_pack_size trx) t t') (required_accounts trx).
Proof.
  intros Hr Hprod Hnow Htotal Hsize Hb. unfold on_pre_apply_transaction in Hr. inv_ok.
  eapply charge_accounts; eauto using flat_set_NoDup.
Qed.
End Properties.

(** ** A small chain *)

(** Genesis, on a producing node, with half of the vesting shares held by the
    genesis account. *)
Definition sample_power : database :=
  let s := run_state (let* r := get_account "genesis" in
    modify_row r (fun a => a <| acc_vesting_share_balance := mk_asset 500 VESTS_SYMBOL |>)) sample_genesis in
  s <| is_producing := true |>
    <| gpo ::= fun g => g <| gpo_total_vesting_shares := mk_asset 1000 VESTS_SYMBOL |>
                          <| gpo_maximum_block_size := 131072 |> <| gpo_head_block_number := 40 |> |>.
Definition tables_after {A} (m : M witness_tables A) (t : witness_tables) : witness_tables :=
  match m t with Ok (_, t') => t' | Throw _ => t end.
Definition sample_tables : witness_tables :=
  mk_witness_tables ∅ (Some (mk_reserve_ratio_object 60000 100000 (10 ^ 18))).

(** The average of 59,401 bytes is 0.81 quarters above a quarter of 131,072 bytes. *)
Lemma reserve_ratio_stays_bounded_witness :
  let _ := sample_crypto in
  ∃ r, reserve_ratio (tables_after (on_post_apply_block sample_power (sample_block null_id 0)) sample_tables) = Some r ∧
    ratio_ok r ∧ average_block_size r = 59401 ∧ current_reserve_ratio r = 55167.
Proof.
  intros K. destruct (reserve_ratio_stays_bounded (H0 := K) sample_power (sample_block null_id 0) sample_tables)
    as (r & E & Hr & Ea & _ & Ec & _).
  - vm_compute. split; [discriminate|reflexivity].
  - intros r [= <-]. split; vm_compute; split; discriminate || reflexivity.
  - exists r. unfold tables_after. rewrite E. split; [reflexivity|]. split; [exact Hr|].
    assert (average_block_size r = 59401) as Ha by (rewrite Ea; vm_compute; reflexivity).
    split; [exact Ha|]. rewrite Ec, Ha. vm_compute. reflexivity.
Defined.

Lemma bandwidth_limit_enforced_witness :
  let _ := sample_codec in let _ := sample_crypto in
  let trx := sample_transfer [] in
  let t' := tables_after (on_pre_apply_transaction sample_power trx) sample_tables in
  required_accounts trx = ["genesis"%string] ∧
  Forall (paid sample_power 50 sample_tables t') ["genesis"%string].
Proof.
  intros C K trx t'. split; [vm_compute; reflexivity|].
  apply (bandwidth_limit_enforced (H := C) (H0 := K) sample_power trx sample_tables t').
  - vm_compute. reflexivity.
  - vm_compute. reflexivity.
  - vm_compute. discriminate.
  - vm_compute. split; [reflexivity|discriminate].
  - vm_compute. split; [discriminate|reflexivity].
  - intros k b Hb. vm_compute in Hb. discriminate Hb.
Defined.
