(* ===== verification/Producer.v ===== *)
(** * Producing blocks

    The block production of src/src/plugins/witness/witness_plugin.cpp: once a
    second the plugin looks at the clock and the schedule and, when one of its own
    witnesses is due, has the node generate a block and broadcasts it.  The clock
    is an argument, in microseconds, one for each reading of [time_point::now].
    A block is produced only by a witness that is due and only with its key
    ([produces_only_own_slots]), and a later block of the same node is for a
    later slot as long as the head of the chain does not go back behind the
    first ([one_block_per_slot]). *)
From S2P Require Import Prelude Ints Config Asset Authority Headers Operations State Blocks ForkDb BlockLog Store Ledger Balances EvalAccounts EvalContent Genesis Schedule Chain Frames Heads Node.

(** ** The plugin *)

Inductive block_production_condition : Set :=
| produced | not_synced | not_my_turn | not_time_yet | no_private_key | low_participation
| lag | consecutive | wait_for_genesis | exception_producing_block.

Record witness_plugin := mk_witness_plugin {
  _production_enabled : bool;
  _required_witness_participation : Z;
  _production_skip_flags : Z;
  _private_keys : gmap public_key_type string;
  _witnesses : gset account_name_type;
  (** when the timer fires, in microseconds *)
  _timer : option Z;
  (** the blocks handed to the network, latest first *)
  wp_broadcast : list signed_block
}.
#[export] Instance eta_witness_plugin : Eta witness_plugin := fun r =>
  mk_witness_plugin (_production_enabled r) (_required_witness_participation r)
    (_production_skip_flags r) (_private_keys r) (_witnesses r) (_timer r) (wp_broadcast r).
#[export] Instance set_production_enabled : Setter _production_enabled := ltac:(derive_setter _production_enabled).
#[export] Instance set_production_skip_flags : Setter _production_skip_flags := ltac:(derive_setter _production_skip_flags).
#[export] Instance set_timer : Setter _timer := ltac:(derive_setter _timer).
#[export] Instance set_wp_broadcast : Setter wp_broadcast := ltac:(derive_setter wp_broadcast).

(** [time_point_sec( t )] of a time in microseconds. *)
Definition time_point_sec (t : Z) : time := wrap_u32 (t ÷ 1000000).

(** The next whole second, but not within 50 milliseconds. *)
Definition time_to_next_second (now : Z) : Z :=
  let d := 1000000 - Z.rem now 1000000 in
  if d <? 50000 then d + 1000000 else d.
Definition schedule_production_loop (now : Z) (p : witness_plugin) : witness_plugin :=
  p <| _timer := Some (now + time_to_next_second now) |>.

Definition rounded (now_fine : Z) : time := time_point_sec (now_fine + 500000).

Section Producer.
Context `{Codec, DiffPatch, Crypto, Packing}.

(** [maybe_produce_block] once production is enabled; a produced block comes
    with the condition. *)
Definition produce (now : time) (p : witness_plugin)
  : N (block_production_condition * option signed_block) :=
  let+ s := n_gets nd_db in
  let slot := get_slot_at_time (gpo s) now in
  if slot =? 0 then n_ret (not_time_yet, None) else
  let+ scheduled_witness := n_lift (get_scheduled_witness (gpo s) (witness_schedule s) slot) in
  if negb (bool_decide (scheduled_witness ∈ _witnesses p)) then n_ret (not_my_turn, None) else
  let scheduled_time := get_slot_time (gpo s) slot in
  let+ w := on_db (let* r := get_witness scheduled_witness in load r) in
  match _private_keys p !! wit_signing_key w with
  | None => n_ret (no_private_key, None)
  | Some key =>
      if witness_participation_rate (gpo s) <? _required_witness_participation p
      then n_ret (low_participation, None)
      else if Z.abs (1000000 * scheduled_time - 1000000 * now) >? 500000 then n_ret (lag, None)
      else
        let+ block := generate_block scheduled_time scheduled_witness key (_production_skip_flags p) in
        n_ret (produced, Some block)
  end.

Definition maybe_produce_block (now_fine : Z) (p : witness_plugin) (n : node)
  : res block_production_condition * witness_plugin * node :=
  let now := rounded now_fine in
  let p := if _production_enabled p then p
           else if get_slot_time (gpo (nd_db n)) 1 >=? now then p <| _production_enabled := true |>
           else p in
  if negb (_production_enabled p) then (Ok not_synced, p, n) else
  match produce now p n with
  | (Ok (c, None), n') => (Ok c, p, n')
  | (Ok (c, Some b), n') => (Ok c, p <| wp_broadcast ::= cons b |>, n')
  | (Throw e, n') => (Throw e, p, n')
  end.

(** One tick; [now], [now_fine] and [later] are the three readings of the clock. *)
Definition block_production_loop (now now_fine later : Z) (p : witness_plugin) (n : node)
  : res block_production_condition * witness_plugin * node :=
  if now <? 1000000 * ZATTERA_GENESIS_TIME
  then (Ok wait_for_genesis, schedule_production_loop later p, n)
  else
    let '(r, p', n') := maybe_produce_block now_fine p n in
    match r with
    | Ok c => (Ok c, schedule_production_loop later p', n')
    | Throw e =>
        if bool_decide (e = assert_exception "unknown_hardfork_exception") then (Throw e, p', n')
        else (Ok exception_producing_block, schedule_production_loop later p', n')
    end.

(** [plugin_startup]: a node that may produce on a stale chain does not insist
    on undo history either. *)
Definition witness_plugin_startup (now : Z) (p : witness_plugin) : witness_plugin :=
  if bool_decide (_witnesses p = ∅) then p else
  schedule_production_loop now
    (if _production_enabled p
     then p <| _production_skip_flags ::= Z.lor skip_undo_history_check |> else p).

End Producer.

(** ** What a produced block is *)

Section Produced.
Context `{Codec, DiffPatch, Crypto, Packing}.

Lemma applied_head l s s' : applied l s s' → head_of s' = head_of s.
Proof.
  assert (∀ s s', objects s = objects s' → head_of s = head_of s') as Ho.
  { intros s1 s2 E. exact (f_equal head_of E). }
  induction 1 as [s s' E|l trx skip s s1 s2 s3 s4 _ IH E2 Hr E4]; [by apply Ho|].
  rewrite (Ho _ _ E4), <-IH, <-(Ho _ _ E2).
  exact (keeps_apply_transaction skip trx _ _ _ Hr).
Qed.
Lemma pending_head n : pending_ok n → head_of (chain_state n) = head_of (nd_db n).
Proof.
  unfold pending_ok, chain_state. destruct (nd_pending_session n); [|done].
  intros [Hu Ha%applied_head]. by destruct (nd_undo n) as [|[]].
Qed.

(** Trying transactions leaves everything but the tables and the revision. *)
Definition only_tables (n n' : node) : Prop :=
  nd_undo n' = nd_undo n ∧ nd_fork n' = nd_fork n ∧ nd_pending_tx n' = nd_pending_tx n ∧
  nd_pending_session n' = nd_pending_session n ∧ nd_skip_flags n' = nd_skip_flags n.

Lemma include_transaction_frame w size acc tx n : nd_undo n ≠ [] →
  only_tables n (include_transaction w size acc tx n).2.
Proof.
  intros Hu. unfold include_transaction. destruct acc as [total included].
  destruct (_ <? _); [by split_and!|]. destruct (_ >=? _); [by split_and!|].
  unfold n_catch, n_bind, in_session, n_gets, on_db, start_undo_session, upd. cbn.
  destruct (_apply_transaction _ _ _) as [[[] s]|e]; unfold squash, undo; cbn;
    destruct (nd_undo n) as [|u rest] eqn:E; try done; by split_and!.
Qed.
Lemma include_transactions_frame w size l acc n : nd_undo n ≠ [] →
  only_tables n (include_transactions w size acc l n).2.
Proof.
  revert acc n. induction l as [|tx l IH]; intros acc n Hu; cbn [include_transactions]; [by split_and!|].
  pose proof (include_transaction_frame w size acc tx n Hu) as Ht.
  unfold n_bind. destruct (include_transaction _ _ _ _ n) as [[acc'|e] n1]; [|exact Ht].
  destruct Ht as (E1 & E2 & E3 & E4 & E5). cbn in *.
  destruct (IH acc' n1) as (?&?&?&?&?); [congruence|]. split_and!; congruence.
Qed.

Lemma n_lift_ok {A} (r : res A) n a n' : n_lift r n = (Ok a, n') → r = Ok a ∧ n' = n.
Proof. unfold n_lift. by intros [= -> ->]. Qed.
Lemma n_assert_ok c msg n u n' : n_assert c msg n = (Ok u, n') → c = true ∧ n' = n.
Proof. intros [E%res_assert_ok ->]%n_lift_ok. done. Qed.
Lemma n_when_assert_ok d c msg n u n' : n_when d (n_assert c msg) n = (Ok u, n') → n' = n.
Proof. destruct d; [by intros [_ ->]%n_assert_ok|by intros [= _ ->]]. Qed.

(** [n_inv H] splits a run that starts with a read, a lookup or an assertion. *)
Ltac n_inv H :=
  let a := fresh "a" in let n := fresh "n" in let E := fresh "E" in
  apply n_bind_ok in H as (a & n & E & H); cbv zeta in H;
  first [ apply n_assert_ok in E as [E ->] | apply n_when_assert_ok in E as ->
        | apply n_lift_ok in E as [E ->]
        | injection E as <- <- | idtac ];
  try match type of a with unit => destruct a end;
  try (match type of E with Ok _ = Ok _ => injection E as E end; subst).

Lemma reset_pending n : pending_ok n →
  objects (nd_db (reset_pending_session n)) = objects (chain_state n) ∧
  nd_fork (reset_pending_session n) = nd_fork n ∧ nd_pending_session (reset_pending_session n) = false.
Proof.
  unfold pending_ok, reset_pending_session, chain_state, undo. destruct (nd_pending_session n) eqn:E; [|done].
  intros [Hu _]. by destruct (nd_undo n) as [|[r s] rest].
Qed.

(** Trying transactions in a session that is then reset leaves the tables. *)
Lemma trial_session w size l acc n r n' :
  include_transactions w size acc l ((start_undo_session n) <| nd_pending_session := true |>) = (r, n') →
  objects (nd_db (reset_pending_session n')) = objects (nd_db n) ∧
  nd_fork (reset_pending_session n') = nd_fork n ∧ nd_pending_session (reset_pending_session n') = false.
Proof.
  intros Hi. destruct (include_transactions_frame w size l acc ((start_undo_session n) <| nd_pending_session := true |>))
    as (Eu & Ef & _ & Es & _); [done|]. rewrite Hi in Eu, Ef, Es. cbn in Eu, Ef, Es.
  unfold reset_pending_session, undo. rewrite Es, Eu. done.
Qed.

(** A witness is looked up in the tables, which stay as they are. *)
Lemma read_witness name n w n' :
  on_db (let* r := get_witness name in load r) n = (Ok w, n') →
  n' = n ∧ ∃ r, get_witness name (nd_db n) = Ok (r, nd_db n) ∧ row r (nd_db n) = Some w.
Proof.
  unfold on_db. destruct (bind _ _ _) as [[w' s]|e] eqn:E; [|done]. intros [= <- <-].
  apply bind_ok in E as (r & s1 & E1 & E2%load_ok). destruct E2 as [E2 ->].
  assert (s1 = nd_db n) as -> by (unfold get_witness, get_by, find_by in E1; inv_ok; repeat (case_match; inv_ok); done).
  split; [by destruct n|]. by exists r.
Qed.

Lemma generate_block_inv w name key skip b n n' : pending_ok n →
  generate_block w name key skip n = (Ok b, n') →
  0 < get_slot_at_time (gpo (nd_db n)) w ∧
  get_scheduled_witness (gpo (nd_db n)) (witness_schedule (nd_db n)) (get_slot_at_time (gpo (nd_db n)) w) = Ok name ∧
  blk_previous b = head_block_id n ∧ blk_timestamp b = w ∧ blk_witness b = name ∧
  ∃ n1 sw, (push_block b skip n1).1 = Ok sw ∧
    n' = (push_block b skip n1).2 <| nd_skip_flags := nd_skip_flags n |> ∧
    nd_fork n1 = nd_fork n ∧ nd_pending_session n1 = false ∧
    objects (nd_db n1) = objects (chain_state n).
Proof.
  intros Hp Hr. unfold generate_block in Hr.
  destruct (with_skip_flags_2 skip (_generate_block w name key) n) as [E2 E1].
  rewrite Hr in E1, E2. cbn [fst snd] in E1, E2. subst n'.
  set (m := n <| nd_skip_flags := skip |>) in *.
  assert (pending_ok m) as Hm by exact Hp. assert (chain_state m = chain_state n) as Hc by done.
  assert (nd_db m = nd_db n) as Hd by done. assert (nd_fork m = nd_fork n) as Hf by done.
  assert (nd_skip_flags m = skip) as Hs by done. clearbody m.
  destruct (_generate_block w name key m) as [r n2] eqn:Hg. cbn [fst snd] in *. subst r.
  unfold _generate_block in Hg. do 5 n_inv Hg. bool_prop. subst.
  apply n_bind_ok in Hg as (wit & n3 & [-> _]%read_witness & Hg). do 5 n_inv Hg.
  destruct (reset_pending m Hm) as (Eo & Ef & _).
  apply n_bind_ok in Hg as ([size included] & n5 & (Eo' & Ef' & Es')%trial_session & Hg).
  do 2 n_inv Hg. apply n_bind_ok in Hg as (switched & n6 & Hb & Hg). injection Hg as <- <-.
  split; [by rewrite <-Hd|]. split; [by rewrite <-Hd|].
  split_and!; [unfold head_block_id; by rewrite <-Hd; case_match|by case_match..|].
  exists (reset_pending_session n5), switched. rewrite Hb. split_and!; [done|done|congruence|done|congruence].
Qed.

(** ** A produced block becomes the head *)

Lemma extend_chain_applied b skip n u n' : extend_chain b skip n = (Ok u, n') →
  ∃ skip', Chain._apply_block skip' b (nd_db n) = Ok (tt, nd_db n').
Proof.
  unfold extend_chain, n_catch. destruct (apply_pushed skip b n) as [[[]|e] n1] eqn:E.
  2:{ unfold n_bind, on_fork. by destruct (remove_block _ _) as [[]|]. }
  intros [= _ <-]. unfold apply_pushed, in_session in E.
  destruct (apply_block b skip (start_undo_session n)) as [[[]|e] n2] eqn:Ea; [|done]. injection E as <-.
  unfold apply_block in Ea. do 2 n_inv Ea.
  match type of Ea with with_skip_flags ?k ?m ?x = _ => destruct (with_skip_flags_2 k m x) as [E2 E1]; exists k end.
  rewrite Ea in E1, E2. cbn [fst snd] in E1, E2. subst n2.
  match type of E1 with _ = (_apply_block b ?x).1 => pose proof (apply_block_run b x) as Hr end.
  destruct (_apply_block b _) as [r n3]. cbn in E1. subst r. exact (proj2 (proj2 Hr)).
Qed.

(** The head of the fork database is not above the head of the chain, or is a child
    of it, as an invalid block that was put on top of the chain stays. *)
Definition fork_ready (n : node) : Prop :=
  default (-1) (ForkDb.head_num (nd_fork n)) < wrap_u32 (num_from_id (head_block_id n) + 1) ∨
  ∃ x, head_block (nd_fork n) = Some x ∧ blk_previous x = head_block_id n.

Lemma push_block_extends b n sw n' : fork_ok (nd_fork n) → blk_previous b = head_block_id n →
  fork_ready n → _push_block b n = (Ok sw, n') →
  ∃ skip n1, nd_db n1 = nd_db n ∧ extend_chain b skip n1 = (Ok tt, n').
Proof.
  intros Hf Hprev Hready Hr. unfold _push_block in Hr. n_inv Hr.
  destruct (skips (nd_skip_flags n) skip_fork_db); cbn [negb] in Hr.
  { apply n_bind_ok in Hr as ([] & n1 & Hr & [= _ <-]). by eexists _, _. }
  apply n_bind_ok in Hr as (h & n1 & Hp & Hr). unfold on_fork in Hp.
  destruct (ForkDb.push_block b (nd_fork n)) as [[h' f1]|e] eqn:Ep; [|done]. injection Hp as <- <-.
  assert (h' = _head f1 ∧ ∃ x, head_block f1 = Some x ∧ blk_previous x = head_block_id n) as (-> & x & Hx & Hpx).
  { destruct Hready as [Hn|(x & Hx & Hpx)].
    - destruct (push_block_head _ _ _ _ Hf Ep) as [? ?]; [unfold block_num, header_num; cbn [signed_header_part hdr_previous]; by rewrite Hprev|].
      split; [done|by exists b].
    - destruct (push_block_heads _ _ _ _ Hf Ep) as [? [?|E]]; split; [done|by exists b|done|].
      exists x. by rewrite E. }
  unfold head_block in Hx. destruct (_head f1) as [p|] eqn:Eh; [|done]. cbn in Hx.
  destruct (fdb_heap f1 !! p) as [j|] eqn:Ej; [|done]. injection Hx as Hj.
  n_inv Hr. apply n_bind_ok in Hr as (j' & n2 & Hi & Hr).
  unfold item_of, find_item in Hi. n_inv Hi. cbn in E. injection E as <-.
  apply n_lift_ok in Hi as [Hi ->]. rewrite Ej in Hi. injection Hi as <-. do 2 n_inv Hr.
  rewrite bool_decide_eq_true_2 in Hr by exact Hpx.
  cbn [negb] in Hr.
  apply n_bind_ok in Hr as ([] & n1 & Hr & [= _ <-]). eexists _, _. split; [|exact Hr]. done.
Qed.

Lemma generated_head w name key skip b n n' :
  pending_ok n → fork_ok (nd_fork n) → fork_ready n →
  generate_block w name key skip n = (Ok b, n') →
  pending_ok n' ∧ head_id (head_of (nd_db n')) = block_id b ∧ head_time (head_of (nd_db n')) = w.
Proof.
  intros Hp Hf Ha Hg. apply generate_block_inv in Hg; [|done].
  destruct Hg as (_ & _ & Hprev & Ht & _ & n1 & sw & Hr & -> & Ef & Es & Eo).
  destruct (push_block_pending b skip n1) as (Hp' & Hr' & Hs).
  change (pending_ok (push_block b skip n1).2) in Hp'.
  split; [exact Hp'|]. change (nd_db (_ <| nd_skip_flags := _ |>)) with (nd_db (push_block b skip n1).2).
  rewrite <-(pending_head _ Hp').
  set (n2 := clear_pending (n1 <| nd_skip_flags := skip |>)) in *.
  assert (nd_db n2 = nd_db n1 ∧ nd_fork n2 = nd_fork n1) as [Ed2 Ef2]
    by (unfold n2, clear_pending, reset_pending_session; cbn; by rewrite Es).
  assert (head_of (nd_db n2) = head_of (nd_db n)) as Eh
    by (rewrite Ed2, <-(pending_head n Hp); by apply objects_head).
  assert (idle (_push_block b n2).2) as [Ei _] by apply idle_push_block, clear_pending_idle.
  destruct Hs as (Hs & _). apply objects_head in Hs. rewrite Hs.
  destruct (_push_block b n2) as [r n3] eqn:E. cbn [fst snd] in *. rewrite Hr' in Hr. subst r.
  unfold chain_state. cbn. rewrite Ei.
  destruct (push_block_extends b n2 sw n3) as (k & n4 & E4 & Hx); [by rewrite Ef2, Ef|..|exact E|].
  - rewrite Hprev. symmetry. exact (f_equal head_id Eh).
  - unfold fork_ready in *. rewrite Ef2, Ef.
    replace (head_block_id n2) with (head_block_id n) by (symmetry; exact (f_equal head_id Eh)). done.
  - apply extend_chain_applied in Hx as [k' Hx]. apply apply_block_head in Hx.
    destruct Hx as (_ & _ & Hx1 & _ & Hx2). split; [exact Hx1|]. rewrite <-Ht. exact Hx2.
Qed.

(** ** When a block is produced *)

(** The conditions under which a block is due from this node. *)
Definition entitled (now : time) (p : witness_plugin) (n : node) (b : signed_block) : Prop :=
  let g := gpo (nd_db n) in
  let slot := get_slot_at_time g now in
  0 < slot ∧ get_slot_time g slot = now ∧ blk_timestamp b = now ∧
  get_scheduled_witness g (witness_schedule (nd_db n)) slot = Ok (blk_witness b) ∧
  blk_witness b ∈ _witnesses p ∧
  (∃ r w, get_witness (blk_witness b) (nd_db n) = Ok (r, nd_db n) ∧ row r (nd_db n) = Some w ∧
          is_Some (_private_keys p !! wit_signing_key w)) ∧
  _required_witness_participation p ≤ witness_participation_rate g.

Lemma same_second a b : Z.abs (1000000 * a - 1000000 * b) ≤ 500000 → a = b.
Proof. lia. Qed.

Lemma produce_outcome now p n : pending_ok n →
  match produce now p n with
  | (Ok (c, Some b), n') => c = produced ∧ entitled now p n b ∧ blk_previous b = head_block_id n ∧
      ∃ key, generate_block now (blk_witness b) key (_production_skip_flags p) n = (Ok b, n')
  | (Ok (c, None), n') => c ≠ produced ∧ n' = n
  | (Throw _, _) => True
  end.
Proof.
  intros Hp. destruct (produce now p n) as [[[c o]|e] n'] eqn:E; [|done].
  unfold produce in E. n_inv E. destruct (_ =? 0) eqn:Es; [by injection E as <- <- <-|].
  apply n_bind_ok in E as (name & ? & [Hw ->]%n_lift_ok & E).
  case_bool_decide as Hin; cbn [negb] in E; [|by injection E as <- <- <-]. cbv zeta in E.
  apply n_bind_ok in E as (w & ? & (-> & r & Hr & Hrow)%read_witness & E).
  destruct (_private_keys p !! wit_signing_key w) as [key|] eqn:Ek; [|by injection E as <- <- <-].
  destruct (_ <? _) eqn:Er; [by injection E as <- <- <-|].
  destruct (_ >? _) eqn:El; [by injection E as <- <- <-|].
  apply n_bind_ok in E as (b & n1 & Hg & [= <- <- <-]). bool_prop. apply same_second in El.
  rewrite El in Hg. destruct (generate_block_inv _ _ _ _ _ _ _ Hp Hg) as (H1' & H2' & H3' & H4' & H5' & _).
  unfold entitled. rewrite H5'. split_and!; try done; [by eexists _, _|by exists key].
Qed.

Lemma produces_only t p n : pending_ok n →
  match maybe_produce_block t p n with
  | (Ok produced, p', n') => ∃ b, wp_broadcast p' = b :: wp_broadcast p ∧
      entitled (rounded t) p n b ∧ blk_previous b = head_block_id n ∧
      ∃ key skip, generate_block (rounded t) (blk_witness b) key skip n = (Ok b, n')
  | (Ok _, p', n') => n' = n ∧ wp_broadcast p' = wp_broadcast p
  | (Throw _, p', _) => wp_broadcast p' = wp_broadcast p
  end.
Proof.
  intros Hp. unfold maybe_produce_block.
  match goal with |- context [negb (_production_enabled ?x)] => set (p1 := x) end.
  assert (wp_broadcast p1 = wp_broadcast p ∧ ∀ now b, entitled now p1 n b → entitled now p n b) as [Eb He].
  { unfold p1. destruct (_production_enabled p); [done|]. by destruct (_ >=? _). }
  destruct (negb (_production_enabled p1)); [done|].
  pose proof (produce_outcome (rounded t) p1 n Hp) as Ho.
  destruct (produce (rounded t) p1 n) as [[[c [b|]]|e] n']; [..|done].
  - destruct Ho as (-> & Hx & Hb & key & Hg). exists b. split_and!; [cbn; by rewrite Eb|by apply He|done|by eexists _, _].
  - destruct Ho as [Hc ->]. by destruct c.
Qed.

(** C30: a block is produced only when it is due from this node: the clock, rounded
    to the second, is the time of a slot after the head block, the witness
    scheduled for this slot is one of the node's own and its key is at hand, and
    enough witnesses take part.  The block then builds on the head, carries the
    time of the slot and is broadcast; in every other case the node stays as it
    is and nothing is broadcast. *)
Theorem produces_only_own_slots t p n : pending_ok n →
  match maybe_produce_block t p n with
  | (Ok produced, p', n') => ∃ b, wp_broadcast p' = b :: wp_broadcast p ∧
      entitled (rounded t) p n b ∧ blk_previous b = head_block_id n
  | (Ok _, p', n') => n' = n ∧ wp_broadcast p' = wp_broadcast p
  | (Throw _, p', _) => wp_broadcast p' = wp_broadcast p
  end.
Proof.
  intros Hp%(produces_only t p). destruct (maybe_produce_block t p n) as [[[c|e] p'] n']; [|done].
  destruct c; try done. destruct Hp as (b & ? & ? & ? & _). by exists b.
Qed.

(** A tick that produces has a block for the current second. *)
Lemma tick_produces t p n p' n' : pending_ok n → maybe_produce_block t p n = (Ok produced, p', n') →
  ∃ b key skip, wp_broadcast p' = b :: wp_broadcast p ∧ entitled (rounded t) p n b ∧
    generate_block (rounded t) (blk_witness b) key skip n = (Ok b, n').
Proof.
  intros Hp Hm. pose proof (produces_only t p n Hp) as Hb. rewrite Hm in Hb.
  destruct Hb as (b & Hw & He & _ & key & skip & Hg). by exists b, key, skip.
Qed.

(** A block that is due comes after the head. *)
Lemma entitled_after now p n b : entitled now p n b → 0 ≤ gpo_time (gpo (nd_db n)) →
  gpo_time (gpo (nd_db n)) + ZATTERA_BLOCK_INTERVAL < 2 ^ 32 → gpo_time (gpo (nd_db n)) < now.
Proof.
  intros (Hs & _) Hge Hfit. revert Hs. unfold get_slot_at_time.
  rewrite get_slot_time_eq by (unfold ZATTERA_BLOCK_INTERVAL in *; lia).
  pose proof (slot_base_bound (gpo (nd_db n)) Hge).
  destruct (Z.ltb_spec now (slot_base (gpo (nd_db n)) + 1 * ZATTERA_BLOCK_INTERVAL)); intros; [lia|].
  unfold slot_base, ZATTERA_BLOCK_INTERVAL in *.
  pose proof (Z.mod_pos_bound (gpo_time (gpo (nd_db n))) 3). pose proof (Z.div_mod (gpo_time (gpo (nd_db n))) 3).
  destruct (_ =? 0); lia.
Qed.

(** C31: two blocks are produced for one slot only if the head of the chain went
    back in between.  A tick that produces a block and any later one, whatever
    happened to the node in between: if the head block is then not older than the
    block produced first, a block the later tick produces has a later time stamp.
    And the first block is the head of the chain when it has been produced, unless
    the fork database knew a block above the head that does not build on it. *)
Theorem one_block_per_slot t p n p1 n1 :
  pending_ok n → maybe_produce_block t p n = (Ok produced, p1, n1) →
  ∃ b, wp_broadcast p1 = b :: wp_broadcast p ∧
    (fork_ok (nd_fork n) → fork_ready n →
     head_id (head_of (nd_db n1)) = block_id b ∧ gpo_time (gpo (nd_db n1)) = blk_timestamp b) ∧
    ∀ t' p' n' p2 n2, pending_ok n' → gpo_time (gpo (nd_db n')) + ZATTERA_BLOCK_INTERVAL < 2 ^ 32 →
      blk_timestamp b ≤ gpo_time (gpo (nd_db n')) →
      maybe_produce_block t' p' n' = (Ok produced, p2, n2) →
      ∃ b', wp_broadcast p2 = b' :: wp_broadcast p' ∧ blk_timestamp b < blk_timestamp b'.
Proof.
  intros Hp (b & key & skip & Hb & He & Hg)%tick_produces; [|done].
  assert (blk_timestamp b = rounded t) as Et by apply He.
  exists b. split_and!; [done|..].
  - intros Hf Hr. apply generated_head in Hg as (_ & Hi & Ht); [|done..]. split; [done|].
    rewrite Et. exact Ht.
  - intros t' p' n' p2 n2 Hp' Hfit Hle (b' & _ & _ & Hb' & He' & _)%tick_produces; [|done].
    exists b'. split; [done|]. assert (blk_timestamp b' = rounded t') as -> by apply He'.
    assert (0 ≤ rounded t) by (apply Z.mod_pos_bound; lia).
    pose proof (entitled_after _ _ _ _ He'). lia.
Qed.

(** Every tick but one that meets an unknown hardfork arms the timer again, for a
    whole second at most 1.05 seconds away. *)
Theorem production_loop_rearms now now_fine later p n : 0 ≤ later →
  let '(r, p', _) := block_production_loop now now_fine later p n in
  is_ok r = true → ∃ t, _timer p' = Some t ∧ t mod 1000000 = 0 ∧ later + 50000 ≤ t < later + 1050000.
Proof.
  intros Hl. assert (∀ q, ∃ t, _timer (schedule_production_loop later q) = Some t ∧ t mod 1000000 = 0 ∧
    later + 50000 ≤ t < later + 1050000) as Hs.
  { intros q. eexists. split; [reflexivity|]. unfold time_to_next_second.
    pose proof (Z.rem_bound_pos later 1000000 Hl ltac:(lia)). pose proof (Z.quot_rem' later 1000000) as Eq.
    assert (∀ k, later + (k * 1000000 - Z.rem later 1000000) = (later ÷ 1000000 + k) * 1000000) as Ek by lia.
    destruct (_ <? _) eqn:E; bool_prop; (split; [|lia]).
    - replace (later + _) with ((later ÷ 1000000 + 2) * 1000000) by lia. by apply Z.mod_mul.
    - replace (later + _) with ((later ÷ 1000000 + 1) * 1000000) by lia. by apply Z.mod_mul. }
  unfold block_production_loop. destruct (_ <? _); [by intros _|].
  destruct (maybe_produce_block now_fine p n) as [[[c|e] p'] n']; [by intros _|].
  case_bool_decide; [done|by intros _].
Qed.

End Produced.

(** ** A node that produces *)

#[local] Existing Instance sample_codec.
#[local] Existing Instance sample_patch.
#[local] Existing Instance sample_crypto.
#[local] Instance producer_packing : Packing := {| pack_block _ := []; unpack_block _ := None |}.

Definition sample_plugin : witness_plugin :=
  mk_witness_plugin false (33 * 100) 0 {[ZATTERA_GENESIS_PUBLIC_KEY := ZATTERA_GENESIS_PUBLIC_KEY]}
    {["genesis"%string]} None [].
(** A little before the first slot. *)
Definition sample_tick : Z := 1000000 * (ZATTERA_GENESIS_TIME + 3) - 400000.

Lemma produces_only_own_slots_witness :
  ∃ p' n' b, maybe_produce_block sample_tick sample_plugin sample_node = (Ok produced, p', n') ∧
    wp_broadcast p' = [b] ∧ entitled (ZATTERA_GENESIS_TIME + 3) sample_plugin sample_node b.
Proof.
  pose proof (produces_only_own_slots sample_tick sample_plugin sample_node) as Hp.
  destruct (maybe_produce_block sample_tick sample_plugin sample_node) as [[r p'] n'] eqn:E.
  assert (r = (maybe_produce_block sample_tick sample_plugin sample_node).1.1) as Er by by rewrite E.
  vm_compute in Er. subst r. destruct Hp as (b & Hb & He & _); [apply idle_ok; split; reflexivity|].
  exists p', n', b. split_and!; [done|exact Hb|exact He].
Defined.

(** The next slot, three seconds later, gets a block of its own. *)
Lemma one_block_per_slot_witness :
  ∃ p1 n1 b p2 n2 b', maybe_produce_block sample_tick sample_plugin sample_node = (Ok produced, p1, n1) ∧
    maybe_produce_block (sample_tick + 3000000) p1 n1 = (Ok produced, p2, n2) ∧
    wp_broadcast p2 = [b'; b] ∧ blk_timestamp b < blk_timestamp b'.
Proof.
  destruct (maybe_produce_block sample_tick sample_plugin sample_node) as [[r1 p1] n1] eqn:E1.
  pose proof (f_equal fst (f_equal fst E1)) as Er. vm_compute in Er. subst r1.
  destruct (maybe_produce_block (sample_tick + 3000000) p1 n1) as [[r2 p2] n2] eqn:E2.
  assert (∃ r p n, maybe_produce_block sample_tick sample_plugin sample_node = (r, p, n) ∧ 
    (maybe_produce_block (sample_tick + 3000000) p n).1.1 = Ok produced ∧
    gpo_time (gpo (nd_db n)) + ZATTERA_BLOCK_INTERVAL < 2 ^ 32 ∧ pending_ok n) as (r & p & n & E & Er & Hfit & Hn).
  { eexists _, _, _. do 3 (split; [vm_compute; reflexivity|]). apply idle_ok; split; reflexivity. }
  rewrite E1 in E. injection E as <- <- <-. rewrite E2 in Er. cbn in Er. subst r2.
  destruct (one_block_per_slot sample_tick sample_plugin sample_node p1 n1) as (b & Hb & Hh & Hl);
    [apply idle_ok; split; reflexivity|exact E1|].
  destruct Hh as [_ Ht]; [apply empty_fork_ok|left; vm_compute; reflexivity|].
  destruct (Hl (sample_tick + 3000000) p1 n1 p2 n2) as (b' & Hb' & Hlt).
  - exact Hn.
  - exact Hfit.
  - rewrite Ht. done.
  - exact E2.
  - exists p1, n1, b, p2, n2, b'. split_and!; [done|exact E2| |exact Hlt]. by rewrite Hb', Hb.
Defined.
