(* ===== verification/KeyLookup.v ===== *)
(** * Accounts by key

    The index from keys to accounts that
    src/src/plugins/account_by_key/account_by_key_plugin.cpp keeps beside the
    chain: before an operation it notes the keys of the account whose authority
    the operation will replace, after it it adds and removes entries.  The table
    of lookup objects is the set of its unique keys.  [key_lookup_follows] says
    that the index stays exact, through all operations, for every account whose
    creation it has seen; [claimed_account_not_indexed] that it does not see the
    accounts created from claims. *)
From S2P Require Import Prelude Ints Config Asset Authority Headers Operations State Blocks Store Ledger Balances Vesting Conserve Frames Rows Drain EvalFunds Market EvalAccounts Proxy Reward EvalContent Evaluators Genesis BlockProc Expiry Schedule Chain Loops AccountFrame Sound.

(** ** The plugin *)

Record key_lookup := mk_key_lookup {
  cached_keys : gset public_key_type;
  key_lookup_index : gset (public_key_type * account_name_type)
}.

Definition find_authority (name : account_name_type) (s : database) : option account_authority_object :=
  find_row (fun a => bool_decide (auth_account a = name)) s ≫= fun r => row r s.

(** The keys of the three authorities, in the order of the loops. *)
Definition authority_keys (a : account_authority_object) : list public_key_type :=
  (key_auths (auth_owner a)).*1 ++ (key_auths (auth_active a)).*1 ++ (key_auths (auth_posting a)).*1.

Definition clear_cache (p : key_lookup) : key_lookup := mk_key_lookup ∅ (key_lookup_index p).
Definition cache_auths (a : account_authority_object) (p : key_lookup) : key_lookup :=
  mk_key_lookup (foldl (fun cached k => {[k]} ∪ cached) (cached_keys p) (authority_keys a)) (key_lookup_index p).

Definition lookup_new_key (account : account_name_type) (p : key_lookup) (key : public_key_type) : key_lookup :=
  if bool_decide (key ∉ cached_keys p)
  then mk_key_lookup (cached_keys p) ({[(key, account)]} ∪ key_lookup_index p)
  else mk_key_lookup (cached_keys p ∖ {[key]}) (key_lookup_index p).
Definition update_key_lookup (a : account_authority_object) (p : key_lookup) : key_lookup :=
  let new_keys : gset public_key_type := foldl (fun new_keys k => {[k]} ∪ new_keys) ∅ (authority_keys a) in
  let p := foldl (lookup_new_key (auth_account a)) p (elements new_keys) in
  let index := foldl (fun index key => index ∖ {[(key, auth_account a)]}) (key_lookup_index p)
                 (elements (cached_keys p)) in
  mk_key_lookup ∅ index.

Definition pre_operation (s : database) (op : operation) (p : key_lookup) : key_lookup :=
  let cache name := let p := clear_cache p in
                    match find_authority name s with Some a => cache_auths a p | None => p end in
  match op with
  | account_create_operation _ _ _ _ _ _ _ _
  | account_create_with_delegation_operation _ _ _ _ _ _ _ _ _ _ => clear_cache p
  | account_update_operation account _ _ _ _ _ => cache account
  | recover_account_operation account_to_recover _ _ _ => cache account_to_recover
  | _ => p
  end.
Definition post_operation (s : database) (op : operation) (p : key_lookup) : key_lookup :=
  let update name := match find_authority name s with Some a => update_key_lookup a p | None => p end in
  match op with
  | account_create_operation _ _ new_account_name _ _ _ _ _
  | account_create_with_delegation_operation _ _ _ new_account_name _ _ _ _ _ _ => update new_account_name
  | account_update_operation account _ _ _ _ _ => update account
  | recover_account_operation account_to_recover _ _ _ => update account_to_recover
  | _ => p
  end.

(** [database::apply_operation] with the plugin as an observer. *)
Definition observed_operation `{Codec, DiffPatch} (op : operation) (s : database) (p : key_lookup)
  : res (database * key_lookup) :=
  let p := pre_operation s op p in
  let? (_, s') := apply_operation op s in
  Ok (s', post_operation s' op p).

(** ** What an update does to the index *)

Definition key_set (a : account_authority_object) : gset public_key_type := list_to_set (authority_keys a).

Lemma foldl_insert l (X : gset public_key_type) :
  foldl (fun X k => {[k]} ∪ X) X l = list_to_set l ∪ X.
Proof. revert X. induction l as [|k l IH]; intros X; cbn; [set_solver|]. rewrite IH. set_solver. Qed.

Lemma lookup_new_key_spec account p x :
  cached_keys (lookup_new_key account p x) = cached_keys p ∖ {[x]} ∧
  ∀ k b, (k, b) ∈ key_lookup_index (lookup_new_key account p x) ↔
    (k, b) ∈ key_lookup_index p ∨ b = account ∧ k = x ∧ x ∉ cached_keys p.
Proof.
  unfold lookup_new_key. case_bool_decide as Hx; cbn; (split; [set_solver|]); intros k b; [|naive_solver].
  rewrite elem_of_union, elem_of_singleton, pair_eq. naive_solver.
Qed.
Lemma lookup_new_keys_spec account l p : NoDup l →
  let p' := foldl (lookup_new_key account) p l in
  cached_keys p' = cached_keys p ∖ list_to_set l ∧
  ∀ k b, (k, b) ∈ key_lookup_index p' ↔
    (k, b) ∈ key_lookup_index p ∨ b = account ∧ k ∈ l ∧ k ∉ cached_keys p.
Proof.
  intros Hnd. revert p. induction Hnd as [|x l Hx _ IH]; intros p; cbn [foldl list_to_set].
  { split; [set_solver|]. intros k b. rewrite elem_of_nil. tauto. }
  destruct (lookup_new_key_spec account p x) as [E1 E2].
  destruct (IH (lookup_new_key account p x)) as [H1 H2]. split.
  - rewrite H1, E1. set_solver.
  - intros k b. rewrite H2, E1, E2, elem_of_cons, not_elem_of_difference, elem_of_singleton.
    destruct (decide (k = x)) as [->|Hne]; tauto.
Qed.
Lemma remove_keys_spec (account : account_name_type) (l : list public_key_type) (X : gset (public_key_type * account_name_type)) k b :
  (k, b) ∈ foldl (fun X key => X ∖ {[(key, account)]}) X l ↔ (k, b) ∈ X ∧ (b = account → k ∉ l).
Proof.
  revert X. induction l as [|x l IH]; intros X; cbn; [rewrite elem_of_nil; tauto|].
  rewrite IH, elem_of_difference, elem_of_singleton, pair_eq, elem_of_cons. tauto.
Qed.

(** Entries of the account: what is in its authority and was either not cached or
    already indexed, and what was never in question. *)
Lemma update_key_lookup_spec a p k b :
  (k, b) ∈ key_lookup_index (update_key_lookup a p) ↔
    if decide (b = auth_account a) then
      (k ∈ key_set a ∧ k ∉ cached_keys p) ∨ (k, b) ∈ key_lookup_index p ∧ (k ∈ key_set a ∨ k ∉ cached_keys p)
    else (k, b) ∈ key_lookup_index p.
Proof.
  unfold update_key_lookup. rewrite foldl_insert, (right_id_L ∅ (∪)). fold (key_set a).
  destruct (lookup_new_keys_spec (auth_account a) (elements (key_set a)) p) as [Hc Hi]; [apply NoDup_elements|].
  cbn [key_lookup_index]. rewrite remove_keys_spec, Hi, !elem_of_elements, Hc, list_to_set_elements_L, elem_of_difference.
  case_decide; [|naive_solver].
  destruct (decide (k ∈ key_set a)), (decide (k ∈ cached_keys p)); naive_solver.
Qed.

(** ** What an operation does to the authorities *)

Abbreviation auth_rows s := (rows (account_authority_index s)).

(** Accounts stay, under their names. *)
Definition keeps_names (s s' : database) : Prop := ∀ i n, named (links s) i n → named (links s') i n.
(** The authorities stay as well. *)
Definition quiet (s s' : database) : Prop := same_rows account_authority_object s s' ∧ keeps_names s s'.
#[export] Instance quiet_preorder : PreOrder quiet.
Proof.
  split; [intros s; split; [reflexivity|by intros i n]|]. intros s1 s2 s3 [H1 N1] [H2 N2]. split; [etrans; [exact H1|exact H2]|].
  intros i n Hn. by apply N2, N1.
Qed.
#[export] Hint Extern 0 (Free quiet _) => (intros ? ?; split; [reflexivity|intros ? ? ?; assumption]) : typeclass_instances.
#[export] Hint Extern 1 (∀ s g', _ → quiet s (s <| gpo := g' |>)) => (intros; split; [reflexivity|intros ? ? ?; assumption]) : respects.
#[export] Hint Extern 1 (∀ s, quiet s _) => (intros; split; [reflexivity|intros ? ? ?; assumption]) : respects.

Section QuietAccounts.
Implicit Types a : ref account_object.

Lemma quiet_set a s o o' : row a s = Some o → acc_name o' = acc_name o → quiet s (set_row a o' s).
Proof.
  intros Hr Hn. split; [reflexivity|]. intros i n. unfold named. rewrite links_set, lookup_insert.
  case_decide as Hi; [|done]. subst i. rewrite (links_row _ _ _ Hr). unfold link. cbn. by rewrite Hn.
Qed.
Lemma quiet_modify_row a f : (∀ o, acc_name (f o) = acc_name o) → respects quiet (modify_row a f).
Proof. intros Hf. apply respects_modify_row; [exact _|]. intros s o Hr. by eapply quiet_set. Qed.
Lemma quiet_modify_res a f : (∀ o o', f o = Ok o' → acc_name o' = acc_name o) → respects quiet (modify_res a f).
Proof. intros Hf. apply respects_modify_res; [exact _|]. intros s o o' Hr Ho. eapply quiet_set; eauto. Qed.
Lemma quiet_modify_with a f :
  (∀ o, respects (same_rows account_object) (f o)) → (∀ o, respects quiet (f o)) →
  (∀ o s o' s', f o s = Ok (o', s') → acc_name o' = acc_name o) → respects quiet (modify_with a f).
Proof.
  intros Hsame Hq Hf s u s' Hm. apply modify_with_gap in Hm as (o & o' & s1 & Ho & Hr & -> & _).
  etrans; [by eapply Hq|]. eapply quiet_set; [|by eapply Hf].
  pose proof (Hsame _ _ _ _ Hr) as E. unfold row. by rewrite E.
Qed.
Lemma quiet_create o : respects quiet (create (A := account_object) o).
Proof.
  intros s r s' Hc. destruct (fresh_name _ _ _ _ Hc) as [Hi Hn]. apply create_gap in Hc as (-> & _).
  split; [reflexivity|]. intros i n. unfold named, links, add_row. cbn. rewrite fmap_insert, lookup_insert.
  case_decide as Hi'; [|done]. subst i. by rewrite lookup_fmap, Hi.
Qed.
End QuietAccounts.
#[export] Hint Extern 2 (respects quiet (modify_row _ _)) =>
  (apply quiet_modify_row; intros; repeat case_match; reflexivity) : respects.
#[export] Hint Extern 2 (respects quiet (modify_res _ _)) =>
  (apply quiet_modify_res; intros; repeat (case_match || inv_ok_step); reflexivity) : respects.
#[export] Hint Extern 2 (respects quiet (create _)) => (apply quiet_create) : respects.
#[export] Hint Extern 2 (respects quiet (modify_with _ _)) =>
  (apply quiet_modify_with; [respects|respects|intros; repeat case_run; inv_ok; repeat (case_match || inv_ok_step); reflexivity]) : respects.

Lemma quiet_create_vesting a x r : respects quiet (create_vesting a x r).
Proof. respects. Qed.
#[export] Hint Resolve quiet_create_vesting : respects.

(** Only rows of [a] change, and they stay rows of [a]. *)
Definition changed (a : account_name_type) (s s' : database) : Prop :=
  keeps_names s s' ∧
  ∀ i, match auth_rows s !! i, auth_rows s' !! i with
       | Some o, Some o' => auth_account o' = auth_account o ∧ (auth_account o ≠ a → o' = o)
       | None, None => True
       | _, _ => False
       end.
#[export] Instance changed_preorder a : PreOrder (changed a).
Proof.
  split.
  - intros s. split; [by intros i n|]. intros i. by destruct (auth_rows s !! i).
  - intros s1 s2 s3 [N1 H1] [N2 H2]. split; [intros i n Hn; by apply N2, N1|].
    intros i. specialize (H1 i). specialize (H2 i).
    destruct (auth_rows s1 !! i), (auth_rows s2 !! i), (auth_rows s3 !! i); try done.
    destruct H1 as [E1 H1], H2 as [E2 H2]. split; [congruence|]. intros Hne.
    rewrite <-H1 by done. apply H2. by rewrite E1.
Qed.
Lemma quiet_changed a s s' : quiet s s' → changed a s s'.
Proof.
  unfold quiet, same_rows. cbn. intros [E Hn]. split; [done|]. intros i. rewrite E. by destruct (auth_rows s !! i).
Qed.

Lemma changed_then {A B} a (m : C A) (k : A → C B) s0 s b s' : changed a s0 s → respects quiet m →
  bind m k s = Ok (b, s') → ∃ x s1, changed a s0 s1 ∧ k x s1 = Ok (b, s').
Proof.
  intros Hc Hm Hr. apply (respects_then quiet) in Hr as (x & s1 & _ & Hq%(quiet_changed a) & Hr); [|done].
  exists x, s1. split; [by etrans|done].
Qed.

Definition is_authority_of (a : account_name_type) (r : ref account_authority_object) (s : database) : Prop :=
  ∃ o, row r s = Some o ∧ auth_account o = a.
Lemma changed_keeps a b r s s' : changed a s s' → is_authority_of b r s → is_authority_of b r s'.
Proof.
  intros [_ Hc] (o & Hr & Ho). specialize (Hc (ref_id r)). unfold is_authority_of, row in *. cbn in *. rewrite Hr in Hc.
  destruct (auth_rows s' !! ref_id r) as [o'|]; [|done]. exists o'. split; [done|]. by rewrite (proj1 Hc).
Qed.
Lemma changed_modify a r f s u s' : (∀ o, auth_account (f o) = auth_account o) →
  is_authority_of a r s → modify_row r f s = Ok (u, s') → changed a s s'.
Proof.
  intros Hf (o & Hr & Ho) Hm. apply modify_with_gap in Hm as (o1 & o' & s1 & Hr1 & E & -> & _). inv_ok.
  assert (o1 = o) as -> by congruence. split; [by intros i n|].
  intros i. unfold set_row. cbn. rewrite lookup_insert. unfold row in Hr. cbn in Hr.
  case_decide as Hi; [|by destruct (auth_rows _ !! i)]. subst i. rewrite Hr. split; [done|]. intros. congruence.
Qed.
Lemma get_account_authority_ok a r s s' : get_account_authority a s = Ok (r, s') →
  s' = s ∧ is_authority_of a r s.
Proof.
  unfold get_account_authority. intros [-> (o & Hr & Hp)%find_row_found]%get_by_ok. split; [done|].
  exists o. split; [done|]. by apply bool_decide_eq_true in Hp.
Qed.
Lemma get_account_row name r s s' : get_account name s = Ok (r, s') →
  s' = s ∧ ∃ o, row r s = Some o ∧ acc_name o = name.
Proof.
  unfold get_account. intros [-> (o & Hr & Hp)%find_row_found]%get_by_ok. split; [done|].
  exists o. split; [done|]. by apply bool_decide_eq_true in Hp.
Qed.

Lemma update_owner_authority_changes acc new s u s' o : row acc s = Some o →
  update_owner_authority acc new s = Ok (u, s') → changed (acc_name o) s s'.
Proof.
  intros Ho Hr. unfold update_owner_authority, head_block_num, head_block_time in Hr.
  apply bind_ok in Hr as (o1 & s1 & [Ho1 ->]%load_ok & Hr). assert (o1 = o) as -> by congruence.
  do 2 (apply bind_ok in Hr as (? & ? & [-> ->]%gets_ok & Hr)).
  apply (respects_then quiet) in Hr as ([] & s2 & _ & Hs & Hr); [|respects].
  apply bind_ok in Hr as (auth & s3 & [-> Ha]%get_account_authority_ok & Hr).
  etrans; [by apply quiet_changed|]. by eapply changed_modify; [..|exact Hr].
Qed.

Lemma account_update_changes a ow ac po k j s u s' :
  account_update_do_apply a ow ac po k j s = Ok (u, s') → changed a s s'.
Proof.
  intros Hr. unfold account_update_do_apply, head_block_time in Hr.
  do 2 (apply (respects_then (=)) in Hr as ([] & ? & _ & <- & Hr); [|respects]).
  apply bind_ok in Hr as (acc & s1 & [-> (o & Ho & Hn)]%get_account_row & Hr).
  apply bind_ok in Hr as (auth & s1 & [-> Ha]%get_account_authority_ok & Hr).
  do 3 (apply (respects_then (=)) in Hr as ([] & ? & _ & <- & Hr); [|respects]).
  apply bind_ok in Hr as (? & ? & [-> ->]%gets_ok & Hr).
  apply bind_ok in Hr as ([] & s2 & Hown & Hr).
  assert (changed a s s2) as H2.
  { destruct ow as [new|]; cbn in Hown; [|by inv_ok].
    do 3 (apply (respects_then (=)) in Hown as (? & ? & _ & <- & Hown); [|respects]).
    rewrite <-Hn. by eapply update_owner_authority_changes. }
  do 3 (apply (changed_then _ _ _ _ _ _ _ H2) in Hr; [|respects]; clear H2; destruct Hr as ([] & ? & H2 & Hr)).
  etrans; [exact H2|]. unfold when in Hr. case_match; [|by inv_ok].
  eapply changed_modify; [|by eapply changed_keeps|exact Hr]. intros. by repeat case_match.
Qed.

Lemma recover_account_changes a n r s u s' :
  recover_account_do_apply a n r s = Ok (u, s') → changed a s s'.
Proof.
  intros Hr. unfold recover_account_do_apply, head_block_time in Hr.
  apply bind_ok in Hr as (acc & s1 & [-> (o & Ho & Hn)]%get_account_row & Hr).
  do 9 (apply (respects_then (=)) in Hr as (? & ? & _ & <- & Hr); [|respects]).
  apply bind_ok in Hr as ([] & s1 & Hrm & Hr).
  assert (quiet s s1) as Hq by (eapply (free_remove quiet x3), Hrm).
  assert (same_rows account_object s s1) as E by (eapply (free_remove (same_rows account_object) x3), Hrm).
  apply bind_ok in Hr as ([] & s2 & Hown & Hr).
  rewrite <-Hn. etrans; [by apply quiet_changed|]. etrans.
  - eapply update_owner_authority_changes; [|exact Hown]. unfold row. rewrite E. exact Ho.
  - apply quiet_changed. eapply quiet_modify_row, Hr. done.
Qed.

(** A new account comes with a row of its own. *)
Definition opened (n : account_name_type) (ow ac po : authority) (s s' : database) : Prop :=
  keeps_names s s' ∧ (∀ i, ¬ named (links s) i n) ∧ (∃ i, named (links s') i n) ∧
  ∃ i, auth_rows s !! i = None ∧
       auth_rows s' = <[i := mk_account_authority_object n ow ac po time_min]> (auth_rows s).

Lemma open_account {B} o name ow ac po (k : ref account_object → C B) s b s' :
  acc_name o = name → (∀ a, respects quiet (k a)) →
  (let* a := create o in create_authority name ow ac po ;; k a) s = Ok (b, s') → opened name ow ac po s s'.
Proof.
  intros En Hk Hr. apply bind_ok in Hr as (a & s1 & Hc & Hr).
  pose proof (quiet_create _ _ _ _ Hc) as [E1 N1]. pose proof (fresh_name _ _ _ _ Hc) as [_ Hf].
  assert (named (links s1) (ref_id a) name) as Hnew.
  { apply create_gap in Hc as (_ & _ & _ & Ha & _). rewrite <-En. by apply named_link. }
  apply bind_ok in Hr as ([] & s2 & Ha & Hr). unfold create_authority in Ha. inv_ok.
  match goal with E : create _ s1 = _ |- _ => apply create_gap in E as (-> & -> & Hnone & _) end.
  destruct (Hk a _ _ _ Hr) as [E3 N3]. unfold same_rows in E1, E3. cbn in E1, E3.
  split_and!; [intros i n Hn; by apply N3, N1|exact Hf|by exists (ref_id a); apply N3|].
  eexists. rewrite E3, <-E1. split; [exact Hnone|reflexivity].
Qed.

Lemma opened_after n ow ac po s s1 s' : quiet s s1 → opened n ow ac po s1 s' → opened n ow ac po s s'.
Proof.
  intros [E N] (N' & Hf & He & i & Hi & Hr). unfold same_rows in E. cbn in E. split_and!.
  - intros j m Hm. by apply N', N.
  - intros j Hj. by apply (Hf j), N.
  - done.
  - exists i. by rewrite <-E.
Qed.

(** [to_creation Hr] skips what comes before the new account. *)
Ltac to_creation Hr :=
  repeat (lazymatch type of Hr with
          | bind (create _) _ _ = _ => fail
          | _ => let Hq := fresh in
                 apply (respects_then quiet) in Hr as (? & ? & _ & Hq & Hr); [|respects];
                 eapply opened_after; [exact Hq|]; clear Hq
          end).
Lemma initialized_name n k g b c o : acc_name (initialize_account_object n k g b c o) = n.
Proof. unfold initialize_account_object. by case_match. Qed.

Section Operations.
Context `{Codec, DiffPatch}.

Lemma account_create_opens fee c n o a p k j s u s' :
  account_create_do_apply fee c n o a p k j s = Ok (u, s') → opened n o a p s s'.
Proof.
  intros Hr. unfold account_create_do_apply in Hr. to_creation Hr.
  eapply open_account; [apply initialized_name| |exact Hr]. intros. cbv beta. respects.
Qed.
Lemma account_create_with_delegation_opens fee d c n o a p k j s u s' :
  account_create_with_delegation_do_apply fee d c n o a p k j s = Ok (u, s') → opened n o a p s s'.
Proof.
  intros Hr. unfold account_create_with_delegation_do_apply in Hr. cbv zeta in Hr. to_creation Hr.
  eapply open_account; [apply initialized_name| |exact Hr]. intros. cbv beta. respects.
Qed.
Lemma create_claimed_account_opens c n o a p k j s u s' :
  create_claimed_account_do_apply c n o a p k j s = Ok (u, s') → opened n o a p s s'.
Proof.
  intros Hr. unfold create_claimed_account_do_apply in Hr. to_creation Hr.
  eapply (open_account _ _ o a p (fun _ => ret tt)); [apply initialized_name|intros; respects|].
  apply bind_ok in Hr as (r & s1 & Hc & Hr). rewrite (bind_run _ _ _ _ _ Hc), (bind_run _ _ _ _ _ Hr). reflexivity.
Qed.

(** Five operations write authorities, and only those of the account they name. *)
Lemma operation_authorities op s u s' : apply_operation op s = Ok (u, s') →
  match op with
  | account_create_operation _ _ n o a p _ _ | account_create_with_delegation_operation _ _ _ n o a p _ _ _
  | create_claimed_account_operation _ n o a p _ _ _ => opened n o a p s s'
  | account_update_operation a _ _ _ _ _ | recover_account_operation a _ _ _ => changed a s s'
  | _ => quiet s s'
  end.
Proof.
  destruct op; cbn [apply_operation];
    try (eauto using account_create_opens, account_create_with_delegation_opens, create_claimed_account_opens,
           account_update_changes, recover_account_changes; fail).
  all: revert s u s'.
  all: match goal with |- ∀ s u s', ?m s = _ → _ => change (respects quiet m) end.
  all: respects.
Qed.

(** ** The index stays exact *)

Definition has_key (s : database) (a : account_name_type) (k : public_key_type) : Prop :=
  ∃ i o, auth_rows s !! i = Some o ∧ auth_account o = a ∧ k ∈ key_set o.

(** The index is exact for the accounts [T]. *)
Record tracks (T : gset account_name_type) (s : database) (p : key_lookup) : Prop := {
  auth_unique : ∀ i j o o', auth_rows s !! i = Some o → auth_rows s !! j = Some o' →
    auth_account o = auth_account o' → i = j;
  auth_named : ∀ i o, auth_rows s !! i = Some o → ∃ j, named (links s) j (auth_account o);
  tracked_exist : ∀ a, a ∈ T → ∃ i o, auth_rows s !! i = Some o ∧ auth_account o = a;
  entries_exist : ∀ k a, (k, a) ∈ key_lookup_index p → ∃ i o, auth_rows s !! i = Some o ∧ auth_account o = a;
  tracked_exact : ∀ a k, a ∈ T → (k, a) ∈ key_lookup_index p ↔ has_key s a k
}.

(** The accounts whose creation the plugin sees. *)
Definition seen_created (op : operation) : gset account_name_type :=
  match op with
  | account_create_operation _ _ n _ _ _ _ _ | account_create_with_delegation_operation _ _ _ n _ _ _ _ _ _ => {[n]}
  | _ => ∅
  end.

Lemma find_authority_unique s i o : 
  (∀ i j o o', auth_rows s !! i = Some o → auth_rows s !! j = Some o' → auth_account o = auth_account o' → i = j) →
  auth_rows s !! i = Some o → find_authority (auth_account o) s = Some o.
Proof.
  intros Hu Hi. unfold find_authority.
  destruct (find_row _ s) as [r|] eqn:E; cbn.
  - destruct (find_row_found _ _ _ E) as (o' & Hr & Ho'%bool_decide_eq_true). rewrite Hr.
    unfold row in Hr. cbn in Hr. assert (i = ref_id r) as -> by (by eapply Hu). congruence.
  - apply (find_row_none _ _ i o E) in Hi. by rewrite bool_decide_eq_true_2 in Hi.
Qed.
Lemma find_authority_none s a : (∀ i o, auth_rows s !! i = Some o → auth_account o ≠ a) → find_authority a s = None.
Proof.
  intros Hn. unfold find_authority. destruct (find_row _ s) as [r|] eqn:E; [|done].
  destruct (find_row_found _ _ _ E) as (o' & Hr & Ho'%bool_decide_eq_true). by destruct (Hn _ _ Hr).
Qed.

Lemma tracks_quiet T s s' p : quiet s s' → tracks T s p → tracks T s' p.
Proof.
  intros [E N] [H1 H2 H3 H4 H5]. unfold same_rows in E. cbn in E.
  split; unfold has_key in *; rewrite ?E; try done. intros i o Ho. destruct (H2 i o Ho) as [j Hj]. eauto.
Qed.

Lemma cached_after_clear a p : cached_keys (cache_auths a (clear_cache p)) = key_set a.
Proof. unfold cache_auths. cbn. rewrite foldl_insert. unfold key_set. set_solver. Qed.

(** The rows of other accounts stay, those of [a] keep their name. *)
Lemma changed_rows a s s' i o' : changed a s s' → auth_rows s' !! i = Some o' →
  ∃ o, auth_rows s !! i = Some o ∧ auth_account o = auth_account o' ∧ (auth_account o' ≠ a → o' = o).
Proof.
  intros [_ Hc] Hi. specialize (Hc i). rewrite Hi in Hc. destruct (auth_rows s !! i) as [o|]; [|done].
  destruct Hc as [E Hc]. exists o. split_and!; [done|done|]. rewrite E. done.
Qed.
Lemma changed_rows' a s s' i o : changed a s s' → auth_rows s !! i = Some o →
  ∃ o', auth_rows s' !! i = Some o' ∧ auth_account o' = auth_account o.
Proof.
  intros [_ Hc] Hi. specialize (Hc i). rewrite Hi in Hc. destruct (auth_rows s' !! i) as [o'|]; [|done].
  exists o'. split; [done|]. apply Hc.
Qed.

Lemma has_key_row s i o k :
  (∀ i j o o', auth_rows s !! i = Some o → auth_rows s !! j = Some o' → auth_account o = auth_account o' → i = j) →
  auth_rows s !! i = Some o → has_key s (auth_account o) k ↔ k ∈ key_set o.
Proof.
  intros Hu Hi. split; [|by exists i, o]. intros (j & o' & Hj & Ho' & Hk).
  assert (j = i) as -> by (eapply Hu; eauto). congruence.
Qed.
Lemma has_key_changed a s s' b k : changed a s s' → b ≠ a → has_key s' b k ↔ has_key s b k.
Proof.
  intros Hc Hne. split; intros (i & o & Hi & <- & Hk).
  - destruct (changed_rows _ _ _ _ _ Hc Hi) as (o1 & Hi1 & _ & E). specialize (E Hne). subst o1. by exists i, o.
  - destruct (changed_rows' _ _ _ _ _ Hc Hi) as (o1 & Hi1 & E).
    destruct (changed_rows _ _ _ _ _ Hc Hi1) as (o2 & Hi2 & _ & E2).
    assert (o2 = o) as -> by congruence. assert (o1 = o) as -> by (apply E2; congruence). by exists i, o.
Qed.
Lemma find_authority_some s a o : find_authority a s = Some o → ∃ i, auth_rows s !! i = Some o ∧ auth_account o = a.
Proof.
  unfold find_authority. destruct (find_row _ s) as [r|] eqn:E; [|done]. cbn. intros Hr.
  apply (find_row_some _ _ _ _ E) in Hr as Ho. apply bool_decide_eq_true in Ho. by exists (ref_id r).
Qed.
Lemma find_authority_missing s a i o : find_authority a s = None → auth_rows s !! i = Some o → auth_account o ≠ a.
Proof.
  unfold find_authority. destruct (find_row _ s) as [r|] eqn:E; cbn.
  - destruct (find_row_found _ _ _ E) as (o' & Hr & _). by rewrite Hr.
  - intros _ Hi Ha. apply (find_row_none _ _ i o E) in Hi. by rewrite bool_decide_eq_true_2 in Hi.
Qed.

Lemma tracks_changed T s s' p a : changed a s s' → tracks T s p →
  tracks T s' (let p1 := match find_authority a s with Some o => cache_auths o (clear_cache p) | None => clear_cache p end in
               match find_authority a s' with Some o' => update_key_lookup o' p1 | None => p1 end).
Proof.
  intros Hc [H1 H2 H3 H4 H5]. cbv zeta.
  assert (∀ i j o o', auth_rows s' !! i = Some o → auth_rows s' !! j = Some o' → auth_account o = auth_account o' → i = j) as H1'.
  { intros i j o o' Hi Hj E. destruct (changed_rows _ _ _ _ _ Hc Hi) as (oi & ? & ? & _).
    destruct (changed_rows _ _ _ _ _ Hc Hj) as (oj & ? & ? & _). eapply H1; eauto. congruence. }
  assert (∀ i o, auth_rows s' !! i = Some o → ∃ j, named (links s') j (auth_account o)) as H2'.
  { intros i o Hi. destruct (changed_rows _ _ _ _ _ Hc Hi) as (oi & Hi' & <- & _).
    destruct (H2 _ _ Hi') as [j Hj]. exists j. by apply (proj1 Hc). }
  assert (∀ b, (∃ i o, auth_rows s !! i = Some o ∧ auth_account o = b) →
    ∃ i o, auth_rows s' !! i = Some o ∧ auth_account o = b) as Hex.
  { intros b (i & o & Hi & <-). destruct (changed_rows' _ _ _ _ _ Hc Hi) as (o' & ? & ?). by exists i, o'. }
  destruct (find_authority a s) as [o|] eqn:E.
  - apply find_authority_some in E as (i & Hi & Ha).
    destruct (changed_rows' _ _ _ _ _ Hc Hi) as (o' & Hi' & Ha'). rewrite Ha in Ha'.
    rewrite <-Ha' at 1. rewrite (find_authority_unique _ _ _ H1' Hi').
    split; [exact H1'|exact H2'|auto|..].
    + intros k b Hk. apply update_key_lookup_spec in Hk. case_decide as Hb; [subst b; by exists i, o'|]. eauto.
    + intros b k Hb. rewrite update_key_lookup_spec, cached_after_clear. cbn [key_lookup_index cache_auths clear_cache].
      case_decide as Hba; [|rewrite has_key_changed; [by apply H5|done|congruence]].
      rewrite (H5 b k Hb). subst b. rewrite (has_key_row s' i o') by done. rewrite Ha', <-Ha, (has_key_row s i o) by done.
      destruct (decide (k ∈ key_set o)); tauto.
  - rewrite find_authority_none.
    2:{ intros i o Hi. destruct (changed_rows _ _ _ _ _ Hc Hi) as (oi & Hi' & <- & _). by eapply find_authority_missing. }
    split; [exact H1'|exact H2'|auto|intros k b Hk; by eapply Hex, H4|].
    intros b k Hb. cbn. rewrite (H5 b k Hb). symmetry. apply (has_key_changed a); [done|]. intros ->.
    destruct (H3 a Hb) as (i & o & Hi & Ho). by eapply find_authority_missing.
Qed.

Lemma tracks_opened T s s' p n ow ac po (seen : bool) : opened n ow ac po s s' → tracks T s p →
  tracks (if seen then T ∪ {[n]} else T) s'
    (if seen then match find_authority n s' with Some o => update_key_lookup o (clear_cache p) | None => clear_cache p end
     else p).
Proof.
  intros (N & Hf & Hnew & i & Hi & Er) [H1 H2 H3 H4 H5].
  set (o := mk_account_authority_object n ow ac po time_min) in Er.
  assert (auth_account o = n) as Ho by done. clearbody o.
  assert (∀ j oj, auth_rows s !! j = Some oj → auth_account oj ≠ n) as Hno.
  { intros j oj Hj <-. destruct (H2 _ _ Hj) as [j' Hj']. by eapply Hf. }
  assert (∀ j oj, auth_rows s' !! j = Some oj ↔ j = i ∧ oj = o ∨ auth_rows s !! j = Some oj) as Hrows.
  { intros j oj. rewrite Er, lookup_insert. case_decide as Hji; [subst j; rewrite Hi|]; naive_solver. }
  assert (∀ i j o o', auth_rows s' !! i = Some o → auth_rows s' !! j = Some o' → auth_account o = auth_account o' → i = j) as H1'.
  { intros j1 j2 o1 o2 [[-> ->]|Hj1]%Hrows [[-> ->]|Hj2]%Hrows E; [done|..|by eapply H1];
      exfalso; eapply Hno; eauto; congruence. }
  assert (∀ j oj, auth_rows s' !! j = Some oj → ∃ i, named (links s') i (auth_account oj)) as H2'.
  { intros j oj [[-> ->]|Hj]%Hrows; [by rewrite Ho|]. destruct (H2 _ _ Hj) as [j' Hj']. exists j'. by apply N. }
  assert (∀ b, (∃ i o, auth_rows s !! i = Some o ∧ auth_account o = b) →
    b ≠ n ∧ ∃ i o, auth_rows s' !! i = Some o ∧ auth_account o = b) as Hex.
  { intros b (j & oj & Hj & <-). split; [by eapply Hno|]. exists j, oj. split; [apply Hrows; by right|done]. }
  assert (∀ b k, b ≠ n → has_key s' b k ↔ has_key s b k) as Hk.
  { intros b k Hne. split; intros (j & oj & Hj & <- & Hk); exists j, oj; (split; [|done]).
    - apply Hrows in Hj as [[-> ->]|Hj]; [by destruct Hne|done].
    - apply Hrows. by right. }
  assert (auth_rows s' !! i = Some o) as Hio by (apply Hrows; by left).
  destruct seen.
  - rewrite <-Ho, (find_authority_unique _ _ _ H1' Hio). split; [exact H1'|exact H2'|..].
    + intros b [Hb|Hb]%elem_of_union; [by apply Hex, H3|]. apply elem_of_singleton in Hb as ->. by exists i, o.
    + intros k b Hkb. apply update_key_lookup_spec in Hkb. case_decide as Hb; [subst b; by exists i, o|].
      by eapply Hex, H4.
    + intros b k Hb. rewrite update_key_lookup_spec. cbn [key_lookup_index cached_keys clear_cache].
      case_decide as Hbn.
      * subst b. rewrite (has_key_row s' i o) by done. split; [|set_solver].
        intros [[? _]|[Hin _]]; [done|]. apply H4, Hex in Hin as [[] _]. by rewrite Ho.
      * rewrite Hk by congruence. apply H5. set_solver.
  - split; [exact H1'|exact H2'|intros b Hb; by apply Hex, H3|intros k b Hkb; by eapply Hex, H4|].
    intros b k Hb. rewrite (H5 b k Hb), Hk; [done|]. by apply Hex, H3.
Qed.

(** C34: the index follows the chain.  If it is exact for a set of accounts (an
    entry for a key and such an account exists just when one of the account's
    authorities lists the key), then so it is after every operation the chain
    applies, for these accounts and for one that the operation creates with a fee;
    entries never name an account that does not exist. *)
Theorem key_lookup_follows T op s p s' p' :
  observed_operation op s p = Ok (s', p') → tracks T s p → tracks (T ∪ seen_created op) s' p'.
Proof.
  unfold observed_operation. intros Hr Ht. inv_ok. destruct x as [u s1]. inv_ok.
  match goal with E : apply_operation _ _ = _ |- _ => apply operation_authorities in E; rename E into He end.
  destruct op; cbn [seen_created pre_operation post_operation] in *; rewrite ?(right_id_L ∅ (∪));
    solve [ by eapply tracks_quiet | by eapply (tracks_opened _ _ _ _ _ _ _ _ true) | by eapply (tracks_opened _ _ _ _ _ _ _ _ false)
          | by eapply tracks_changed ].
Qed.

(** An account created from a claim is not indexed: its authorities list their
    keys, but the index has no entry for it, because neither visitor handles
    [create_claimed_account_operation]. *)
Theorem claimed_account_not_indexed T c n ow ac po k j ext s p s' p' key :
  observed_operation (create_claimed_account_operation c n ow ac po k j ext) s p = Ok (s', p') → tracks T s p →
  key ∈ (key_auths ow).*1 → has_key s' n key ∧ (key, n) ∉ key_lookup_index p'.
Proof.
  unfold observed_operation. intros Hr Ht Hkey. inv_ok. destruct x as [u s1]. inv_ok.
  match goal with E : apply_operation _ _ = _ |- _ => apply operation_authorities in E as (_ & Hf & _ & i & _ & Er) end.
  cbn [pre_operation post_operation]. split.
  - eexists i, _. rewrite Er. split; [apply lookup_insert_eq|]. split; [done|].
    apply elem_of_list_to_set, elem_of_app. by left.
  - intros Hin. destruct (entries_exist _ _ _ Ht _ _ Hin) as (l & o & Hl & <-).
    destruct (auth_named _ _ _ Ht _ _ Hl) as [l' Hl']. by eapply Hf.
Qed.
End Operations.

(** ** Two accounts *)

Definition sample_key_auth (key : public_key_type) : authority := mk_authority 1 [] [(key, 1)].
Definition sample_create : operation :=
  account_create_operation (mk_asset 0 LIQUID_SYMBOL) "genesis" "alice" (sample_key_auth "A")
    (sample_key_auth "B") (sample_key_auth "B") "M" "".
Definition sample_claimed : operation :=
  create_claimed_account_operation "genesis" "bob" (sample_key_auth "A") (sample_key_auth "B")
    (sample_key_auth "B") "M" "" [].
(** Genesis with one claimed account. *)
Definition sample_claims : database :=
  run_state (let* r := get_account "genesis" in
    modify_row r (fun a => a <| acc_pending_claimed_accounts := 1 |>)) sample_genesis.
Definition run_observed (op : operation) (s : database) (p : key_lookup) : database * key_lookup :=
  let _ := sample_codec in let _ := sample_patch in
  match observed_operation op s p with Ok r => r | Throw _ => (s, p) end.

(** At genesis nothing is indexed. *)
Lemma sample_tracks : tracks ∅ sample_claims (mk_key_lookup ∅ ∅).
Proof.
  assert (map_Forall (fun i o => map_Forall (fun j o' => auth_account o = auth_account o' → i = j) (auth_rows sample_claims))
    (auth_rows sample_claims)) as Hu by (apply (bool_decide_unpack _); vm_compute; exact I).
  assert (map_Forall (fun i o => named (links sample_claims) i (auth_account o)) (auth_rows sample_claims)) as Hn
    by (unfold named; apply (bool_decide_unpack _); vm_compute; exact I).
  split; [|intros i o Hi; exists i; by apply Hn|intros a []%elem_of_empty|intros k a []%elem_of_empty|intros a k []%elem_of_empty].
  intros i j o o' Hi Hj. by apply (Hu i o Hi j o' Hj).
Qed.

Lemma key_lookup_follows_witness :
  let _ := sample_codec in let _ := sample_patch in
  let r := run_observed sample_create sample_claims (mk_key_lookup ∅ ∅) in
  tracks (∅ ∪ seen_created sample_create) r.1 r.2 ∧ seen_created sample_create = {["alice"%string]} ∧ elements (key_lookup_index r.2) = [("A", "alice"); ("B", "alice")]%string.
Proof.
  intros C D r. split; [|split; [reflexivity|vm_compute; reflexivity]].
  apply (key_lookup_follows (H := C) (H0 := D) ∅ sample_create sample_claims (mk_key_lookup ∅ ∅) r.1 r.2); [|exact sample_tracks].
  vm_compute. reflexivity.
Defined.

Lemma claimed_account_not_indexed_witness :
  let _ := sample_codec in let _ := sample_patch in
  let r := run_observed sample_claimed sample_claims (mk_key_lookup ∅ ∅) in
  has_key r.1 "bob" "A" ∧ (("A", "bob")%string ∉ key_lookup_index r.2).
Proof.
  intros C D r.
  apply (claimed_account_not_indexed (H := C) (H0 := D) ∅ "genesis" "bob" (sample_key_auth "A") (sample_key_auth "B")
    (sample_key_auth "B") "M" "" [] sample_claims (mk_key_lookup ∅ ∅) r.1 r.2); [|exact sample_tracks|by left].
  vm_compute. reflexivity.
Defined.
