(* ===== verification/MarketHistory.v ===== *)
(** * Market history

    The candles of src/src/plugins/market_history/market_history_plugin.cpp: for
    every order the chain fills, each tracked bucket size gets the amounts added
    to the bucket of the current time, and buckets that are too old are dropped.
    The table of buckets is keyed by its unique index.  [buckets_are_candles] says
    that every bucket is the candle of the fills in its interval (first, last,
    highest and lowest price, volumes) and that no recent one is missing. *)
From S2P Require Import Prelude Ints Config Asset Authority Operations State.

(** ** Objects *)

Record bucket_object_details := mk_details {
  high : Z; low : Z; open : Z; close : Z; volume : Z
}.
Definition fill (val : Z) : bucket_object_details := mk_details val val val val val.

Record bucket_object := mk_bucket { liquid : bucket_object_details; dollars : bucket_object_details }.

Definition high_price (b : bucket_object) : res price :=
  make_price (mk_asset (high (dollars b)) DOLLAR_SYMBOL) (mk_asset (high (liquid b)) LIQUID_SYMBOL).
Definition low_price (b : bucket_object) : res price :=
  make_price (mk_asset (low (dollars b)) DOLLAR_SYMBOL) (mk_asset (low (liquid b)) LIQUID_SYMBOL).

(** Buckets by [(seconds, open)]; the history of fills, latest last. *)
Record market_history := mk_market_history {
  order_history : list (time * virtual_operation);
  bucket_index : gmap (Z * time) bucket_object
}.

(** ** The plugin *)

(** One of the two branches of the modification: [liq] and [dol] are what was
    paid in ZTR and in ZBD, [p] is their price. *)
Definition update_bucket (liq dol : asset) (b : bucket_object) : res bucket_object :=
  let? lv := safe.add (volume (liquid b)) (amount liq) in
  let? dv := safe.add (volume (dollars b)) (amount dol) in
  let? h := high_price b in
  let? p := make_price dol liq in
  let up := price_ltb h p in
  let? l := low_price b in
  let down := price_gtb l p in
  let details d paid v := mk_details (if up then paid else high d) (if down then paid else low d) (open d) paid v in
  Ok (mk_bucket (details (liquid b) (amount liq) lv) (details (dollars b) (amount dol) dv)).

(** The order of the index by [(seconds, open)]. *)
Definition bucket_le (x y : Z * time) : Prop := x.1 < y.1 ∨ x.1 = y.1 ∧ x.2 ≤ y.2.
#[export] Instance bucket_le_dec x y : Decision (bucket_le x y).
Proof. unfold bucket_le. apply _. Defined.
(** What an iterator from [lower_bound( k )] visits. *)
Definition from_lower_bound (k : Z * time) (m : gmap (Z * time) bucket_object) : list (Z * time) :=
  merge_sort bucket_le (elements (filter (bucket_le k) (dom m))).

(** The loop that drops old buckets.  Reading past the end, which the source does
    not guard against, is an error here. *)
Fixpoint drop_old (seconds cutoff : Z) (itr : list (Z * time)) (m : gmap (Z * time) bucket_object)
  : res (gmap (Z * time) bucket_object) :=
  match itr with
  | [] => Throw (key_not_found "itr == end()")
  | k :: itr' =>
      if (k.1 =? seconds) && (k.2 <? cutoff) then drop_old seconds cutoff itr' (delete k m) else Ok m
  end.

(** What was paid in ZTR and in ZBD. *)
Definition paid_liquid (current_pays open_pays : asset) : asset :=
  if symbol open_pays =? LIQUID_SYMBOL then open_pays else current_pays.
Definition paid_dollars (current_pays open_pays : asset) : asset :=
  if symbol open_pays =? LIQUID_SYMBOL then current_pays else open_pays.

Section Plugin.
Context (tracked : list Z) (maximum_history : Z).

Definition track_fill (now : time) (current_pays open_pays : asset) (bucket : Z)
    (m : gmap (Z * time) bucket_object) : res (gmap (Z * time) bucket_object) :=
  let liq := paid_liquid current_pays open_pays in
  let dol := paid_dollars current_pays open_pays in
  let cutoff := wrap_u32 (now - wrap_u32 (bucket * maximum_history)) in
  let? _ := (if bucket =? 0 then Throw divide_by_zero_exception else Ok tt) in
  let open := wrap_u32 (now / bucket * bucket) in
  match m !! (bucket, open) with
  | None => Ok (<[(bucket, open) := mk_bucket (fill (amount liq)) (fill (amount dol))]> m)
  | Some b =>
      let? b' := update_bucket liq dol b in
      let m := <[(bucket, open) := b']> m in
      if maximum_history >? 0 then drop_old bucket cutoff (from_lower_bound (bucket, 0) m) m else Ok m
  end.

Definition on_post_apply_virtual (now : time) (op : virtual_operation) (st : market_history) : res market_history :=
  match op with
  | fill_order_operation _ _ current_pays _ _ open_pays =>
      let history := order_history st ++ [(now, op)] in
      if maximum_history =? 0 then Ok (mk_market_history history (bucket_index st)) else
      let? m := res_fold (fun m bucket => track_fill now current_pays open_pays bucket m) (bucket_index st) tracked in
      Ok (mk_market_history history m)
  | _ => Ok st
  end.

End Plugin.

(** ** Candles *)

(** What one fill paid, in ZTR and in ZBD. *)
Definition paid_ok (x : Z * Z) : Prop := 0 < x.1 ≤ INT64_MAX ∧ 0 < x.2 ≤ INT64_MAX.
(** The price of [x] in ZBD is at most that of [y]. *)
Definition price_le (x y : Z * Z) : Prop := x.2 * y.1 ≤ y.2 * x.1.
Definition total (f : Z * Z → Z) (l : list (Z * Z)) : Z := foldr (fun x acc => f x + acc) 0 l.

Record candle (l : list (Z * Z)) (b : bucket_object) : Prop := {
  candle_open : head l = Some (open (liquid b), open (dollars b));
  candle_close : list.last l = Some (close (liquid b), close (dollars b));
  candle_volume : volume (liquid b) = total fst l ∧ volume (dollars b) = total snd l;
  candle_high : (high (liquid b), high (dollars b)) ∈ l ∧
    Forall (fun x => price_le x (high (liquid b), high (dollars b))) l;
  candle_low : (low (liquid b), low (dollars b)) ∈ l ∧
    Forall (fun x => price_le (low (liquid b), low (dollars b)) x) l
}.

Lemma total_app f l l' : total f (l ++ l') = total f l + total f l'.
Proof. unfold total. induction l; cbn in *; lia. Qed.
Lemma total_nonneg f l : Forall (fun x => 0 ≤ f x) l → 0 ≤ total f l.
Proof. unfold total. induction 1; cbn in *; lia. Qed.
Lemma price_le_trans x y z : paid_ok x → paid_ok y → paid_ok z → price_le x y → price_le y z → price_le x z.
Proof. unfold paid_ok, price_le, INT64_MAX. destruct x, y, z; cbn. nia. Qed.

Lemma candle_single x : candle [x] (mk_bucket (fill x.1) (fill x.2)).
Proof.
  destruct x as [l d]. split; cbn; [done|done|lia|..];
    (split; [by left|]); constructor; [unfold price_le; cbn; lia|done|unfold price_le; cbn; lia|done].
Qed.

Lemma market_price x : paid_ok x → make_price (mk_asset x.2 DOLLAR_SYMBOL) (mk_asset x.1 LIQUID_SYMBOL) =
  Ok (mk_price (mk_asset x.2 DOLLAR_SYMBOL) (mk_asset x.1 LIQUID_SYMBOL)).
Proof.
  intros [H1 H2]. unfold make_price, price_validate, res_assert. cbn.
  rewrite !Z.gtb_ltb, !(proj2 (Z.ltb_lt _ _)) by lia. done.
Qed.
Lemma market_price_compare x y : paid_ok x → paid_ok y →
  price_compare (mk_price (mk_asset x.2 DOLLAR_SYMBOL) (mk_asset x.1 LIQUID_SYMBOL))
    (mk_price (mk_asset y.2 DOLLAR_SYMBOL) (mk_asset y.1 LIQUID_SYMBOL)) = (y.1 * x.2 ?= x.1 * y.2).
Proof.
  unfold paid_ok, INT64_MAX, price_compare, wrap_u128. cbn [base quote symbol amount]. intros [? ?] [? ?].
  rewrite !Z.compare_refl, (Z.mod_small x.1), (Z.mod_small x.2), (Z.mod_small y.1), (Z.mod_small y.2) by lia.
  rewrite !Z.mod_small by nia. done.
Qed.

Lemma forall_elem {A} (P : A → Prop) l x : Forall P l → x ∈ l → P x.
Proof. rewrite Stdlib.Lists.List.Forall_forall. intros Hl Hx. by apply Hl, list_elem_of_In. Qed.

(** The extreme of a list with one more element. *)
Lemma extreme_snoc (R : Z * Z → Z * Z → Prop) l x h (swap : bool) :
  (∀ x y z, paid_ok x → paid_ok y → paid_ok z → R x y → R y z → R x z) → (∀ x, R x x) →
  h ∈ l → Forall (fun y => R y h) l → Forall paid_ok l → paid_ok x →
  (if swap then R h x else R x h) →
  (if swap then x else h) ∈ l ++ [x] ∧ Forall (fun y => R y (if swap then x else h)) (l ++ [x]).
Proof.
  intros Ht Hrefl Hh Hf Hl Hx Hs. rewrite elem_of_app, list_elem_of_singleton, Forall_app, Forall_singleton.
  destruct swap; (split; [by auto|]); (split; [|by auto]); [|done].
  pose proof (forall_elem _ _ _ Hl Hh) as Ph. clear Hh. induction Hl as [|y l Hy Hl IH]; [done|].
  inversion Hf; subst. constructor; [by apply (Ht y h x)|auto].
Qed.

Lemma safe_add_small v w : 0 ≤ v → 0 < w → v + w ≤ INT64_MAX → safe.add v w = Ok (v + w).
Proof.
  intros Hv Hw Hs. unfold safe.add. rewrite !Z.gtb_ltb, (proj2 (Z.ltb_ge (INT64_MAX - w) v)) by lia.
  by rewrite andb_false_r, (proj2 (Z.ltb_ge w 0)) by lia.
Qed.

Lemma update_candle l b x : candle l b → Forall paid_ok l → paid_ok x →
  total fst l + x.1 ≤ INT64_MAX → total snd l + x.2 ≤ INT64_MAX →
  ∃ b', update_bucket (mk_asset x.1 LIQUID_SYMBOL) (mk_asset x.2 DOLLAR_SYMBOL) b = Ok b' ∧ candle (l ++ [x]) b'.
Proof.
  intros [Ho Hc [Hv1 Hv2] [Hh1 Hh2] [Hl1 Hl2]] Hl Hx H1 H2.
  pose proof (forall_elem _ _ _ Hl Hh1) as Ph. pose proof (forall_elem _ _ _ Hl Hl1) as Pl.
  assert (0 ≤ total fst l ∧ 0 ≤ total snd l) as [T1 T2].
  { split; apply total_nonneg; (eapply Forall_impl; [|exact Hl]); intros y [? ?]; lia. }
  set (ph := (high (liquid b), high (dollars b))) in *. set (pl := (low (liquid b), low (dollars b))) in *.
  unfold update_bucket. cbn [amount]. rewrite Hv1, Hv2, !safe_add_small by (destruct Hx; lia). cbn [res_bind].
  unfold high_price. change (high (dollars b)) with ph.2. change (high (liquid b)) with ph.1.
  rewrite (market_price ph), (market_price x) by done. cbn [res_bind].
  unfold low_price. change (low (dollars b)) with pl.2. change (low (liquid b)) with pl.1.
  rewrite (market_price pl) by done. cbn [res_bind].
  unfold price_ltb, price_gtb. rewrite !market_price_compare by done.
  eexists. split; [reflexivity|]. split.
  - destruct l; [done|]. exact Ho.
  - rewrite last_snoc. cbn. by destruct x.
  - cbn. rewrite !total_app. cbn. lia.
  - edestruct (extreme_snoc price_le l x ph (match x.1 * ph.2 ?= ph.1 * x.2 with Lt => true | _ => false end)) as [E1 E2];
      [exact price_le_trans|unfold price_le; lia|done|done|done|done| |].
    { unfold price_le. destruct (Z.compare_spec (x.1 * ph.2) (ph.1 * x.2)); lia. }
    subst ph. cbn in *. by destruct (x.1 * _ ?= _), x.
  - edestruct (extreme_snoc (flip price_le) l x pl (match x.1 * pl.2 ?= pl.1 * x.2 with Gt => true | _ => false end)) as [E1 E2];
      [|unfold flip, price_le; lia|done|done|done|done| |].
    { unfold flip. intros ? y ? ? ? ? ? ?. by apply (price_le_trans _ y). }
    { unfold flip, price_le. destruct (Z.compare_spec (x.1 * pl.2) (pl.1 * x.2)); lia. }
    subst pl. cbn in *. by destruct (x.1 * _ ?= _), x.
Qed.

(** ** Dropping old buckets *)

(** The loop ends at a recent bucket, and drops only old ones. *)
Lemma drop_old_spec seconds cutoff itr m k : k ∈ itr → ¬ (k.1 = seconds ∧ k.2 < cutoff) →
  ∃ m', drop_old seconds cutoff itr m = Ok m' ∧
    ∀ j, m' !! j = m !! j ∨ m' !! j = None ∧ j.1 = seconds ∧ j.2 < cutoff.
Proof.
  intros Hk Hrecent. revert m. induction itr as [|j itr IH]; intros m; [by apply not_elem_of_nil in Hk|]. cbn [drop_old].
  destruct (Z.eqb_spec j.1 seconds), (Z.ltb_spec j.2 cutoff); cbn; [|by eauto..].
  apply elem_of_cons in Hk as [->|Hk]; [exfalso; lia|].
  destruct (IH Hk (delete j m)) as (m' & -> & Hm). exists m'. split; [done|]. intros i.
  destruct (decide (i = j)) as [->|Hne]; [|by rewrite <-(lookup_delete_ne m j i) by done].
  destruct (Hm j) as [E|E]; [|by auto]. rewrite lookup_delete_eq in E. auto.
Qed.

Lemma elem_of_from_lower_bound k j m : bucket_le k j → is_Some (m !! j) → j ∈ from_lower_bound k m.
Proof.
  intros. unfold from_lower_bound. rewrite (merge_sort_Permutation bucket_le), elem_of_elements, elem_of_filter.
  by rewrite elem_of_dom.
Qed.

(** ** A run of the plugin *)

(** What a fill paid in ZTR and in ZBD. *)
Definition paid (op : virtual_operation) : option (Z * Z) :=
  match op with
  | fill_order_operation _ _ c _ _ o => Some (amount (paid_liquid c o), amount (paid_dollars c o))
  | _ => None
  end.
(** The fills of the interval of [b] seconds that starts at [o]. *)
Definition window (b : Z) (o : time) (l : list (time * virtual_operation)) : list (Z * Z) :=
  omap (fun x => if decide (x.1 / b * b = o) then paid x.2 else None) l.
(** A fill between ZTR and ZBD. *)
Definition fill_ok (op : virtual_operation) : Prop :=
  match op with
  | fill_order_operation _ _ c _ _ o =>
      paid_liquid c o = mk_asset (amount (paid_liquid c o)) LIQUID_SYMBOL ∧
      paid_dollars c o = mk_asset (amount (paid_dollars c o)) DOLLAR_SYMBOL ∧
      paid_ok (amount (paid_liquid c o), amount (paid_dollars c o))
  | _ => True
  end.

Section Run.
Context (tracked : list Z) (maximum_history : Z).

(** The virtual operations of a run with the head times at which they happen:
    times do not go back, each tracked history is shorter than the time since
    1970, and what is traded in an interval is within 64 bits. *)
Inductive market_run : list (time * virtual_operation) → time → Prop :=
| run_start : market_run [] 0
| run_step l t t' op : market_run l t → t ≤ t' < 2 ^ 32 → fill_ok op →
    (∀ b, b ∈ tracked → b * maximum_history ≤ t') →
    (∀ b o, b ∈ tracked → total fst (window b o (l ++ [(t', op)])) ≤ INT64_MAX) →
    (∀ b o, b ∈ tracked → total snd (window b o (l ++ [(t', op)])) ≤ INT64_MAX) →
    market_run (l ++ [(t', op)]) t'.

(** The buckets of [b] seconds are the candles of the fills [l] at time [t]. *)
Definition candles (b : Z) (l : list (time * virtual_operation)) (t : time) (m : gmap (Z * time) bucket_object) : Prop :=
  ∀ o, match m !! (b, o) with
       | Some bucket => candle (window b o l) bucket
       | None => window b o l = [] ∨ o < t - b * maximum_history
       end.

Lemma window_snoc b o l t op :
  window b o (l ++ [(t, op)]) = window b o l ++ (if decide (t / b * b = o) then option_list (paid op) else []).
Proof.
  unfold window. rewrite omap_app. f_equal. cbn. destruct (decide _); [|done]. by destruct (paid op).
Qed.
Lemma window_other b l t op : paid op = None → ∀ o, window b o (l ++ [(t, op)]) = window b o l.
Proof. intros E o. rewrite window_snoc, E. cbn. destruct (decide _); apply app_nil_r. Qed.
Lemma run_paid_ok l t : market_run l t → ∀ b o, Forall paid_ok (window b o l).
Proof.
  induction 1 as [|l t t' op Hrun IH Ht Hop]; intros b o; [by constructor|].
  rewrite window_snoc, Forall_app. split; [done|]. destruct (decide _); [|by constructor].
  destruct op; cbn; try by constructor. destruct Hop as (_ & _ & Hp). by constructor.
Qed.

(** The interval of the current time is recent. *)
Lemma current_interval b t' : 0 < b → 0 < maximum_history → b * maximum_history ≤ t' < 2 ^ 32 →
  t' - b * maximum_history < t' / b * b ≤ t' ∧ wrap_u32 (t' / b * b) = t' / b * b ∧
  wrap_u32 (t' - wrap_u32 (b * maximum_history)) = t' - b * maximum_history.
Proof.
  intros Hb Hm Ht. pose proof (Z.div_mod t' b ltac:(lia)). pose proof (Z.mod_pos_bound t' b Hb).
  unfold wrap_u32. rewrite (Z.mod_small (b * _)), !Z.mod_small by nia. nia.
Qed.

Lemma track_candles l t t' b c1 c2 c c3 c4 o m :
  let op := fill_order_operation c1 c2 c c3 c4 o in
  Forall paid_ok (window b (t' / b * b) l) → t ≤ t' < 2 ^ 32 → fill_ok op →
  0 < b → 0 < maximum_history → b * maximum_history ≤ t' →
  total fst (window b (t' / b * b) (l ++ [(t', op)])) ≤ INT64_MAX →
  total snd (window b (t' / b * b) (l ++ [(t', op)])) ≤ INT64_MAX →
  candles b l t m →
  ∃ m', track_fill maximum_history t' c o b m = Ok m' ∧ candles b (l ++ [(t', op)]) t' m' ∧
    ∀ b' o', b' ≠ b → m' !! (b', o') = m !! (b', o').
Proof.
  intros op Hwin Ht (Hliq & Hdol & Hx) Hb Hm Hmt Hs1 Hs2 Hc.
  destruct (current_interval b t') as (Hcur & Hopen & Hcut); [done..|lia|].
  rewrite window_snoc, decide_True in Hs1, Hs2 by done. cbn [op paid option_list] in Hs1, Hs2.
  set (x := (amount (paid_liquid c o), amount (paid_dollars c o))) in *.
  assert (∀ m', (∃ bk, m' !! (b, t' / b * b) = Some bk ∧ candle (window b (t' / b * b) l ++ [x]) bk) →
    (∀ o', o' ≠ t' / b * b → m' !! (b, o') = m !! (b, o') ∨ m' !! (b, o') = None ∧ o' < t' - b * maximum_history) →
    candles b (l ++ [(t', op)]) t' m') as Hnew.
  { intros m' (bk & E & Hbk) Hother o'. rewrite window_snoc. destruct (decide (t' / b * b = o')) as [<-|Hne].
    - by rewrite E.
    - rewrite app_nil_r. specialize (Hc o'). destruct (Hother o') as [->|[-> ?]]; [done| |by right].
      destruct (m !! (b, o')); [done|]. destruct Hc; [by left|right; lia]. }
  unfold track_fill. rewrite (proj2 (Z.eqb_neq b 0)) by lia. cbn [res_bind]. rewrite Hopen, Hcut.
  pose proof (Hc (t' / b * b)) as Hhere. destruct (m !! (b, t' / b * b)) as [bk|] eqn:E.
  - rewrite Hliq, Hdol. rewrite !total_app in Hs1, Hs2. cbn in Hs1, Hs2.
    destruct (update_candle _ _ x Hhere Hwin Hx) as (bk' & Eu & Hbk'); [cbn; lia..|].
    change (amount (paid_liquid c o)) with x.1. change (amount (paid_dollars c o)) with x.2. rewrite Eu. cbn [res_bind].
    rewrite Z.gtb_ltb, (proj2 (Z.ltb_lt _ _)) by done.
    destruct (drop_old_spec b (t' - b * maximum_history) (from_lower_bound (b, 0) (<[(b, t' / b * b) := bk']> m))
      (<[(b, t' / b * b) := bk']> m) (b, t' / b * b)) as (m' & Em & Hm').
    { apply elem_of_from_lower_bound; [|by rewrite lookup_insert_eq; eauto]. right. cbn. split; [done|].
      apply Z.mul_nonneg_nonneg; [apply Z.div_pos; nia|lia]. }
    { cbn. lia. }
    exists m'. split; [exact Em|]. split.
    + apply Hnew.
      * exists bk'. split; [|done]. destruct (Hm' (b, t' / b * b)) as [->|(_ & _ & ?)]; [apply lookup_insert_eq|cbn in *; lia].
      * intros o' Hne. destruct (Hm' (b, o')) as [->|(? & _ & ?)]; [left; apply lookup_insert_ne; congruence|by right].
    + intros b' o' Hne. destruct (Hm' (b', o')) as [->|(_ & ? & _)]; [apply lookup_insert_ne; congruence|done].
  - eexists. split; [reflexivity|]. split.
    + apply Hnew.
      * exists (mk_bucket (fill x.1) (fill x.2)). split; [apply lookup_insert_eq|].
        destruct Hhere as [->|?]; [apply candle_single|lia].
      * intros o' Hne. left. apply lookup_insert_ne. congruence.
    + intros b' o' Hne. apply lookup_insert_ne. congruence.
Qed.

Lemma track_all l t t' c1 c2 c c3 c4 o m :
  let op := fill_order_operation c1 c2 c c3 c4 o in
  market_run l t → t ≤ t' < 2 ^ 32 → fill_ok op → 0 < maximum_history →
  (∀ b, b ∈ tracked → 0 < b ∧ b * maximum_history ≤ t') →
  (∀ b o, b ∈ tracked → total fst (window b o (l ++ [(t', op)])) ≤ INT64_MAX) →
  (∀ b o, b ∈ tracked → total snd (window b o (l ++ [(t', op)])) ≤ INT64_MAX) →
  ∀ bs, NoDup bs → (∀ b, b ∈ bs → b ∈ tracked) → (∀ b, b ∈ bs → candles b l t m) →
  ∃ m', res_fold (fun m b => track_fill maximum_history t' c o b m) m bs = Ok m' ∧
    (∀ b, b ∈ bs → candles b (l ++ [(t', op)]) t' m') ∧ ∀ b' o', b' ∉ bs → m' !! (b', o') = m !! (b', o').
Proof.
  intros op Hrun Ht Hop Hm Hb Hs1 Hs2 bs Hnd. revert m.
  induction Hnd as [|b bs Hnb Hnd IH]; intros m Hin Hc; cbn [res_fold].
  { exists m. split_and!; [done|by intros ? ?%not_elem_of_nil|done]. }
  destruct (Hb b) as [Hb1 Hb2]; [apply Hin; by left|]. destruct (track_candles l t t' b c1 c2 c c3 c4 o m) as (m1 & E & Hc1 & Hother);
    [by eapply run_paid_ok|done..|apply Hs1, Hin; by left|apply Hs2, Hin; by left|apply Hc; by left|].
  rewrite E. cbn [res_bind]. destruct (IH m1) as (m' & Em & Hbs & Hrest).
  { intros b' ?. apply Hin. by right. }
  { intros b' Hb' o'. rewrite Hother by (by intros ->). apply Hc. by right. }
  exists m'. split; [done|]. split.
  - intros b' [->|Hb']%elem_of_cons; [|by apply Hbs]. intros o'. rewrite (Hrest b o' Hnb). apply Hc1.
  - intros b' o' [? ?]%not_elem_of_cons. rewrite Hrest by done. by apply Hother.
Qed.
End Run.


(** The plugin over the virtual operations of a run. *)
Definition replay (tracked : list Z) (maximum_history : Z) (l : list (time * virtual_operation)) : res market_history :=
  res_fold (fun st x => on_post_apply_virtual tracked maximum_history x.1 x.2 st) (mk_market_history [] ∅) l.

(** C36: Whatever orders are filled, the plugin never fails, its order history is
    the list of the fills in order, and for every tracked bucket size each bucket
    it holds is the candle of the fills in its interval: opening and closing
    price, volumes, and the highest and lowest price of the interval.  A bucket
    that is missing belongs to an interval without fills or to one older than the
    configured number of buckets. *)
Theorem buckets_are_candles tracked maximum_history l t :
  NoDup tracked → (∀ b, b ∈ tracked → 0 < b) → 0 < maximum_history → market_run tracked maximum_history l t →
  ∃ st, replay tracked maximum_history l = Ok st ∧
    order_history st = filter (fun x => paid x.2 ≠ None) l ∧
    ∀ b, b ∈ tracked → candles maximum_history b l t (bucket_index st).
Proof.
  intros Hnd Hpos Hm. unfold replay. induction 1 as [|l t t' op Hrun IH Ht Hop Hb Hs1 Hs2].
  { eexists. split; [reflexivity|]. split; [done|]. intros b _ o. cbn [bucket_index]. rewrite lookup_empty. by left. }
  destruct IH as (st & E & Hh & Hc). rewrite (res_fold_app _ _ _ _ _ E), list.filter_app, list.filter_cons, list.filter_nil. cbn [res_fold fst snd].
  assert (paid op = None → on_post_apply_virtual tracked maximum_history t' op st = Ok st) as Hno by (by destruct op).
  destruct (paid op) eqn:Ep.
  - destruct op; try done. rewrite decide_True by done. cbn.
    rewrite (proj2 (Z.eqb_neq maximum_history 0)) by lia.
    edestruct (track_all tracked maximum_history l t t') as (m & Em & Hcs & _); [done..| | | | | | |]; try done.
    { intros b Hbt. split; [by apply Hpos|by apply Hb]. }
    rewrite Em. cbn [res_bind]. eexists. split; [reflexivity|]. cbn. split; [by rewrite Hh|done].
  - rewrite Hno by done. exists st. split; [done|]. rewrite decide_False by (intros []; done). rewrite app_nil_r. split; [done|].
    intros b Hbt o. rewrite window_other by done. specialize (Hc b Hbt o).
    destruct (_ !! _); [done|]. destruct Hc; [by left|right; lia].
Qed.

(** Three fills, two of them in the same quarter of a minute. *)
Definition sample_fills : list (time * virtual_operation) :=
  [(1600000005, fill_order_operation "alice" 1 (mk_asset 30 DOLLAR_SYMBOL) "bob" 2 (mk_asset 60 LIQUID_SYMBOL));
   (1600000011, fill_order_operation "carol" 3 (mk_asset 10 LIQUID_SYMBOL) "bob" 4 (mk_asset 9 DOLLAR_SYMBOL));
   (1600000026, fill_order_operation "alice" 5 (mk_asset 4 DOLLAR_SYMBOL) "bob" 6 (mk_asset 10 LIQUID_SYMBOL))].

Lemma sample_run : market_run [15; 60] 1000 sample_fills 1600000026.
Proof.
  refine (run_step _ _ [_; _] 1600000011 _ _ (run_step _ _ [_] 1600000005 _ _ (run_step _ _ [] 0 _ _ (run_start _ _)
    _ _ _ _ _) _ _ _ _ _) _ _ _ _ _); [lia|by repeat split| | | |lia|by repeat split| | | |lia|by repeat split| | |];
  intros b; lazymatch goal with |- _ ∈ _ → _ => idtac | |- _ => intros o end;
  rewrite !elem_of_cons; (intros [->|[->|[]%not_elem_of_nil]]); try lia;
  unfold window; cbn; repeat (case_decide; cbn); unfold INT64_MAX; lia.
Qed.

Lemma buckets_are_candles_witness :
  (∃ st, replay [15; 60] 1000 sample_fills = Ok st ∧
    order_history st = filter (fun x => paid x.2 ≠ None) sample_fills ∧
    ∀ b, b ∈ [15; 60] → candles 1000 b sample_fills 1600000026 (bucket_index st)) ∧
  (let? st := replay [15; 60] 1000 sample_fills in Ok (bucket_index st !! (60, 1599999960))) =
    Ok (Some (mk_bucket (mk_details 10 60 60 10 70) (mk_details 9 30 30 9 39))).
Proof.
  split; [|vm_compute; reflexivity].
  apply (buckets_are_candles [15; 60] 1000 sample_fills 1600000026); [| |lia|exact sample_run].
  - apply (bool_decide_unpack _). vm_compute. exact I.
  - intros b. rewrite !elem_of_cons. intros [->|[->|[]%not_elem_of_nil]]; lia.
Defined.
