(* ===== verification/Sync.v ===== *)
(** * Synchronization with peers

    The delegate through which the network code talks to the chain
    (src/src/plugins/p2p/p2p_plugin.cpp) and the entry points of the chain plugin it
    uses (src/src/plugins/chain/chain_plugin.cpp): the summary of the chain that a
    node sends to a peer, the list of blocks the peer answers with, and the
    handling of blocks and transactions that arrive.  Requests to the chain plugin
    are carried out one after the other by its write thread, so each is a
    computation on the node.  [sync_finds_common_block] puts the two sides together:
    the list starts at a block the asking node has, as close to the point where the
    chains part as the summary allows. *)
From S2P Require Import Prelude Ints Config Asset Authority Headers Operations State Blocks ForkDb BlockLog Store Ledger Balances Vesting Conserve EvalFunds Market EvalAccounts Proxy Reward EvalContent Evaluators Genesis Schedule Chain Heads Node.

Section Delegate.
Context `{Codec, DiffPatch, Crypto, Packing}.

(** ** The chain plugin *)

Definition allow_future_time : Z := 5.
(** [now] is the clock in seconds. *)
Definition check_time_in_block (now : time) (b : signed_block) : res unit :=
  res_assert (blk_timestamp b <=? now + allow_future_time) "block.timestamp.sec_since_epoch() <= max_accept_time".
Definition accept_block (now : time) (b : signed_block) (skip : Z) : N bool :=
  n_lift (check_time_in_block now b) ;;; push_block b skip.
Definition accept_transaction (trx : signed_transaction) : N unit := push_transaction trx 0.

(** ** Blocks and transactions from peers *)

Record p2p_plugin := mk_p2p_plugin { running : bool; force_validate : bool; block_producer : bool }.

(** A node that does not produce blocks does not check the signatures in blocks. *)
Definition handle_block (now : time) (p : p2p_plugin) (b : signed_block) : N bool :=
  if running p
  then accept_block now b (if block_producer p || force_validate p then 0 else skip_transaction_signatures)
  else n_throw (assert_exception "Preventing further processing of ignored block...").
Definition handle_transaction (p : p2p_plugin) (trx : signed_transaction) : N unit :=
  if running p then accept_transaction trx
  else n_throw (assert_exception "Preventing further processing of ignored transaction...").

(** ** Lookups for peers *)

Inductive item_id : Type := block_item (id : block_id_type) | trx_item (id : string).
Definition has_item (n : node) (i : item_id) : res bool :=
  match i with
  | block_item id => is_known_block_id n id
  | trx_item id => Ok (is_known_transaction id n)
  end.
Definition get_block_item (n : node) (id : block_id_type) : res signed_block :=
  let? b := fetch_block_by_id n id in of_option b (assert_exception "opt_block.valid()").
Definition get_block_time (n : node) (id : block_id_type) : res time :=
  let? b := fetch_block_by_id n id in Ok (match b with Some b => blk_timestamp b | None => time_min end).

Definition is_included_block (n : node) (id : block_id_type) : res bool :=
  let? preferred := get_block_id_for_num n (num_from_id id) in Ok (bool_decide (id = preferred)).

(** The loop over the synopsis, from its end. *)
Fixpoint find_in_synopsis (n : node) (l : list block_id_type) : res (option block_id_type) :=
  match l with
  | [] => Ok None
  | id :: l' =>
      let? found :=
        (if bool_decide (id = null_id) then Ok true
         else let? known := is_known_block_id n id in if known then is_included_block n id else Ok false) in
      if found then Ok (Some id) else find_in_synopsis n l'
  end.

(** The ids of [count] blocks from number [num] on. *)
Fixpoint block_ids_from (n : node) (num : Z) (count : nat) : res (list block_id_type) :=
  match count with
  | O => Ok []
  | S count' => let? id := get_block_id_for_num n num in
                let? l := block_ids_from n (num + 1) count' in Ok (id :: l)
  end.

(** The ids and the number of items that remain.  The loop adds nothing for number
    zero, and ends at the head or when the result has [limit] ids. *)
Definition get_block_ids (n : node) (synopsis : list block_id_type) (limit : Z) : res (list block_id_type * Z) :=
  if head_block_number n =? 0 then Ok ([], 0) else
  let? last_known :=
    (if bool_decide (synopsis = []) || bool_decide (synopsis = [null_id]) then Ok null_id
     else let? found := find_in_synopsis n (reverse synopsis) in
          of_option found (assert_exception "peer_is_on_an_unreachable_fork")) in
  let first := Z.max 1 (num_from_id last_known) in
  let? result := block_ids_from n first (Z.to_nat (Z.min limit (head_block_number n - first + 1))) in
  let remaining :=
    match list.last result with
    | Some id => if num_from_id id <? head_block_number n then head_block_number n - num_from_id id else 0
    | None => 0
    end in
  Ok (result, remaining).

(** ** The synopsis *)

(** The distance to the end at least halves in a round, so 33 rounds are enough. *)
Fixpoint synopsis_loop (n : node) (fork_history : list block_id_type) (non_fork_high high true_high : Z)
    (rounds : nat) (low : Z) : res (list block_id_type) :=
  match rounds with
  | O => Throw out_of_fuel
  | S rounds' =>
      let? id :=
        (if low <=? non_fork_high then get_block_id_for_num n low
         else of_option (fork_history !! Z.to_nat (low - non_fork_high - 1)) (key_not_found "fork_history")) in
      let low := wrap_u32 (low + wrap_u32 (true_high - low + 2) / 2) in
      if low <=? high
      then let? l := synopsis_loop n fork_history non_fork_high high true_high rounds' low in Ok (id :: l)
      else Ok [id]
  end.

Definition last_non_undoable_block_num (n : node) : Z := gpo_last_irreversible_block_num (gpo (nd_db n)).

Definition get_blockchain_synopsis (n : node) (reference_point : block_id_type) (after : Z) : res (list block_id_type) :=
  let low := last_non_undoable_block_num n in
  let finish fork_history non_fork_high high low :=
    synopsis_loop n fork_history non_fork_high high (wrap_u32 (high + after)) 33 (if low =? 0 then 1 else low) in
  if bool_decide (reference_point = null_id) then
    let high := head_block_number n in
    if high =? 0 then Ok [] else finish [] high high low
  else
    let? included := is_included_block n reference_point in
    if included then
      let high := num_from_id reference_point in
      finish [] high high (if high <? low then high else low)
    else
      let? ids := get_block_ids_on_fork n reference_point in
      let? last_non_fork := of_option (list.last ids) (key_not_found "fork_history.back()") in
      let fork_history := reverse (removelast ids) in
      let non_fork_high := if bool_decide (last_non_fork = null_id) then 0 else num_from_id last_non_fork in
      let high := wrap_u32 (non_fork_high + Z.of_nat (length fork_history)) in
      if non_fork_high <? low then Throw (assert_exception "block_older_than_undo_history")
      else finish fork_history non_fork_high high low.

End Delegate.

(** ** What a synopsis covers *)

Section Sync.
Context `{Codec, DiffPatch, Crypto, Packing}.

(** The lookups of a node agree on its chain: [ids k] is the block number [k]. *)
Record main_chain (n : node) (ids : Z → block_id_type) : Prop := {
  main_number : 1 ≤ head_block_number n < 2 ^ 32 - 2;
  main_block k : 1 ≤ k ≤ head_block_number n →
    get_block_id_for_num n k = Ok (ids k) ∧ num_from_id (ids k) = k ∧ is_known_block_id n (ids k) = Ok true
}.

(** The numbers [ks] are a sample of [low] to [high]: both ends are among them, and
    from the last one at or below any [f] it is at most half of the rest to [f]. *)
Record sample_of (low high : Z) (ks : list Z) : Prop := {
  sample_first : head ks = Some low;
  sample_last : list.last ks = Some high;
  sample_range : Forall (fun k => low ≤ k ≤ high) ks;
  sample_ascending : StronglySorted Z.lt ks;
  sample_near f : low ≤ f ≤ high → ∃ l k r, ks = l ++ k :: r ∧
    k ≤ f ∧ 2 * (f - k) ≤ high - k ∧ Forall (fun j => f < j) r;
  sample_short (r : nat) : high - low + 1 < 2 ^ Z.of_nat r → (length ks ≤ r)%nat
}.

Lemma sample_single low : sample_of low low [low].
Proof.
  split; [done|done|by repeat constructor; lia|by repeat constructor| |].
  - intros f Hf. exists [], low, []. split_and!; [done|lia..|by constructor].
  - intros [|r]; cbn; lia.
Qed.
Lemma sample_cons low high ks : low + 1 ≤ high → sample_of (low + (high - low + 2) / 2) high ks → sample_of low high (low :: ks).
Proof.
  intros Hlow [C1 C2 C3 C0 C4 C5]. set (next := low + (high - low + 2) / 2) in *.
  pose proof (Z.div_mod (high - low + 2) 2). pose proof (Z.mod_pos_bound (high - low + 2) 2).
  destruct ks as [|k ks]; [done|]. injection C1 as ->. split.
  - done.
  - by rewrite last_cons_cons.
  - constructor; [lia|]. eapply Forall_impl; [|exact C3]. cbn. lia.
  - constructor; [done|]. eapply Forall_impl; [|exact C3]. cbn. lia.
  - intros f Hf. destruct (Z.lt_ge_cases f next).
    + exists [], low, (next :: ks). split_and!; [done|lia..|]. eapply Forall_impl; [|exact C3]. cbn. lia.
    + destruct (C4 f) as (l & k & r & -> & ? & ? & ?); [lia|]. by exists (low :: l), k, r.
  - intros [|r] Hr; [cbn in Hr; lia|]. cbn [length]. apply le_n_S, (C5 r).
    rewrite Nat2Z.inj_succ, Z.pow_succ_r in Hr by lia. lia.
Qed.

Lemma synopsis_loop_spec n ids high rounds low : main_chain n ids → 1 ≤ low ≤ high → high ≤ head_block_number n →
  high - low + 1 < 2 ^ Z.of_nat rounds →
  ∃ ks, synopsis_loop n [] high high high rounds low = Ok (ids <$> ks) ∧ sample_of low high ks.
Proof.
  intros Hn. pose proof (main_number _ _ Hn) as Hh. revert low.
  induction rounds as [|rounds IH]; intros low Hlow Hhigh Hr; [cbn in Hr; lia|]. cbn [synopsis_loop].
  destruct (main_block _ _ Hn low) as (-> & _ & _); [lia|]. rewrite (proj2 (Z.leb_le low high)) by lia. cbn [res_bind].
  pose proof (Z.div_mod (high - low + 2) 2). pose proof (Z.mod_pos_bound (high - low + 2) 2).
  unfold wrap_u32. rewrite (Z.mod_small (high - low + 2)), Z.mod_small by lia.
  destruct (Z.leb_spec (low + (high - low + 2) / 2) high) as [Hle|Hgt].
  - rewrite Nat2Z.inj_succ, Z.pow_succ_r in Hr by lia. destruct (IH (low + (high - low + 2) / 2)) as (ks & -> & Hs); [lia..|].
    exists (low :: ks). split; [done|]. apply sample_cons; [lia|done].
  - exists [low]. assert (low = high) as -> by lia. split; [done|apply sample_single].
Qed.

Lemma synopsis_finish n ids high low : main_chain n ids → 0 ≤ low ≤ high → 1 ≤ high ≤ head_block_number n →
  ∃ ks, synopsis_loop n [] high high (wrap_u32 (high + 0)) 33 (if low =? 0 then 1 else low) = Ok (ids <$> ks) ∧
    sample_of (Z.max 1 low) high ks.
Proof.
  intros Hn Hlow Hhigh. pose proof (main_number _ _ Hn) as Hh. unfold wrap_u32. rewrite Z.add_0_r, Z.mod_small by lia.
  replace (if low =? 0 then 1 else low) with (Z.max 1 low) by (destruct (Z.eqb_spec low 0); lia).
  apply synopsis_loop_spec; [done|lia|lia|]. change (2 ^ Z.of_nat 33) with (2 * 2 ^ 32). lia.
Qed.
Lemma main_not_null n ids k : main_chain n ids → 1 ≤ k ≤ head_block_number n → ids k ≠ null_id.
Proof. intros Hn Hk E. destruct (main_block _ _ Hn k Hk) as (_ & Hnum & _). rewrite E in Hnum. vm_compute in Hnum. lia. Qed.
Lemma main_included n ids k : main_chain n ids → 1 ≤ k ≤ head_block_number n → is_included_block n (ids k) = Ok true.
Proof.
  intros Hn Hk. destruct (main_block _ _ Hn k Hk) as (Hg & Hnum & _). unfold is_included_block. rewrite Hnum, Hg. cbn [res_bind].
  by rewrite bool_decide_eq_true_2.
Qed.
Lemma synopsis_of_head n ids : main_chain n ids → 0 ≤ last_non_undoable_block_num n ≤ head_block_number n →
  ∃ ks, get_blockchain_synopsis n null_id 0 = Ok (ids <$> ks) ∧
    sample_of (Z.max 1 (last_non_undoable_block_num n)) (head_block_number n) ks.
Proof.
  intros Hn Hlib. pose proof (main_number _ _ Hn) as Hh. unfold get_blockchain_synopsis.
  rewrite bool_decide_eq_true_2, (proj2 (Z.eqb_neq (head_block_number n) 0)) by (done || lia).
  apply synopsis_finish; [done|lia..].
Qed.

(** C13: a node can always summarize its chain up to a block of it, or up to the
    head.  The summary names blocks of the chain in ascending order, from the last
    irreversible block to that block, and at most as many as the length of that
    part has binary digits; below any block of it the next one named is at most
    half of the distance from there to the end away. *)
Theorem synopsis_covers_chain n ids reference high : main_chain n ids → 0 ≤ last_non_undoable_block_num n →
  1 ≤ high ≤ head_block_number n →
  reference = ids high ∨ reference = null_id ∧ high = head_block_number n ∧ last_non_undoable_block_num n ≤ high →
  ∃ ks, get_blockchain_synopsis n reference 0 = Ok (ids <$> ks) ∧
    sample_of (Z.max 1 (Z.min high (last_non_undoable_block_num n))) high ks.
Proof.
  intros Hn Hlib Hhigh [-> |(-> & -> & Hle)].
  - unfold get_blockchain_synopsis. rewrite bool_decide_eq_false_2 by (by eapply main_not_null).
    rewrite (main_included n ids high) by done. cbn [res_bind]. destruct (main_block _ _ Hn high Hhigh) as (_ & Hnum & _).
    rewrite Hnum. replace (if high <? last_non_undoable_block_num n then high else last_non_undoable_block_num n)
      with (Z.min high (last_non_undoable_block_num n)) by (destruct (Z.ltb_spec high (last_non_undoable_block_num n)); lia).
    apply synopsis_finish; [done|lia..].
  - rewrite Z.min_r by lia. apply synopsis_of_head; [done|lia].
Qed.

(** ** Two nodes *)

(** A block that is not on the chain of the node, whether known or not. *)
Definition foreign (n : node) (id : block_id_type) : Prop :=
  is_known_block_id n id = Ok false ∨ is_known_block_id n id = Ok true ∧ is_included_block n id = Ok false.

Lemma find_in_synopsis_spec n l id l' : Forall (fun i => i ≠ null_id ∧ foreign n i) l → id ≠ null_id →
  is_known_block_id n id = Ok true → is_included_block n id = Ok true → find_in_synopsis n (l ++ id :: l') = Ok (Some id).
Proof.
  intros Hl Hid Hk Hi. induction Hl as [|i l [Hnn Hf] Hl IH]; cbn [app find_in_synopsis].
  - rewrite bool_decide_eq_false_2 by done. by rewrite Hk, Hi.
  - rewrite bool_decide_eq_false_2 by done. destruct Hf as [-> | [-> ->]]; cbn [res_bind]; exact IH.
Qed.

Lemma block_ids_from_spec n ids k count : main_chain n ids → 1 ≤ k → k + Z.of_nat count ≤ head_block_number n + 1 →
  block_ids_from n k count = Ok (ids <$> seqZ k (Z.of_nat count)).
Proof.
  intros Hn. revert k. induction count as [|count IH]; intros k Hk Hc; [done|]. cbn [block_ids_from].
  destruct (main_block _ _ Hn k) as (-> & _ & _); [lia|]. cbn [res_bind]. rewrite IH by lia. cbn [res_bind].
  rewrite (seqZ_cons k) by lia. cbn. by rewrite Nat2Z.inj_succ, Z.pred_succ.
Qed.

(** C12: synchronization starts at a block both nodes have.  When the chain of a peer
    agrees with ours up to the block number [f], which we could still undo to, and
    our later blocks are not on its chain, then the peer answers our synopsis with
    consecutive blocks of its chain.  They begin at a block of our own chain that is
    not irreversible for us or is the last such block, is at most half of the way
    from our head below [f], and the count of the blocks that remain is right. *)
Theorem sync_finds_common_block ours peer ids ids' f limit :
  main_chain ours ids → main_chain peer ids' →
  0 ≤ last_non_undoable_block_num ours ≤ head_block_number ours →
  Z.max 1 (last_non_undoable_block_num ours) ≤ f ≤ head_block_number ours → f ≤ head_block_number peer →
  (∀ k, 1 ≤ k ≤ f → ids k = ids' k) →
  (∀ k, f < k ≤ head_block_number ours → foreign peer (ids k)) → 1 ≤ limit →
  ∃ synopsis k, get_blockchain_synopsis ours null_id 0 = Ok synopsis ∧
    Z.max 1 (last_non_undoable_block_num ours) ≤ k ≤ f ∧ 2 * (f - k) ≤ head_block_number ours - k ∧
    let count := Z.min limit (head_block_number peer - k + 1) in
    get_block_ids peer synopsis limit = Ok (ids' <$> seqZ k count, head_block_number peer - (k + count - 1)) ∧
    head (ids' <$> seqZ k count) = Some (ids k).
Proof.
  intros Ho Hp Hlib Hf Hf' Hcommon Hforeign Hlimit.
  destruct (synopsis_of_head ours ids Ho Hlib) as (ks & Eks & Hs).
  destruct (sample_near _ _ _ Hs f) as (l & k & r & -> & Hk & Hnear & Hr); [lia|].
  pose proof (sample_range _ _ _ Hs) as Hrange. apply Forall_app in Hrange as [_ Hrange].
  inversion Hrange as [|? ? Hklow Hrange']; subst. clear Hrange. pose proof (main_number _ _ Hp) as Hph.
  exists (ids <$> l ++ k :: r), k. split; [exact Eks|]. split; [lia|]. split; [done|].
  set (count := Z.min limit (head_block_number peer - k + 1)). assert (1 ≤ count) as Hcount by lia.
  assert (ids k = ids' k) as Ek by (apply Hcommon; lia).
  destruct (main_block _ _ Hp k) as (_ & Hnum & Hknown); [lia|].
  assert (find_in_synopsis peer (reverse (ids <$> l ++ k :: r)) = Ok (Some (ids' k))) as Hfind.
  { rewrite fmap_app, fmap_cons, reverse_app, reverse_cons, Ek, <-app_assoc. cbn [app].
    apply find_in_synopsis_spec; [|eapply main_not_null; [done|lia]|done|eapply main_included; [done|lia]].
    apply Forall_reverse, Forall_fmap.
    clear Eks Hs. induction r as [|j r IH]; constructor; inversion Hr; inversion Hrange'; subst; [|auto].
    cbn. split; [apply (main_not_null ours ids); [done|lia]|apply Hforeign; lia]. }
  unfold get_block_ids. rewrite (proj2 (Z.eqb_neq (head_block_number peer) 0)) by lia.
  assert (bool_decide (ids <$> l ++ k :: r = []) = false ∧ bool_decide (ids <$> l ++ k :: r = [null_id]) = false) as [-> ->].
  { split; apply bool_decide_eq_false_2; rewrite fmap_app, fmap_cons; [by destruct l|]. intros E.
    destruct l as [|x l]; [|by destruct l]. injection E as E _. revert E. apply (main_not_null ours); [done|lia]. }
  cbn [orb]. rewrite Hfind. cbn [res_bind of_option]. rewrite Hnum, Z.max_r by lia. fold count.
  rewrite (block_ids_from_spec peer ids') by (done || lia). cbn [res_bind]. rewrite Z2Nat.id by lia. split.
  - assert (seqZ k count = seqZ k (Z.pred count) ++ [k + Z.pred count]) as Esnoc.
    { replace count with (Z.pred count + 1) at 1 by lia. by rewrite seqZ_app by lia. }
    rewrite Esnoc, fmap_app. cbn [fmap list_fmap]. rewrite last_snoc.
    destruct (main_block _ _ Hp (k + Z.pred count)) as (_ & Hl & _); [lia|]. rewrite Hl. f_equal. f_equal.
    destruct (Z.ltb_spec (k + Z.pred count) (head_block_number peer)); lia.
  - rewrite seqZ_cons by lia. cbn. by rewrite Ek.
Qed.
End Sync.

(** ** Two small chains *)

#[local] Existing Instance sample_codec.
#[local] Existing Instance sample_patch.
#[local] Existing Instance sample_crypto.
#[local] Instance sync_packing : Packing := {| pack_block _ := []; unpack_block _ := None |}.

Definition first_block : signed_block := sample_node_block null_id 3 null_checksum.
Definition our_block : signed_block := sample_node_block (block_id first_block) 6 null_checksum.
Definition peer_blocks : list signed_block :=
  let x2 := sample_node_block (block_id first_block) 9 null_checksum in
  [x2; sample_node_block (block_id x2) 12 null_checksum].
Definition our_node : node := (push_blocks [first_block; our_block] sample_node).2.
Definition peer_node : node := (push_blocks (first_block :: peer_blocks) sample_node).2.
Definition ids_of (l : list signed_block) (k : Z) : block_id_type := default null_id (block_id <$> l !! Z.to_nat (k - 1)).

Lemma our_chain : main_chain our_node (ids_of [first_block; our_block]).
Proof.
  split; [vm_compute; by split|]. intros k Hk. assert (head_block_number our_node = 2) as E by (vm_compute; reflexivity).
  assert (k = 1 ∨ k = 2) as [-> | ->] by lia; vm_compute; by split_and!.
Qed.
Lemma peer_chain : main_chain peer_node (ids_of (first_block :: peer_blocks)).
Proof.
  split; [vm_compute; by split|]. intros k Hk. assert (head_block_number peer_node = 3) as E by (vm_compute; reflexivity).
  assert (k = 1 ∨ k = 2 ∨ k = 3) as [-> |[-> | ->]] by lia; vm_compute; by split_and!.
Qed.

Lemma synopsis_covers_chain_witness :
  ∃ ks, get_blockchain_synopsis peer_node null_id 0 = Ok (ids_of (first_block :: peer_blocks) <$> ks) ∧ sample_of 1 3 ks.
Proof.
  apply (synopsis_covers_chain peer_node (ids_of (first_block :: peer_blocks)) null_id 3 peer_chain);
    [vm_compute; discriminate|vm_compute; by split|right; vm_compute; by split_and!].
Defined.

Lemma sync_finds_common_block_witness :
  ∃ synopsis k, get_blockchain_synopsis our_node null_id 0 = Ok synopsis ∧ 1 ≤ k ≤ 1 ∧ 2 * (1 - k) ≤ 2 - k ∧
    get_block_ids peer_node synopsis 2 =
      Ok (ids_of (first_block :: peer_blocks) <$> seqZ k (Z.min 2 (3 - k + 1)), 3 - (k + Z.min 2 (3 - k + 1) - 1)) ∧
    head (ids_of (first_block :: peer_blocks) <$> seqZ k (Z.min 2 (3 - k + 1))) = Some (block_id first_block).
Proof.
  destruct (sync_finds_common_block our_node peer_node _ _ 1 2 our_chain peer_chain) as (synopsis & k & H1 & H2 & H3 & H4 & H5).
  - vm_compute. by split.
  - vm_compute. by split.
  - vm_compute. discriminate.
  - intros k Hk. by assert (k = 1) as -> by lia.
  - intros k Hk. assert (head_block_number our_node = 2) as E by (vm_compute; reflexivity).
    assert (k = 2) as -> by lia. left. vm_compute. reflexivity.
  - lia.
  - assert (head_block_number our_node = 2) as E by (vm_compute; reflexivity).
    assert (head_block_number peer_node = 3) as E' by (vm_compute; reflexivity).
    rewrite E in H3. rewrite E' in H4, H5. exists synopsis, k.
    assert (last_non_undoable_block_num our_node = 0) as El by (vm_compute; reflexivity). rewrite El in H2.
    split; [exact H1|]. split; [exact H2|]. split; [exact H3|]. split; [exact H4|].
    assert (k = 1) as -> by (cbn in H2; lia). exact H5.
Defined.
