(* ===== verification/Raw.v ===== *)
(** * Binary serialization

    fc::raw of src/src/base/fc/include/fc/io/raw.hpp and fc/container/flat.hpp: how
    values are written to a stream of bytes and read back.  An overload of [pack]
    with its [unpack] is a [codec]; the templates for pairs, vectors, sets, optional
    values, reflected classes and static variants are combinators.  [Lawful] states
    what is proved of every codec: a value that fits its wire format is read back
    whatever follows it, and reading never depends on bytes it does not consume. *)
From S2P Require Import Prelude Ints Config Asset Authority Headers Operations State Blocks BlockLog.
From Stdlib Require Import Ascii.

(** [wire_ok] says which values have a wire format. *)
Record codec (A : Type) := mk_codec {
  pack : A → res (list Z);
  unpack : list Z → res (A * list Z);
  wire_ok : A → bool
}.
Arguments mk_codec {A} pack unpack wire_ok.
Arguments pack {A} c x.
Arguments unpack {A} c bytes.
Arguments wire_ok {A} c x.

Class Lawful {A} (c : codec A) : Prop := {
  unpack_pack x : wire_ok c x = true →
    ∃ bytes, pack c x = Ok bytes ∧ ∀ rest, unpack c (bytes ++ rest) = Ok (x, rest);
  unpack_local bytes x rest more :
    unpack c bytes = Ok (x, rest) → unpack c (bytes ++ more) = Ok (x, rest ++ more)
}.

Definition range_error : exn := assert_exception "datastream attempted to read past the end".
Definition MAX_ARRAY_ALLOC_SIZE : Z := 1024 * 1024 * 10.

(** ** Streams *)

(** [datastream::read]. *)
Fixpoint read (n : nat) (bytes : list Z) : res (list Z * list Z) :=
  match n with
  | O => Ok ([], bytes)
  | S n' =>
      match bytes with
      | [] => Throw range_error
      | b :: bytes' => let? (l, rest) := read n' bytes' in Ok (b :: l, rest)
      end
  end.
(** [datastream::get]. *)
Definition get_byte (bytes : list Z) : res (Z * list Z) :=
  match bytes with [] => Throw range_error | b :: rest => Ok (b, rest) end.

(** ** Integers *)

(** The bytes of an unsigned integer of [n] bytes, least significant first. *)
Definition unsigned (n : nat) : codec Z := mk_codec
  (fun x => Ok (le_bytes n x))
  (fun bytes => let? (l, rest) := read n bytes in Ok (of_le_bytes l, rest))
  (fun x => (0 <=? x) && (x <? 2 ^ (8 * Z.of_nat n))).
(** The same for a signed one, in two's complement. *)
Definition signed (n : nat) : codec Z := mk_codec
  (fun x => Ok (le_bytes n (x mod 2 ^ (8 * Z.of_nat n))))
  (fun bytes => let? (l, rest) := read n bytes in
                let v := of_le_bytes l in
                Ok (if v <? 2 ^ (8 * Z.of_nat n - 1) then v else v - 2 ^ (8 * Z.of_nat n), rest))
  (fun x => (- 2 ^ (8 * Z.of_nat n - 1) <=? x) && (x <? 2 ^ (8 * Z.of_nat n - 1))).

(** [unsigned_int]: seven bits to a byte.  The value is a [uint32_t], so five
    bytes are enough. *)
Fixpoint pack_varint (fuel : nat) (val : Z) : list Z :=
  match fuel with
  | O => []
  | S fuel' =>
      let b := Z.land val 127 in
      let val := Z.shiftr val 7 in
      if val >? 0 then Z.lor b 128 :: pack_varint fuel' val else [b]
  end.
(** [by] is the shift; a shift of 32 bits or more is undefined in the source and
    an error here. *)
Fixpoint unpack_varint (v by_ : Z) (bytes : list Z) : res (Z * list Z) :=
  match bytes with
  | [] => Throw range_error
  | b :: rest =>
      if by_ >=? 32 then Throw (assert_exception "shift out of range") else
      let v := Z.lor v (wrap_u32 (Z.shiftl (Z.land b 127) by_)) in
      if Z.testbit b 7 then unpack_varint v (by_ + 7) rest else Ok (wrap_u32 v, rest)
  end.
Definition varint : codec Z := mk_codec
  (fun x => Ok (pack_varint 5 x)) (unpack_varint 0 0) (fun x => (0 <=? x) && (x <? 2 ^ 32)).

Definition boolean : codec bool := mk_codec
  (fun x : bool => Ok [if x then 1 else 0])
  (fun bytes => let? (b, rest) := get_byte bytes in
                let? _ := res_assert (Z.land b (255 - 1) =? 0) "(b & ~1) == 0" in
                Ok (negb (b =? 0), rest))
  (fun _ => true).

(** ** Strings and arrays *)

Definition bytes_of (s : string) : list Z := (fun c => Z.of_N (N_of_ascii c)) <$> String.list_ascii_of_string s.
Definition string_of (l : list Z) : string := String.string_of_list_ascii ((fun b => ascii_of_N (Z.to_N b)) <$> l).

(** [fc::array< char, n >], held as a string of [n] characters. *)
Definition array (n : nat) : codec string := mk_codec
  (fun s => Ok (bytes_of s))
  (fun bytes => let? (l, rest) := read n bytes in Ok (string_of l, rest))
  (fun s => bool_decide (String.length s = n)).

(** [fc::string] and [vector< char >]. *)
Definition char_vector : codec string := mk_codec
  (fun s => let? n := pack varint (wrap_u32 (Z.of_nat (String.length s))) in Ok (n ++ bytes_of s))
  (fun bytes => let? (size, rest) := unpack varint bytes in
                let? _ := res_assert (size <? MAX_ARRAY_ALLOC_SIZE) "size.value < MAX_ARRAY_ALLOC_SIZE" in
                let? (l, rest) := read (Z.to_nat size) rest in Ok (string_of l, rest))
  (fun s => Z.of_nat (String.length s) <? MAX_ARRAY_ALLOC_SIZE).

(** ** Composite values *)

Section Composite.
Context {A B : Type}.

(** A reflected class: its members in turn, as nested pairs. *)
Definition pair (c : codec A) (d : codec B) : codec (A * B) := mk_codec
  (fun x => let? l := pack c x.1 in let? m := pack d x.2 in Ok (l ++ m))
  (fun bytes => let? (a, rest) := unpack c bytes in let? (b, rest) := unpack d rest in Ok ((a, b), rest))
  (fun x => wire_ok c x.1 && wire_ok d x.2).
(** A class with the members [c]. *)
Definition reflect (make : A → B) (members : B → A) (c : codec A) : codec B := mk_codec
  (fun x => pack c (members x))
  (fun bytes => let? (a, rest) := unpack c bytes in Ok (make a, rest))
  (fun x => wire_ok c (members x)).

Definition optional (c : codec A) : codec (option A) := mk_codec
  (fun o => let? b := pack boolean (bool_decide (is_Some o)) in
            match o with None => Ok b | Some x => let? l := pack c x in Ok (b ++ l) end)
  (fun bytes => let? (b, rest) := unpack boolean bytes in
                if b then let? (x, rest) := unpack c rest in Ok (Some x, rest) else Ok (None, rest))
  (fun o => match o with None => true | Some x => wire_ok c x end).

Fixpoint pack_items (c : codec A) (l : list A) : res (list Z) :=
  match l with
  | [] => Ok []
  | x :: l' => let? b := pack c x in let? bs := pack_items c l' in Ok (b ++ bs)
  end.
Fixpoint unpack_items (c : codec A) (n : nat) (bytes : list Z) : res (list A * list Z) :=
  match n with
  | O => Ok ([], bytes)
  | S n' => let? (x, rest) := unpack c bytes in
            let? (l, rest) := unpack_items c n' rest in Ok (x :: l, rest)
  end.
(** [std::vector< T >]; [size] is [sizeof( T )]. *)
Definition vector (size : Z) (c : codec A) : codec (list A) := mk_codec
  (fun l => let? n := pack varint (wrap_u32 (Z.of_nat (length l))) in
            let? bs := pack_items c l in Ok (n ++ bs))
  (fun bytes => let? (n, rest) := unpack varint bytes in
                let? _ := res_assert (n * size <? MAX_ARRAY_ALLOC_SIZE) "size.value*sizeof(T) < MAX_ARRAY_ALLOC_SIZE" in
                unpack_items c (Z.to_nat n) rest)
  (fun l => (Z.of_nat (length l) <? 2 ^ 32) && (Z.of_nat (length l) * size <? MAX_ARRAY_ALLOC_SIZE) &&
            forallb (wire_ok c) l).

(** [flat_set::insert] with the order [lt]. *)
Fixpoint flat_insert (lt : A → A → bool) (x : A) (l : list A) : list A :=
  match l with
  | [] => [x]
  | y :: l' => if lt x y then x :: l else if lt y x then y :: flat_insert lt x l' else l
  end.
Fixpoint ascending (lt : A → A → bool) (l : list A) : bool :=
  match l with
  | [] => true
  | x :: l' => forallb (fun y => lt x y && negb (lt y x)) l' && ascending lt l'
  end.
(** [flat_set< T >], and [flat_map< K, V >] with [lt] the order of the keys. *)
Definition flat_set (lt : A → A → bool) (size : Z) (c : codec A) : codec (list A) := mk_codec
  (pack (vector size c))
  (fun bytes => let? (l, rest) := unpack (vector size c) bytes in
                Ok (foldl (fun value x => flat_insert lt x value) [] l, rest))
  (fun l => wire_ok (vector size c) l && ascending lt l).

End Composite.

Notation "c ** d" := (pair c d) (at level 40, left associativity) : chain_scope.

(** ** Static variants *)

Record alternative (A : Type) := mk_alternative {
  alt_type : Type;
  alt_codec : codec alt_type;
  alt_make : alt_type → A;
  alt_get : A → option alt_type
}.
Arguments mk_alternative {A alt_type} alt_codec alt_make alt_get.
Arguments alt_type {A} a.
Arguments alt_codec {A} a.
Arguments alt_make {A} a t.
Arguments alt_get {A} a x.

Section Variant.
Context {A : Type}.

Fixpoint pack_variant (tag : Z) (alts : list (alternative A)) (x : A) : res (list Z) :=
  match alts with
  | [] => Throw (assert_exception "static_variant tag is invalid")
  | a :: alts' =>
      match alt_get a x with
      | Some t => let? w := pack varint tag in let? l := pack (alt_codec a) t in Ok (w ++ l)
      | None => pack_variant (tag + 1) alts' x
      end
  end.
Definition unpack_variant (alts : list (alternative A)) (bytes : list Z) : res (A * list Z) :=
  let? (w, rest) := unpack varint bytes in
  match alts !! Z.to_nat w with
  | None => Throw (assert_exception "w < count() && w >= 0")
  | Some a => let? (t, rest) := unpack (alt_codec a) rest in Ok (alt_make a t, rest)
  end.
Fixpoint variant_ok (alts : list (alternative A)) (x : A) : bool :=
  match alts with
  | [] => false
  | a :: alts' => match alt_get a x with Some t => wire_ok (alt_codec a) t | None => variant_ok alts' x end
  end.
Definition static_variant (alts : list (alternative A)) : codec A :=
  mk_codec (pack_variant 0 alts) (unpack_variant alts) (variant_ok alts).

End Variant.

(** ** Laws of the primitive codecs *)

Lemma read_app l rest : read (length l) (l ++ rest) = Ok (l, rest).
Proof. induction l as [|b l IH]; cbn; [done|]. by rewrite IH. Qed.
Lemma read_local n bytes l rest more : read n bytes = Ok (l, rest) → read n (bytes ++ more) = Ok (l, rest ++ more).
Proof.
  revert bytes l. induction n as [|n IH]; intros bytes l; cbn; [by intros [= <- <-]|].
  destruct bytes as [|b bytes]; [done|]. cbn. destruct (read n bytes) as [[m r]|e] eqn:E; [|done].
  cbn. intros [= <- <-]. by rewrite (IH _ _ E).
Qed.
Lemma read_length n bytes l rest : read n bytes = Ok (l, rest) → length l = n.
Proof.
  revert bytes l. induction n as [|n IH]; intros bytes l; cbn; [by intros [= <- <-]|].
  destruct bytes as [|b bytes]; [done|]. destruct (read n bytes) as [[m r]|e] eqn:E; [|done].
  cbn. intros [= <- <-]. cbn. f_equal. by eapply IH.
Qed.

Ltac local_step :=
  match goal with
  | H : res_bind ?r _ = Ok _ |- _ => destruct r as [[? ?]|?] eqn:?; cbn [res_bind] in H; [|discriminate H]
  | H : read ?n ?b = Ok _ |- context [read ?n (?b ++ ?m)] => rewrite (read_local _ _ _ _ m H); cbn [res_bind]
  | H : unpack ?c ?b = Ok _ |- context [unpack ?c (?b ++ ?m)] => rewrite (unpack_local _ _ _ m H); cbn [res_bind]
  end.

#[export] Instance unsigned_lawful n : Lawful (unsigned n).
Proof.
  split; cbn [pack unpack wire_ok unsigned].
  - intros x [H1 H2]%andb_prop. apply Z.leb_le in H1. apply Z.ltb_lt in H2. eexists. split; [reflexivity|]. intros rest.
    rewrite <-(le_bytes_length n x) at 1. rewrite read_app. cbn. by rewrite of_le_bytes_spec.
  - intros bytes x rest more H. repeat local_step. by injection H as <- <-.
Qed.
#[export] Instance signed_lawful n : (0 < n)%nat → Lawful (signed n).
Proof.
  intros Hn. split; cbn [pack unpack wire_ok signed].
  - intros x [H1 H2]%andb_prop. apply Z.leb_le in H1. apply Z.ltb_lt in H2. eexists. split; [reflexivity|]. intros rest.
    assert (2 ^ (8 * Z.of_nat n) = 2 * 2 ^ (8 * Z.of_nat n - 1)) as Hp by (rewrite <-Z.pow_succ_r by lia; f_equal; lia).
    assert (0 < 2 ^ (8 * Z.of_nat n - 1)) by (apply Z.pow_pos_nonneg; lia).
    match goal with |- context [le_bytes n ?v] => rewrite <-(le_bytes_length n v) at 1 end. rewrite read_app. cbn [res_bind].
    rewrite of_le_bytes_spec by (apply Z.mod_pos_bound; lia). f_equal. f_equal.
    destruct (Z.ltb_spec x 0).
    + rewrite <-(Z.mod_unique x (2 ^ (8 * Z.of_nat n)) (-1) (x + 2 ^ (8 * Z.of_nat n))) by lia.
      rewrite (proj2 (Z.ltb_ge _ _)) by lia. lia.
    + rewrite Z.mod_small by lia. by rewrite (proj2 (Z.ltb_lt _ _)) by lia.
  - intros bytes x rest more H. repeat local_step. by injection H as <- <-.
Qed.
#[export] Instance boolean_lawful : Lawful boolean.
Proof.
  split; cbn [pack unpack wire_ok boolean].
  - intros [] _; eexists; (split; [reflexivity|]); done.
  - intros [|b bytes] x rest more; cbn; [done|]. destruct (_ =? 0); cbn; [|done]. by intros [= <- <-].
Qed.

(** *** Varints *)

Lemma seven_bits x : Z.lor (Z.land x 127) (Z.shiftl (Z.shiftr x 7) 7) = x.
Proof.
  change 127 with (Z.ones 7). apply Z.bits_inj'. intros n Hn.
  rewrite Z.lor_spec, Z.land_spec, Z.shiftl_spec, Z.testbit_ones_nonneg by lia. destruct (Z.ltb_spec n 7).
  - by rewrite andb_true_r, (Z.testbit_neg_r _ (n - 7)), orb_false_r by lia.
  - by rewrite andb_false_r, Z.shiftr_spec, Z.sub_add by lia.
Qed.
Lemma low_byte b : 0 ≤ b < 128 →
  Z.land (Z.lor b 128) 127 = b ∧ Z.testbit (Z.lor b 128) 7 = true ∧ Z.land b 127 = b ∧ Z.testbit b 7 = false.
Proof.
  intros Hb. assert (Z.testbit b 7 = false) as H7 
    by (rewrite <-(Z.mod_small b (2 ^ 7)) by lia; apply Z.mod_pow2_bits_high; lia).
  change 127 with (Z.ones 7). rewrite Z.land_lor_distr_l, Z.lor_spec, H7, (Z.land_ones b), Z.mod_small by (cbn; lia).
  split_and!; [|done..]. change (Z.land 128 (Z.ones 7)) with 0. apply Z.lor_0_r.
Qed.

Lemma unpack_pack_varint fuel v s x rest : 0 ≤ s < 32 → 0 ≤ x < 2 ^ (32 - s) → 32 - s ≤ 7 * Z.of_nat fuel →
  unpack_varint v s (pack_varint fuel x ++ rest) = Ok (wrap_u32 (Z.lor v (Z.shiftl x s)), rest).
Proof.
  revert v s x. induction fuel as [|fuel IH]; intros v s x Hs Hx Hf; [lia|]. cbn [pack_varint].
  pose proof (seven_bits x) as Hbits. assert (0 ≤ Z.land x 127 < 128) as Hb.
  { change 127 with (Z.ones 7). rewrite Z.land_ones by lia. apply Z.mod_pos_bound. lia. }
  assert (Z.land x 127 ≤ x) as Hle by (change 127 with (Z.ones 7); rewrite Z.land_ones by lia; apply Z.mod_le; lia).
  assert (wrap_u32 (Z.shiftl (Z.land x 127) s) = Z.shiftl (Z.land x 127) s) as Hw.
  { unfold wrap_u32. apply Z.mod_small. rewrite Z.shiftl_mul_pow2 by lia. replace (2 ^ 32) with (2 ^ (32 - s) * 2 ^ s)
      by (rewrite <-Z.pow_add_r by lia; f_equal; lia). assert (0 < 2 ^ s) by (apply Z.pow_pos_nonneg; lia). nia. }
  destruct (low_byte _ Hb) as (L1 & L2 & L3 & L4). rewrite Z.gtb_ltb. destruct (Z.ltb_spec 0 (Z.shiftr x 7)) as [Hp|Hp].
  - assert (128 ≤ x) as H128.
    { rewrite Z.shiftr_div_pow2 in Hp by lia. change (2 ^ 7) with 128 in Hp. pose proof (Z.div_small x 128). lia. }
    assert (2 ^ 7 < 2 ^ (32 - s)) as Hlt%Z.pow_lt_mono_r_iff by lia. 2-3: lia.
    cbn [app unpack_varint]. rewrite Z.geb_leb, (proj2 (Z.leb_gt 32 s)) by lia. rewrite L1, L2, Hw, IH; [|lia| |lia].
    + rewrite <-Z.lor_assoc. f_equal. f_equal. f_equal. f_equal.
      rewrite <-Hbits at 3. rewrite Z.shiftl_lor, Z.shiftl_shiftl by lia. f_equal. f_equal. lia.
    + rewrite Z.shiftr_div_pow2 by lia. split; [apply Z.div_pos; lia|]. apply Z.div_lt_upper_bound; [lia|].
      rewrite <-Z.pow_add_r by lia. replace (7 + (32 - (s + 7))) with (32 - s) by lia. lia.
  - assert (Z.shiftr x 7 = 0) as E0 by (pose proof (Z.shiftr_nonneg x 7); lia). rewrite E0, Z.lor_0_r in Hbits.
    cbn [app unpack_varint]. rewrite Z.geb_leb, (proj2 (Z.leb_gt 32 s)) by lia. by rewrite L3, L4, Hw, Hbits.
Qed.

Lemma unpack_varint_local bytes : ∀ v s x rest more,
  unpack_varint v s bytes = Ok (x, rest) → unpack_varint v s (bytes ++ more) = Ok (x, rest ++ more).
Proof.
  induction bytes as [|b bytes IH]; intros v s x rest more; cbn [app unpack_varint]; [done|]. destruct (s >=? 32); [done|].
  destruct (Z.testbit b 7); [apply IH|by intros [= <- <-]].
Qed.

#[export] Instance varint_lawful : Lawful varint.
Proof.
  split; cbn [pack unpack wire_ok varint].
  - intros x [H1 H2]%andb_prop. apply Z.leb_le in H1. apply Z.ltb_lt in H2. eexists. split; [reflexivity|]. intros rest.
    rewrite unpack_pack_varint by (cbn; lia). rewrite Z.shiftl_0_r, Z.lor_0_l. f_equal. f_equal. apply Z.mod_small. lia.
  - intros bytes x rest more. apply unpack_varint_local.
Qed.

(** *** Strings *)

Lemma string_of_bytes_of s : string_of (bytes_of s) = s.
Proof.
  unfold string_of, bytes_of. rewrite <-list_fmap_compose.
  rewrite <-(String.string_of_list_ascii_of_string s) at 2. f_equal. rewrite <-(list_fmap_id (String.list_ascii_of_string s)) at 2.
  apply list_fmap_ext. intros i c _. cbn. by rewrite N2Z.id, ascii_N_embedding.
Qed.
Lemma length_bytes_of s : length (bytes_of s) = String.length s.
Proof. unfold bytes_of. rewrite length_fmap. by induction s; cbn; f_equal. Qed.

#[export] Instance array_lawful n : Lawful (array n).
Proof.
  split; cbn [pack unpack wire_ok array].
  - intros s Hs%bool_decide_eq_true. eexists. split; [reflexivity|]. intros rest.
    rewrite <-Hs, <-length_bytes_of, read_app. cbn. by rewrite string_of_bytes_of.
  - intros bytes x rest more H. repeat local_step. by injection H as <- <-.
Qed.
Lemma res_assert_true c msg : c = true → res_assert c msg = Ok tt.
Proof. by intros ->. Qed.
Lemma assert_inv {A} c msg (k : res A) y : (let? _ := res_assert c msg in k) = Ok y → c = true ∧ k = Ok y.
Proof. unfold res_assert. by destruct c. Qed.

#[export] Instance char_vector_lawful : Lawful char_vector.
Proof.
  split; cbn [pack unpack wire_ok char_vector].
  - intros s Hs%Z.ltb_lt. unfold MAX_ARRAY_ALLOC_SIZE in *. unfold wrap_u32. rewrite Z.mod_small by lia.
    destruct (unpack_pack (c := varint) (Z.of_nat (String.length s))) as (l & El & Hl).
    { apply andb_true_intro. split; [apply Z.leb_le|apply Z.ltb_lt]; lia. }
    rewrite El. cbn [res_bind]. eexists. split; [reflexivity|]. intros rest. rewrite <-app_assoc, Hl. cbn [res_bind].
    rewrite res_assert_true by (by apply Z.ltb_lt). cbn [res_bind].
    rewrite Nat2Z.id, <-length_bytes_of, read_app. cbn. by rewrite string_of_bytes_of.
  - intros bytes x rest more H. local_step. apply assert_inv in H as [Hc H]. repeat local_step. injection H as <- <-.
    rewrite res_assert_true by done. cbn [res_bind]. by repeat local_step.
Qed.

(** ** Laws of the combinators *)

Section Laws.
Context {A B : Type}.

#[export] Instance pair_lawful (c : codec A) (d : codec B) : Lawful c → Lawful d → Lawful (c ** d).
Proof.
  intros Hc Hd. split; cbn [pack unpack wire_ok pair].
  - intros [a b] [H1 H2]%andb_prop. cbn in *. destruct (unpack_pack a H1) as (l & -> & Hl), (unpack_pack b H2) as (m & -> & Hm).
    cbn. eexists. split; [reflexivity|]. intros rest. rewrite <-app_assoc, Hl. cbn. by rewrite Hm.
  - intros bytes x rest more H. repeat local_step. by injection H as <- <-.
Qed.
#[export] Instance optional_lawful (c : codec A) : Lawful c → Lawful (optional c).
Proof.
  intros Hc. split; cbn [pack unpack wire_ok optional].
  - intros [x|] Hx; [destruct (unpack_pack x Hx) as (l & -> & Hl)|]; cbn; (eexists; split; [reflexivity|]); intros rest; [|done].
    cbn. rewrite res_assert_true by reflexivity. cbn. by rewrite Hl.
  - intros bytes x rest more H. local_step. destruct b; repeat local_step; by injection H as <- <-.
Qed.

Lemma unpack_pack_items (c : codec A) `{!Lawful c} l : forallb (wire_ok c) l = true →
  ∃ bytes, pack_items c l = Ok bytes ∧ ∀ rest, unpack_items c (length l) (bytes ++ rest) = Ok (l, rest).
Proof.
  induction l as [|x l IH]; cbn [forallb pack_items unpack_items length]; [intros _; by eexists|].
  intros [Hx Hl]%andb_prop. destruct (unpack_pack x Hx) as (b & -> & Hb), (IH Hl) as (bs & -> & Hbs). cbn.
  eexists. split; [reflexivity|]. intros rest. rewrite <-app_assoc, Hb. cbn. by rewrite Hbs.
Qed.
Lemma unpack_items_local (c : codec A) `{!Lawful c} n bytes l rest more :
  unpack_items c n bytes = Ok (l, rest) → unpack_items c n (bytes ++ more) = Ok (l, rest ++ more).
Proof.
  revert bytes l. induction n as [|n IH]; intros bytes l; cbn [unpack_items]; [by intros [= <- <-]|].
  intros H. local_step. local_step. injection H as <- <-. local_step.
  match goal with E : unpack_items c n _ = _ |- _ => by rewrite (IH _ _ E) end.
Qed.
#[export] Instance vector_lawful size (c : codec A) : Lawful c → Lawful (vector size c).
Proof.
  intros Hc. split; cbn [pack unpack wire_ok vector].
  - intros l [[Hn%Z.ltb_lt Hs]%andb_prop Hl]%andb_prop. unfold wrap_u32. rewrite Z.mod_small by lia.
    destruct (unpack_pack (c := varint) (Z.of_nat (length l))) as (n & En & Hn').
    { apply andb_true_intro. split; [apply Z.leb_le|apply Z.ltb_lt]; lia. }
    destruct (unpack_pack_items c l Hl) as (bs & Ebs & Hbs). rewrite En, Ebs. cbn [res_bind].
    eexists. split; [reflexivity|]. intros rest. rewrite <-app_assoc, Hn'. cbn [res_bind].
    rewrite res_assert_true by done. cbn [res_bind]. rewrite Nat2Z.id. apply Hbs.
  - intros bytes x rest more H. local_step. apply assert_inv in H as [Hn H]. local_step.
    rewrite res_assert_true by done. cbn [res_bind]. by apply unpack_items_local.
Qed.

Lemma flat_insert_last lt (x : A) l : forallb (fun y => lt y x && negb (lt x y)) l = true → flat_insert lt x l = l ++ [x].
Proof.
  induction l as [|y l IH]; cbn; [done|]. intros [[H1 H2%negb_true_iff]%andb_prop Hl]%andb_prop.
  by rewrite H1, H2, IH.
Qed.
Lemma flat_insert_ascending lt (l acc : list A) : ascending lt l = true →
  (∀ x y, x ∈ acc → y ∈ l → lt x y && negb (lt y x) = true) →
  foldl (fun value x => flat_insert lt x value) acc l = acc ++ l.
Proof.
  revert acc. induction l as [|x l IH]; intros acc Ha Hacc; cbn [foldl]; [by rewrite app_nil_r|].
  cbn in Ha. apply andb_prop in Ha as [Hx Ha].
  assert (forallb (fun y => lt y x && negb (lt x y)) acc = true) as Hlast.
  { apply forallb_forall. intros y Hy. apply Hacc; [by apply list_elem_of_In|by left]. }
  rewrite flat_insert_last, IH; [by rewrite <-app_assoc|done| |done].
  intros y z [Hy| ->%list_elem_of_singleton]%elem_of_app Hz.
  - apply Hacc; [done|by right].
  - rewrite forallb_forall in Hx. by apply Hx, list_elem_of_In.
Qed.
#[export] Instance flat_set_lawful lt size (c : codec A) : Lawful c → Lawful (flat_set lt size c).
Proof.
  intros Hc. split; cbn [pack unpack wire_ok flat_set].
  - intros l [Hl Ha]%andb_prop. destruct (unpack_pack (c := vector size c) l Hl) as (bs & E & Hbs).
    exists bs. split; [exact E|]. intros rest. rewrite Hbs. cbn [res_bind].
    rewrite flat_insert_ascending by (done || by intros ? ? ?%not_elem_of_nil). done.
  - intros bytes x rest more H. repeat local_step. by injection H as <- <-.
Qed.
End Laws.

Lemma reflect_lawful {A B} (make : A → B) members (c : codec A) : (∀ x, make (members x) = x) → Lawful c → Lawful (reflect make members c).
Proof.
  intros Hm Hc. split; cbn [pack unpack wire_ok reflect].
  - intros x Hx. destruct (unpack_pack _ Hx) as (l & E & Hl). exists l. split; [exact E|]. intros rest. rewrite Hl. cbn. by rewrite Hm.
  - intros bytes x rest more H. repeat local_step. by injection H as <- <-.
Qed.

(** *** Static variants *)

Definition alt_lawful {A} (a : alternative A) : Prop :=
  Lawful (alt_codec a) ∧ ∀ x t, alt_get a x = Some t → alt_make a t = x.

Section VariantLaws.
Context {A : Type}.

Lemma pack_variant_spec (alts : list (alternative A)) x tag : Forall alt_lawful alts → variant_ok alts x = true →
  0 ≤ tag → tag + Z.of_nat (length alts) ≤ 2 ^ 32 →
  ∃ (i : nat) a t bytes l, alts !! i = Some a ∧ alt_make a t = x ∧ pack varint (tag + Z.of_nat i) = Ok bytes ∧
    (∀ rest, unpack varint (bytes ++ rest) = Ok (tag + Z.of_nat i, rest)) ∧
    (∀ rest, unpack (alt_codec a) (l ++ rest) = Ok (t, rest)) ∧ pack_variant tag alts x = Ok (bytes ++ l).
Proof.
  intros Hf. revert tag. induction Hf as [|a alts [Ha Hg] Hf IH]; intros tag; cbn [variant_ok pack_variant length]; [done|].
  destruct (alt_get a x) as [t|] eqn:Eg; intros Hx H0 Hlen.
  - destruct (unpack_pack (c := varint) tag) as (bytes & Eb & Hb).
    { apply andb_true_intro. split; [apply Z.leb_le|apply Z.ltb_lt]; lia. }
    destruct (unpack_pack t Hx) as (l & El & Hl). exists 0%nat, a, t, bytes, l. rewrite Z.add_0_r.
    rewrite Eb, El. cbn. split_and!; auto.
  - destruct (IH (tag + 1)) as (i & b & t & bytes & l & H1 & H2 & H3 & H4 & H5 & H6); [done|lia..|].
    exists (S i), b, t, bytes, l. replace (tag + Z.of_nat (S i)) with (tag + 1 + Z.of_nat i) by lia. by split_and!.
Qed.
Lemma static_variant_lawful (alts : list (alternative A)) :
  Forall alt_lawful alts → Z.of_nat (length alts) ≤ 2 ^ 32 → Lawful (static_variant alts).
Proof.
  intros Hf Hlen. split; cbn [pack unpack wire_ok static_variant].
  - intros x Hx. destruct (pack_variant_spec alts x 0 Hf Hx) as (i & a & t & bytes & l & H1 & H2 & H3 & H4 & H5 & H6); [lia..|].
    exists (bytes ++ l). split; [done|]. intros rest. unfold unpack_variant. rewrite <-app_assoc, H4. cbn [res_bind].
    rewrite Z.add_0_l, Nat2Z.id, H1, H5. cbn. by rewrite H2.
  - intros bytes x rest more H. unfold unpack_variant in *. local_step. local_step.
    destruct (alts !! Z.to_nat z) as [a|] eqn:E; [|done].
    assert (Lawful (alt_codec a)) by (rewrite Forall_lookup in Hf; by apply (Hf _ _ E)).
    local_step. local_step. by injection H as <- <-.
Qed.
End VariantLaws.

(** ** What the laws give *)

(** Bytes determine their value. *)
Lemma pack_inj {A} (c : codec A) `{!Lawful c} x y : wire_ok c x = true → wire_ok c y = true → pack c x = pack c y → x = y.
Proof.
  intros Hx Hy E. destruct (unpack_pack x Hx) as (l & El & Hl), (unpack_pack y Hy) as (m & Em & Hm).
  rewrite El, Em in E. injection E as <-. specialize (Hl []). rewrite Hm in Hl. by injection Hl.
Qed.
(** Input that ends early is refused. *)
Lemma unpack_truncated {A} (c : codec A) `{!Lawful c} x p q : wire_ok c x = true → pack c x = Ok (p ++ q) → q ≠ [] →
  ∃ e, unpack c p = Throw e.
Proof.
  intros Hx Ep Hq. destruct (unpack c p) as [[y rest]|e] eqn:E; [exfalso|by exists e].
  destruct (unpack_pack x Hx) as (l & El & Hl). rewrite Ep in El. injection El as <-.
  pose proof (unpack_local _ _ _ q E) as Hu. specialize (Hl []). rewrite app_nil_r, Hu in Hl.
  injection Hl as _ [_ ?]%app_nil. done.
Qed.
Lemma pack_pair_inv {A B} (c : codec A) (d : codec B) x l : pack (c ** d) x = Ok l →
  ∃ l1 l2, pack c x.1 = Ok l1 ∧ pack d x.2 = Ok l2 ∧ l = l1 ++ l2.
Proof.
  cbn [pack pair]. intros (l1 & E1 & (l2 & E2 & [= <-])%res_bind_ok)%res_bind_ok. eauto.
Qed.
(** A container is at least its length. *)
Lemma pack_varint_cons fuel x : pack_varint (S fuel) x ≠ [].
Proof. cbn [pack_varint]. destruct (_ >? 0); discriminate. Qed.
Lemma pack_vector_nonempty {A} size (c : codec A) x : pack (vector size c) x ≠ Ok [].
Proof.
  cbn [pack vector]. intros (n & Hn & (k & _ & Hk)%res_bind_ok)%res_bind_ok.
  assert (n ++ k = []) as [-> _]%app_nil by congruence.
  apply (pack_varint_cons 4 (wrap_u32 (Z.of_nat (length x)))).
  change (pack varint ?y) with (Ok (pack_varint 5 y)) in Hn. congruence.
Qed.
(** Values in sequence: a value is never taken for another one followed by bytes. *)
Lemma pack_prefix_free {A} (c : codec A) `{!Lawful c} x y l m r s : wire_ok c x = true → wire_ok c y = true →
  pack c x = Ok l → pack c y = Ok m → l ++ r = m ++ s → x = y ∧ r = s.
Proof.
  intros Hx Hy El Em E. destruct (unpack_pack x Hx) as (l' & El' & Hl), (unpack_pack y Hy) as (m' & Em' & Hm).
  rewrite El' in El. rewrite Em' in Em. injection El as <-. injection Em as <-.
  specialize (Hl r). rewrite E, Hm in Hl. by injection Hl as -> ->.
Qed.
