(* ===== verification/Wire.v ===== *)
(** * The wire format of the protocol

    How transactions and blocks are written to the network, to the block log and
    into the hashes that identify them: the FC_REFLECT declarations and the special
    cases of src/src/core/protocol/include/zattera/protocol (fixed_string.hpp,
    asset_symbol.hpp, legacy_asset.hpp, zattera_operations.hpp and the headers
    around it), as codecs of Raw.v.  [Abi] gives the sizes of C++ objects that the
    limits on the length of containers refer to. *)
From S2P Require Import Prelude Ints Config Asset Authority Headers Operations State Blocks BlockLog Raw.
From Stdlib Require Import Ascii.

Class Abi := {
  sizeof_string : Z;
  sizeof_vector : Z;
  sizeof_authority : Z;
  sizeof_beneficiary_route : Z;
  sizeof_extension : Z;
  sizeof_comment_options_extension : Z;
  sizeof_block_header_extension : Z;
  sizeof_operation : Z;
  sizeof_signed_transaction : Z
}.

(** ** Names *)

Fixpoint take_chars (n : nat) (s : string) : string :=
  match n, s with
  | S n', String c s' => String c (take_chars n' s')
  | _, _ => EmptyString
  end.
(** The characters of a fixed string: the padding with NUL is not kept. *)
Fixpoint trim_nul (s : string) : string :=
  match s with
  | EmptyString => EmptyString
  | String c s' =>
      match trim_nul s' with
      | EmptyString => if bool_decide (c = Ascii.zero) then EmptyString else String c EmptyString
      | t => String c t
      end
  end.
(** [fixed_string< n >]: written as the string before the first NUL, read as the
    first [n] characters. *)
Definition fixed_string (n : nat) : codec string := mk_codec
  (fun s => pack char_vector (c_str s))
  (fun bytes => let? (s, rest) := unpack char_vector bytes in Ok (trim_nul (take_chars n s), rest))
  (fun s => bool_decide (String.length s ≤ n)%nat && bool_decide (c_str s = s) && wire_ok char_vector s).
Definition account_name : codec account_name_type := fixed_string 16.
Definition public_key : codec public_key_type := array 33.

(** ** Assets *)

Definition VESTS_SYMBOL_SER : Z := 0x5354534556 * 256 + 6.
Definition LIQUID_SYMBOL_SER : Z := 0x52545A * 256 + 3.
Definition DOLLAR_SYMBOL_SER : Z := 0x44425A * 256 + 3.

Definition asset_symbol : codec asset_symbol_type := mk_codec
  (fun sym =>
     if sym =? LIQUID_SYMBOL then pack (unsigned 8) LIQUID_SYMBOL_SER
     else if sym =? DOLLAR_SYMBOL then pack (unsigned 8) DOLLAR_SYMBOL_SER
     else if sym =? VESTS_SYMBOL then pack (unsigned 8) VESTS_SYMBOL_SER
     else Throw (assert_exception "Cannot serialize unknown asset symbol"))
  (fun bytes =>
     let? (ser, rest) := unpack (unsigned 4) bytes in
     let long full sym :=
       let? (high, rest) := unpack (unsigned 4) rest in
       let? _ := res_assert (ser + Z.shiftl high 32 =? full) "invalid asset bits" in Ok (sym, rest) in
     let? (sym, rest) :=
       (if ser =? wrap_u32 LIQUID_SYMBOL_SER then long LIQUID_SYMBOL_SER LIQUID_SYMBOL
        else if ser =? wrap_u32 DOLLAR_SYMBOL_SER then long DOLLAR_SYMBOL_SER DOLLAR_SYMBOL
        else if ser =? wrap_u32 VESTS_SYMBOL_SER then long VESTS_SYMBOL_SER VESTS_SYMBOL
        else Ok (ser, rest)) in
     let? _ := symbol_validate sym in Ok (sym, rest))
  (fun sym => (sym =? LIQUID_SYMBOL) || (sym =? DOLLAR_SYMBOL) || (sym =? VESTS_SYMBOL)).

Definition asset_codec : codec asset :=
  reflect (fun '(a, s) => mk_asset a s) (fun a => (amount a, symbol a)) (signed 8 ** asset_symbol).
Definition price_codec : codec price :=
  reflect (fun '(b, q) => mk_price b q) (fun p => (base p, quote p)) (asset_codec ** asset_codec).

(** [legacy_zattera_asset_symbol_type]: the canonical ZTR symbol and five others. *)
Definition LIQUID_SYMBOL_LEGACY_SER : list Z :=
  [0x52545A * 256 + 1; 0x52545A * 256 + 2; 0x52545A * 256 + 5; 0x3130302E30 * 256 + 3; 0x3030302E36 * 256 + 3].
Definition legacy_symbol : codec Z := mk_codec
  (fun ser => if bool_decide (ser ∈ LIQUID_SYMBOL_LEGACY_SER) || (ser =? LIQUID_SYMBOL_SER) then pack (unsigned 8) ser
              else Throw (assert_exception "Cannot serialize legacy symbol"))
  (fun bytes =>
     let? (ser, rest) := unpack (unsigned 8) bytes in
     if bool_decide (ser ∈ LIQUID_SYMBOL_LEGACY_SER) || (ser =? LIQUID_SYMBOL_SER) then Ok (ser, rest)
     else Throw (assert_exception "Cannot deserialize legacy symbol"))
  (fun ser => bool_decide (ser ∈ LIQUID_SYMBOL_LEGACY_SER) || (ser =? LIQUID_SYMBOL_SER)).

(** ** Authorities *)

(** Byte by byte, for strings and for the data of keys. *)
Definition string_ltb (a b : string) : bool := match String.compare a b with Lt => true | _ => false end.
Definition authority_codec : codec authority :=
  reflect (fun '(w, a, k) => mk_authority w a k) (fun a => (weight_threshold a, account_auths a, key_auths a))
    (unsigned 4 ** flat_set (fun x y => name_ltb x.1 y.1) (16 + 2) (account_name ** unsigned 2)
                ** flat_set (fun x y => string_ltb x.1 y.1) (33 + 2) (public_key ** unsigned 2)).

(** A class without members. *)
Definition void : codec unit := mk_codec (fun _ => Ok []) (fun bytes => Ok (tt, bytes)) (fun _ => true).

Section Protocol.
Context `{Abi}.

(** ** Extensions *)

(** Variants are ordered by their tags only. *)
Definition extensions : codec (list unit) :=
  flat_set (fun _ _ => false) sizeof_extension (static_variant [mk_alternative void (fun t => t) Some]).

Definition beneficiary_route : codec beneficiary_route_type :=
  reflect (fun '(a, w) => mk_route a w) (fun r => (ben_account r, ben_weight r)) (account_name ** unsigned 2).
Definition comment_options_extensions : codec (list (list beneficiary_route_type)) :=
  flat_set (fun _ _ => false) sizeof_comment_options_extension
    (static_variant [mk_alternative (vector sizeof_beneficiary_route beneficiary_route) (fun t => t) Some]).

Definition header_tag (e : header_extension) : Z :=
  match e with void_t => 0 | reported_version _ => 1 | hardfork_version_vote _ _ => 2 end.
Definition block_header_extension : codec header_extension := static_variant
  [mk_alternative void (fun _ => void_t) (fun e => match e with void_t => Some tt | _ => None end);
   mk_alternative (unsigned 4) reported_version (fun e => match e with reported_version v => Some v | _ => None end);
   mk_alternative (unsigned 4 ** unsigned 4) (fun '(v, t) => hardfork_version_vote v t)
     (fun e => match e with hardfork_version_vote v t => Some (v, t) | _ => None end)].
Definition block_header_extensions : codec (list header_extension) :=
  flat_set (fun x y => header_tag x <? header_tag y) sizeof_block_header_extension block_header_extension.

(** ** Operations *)

(** The state keeps of the symbol of the fee only whether it was the canonical
    one, and only those are written. *)
Definition legacy_props : codec legacy_chain_properties := mk_codec
  (fun p => if lcp_fee_symbol_canon p
            then pack (signed 8 ** legacy_symbol ** unsigned 4 ** unsigned 2)
                   (lcp_account_creation_fee p, LIQUID_SYMBOL_SER, lcp_maximum_block_size p, lcp_dollar_interest_rate p)
            else Throw (assert_exception "Cannot serialize legacy symbol"))
  (fun bytes => let? (t, rest) := unpack (signed 8 ** legacy_symbol ** unsigned 4 ** unsigned 2) bytes in
                let '(fee, ser, size, rate) := t in
                Ok (mk_legacy_props fee (ser =? LIQUID_SYMBOL_SER) size rate, rest))
  (fun p => lcp_fee_symbol_canon p &&
            wire_ok (signed 8 ** legacy_symbol ** unsigned 4 ** unsigned 2)
              (lcp_account_creation_fee p, LIQUID_SYMBOL_SER, lcp_maximum_block_size p, lcp_dollar_interest_rate p)).

Definition names : codec (list account_name_type) := flat_set name_ltb 16 account_name.
Definition u16 : codec Z := unsigned 2.
Definition u32 : codec Z := unsigned 4.
Definition time_sec : codec time := unsigned 4.

(** [ripemd160]: the memory of five 32-bit words. *)
Definition block_id_codec : codec block_id_type := mk_codec
  (pack_items u32) (unpack_items u32 5) (fun l => bool_decide (length l = 5%nat) && forallb (wire_ok u32) l).
Definition checksum : codec string := array 20.
Definition signature : codec string := array 65.

(** [signed_block_header]: previous, timestamp, witness, transaction_merkle_root,
    extensions and witness_signature. *)
Definition signed_block_header_codec : codec signed_block_header :=
  reflect (fun '(previous, timestamp, witness, root, exts, sig) =>
             mk_signed_block_header previous timestamp witness root exts sig)
    (fun h => (hdr_previous h, hdr_timestamp h, hdr_witness h, hdr_transaction_merkle_root h,
               hdr_extensions h, hdr_witness_signature h))
    (block_id_codec ** time_sec ** char_vector ** checksum ** block_header_extensions ** signature).

(** What the variant [operation] of the source holds: an operation of a user or a
    virtual operation. *)
Inductive wire_operation : Type :=
| user_operation (op : operation)
| chain_operation (op : virtual_operation).

(** One alternative for each operation, its members in the order of FC_REFLECT. *)
Definition vote_wire : alternative wire_operation := mk_alternative
  (account_name ** account_name ** char_vector ** signed 2)
  (fun '(voter, author, permlink, weight) => user_operation (vote_operation voter author permlink weight))
  (fun op => match op with user_operation (vote_operation voter author permlink weight) => Some (voter, author, permlink, weight) | _
    => None end).
Definition comment_wire : alternative wire_operation := mk_alternative
  (account_name ** char_vector ** account_name ** char_vector ** char_vector ** char_vector ** char_vector)
  (fun '(parent_author, parent_permlink, author, permlink, title, body, json_metadata) => user_operation
    (comment_operation parent_author parent_permlink author permlink title body json_metadata))
  (fun op => match op with user_operation (comment_operation parent_author parent_permlink author permlink title body json_metadata) =>
    Some (parent_author, parent_permlink, author, permlink, title, body, json_metadata) | _ => None end).
Definition transfer_wire : alternative wire_operation := mk_alternative
  (account_name ** account_name ** asset_codec ** char_vector)
  (fun '(from, to, amt, memo) => user_operation (transfer_operation from to amt memo))
  (fun op => match op with user_operation (transfer_operation from to amt memo) => Some (from, to, amt, memo) | _ => None end).
Definition transfer_to_vesting_wire : alternative wire_operation := mk_alternative
  (account_name ** account_name ** asset_codec)
  (fun '(from, to, amt) => user_operation (transfer_to_vesting_operation from to amt))
  (fun op => match op with user_operation (transfer_to_vesting_operation from to amt) => Some (from, to, amt) | _ => None end).
Definition withdraw_vesting_wire : alternative wire_operation := mk_alternative
  (account_name ** asset_codec)
  (fun '(account, vesting_shares) => user_operation (withdraw_vesting_operation account vesting_shares))
  (fun op => match op with user_operation (withdraw_vesting_operation account vesting_shares) => Some (account, vesting_shares) | _ =>
    None end).
Definition limit_order_create_wire : alternative wire_operation := mk_alternative
  (account_name ** u32 ** asset_codec ** asset_codec ** boolean ** time_sec)
  (fun '(owner, orderid, amount_to_sell, min_to_receive, fill_or_kill, expiration) => user_operation
    (limit_order_create_operation owner orderid amount_to_sell min_to_receive fill_or_kill expiration))
  (fun op => match op with user_operation (limit_order_create_operation owner orderid amount_to_sell min_to_receive fill_or_kill
    expiration) => Some (owner, orderid, amount_to_sell, min_to_receive, fill_or_kill, expiration) | _ => None
    end).
Definition limit_order_cancel_wire : alternative wire_operation := mk_alternative
  (account_name ** u32)
  (fun '(owner, orderid) => user_operation (limit_order_cancel_operation owner orderid))
  (fun op => match op with user_operation (limit_order_cancel_operation owner orderid) => Some (owner, orderid) | _ => None end).
Definition feed_publish_wire : alternative wire_operation := mk_alternative
  (account_name ** price_codec)
  (fun '(publisher, exchange_rate) => user_operation (feed_publish_operation publisher exchange_rate))
  (fun op => match op with user_operation (feed_publish_operation publisher exchange_rate) => Some (publisher, exchange_rate) | _ =>
    None end).
Definition convert_wire : alternative wire_operation := mk_alternative
  (account_name ** u32 ** asset_codec)
  (fun '(owner, requestid, amt) => user_operation (convert_operation owner requestid amt))
  (fun op => match op with user_operation (convert_operation owner requestid amt) => Some (owner, requestid, amt) | _ => None end).
Definition account_create_wire : alternative wire_operation := mk_alternative
  (asset_codec ** account_name ** account_name ** authority_codec ** authority_codec ** authority_codec **
    public_key ** char_vector)
  (fun '(fee, creator, new_account_name, owner, active, posting, memo_key, json_metadata) => user_operation
    (account_create_operation fee creator new_account_name owner active posting memo_key json_metadata))
  (fun op => match op with user_operation (account_create_operation fee creator new_account_name owner active posting memo_key
    json_metadata) => Some (fee, creator, new_account_name, owner, active, posting, memo_key, json_metadata) | _
    => None end).
Definition account_update_wire : alternative wire_operation := mk_alternative
  (account_name ** (optional authority_codec) ** (optional authority_codec) ** (optional authority_codec) **
    public_key ** char_vector)
  (fun '(account, owner, active, posting, memo_key, json_metadata) => user_operation (account_update_operation
    account owner active posting memo_key json_metadata))
  (fun op => match op with user_operation (account_update_operation account owner active posting memo_key json_metadata) => Some
    (account, owner, active, posting, memo_key, json_metadata) | _ => None end).
Definition witness_update_wire : alternative wire_operation := mk_alternative
  (account_name ** char_vector ** public_key ** legacy_props ** asset_codec)
  (fun '(owner, url, block_signing_key, props, fee) => user_operation (witness_update_operation owner url
    block_signing_key props fee))
  (fun op => match op with user_operation (witness_update_operation owner url block_signing_key props fee) => Some (owner, url,
    block_signing_key, props, fee) | _ => None end).
Definition account_witness_vote_wire : alternative wire_operation := mk_alternative
  (account_name ** account_name ** boolean)
  (fun '(account, witness, approve) => user_operation (account_witness_vote_operation account witness approve))
  (fun op => match op with user_operation (account_witness_vote_operation account witness approve) => Some (account, witness, approve)
    | _ => None end).
Definition account_witness_proxy_wire : alternative wire_operation := mk_alternative
  (account_name ** account_name)
  (fun '(account, proxy) => user_operation (account_witness_proxy_operation account proxy))
  (fun op => match op with user_operation (account_witness_proxy_operation account proxy) => Some (account, proxy) | _ => None end).
Definition custom_wire : alternative wire_operation := mk_alternative
  (names ** u16 ** char_vector)
  (fun '(required_auths, id, data) => user_operation (custom_operation required_auths id data))
  (fun op => match op with user_operation (custom_operation required_auths id data) => Some (required_auths, id, data) | _ => None
    end).
Definition report_over_production_wire : alternative wire_operation := mk_alternative
  (account_name ** signed_block_header_codec ** signed_block_header_codec)
  (fun '(reporter, first_block, second_block) => user_operation (report_over_production_operation reporter
    first_block second_block))
  (fun op => match op with user_operation (report_over_production_operation reporter first_block second_block) => Some (reporter,
    first_block, second_block) | _ => None end).
Definition delete_comment_wire : alternative wire_operation := mk_alternative
  (account_name ** char_vector)
  (fun '(author, permlink) => user_operation (delete_comment_operation author permlink))
  (fun op => match op with user_operation (delete_comment_operation author permlink) => Some (author, permlink) | _ => None end).
Definition custom_json_wire : alternative wire_operation := mk_alternative
  (names ** names ** char_vector ** char_vector)
  (fun '(required_auths, required_posting_auths, id, json) => user_operation (custom_json_operation required_auths
    required_posting_auths id json))
  (fun op => match op with user_operation (custom_json_operation required_auths required_posting_auths id json) => Some
    (required_auths, required_posting_auths, id, json) | _ => None end).
Definition comment_options_wire : alternative wire_operation := mk_alternative
  (account_name ** char_vector ** asset_codec ** u16 ** boolean ** boolean ** comment_options_extensions)
  (fun '(author, permlink, max_accepted_payout, percent_zattera_dollars, allow_votes, allow_curation_rewards, exts)
    => user_operation (comment_options_operation author permlink max_accepted_payout percent_zattera_dollars
    allow_votes allow_curation_rewards exts))
  (fun op => match op with user_operation (comment_options_operation author permlink max_accepted_payout percent_zattera_dollars
    allow_votes allow_curation_rewards exts) => Some (author, permlink, max_accepted_payout,
    percent_zattera_dollars, allow_votes, allow_curation_rewards, exts) | _ => None end).
Definition set_withdraw_vesting_route_wire : alternative wire_operation := mk_alternative
  (account_name ** account_name ** u16 ** boolean)
  (fun '(from_account, to_account, percent, auto_vest) => user_operation (set_withdraw_vesting_route_operation
    from_account to_account percent auto_vest))
  (fun op => match op with user_operation (set_withdraw_vesting_route_operation from_account to_account percent auto_vest) => Some
    (from_account, to_account, percent, auto_vest) | _ => None end).
Definition limit_order_create2_wire : alternative wire_operation := mk_alternative
  (account_name ** u32 ** asset_codec ** price_codec ** boolean ** time_sec)
  (fun '(owner, orderid, amount_to_sell, exchange_rate, fill_or_kill, expiration) => user_operation
    (limit_order_create2_operation owner orderid amount_to_sell fill_or_kill exchange_rate expiration))
  (fun op => match op with user_operation (limit_order_create2_operation owner orderid amount_to_sell fill_or_kill exchange_rate
    expiration) => Some (owner, orderid, amount_to_sell, exchange_rate, fill_or_kill, expiration) | _ => None
    end).
Definition claim_account_wire : alternative wire_operation := mk_alternative
  (account_name ** asset_codec ** extensions)
  (fun '(creator, fee, exts) => user_operation (claim_account_operation creator fee exts))
  (fun op => match op with user_operation (claim_account_operation creator fee exts) => Some (creator, fee, exts) | _ => None end).
Definition create_claimed_account_wire : alternative wire_operation := mk_alternative
  (account_name ** account_name ** authority_codec ** authority_codec ** authority_codec ** public_key **
    char_vector ** extensions)
  (fun '(creator, new_account_name, owner, active, posting, memo_key, json_metadata, exts) => user_operation
    (create_claimed_account_operation creator new_account_name owner active posting memo_key json_metadata
    exts))
  (fun op => match op with user_operation (create_claimed_account_operation creator new_account_name owner active posting memo_key
    json_metadata exts) => Some (creator, new_account_name, owner, active, posting, memo_key, json_metadata,
    exts) | _ => None end).
Definition request_account_recovery_wire : alternative wire_operation := mk_alternative
  (account_name ** account_name ** authority_codec ** extensions)
  (fun '(recovery_account, account_to_recover, new_owner_authority, exts) => user_operation
    (request_account_recovery_operation recovery_account account_to_recover new_owner_authority exts))
  (fun op => match op with user_operation (request_account_recovery_operation recovery_account account_to_recover new_owner_authority
    exts) => Some (recovery_account, account_to_recover, new_owner_authority, exts) | _ => None end).
Definition recover_account_wire : alternative wire_operation := mk_alternative
  (account_name ** authority_codec ** authority_codec ** extensions)
  (fun '(account_to_recover, new_owner_authority, recent_owner_authority, exts) => user_operation
    (recover_account_operation account_to_recover new_owner_authority recent_owner_authority exts))
  (fun op => match op with user_operation (recover_account_operation account_to_recover new_owner_authority recent_owner_authority
    exts) => Some (account_to_recover, new_owner_authority, recent_owner_authority, exts) | _ => None end).
Definition change_recovery_account_wire : alternative wire_operation := mk_alternative
  (account_name ** account_name ** extensions)
  (fun '(account_to_recover, new_recovery_account, exts) => user_operation (change_recovery_account_operation
    account_to_recover new_recovery_account exts))
  (fun op => match op with user_operation (change_recovery_account_operation account_to_recover new_recovery_account exts) => Some
    (account_to_recover, new_recovery_account, exts) | _ => None end).
Definition escrow_transfer_wire : alternative wire_operation := mk_alternative
  (account_name ** account_name ** asset_codec ** asset_codec ** u32 ** account_name ** asset_codec **
    char_vector ** time_sec ** time_sec)
  (fun '(from, to, dollar_amount, liquid_amount, escrow_id, agent, fee, json_meta, ratification_deadline,
    escrow_expiration) => user_operation (escrow_transfer_operation from to agent escrow_id dollar_amount
    liquid_amount fee ratification_deadline escrow_expiration json_meta))
  (fun op => match op with user_operation (escrow_transfer_operation from to agent escrow_id dollar_amount liquid_amount fee
    ratification_deadline escrow_expiration json_meta) => Some (from, to, dollar_amount, liquid_amount,
    escrow_id, agent, fee, json_meta, ratification_deadline, escrow_expiration) | _ => None end).
Definition escrow_dispute_wire : alternative wire_operation := mk_alternative
  (account_name ** account_name ** account_name ** account_name ** u32)
  (fun '(from, to, agent, who, escrow_id) => user_operation (escrow_dispute_operation from to agent who escrow_id))
  (fun op => match op with user_operation (escrow_dispute_operation from to agent who escrow_id) => Some (from, to, agent, who,
    escrow_id) | _ => None end).
Definition escrow_release_wire : alternative wire_operation := mk_alternative
  (account_name ** account_name ** account_name ** account_name ** account_name ** u32 ** asset_codec **
    asset_codec)
  (fun '(from, to, agent, who, receiver, escrow_id, dollar_amount, liquid_amount) => user_operation
    (escrow_release_operation from to agent who receiver escrow_id dollar_amount liquid_amount))
  (fun op => match op with user_operation (escrow_release_operation from to agent who receiver escrow_id dollar_amount liquid_amount)
    => Some (from, to, agent, who, receiver, escrow_id, dollar_amount, liquid_amount) | _ => None end).
Definition escrow_approve_wire : alternative wire_operation := mk_alternative
  (account_name ** account_name ** account_name ** account_name ** u32 ** boolean)
  (fun '(from, to, agent, who, escrow_id, approve) => user_operation (escrow_approve_operation from to agent who
    escrow_id approve))
  (fun op => match op with user_operation (escrow_approve_operation from to agent who escrow_id approve) => Some (from, to, agent, who,
    escrow_id, approve) | _ => None end).
Definition transfer_to_savings_wire : alternative wire_operation := mk_alternative
  (account_name ** account_name ** asset_codec ** char_vector)
  (fun '(from, to, amt, memo) => user_operation (transfer_to_savings_operation from to amt memo))
  (fun op => match op with user_operation (transfer_to_savings_operation from to amt memo) => Some (from, to, amt, memo) | _ => None
    end).
Definition transfer_from_savings_wire : alternative wire_operation := mk_alternative
  (account_name ** u32 ** account_name ** asset_codec ** char_vector)
  (fun '(from, request_id, to, amt, memo) => user_operation (transfer_from_savings_operation from request_id to amt
    memo))
  (fun op => match op with user_operation (transfer_from_savings_operation from request_id to amt memo) => Some (from, request_id, to,
    amt, memo) | _ => None end).
Definition cancel_transfer_from_savings_wire : alternative wire_operation := mk_alternative
  (account_name ** u32)
  (fun '(from, request_id) => user_operation (cancel_transfer_from_savings_operation from request_id))
  (fun op => match op with user_operation (cancel_transfer_from_savings_operation from request_id) => Some (from, request_id) | _ =>
    None end).
Definition custom_binary_wire : alternative wire_operation := mk_alternative
  (names ** names ** names ** (vector sizeof_authority authority_codec) ** char_vector ** char_vector)
  (fun '(required_owner_auths, required_active_auths, required_posting_auths, required_auths, id, data) =>
    user_operation (custom_binary_operation required_owner_auths required_active_auths required_posting_auths
    required_auths id data))
  (fun op => match op with user_operation (custom_binary_operation required_owner_auths required_active_auths required_posting_auths
    required_auths id data) => Some (required_owner_auths, required_active_auths, required_posting_auths,
    required_auths, id, data) | _ => None end).
Definition decline_voting_rights_wire : alternative wire_operation := mk_alternative
  (account_name ** boolean)
  (fun '(account, decline) => user_operation (decline_voting_rights_operation account decline))
  (fun op => match op with user_operation (decline_voting_rights_operation account decline) => Some (account, decline) | _ => None
    end).
Definition reset_account_wire : alternative wire_operation := mk_alternative
  (account_name ** account_name ** authority_codec)
  (fun '(reset_account, account_to_reset, new_owner_authority) => user_operation (reset_account_operation
    reset_account account_to_reset new_owner_authority))
  (fun op => match op with user_operation (reset_account_operation reset_account account_to_reset new_owner_authority) => Some
    (reset_account, account_to_reset, new_owner_authority) | _ => None end).
Definition set_reset_account_wire : alternative wire_operation := mk_alternative
  (account_name ** account_name ** account_name)
  (fun '(account, current_reset_account, reset_account) => user_operation (set_reset_account_operation account
    current_reset_account reset_account))
  (fun op => match op with user_operation (set_reset_account_operation account current_reset_account reset_account) => Some (account,
    current_reset_account, reset_account) | _ => None end).
Definition claim_reward_balance_wire : alternative wire_operation := mk_alternative
  (account_name ** asset_codec ** asset_codec ** asset_codec)
  (fun '(account, reward_liquids, reward_dollars, reward_vests) => user_operation (claim_reward_balance_operation
    account reward_liquids reward_dollars reward_vests))
  (fun op => match op with user_operation (claim_reward_balance_operation account reward_liquids reward_dollars reward_vests) => Some
    (account, reward_liquids, reward_dollars, reward_vests) | _ => None end).
Definition delegate_vesting_shares_wire : alternative wire_operation := mk_alternative
  (account_name ** account_name ** asset_codec)
  (fun '(delegator, delegatee, vesting_shares) => user_operation (delegate_vesting_shares_operation delegator
    delegatee vesting_shares))
  (fun op => match op with user_operation (delegate_vesting_shares_operation delegator delegatee vesting_shares) => Some (delegator,
    delegatee, vesting_shares) | _ => None end).
Definition account_create_with_delegation_wire : alternative wire_operation := mk_alternative
  (asset_codec ** asset_codec ** account_name ** account_name ** authority_codec ** authority_codec **
    authority_codec ** public_key ** char_vector ** extensions)
  (fun '(fee, delegation, creator, new_account_name, owner, active, posting, memo_key, json_metadata, exts) =>
    user_operation (account_create_with_delegation_operation fee delegation creator new_account_name owner
    active posting memo_key json_metadata exts))
  (fun op => match op with user_operation (account_create_with_delegation_operation fee delegation creator new_account_name owner
    active posting memo_key json_metadata exts) => Some (fee, delegation, creator, new_account_name, owner,
    active, posting, memo_key, json_metadata, exts) | _ => None end).
Definition witness_set_properties_wire : alternative wire_operation := mk_alternative
  (account_name ** (flat_set (fun x y => string_ltb x.1 y.1) (sizeof_string + sizeof_vector) (char_vector **
    char_vector)) ** extensions)
  (fun '(owner, props, exts) => user_operation (witness_set_properties_operation owner props exts))
  (fun op => match op with user_operation (witness_set_properties_operation owner props exts) => Some (owner, props, exts) | _ =>
    None end).
Definition fill_convert_request_wire : alternative wire_operation := mk_alternative
  (account_name ** u32 ** asset_codec ** asset_codec)
  (fun '(owner, requestid, amount_in, amount_out) => chain_operation (fill_convert_request_operation owner
    requestid amount_in amount_out))
  (fun op => match op with chain_operation (fill_convert_request_operation owner requestid amount_in amount_out) => Some (owner,
    requestid, amount_in, amount_out) | _ => None end).
Definition author_reward_wire : alternative wire_operation := mk_alternative
  (account_name ** char_vector ** asset_codec ** asset_codec ** asset_codec)
  (fun '(author, permlink, dollar_payout, liquid_payout, vesting_payout) => chain_operation
    (author_reward_operation author permlink dollar_payout liquid_payout vesting_payout))
  (fun op => match op with chain_operation (author_reward_operation author permlink dollar_payout liquid_payout vesting_payout) => Some
    (author, permlink, dollar_payout, liquid_payout, vesting_payout) | _ => None end).
Definition curation_reward_wire : alternative wire_operation := mk_alternative
  (account_name ** asset_codec ** account_name ** char_vector)
  (fun '(curator, reward, comment_author, comment_permlink) => chain_operation (curation_reward_operation curator
    reward comment_author comment_permlink))
  (fun op => match op with chain_operation (curation_reward_operation curator reward comment_author comment_permlink) => Some (curator,
    reward, comment_author, comment_permlink) | _ => None end).
Definition comment_reward_wire : alternative wire_operation := mk_alternative
  (account_name ** char_vector ** asset_codec)
  (fun '(author, permlink, payout) => chain_operation (comment_reward_operation author permlink payout))
  (fun op => match op with chain_operation (comment_reward_operation author permlink payout) => Some (author, permlink, payout) | _ =>
    None end).
Definition liquidity_reward_wire : alternative wire_operation := mk_alternative
  (account_name ** asset_codec)
  (fun '(owner, payout) => chain_operation (liquidity_reward_operation owner payout))
  (fun op => match op with chain_operation (liquidity_reward_operation owner payout) => Some (owner, payout) | _ => None end).
Definition interest_wire : alternative wire_operation := mk_alternative
  (account_name ** asset_codec)
  (fun '(owner, interest) => chain_operation (interest_operation owner interest))
  (fun op => match op with chain_operation (interest_operation owner interest) => Some (owner, interest) | _ => None end).
Definition fill_vesting_withdraw_wire : alternative wire_operation := mk_alternative
  (account_name ** account_name ** asset_codec ** asset_codec)
  (fun '(from_account, to_account, withdrawn, deposited) => chain_operation (fill_vesting_withdraw_operation
    from_account to_account withdrawn deposited))
  (fun op => match op with chain_operation (fill_vesting_withdraw_operation from_account to_account withdrawn deposited) => Some
    (from_account, to_account, withdrawn, deposited) | _ => None end).
Definition fill_order_wire : alternative wire_operation := mk_alternative
  (account_name ** u32 ** asset_codec ** account_name ** u32 ** asset_codec)
  (fun '(current_owner, current_orderid, current_pays, open_owner, open_orderid, open_pays) => chain_operation
    (fill_order_operation current_owner current_orderid current_pays open_owner open_orderid open_pays))
  (fun op => match op with chain_operation (fill_order_operation current_owner current_orderid current_pays open_owner open_orderid
    open_pays) => Some (current_owner, current_orderid, current_pays, open_owner, open_orderid, open_pays) | _
    => None end).
Definition shutdown_witness_wire : alternative wire_operation := mk_alternative
  (account_name)
  (fun owner => chain_operation (shutdown_witness_operation owner))
  (fun op => match op with chain_operation (shutdown_witness_operation owner) => Some owner | _ => None end).
Definition fill_transfer_from_savings_wire : alternative wire_operation := mk_alternative
  (account_name ** account_name ** asset_codec ** u32 ** char_vector)
  (fun '(from, to, amt, request_id, memo) => chain_operation (fill_transfer_from_savings_operation from to amt
    request_id memo))
  (fun op => match op with chain_operation (fill_transfer_from_savings_operation from to amt request_id memo) => Some (from, to, amt,
    request_id, memo) | _ => None end).
Definition hardfork_wire : alternative wire_operation := mk_alternative
  (u32)
  (fun hardfork_id => chain_operation (hardfork_operation hardfork_id))
  (fun op => match op with chain_operation (hardfork_operation hardfork_id) => Some hardfork_id | _ => None end).
Definition comment_payout_update_wire : alternative wire_operation := mk_alternative
  (account_name ** char_vector)
  (fun '(author, permlink) => chain_operation (comment_payout_update_operation author permlink))
  (fun op => match op with chain_operation (comment_payout_update_operation author permlink) => Some (author, permlink) | _ => None
    end).
Definition return_vesting_delegation_wire : alternative wire_operation := mk_alternative
  (account_name ** asset_codec)
  (fun '(account, vesting_shares) => chain_operation (return_vesting_delegation_operation account vesting_shares))
  (fun op => match op with chain_operation (return_vesting_delegation_operation account vesting_shares) => Some (account,
    vesting_shares) | _ => None end).
Definition comment_benefactor_reward_wire : alternative wire_operation := mk_alternative
  (account_name ** account_name ** char_vector ** asset_codec)
  (fun '(benefactor, author, permlink, reward) => chain_operation (comment_benefactor_reward_operation benefactor
    author permlink reward))
  (fun op => match op with chain_operation (comment_benefactor_reward_operation benefactor author permlink reward) => Some (benefactor,
    author, permlink, reward) | _ => None end).
Definition producer_reward_wire : alternative wire_operation := mk_alternative
  (account_name ** asset_codec)
  (fun '(producer, vesting_shares) => chain_operation (producer_reward_operation producer vesting_shares))
  (fun op => match op with chain_operation (producer_reward_operation producer vesting_shares) => Some (producer, vesting_shares) | _
    => None end).

(** The variant [operation]; the position is the tag. *)
Definition operations : list (alternative wire_operation) :=
  [vote_wire; comment_wire; transfer_wire; transfer_to_vesting_wire; withdraw_vesting_wire;
   limit_order_create_wire; limit_order_cancel_wire; feed_publish_wire; convert_wire; account_create_wire;
   account_update_wire; witness_update_wire; account_witness_vote_wire; account_witness_proxy_wire; custom_wire;
   report_over_production_wire; delete_comment_wire; custom_json_wire; comment_options_wire;
   set_withdraw_vesting_route_wire; limit_order_create2_wire; claim_account_wire; create_claimed_account_wire;
   request_account_recovery_wire; recover_account_wire; change_recovery_account_wire; escrow_transfer_wire;
   escrow_dispute_wire; escrow_release_wire; escrow_approve_wire; transfer_to_savings_wire;
   transfer_from_savings_wire; cancel_transfer_from_savings_wire; custom_binary_wire; decline_voting_rights_wire;
   reset_account_wire; set_reset_account_wire; claim_reward_balance_wire; delegate_vesting_shares_wire;
   account_create_with_delegation_wire; witness_set_properties_wire; fill_convert_request_wire; author_reward_wire;
   curation_reward_wire; comment_reward_wire; liquidity_reward_wire; interest_wire; fill_vesting_withdraw_wire;
   fill_order_wire; shutdown_witness_wire; fill_transfer_from_savings_wire; hardfork_wire;
   comment_payout_update_wire; return_vesting_delegation_wire; comment_benefactor_reward_wire;
   producer_reward_wire].
Definition operation_codec : codec wire_operation := static_variant operations.

(** ** Transactions and blocks *)

(** [signed_transaction]: ref_block_num, ref_block_prefix, expiration, operations,
    extensions and signatures. *)
Definition wire_transaction : Type := Z * Z * time * list wire_operation * list unit * list string.
Definition transaction_codec : codec wire_transaction :=
  u16 ** u32 ** time_sec ** vector sizeof_operation operation_codec ** extensions ** vector 65 signature.
Definition wire_block : Type := signed_block_header * list wire_transaction.
Definition block_codec : codec wire_block :=
  signed_block_header_codec ** vector sizeof_signed_transaction transaction_codec.

(** The transactions of Blocks.v carry operations of users. *)
Definition to_wire (t : signed_transaction) : wire_transaction :=
  (trx_ref_block_num t, trx_ref_block_prefix t, trx_expiration t, user_operation <$> trx_operations t, trx_extensions t,
   trx_signatures t).
Definition of_wire (w : wire_transaction) : option signed_transaction :=
  let '(num, prefix, expiration, ops, exts, sigs) := w in
  ops ← mapM (fun o => match o with user_operation op => Some op | _ => None end) ops;
  Some (mk_signed_transaction num prefix expiration ops exts sigs).
Definition block_to_wire (b : signed_block) : wire_block := (signed_header_part b, to_wire <$> blk_transactions b).
Definition block_of_wire (w : wire_block) : option signed_block :=
  let '(h, trxs) := w in
  trxs ← mapM of_wire trxs;
  Some (mk_signed_block (hdr_previous h) (hdr_timestamp h) (hdr_witness h) (hdr_transaction_merkle_root h)
          (hdr_extensions h) (hdr_witness_signature h) trxs).

(** What the block log writes and reads. *)
Definition wire_packing : Packing := {|
  pack_block b := match pack block_codec (block_to_wire b) with Ok l => l | Throw _ => [] end;
  unpack_block bytes :=
    match unpack block_codec bytes with
    | Ok (w, rest) => b ← block_of_wire w; Some (b, rest)
    | Throw _ => None
    end |}.

(** [unpack_from_vector]: nothing is read from an empty vector, and bytes that are
    left over are ignored. *)
Definition unpack_from_vector {A} (c : codec A) (default : A) (s : string) : res A :=
  if bool_decide (String.length s = 0%nat) then Ok default
  else let? (x, _) := unpack c (bytes_of s) in Ok x.

(** What [sig_digest] hashes: the chain, then the members of [transaction], which
    are those of [signed_transaction] but for the signatures. *)
Definition transaction_base : codec (Z * Z * time * list wire_operation * list unit) :=
  u16 ** u32 ** time_sec ** vector sizeof_operation operation_codec ** extensions.
Definition sig_digest_bytes (chain : string) (t : signed_transaction) : res (list Z) :=
  pack (array 32 ** transaction_base) (chain, (to_wire t).1).
End Protocol.

(** ** Laws *)

Lemma c_str_trim s : c_str s = s → trim_nul s = s.
Proof.
  induction s as [|c s IH]; cbn [c_str trim_nul]; [done|]. case_bool_decide as Hc; [done|]. intros [= E].
  rewrite IH by done. destruct s; [by rewrite ?bool_decide_eq_false_2|done].
Qed.
Lemma take_chars_all n s : (String.length s ≤ n)%nat → take_chars n s = s.
Proof. revert n. induction s as [|c s IH]; intros [|n]; cbn; intros; [done..|lia|]. rewrite IH by lia. done. Qed.
#[export] Instance fixed_string_lawful n : Lawful (fixed_string n).
Proof.
  split; cbn [pack unpack wire_ok fixed_string].
  - intros s [[Hl%bool_decide_eq_true Hc%bool_decide_eq_true]%andb_prop Hw]%andb_prop. rewrite Hc.
    destruct (unpack_pack (c := char_vector) s Hw) as (l & E & Hl'). exists l. split; [exact E|]. intros rest. rewrite Hl'.
    cbn [res_bind]. by rewrite take_chars_all, c_str_trim.
  - intros bytes x rest more H. repeat local_step. by injection H as <- <-.
Qed.
#[export] Instance asset_symbol_lawful : Lawful asset_symbol.
Proof.
  split; cbn [pack unpack wire_ok asset_symbol].
  - intros sym [[Hs|Hs]%orb_prop|Hs]%orb_prop; apply Z.eqb_eq in Hs as ->; (eexists; split; [reflexivity|]); done.
  - intros bytes x rest more H. local_step. local_step. local_step.
    apply res_bind_ok in H as ([] & Hv & [= <- <-]).
    match goal with E : (if _ then _ else _) = Ok _ |- _ => revert E end.
    repeat (destruct (_ =? wrap_u32 _); [intros E; local_step; apply assert_inv in E as [Ha [= -> ->]];
      local_step; rewrite (res_assert_true _ _ Ha); cbn [res_bind]; by rewrite Hv|]).
    intros [= -> ->]. cbn [res_bind]. by rewrite Hv.
Qed.
#[export] Instance signed8_lawful : Lawful (signed 8).
Proof. apply signed_lawful. lia. Qed.
#[export] Instance signed2_lawful : Lawful (signed 2).
Proof. apply signed_lawful. lia. Qed.
#[export] Instance asset_lawful : Lawful asset_codec.
Proof. apply reflect_lawful; [by intros []|apply _]. Qed.
#[export] Instance price_lawful : Lawful price_codec.
Proof. apply reflect_lawful; [by intros []|apply _]. Qed.
Lemma legacy_ser_range ser : bool_decide (ser ∈ LIQUID_SYMBOL_LEGACY_SER) || (ser =? LIQUID_SYMBOL_SER) = true →
  wire_ok (unsigned 8) ser = true.
Proof.
  intros [Hs%bool_decide_eq_true|Hs%Z.eqb_eq]%orb_prop; [|by subst].
  unfold LIQUID_SYMBOL_LEGACY_SER in Hs. rewrite !elem_of_cons, elem_of_nil in Hs. by destruct_or!; subst.
Qed.
#[export] Instance legacy_symbol_lawful : Lawful legacy_symbol.
Proof.
  split; cbn [pack unpack wire_ok legacy_symbol].
  - intros ser Hs. destruct (unpack_pack (c := unsigned 8) ser (legacy_ser_range ser Hs)) as (l & E & Hl).
    rewrite Hs. exists l. split; [exact E|]. intros rest. rewrite Hl. cbn [res_bind]. by rewrite Hs.
  - intros bytes x rest more H. local_step. destruct (_ || _) eqn:E; [|done]. injection H as -> ->. local_step. by rewrite E.
Qed.
#[export] Instance account_name_lawful : Lawful account_name := fixed_string_lawful 16.
#[export] Instance public_key_lawful : Lawful public_key := array_lawful 33.
#[export] Instance authority_lawful : Lawful authority_codec.
Proof. apply reflect_lawful; [by intros []|apply _]. Qed.
#[export] Instance void_lawful : Lawful void.
Proof. split; [intros [] _; by eexists|]. intros bytes x rest more [= <- <-]. done. Qed.

Ltac alternatives :=
  apply static_variant_lawful; [|vm_compute; discriminate];
  repeat first [ apply List.Forall_nil
               | apply List.Forall_cons; [split; [cbn; apply _|intros x t; destruct x; cbn; intros E; (discriminate E || (injection E as <-; reflexivity))]|] ].

Section ProtocolLaws.
Context `{Abi}.

#[export] Instance extensions_lawful : Lawful extensions.
Proof. notypeclasses refine (flat_set_lawful _ _ _ _). alternatives. Qed.
#[export] Instance beneficiary_route_lawful : Lawful beneficiary_route.
Proof. apply reflect_lawful; [by intros []|apply _]. Qed.
#[export] Instance comment_options_extensions_lawful : Lawful comment_options_extensions.
Proof. notypeclasses refine (flat_set_lawful _ _ _ _). alternatives. Qed.
#[export] Instance block_header_extensions_lawful : Lawful block_header_extensions.
Proof. notypeclasses refine (flat_set_lawful _ _ _ _). alternatives. Qed.
#[export] Instance legacy_props_lawful : Lawful legacy_props.
Proof.
  split; cbn [pack unpack wire_ok legacy_props].
  - intros [fee canon size rate] [Hc Hw]%andb_prop. cbn in Hc. subst canon. cbn [lcp_fee_symbol_canon].
    destruct (unpack_pack _ Hw) as (l & E & Hl). exists l. split; [exact E|]. intros rest. by rewrite Hl.
  - intros bytes x rest more Hu. local_step. destruct p as [[[fee ser] size] rate]. injection Hu as <- <-. by local_step.
Qed.
#[export] Instance names_lawful : Lawful names := _.
#[export] Instance u16_lawful : Lawful u16 := unsigned_lawful 2.
#[export] Instance u32_lawful : Lawful u32 := unsigned_lawful 4.
#[export] Instance time_sec_lawful : Lawful time_sec := unsigned_lawful 4.
#[export] Instance block_id_lawful : Lawful block_id_codec.
Proof.
  split; cbn [pack unpack wire_ok block_id_codec].
  - intros l [Hl%bool_decide_eq_true Hw]%andb_prop. rewrite <-Hl. by apply unpack_pack_items; [apply _|].
  - intros bytes x rest more. apply unpack_items_local. apply _.
Qed.
#[export] Instance checksum_lawful : Lawful checksum := array_lawful 20.
#[export] Instance signature_lawful : Lawful signature := array_lawful 65.
#[export] Instance signed_block_header_lawful : Lawful signed_block_header_codec.
Proof. apply reflect_lawful; [by intros []|apply _]. Qed.

#[export] Instance operation_lawful : Lawful operation_codec.
Proof.
  apply static_variant_lawful; [|vm_compute; discriminate]. unfold operations.
  repeat first [ apply List.Forall_nil | apply List.Forall_cons; [split; [cbn [alt_codec]; apply _|]|] ];
    (intros [op|op] t; [destruct op|destruct op]; cbn; intros E; (discriminate E || (injection E as <-; reflexivity))).
Qed.
#[export] Instance transaction_base_lawful : Lawful transaction_base := _.
#[export] Instance transaction_lawful : Lawful transaction_codec := _.
#[export] Instance block_lawful : Lawful block_codec := _.

(** ** What the wire format guarantees *)

Lemma mapM_fmap_some {A B} (f : A → B) (g : B → option A) l : (∀ x, g (f x) = Some x) → mapM g (f <$> l) = Some l.
Proof. intros Hg. induction l as [|x l IH]; cbn; [done|]. by rewrite Hg, IH. Qed.
Lemma of_to_wire t : of_wire (to_wire t) = Some t.
Proof. destruct t. unfold of_wire, to_wire. cbn. by rewrite mapM_fmap_some. Qed.
Lemma block_of_to_wire b : block_of_wire (block_to_wire b) = Some b.
Proof. destruct b. unfold block_of_wire, block_to_wire. cbn. by rewrite mapM_fmap_some by apply of_to_wire. Qed.

Definition block_fits (b : signed_block) : bool := wire_ok block_codec (block_to_wire b).

(** C21: a block is read back from its bytes, whatever follows them, and from no
    proper part of them.  The condition is on sizes only: the lengths of names,
    keys and containers, sorted sets, and integers within their width. *)
Theorem block_round_trip b : block_fits b = true →
  ∃ bytes, pack block_codec (block_to_wire b) = Ok bytes ∧ @pack_block wire_packing b = bytes ∧
    (∀ rest, @unpack_block wire_packing (bytes ++ rest) = Some (b, rest)) ∧
    (∀ p q, bytes = p ++ q → q ≠ [] → @unpack_block wire_packing p = None).
Proof.
  intros Hb. destruct (unpack_pack (c := block_codec) _ Hb) as (bytes & E & Hu). exists bytes. cbn [pack_block unpack_block wire_packing].
  rewrite E. split_and!; [done..| |].
  - intros rest. by rewrite Hu, block_of_to_wire.
  - intros p q -> Hq. by destruct (unpack_truncated block_codec _ p q Hb E Hq) as [e ->].
Qed.

(** The log can hold any blocks that fit: the serialization is what BlockLog.v asks for. *)
Lemma wire_storable `{Crypto} bs : Forall (fun b => block_fits b = true) bs →
  (∀ i b, bs !! i = Some b → block_num b = Z.of_nat i + 1) →
  (∀ b, b ∈ bs → sha224_header (signed_header_part b) ≠ []) →
  Z.of_nat (length (@entries wire_packing 0 bs)) < 2 ^ 64 → @storable _ wire_packing bs.
Proof.
  intros Hf Hn Hh Hl. split; [done| |done..]. intros b rest Hb. rewrite Stdlib.Lists.List.Forall_forall in Hf.
  apply list_elem_of_In, Hf in Hb. destruct (unpack_pack (c := block_codec) _ Hb) as (bytes & E & Hu).
  cbn [pack_block unpack_block wire_packing]. by rewrite E, Hu, block_of_to_wire.
Qed.

#[local] Instance user_operation_inj : Inj (=) (=) user_operation.
Proof. by intros ? ? [=]. Qed.

(** C22: what is signed determines the chain and the transaction: if the bytes
    hashed for two signatures agree, then the chain is the same and the
    transactions differ at most in their signatures. *)
Theorem signed_bytes_binding chain t chain' t' bytes :
  wire_ok (array 32 ** transaction_base) (chain, (to_wire t).1) = true →
  wire_ok (array 32 ** transaction_base) (chain', (to_wire t').1) = true →
  sig_digest_bytes chain t = Ok bytes → sig_digest_bytes chain' t' = Ok bytes →
  chain = chain' ∧ t' <| trx_signatures := trx_signatures t |> = t.
Proof.
  intros Ht Ht' E E'. unfold sig_digest_bytes in *. rewrite <-E in E'.
  assert ((chain', (to_wire t').1) = (chain, (to_wire t).1)) as Heq by (by apply (pack_inj (array 32 ** transaction_base))).
  destruct t, t'. unfold to_wire in Heq. cbn in *. injection Heq as -> -> -> -> Hops ->.
  apply (inj (fmap user_operation)) in Hops as ->. done.
Qed.

(** [sign( key, chain_id )const] packs the signatures along with the transaction. *)
Definition sign_const_bytes (chain : string) (t : signed_transaction) : res (list Z) :=
  pack (array 32 ** transaction_codec) (chain, to_wire t).

(** The signature it makes is never over the bytes that are verified. *)
Theorem const_sign_signs_other_bytes chain t bytes bytes' :
  sign_const_bytes chain t = Ok bytes → sig_digest_bytes chain t = Ok bytes' → bytes ≠ bytes'.
Proof.
  unfold sign_const_bytes, sig_digest_bytes. change transaction_codec with (transaction_base ** vector 65 signature).
  intros (l1 & l2 & E1 & (m1 & m2 & F1 & F2 & ->)%pack_pair_inv & ->)%pack_pair_inv (l1' & l2' & E1' & E2' & ->)%pack_pair_inv Heq.
  cbn [fst snd] in *. rewrite E1 in E1'. injection E1' as <-. rewrite F1 in E2'. injection E2' as <-.
  apply app_inv_head in Heq. rewrite <-(app_nil_r m1) in Heq at 2. apply app_inv_head in Heq as ->.
  by apply pack_vector_nonempty in F2.
Qed.
End ProtocolLaws.

(** ** Names that validate fit *)

Lemma middle_not_nul c : is_middle c = true → c ≠ Ascii.zero.
Proof. intros Hc ->. discriminate Hc. Qed.
Lemma label_not_nul l c : valid_label l = true → c ∈ l → c ≠ Ascii.zero.
Proof.
  unfold valid_label. intros [[[_ Hhd]%andb_prop Hlast]%andb_prop Hmid]%andb_prop Hc. apply middle_not_nul.
  destruct l as [|x l _] using rev_ind; [done|]. rewrite reverse_snoc in Hlast. unfold is_middle.
  apply elem_of_app in Hc as [Hc| ->%list_elem_of_singleton]; [|by rewrite Hlast].
  destruct l as [|y l]; [by apply not_elem_of_nil in Hc|]. cbn in Hhd, Hmid.
  apply elem_of_cons in Hc as [->|Hc]; [unfold is_alnum; by rewrite Hhd|].
  rewrite removelast_last, forallb_forall in Hmid. by apply Hmid, list_elem_of_In.
Qed.
Lemma split_dots_covers l : ∀ cur c, c ∈ cur ∨ c ∈ l → c = "."%char ∨ ∃ label, label ∈ split_dots cur l ∧ c ∈ label.
Proof.
  induction l as [|x l IH]; intros cur c Hc; cbn [split_dots].
  - destruct Hc as [Hc|Hc%not_elem_of_nil]; [|done]. right. exists (reverse cur). by rewrite elem_of_reverse, list_elem_of_singleton.
  - destruct (Ascii.eqb_spec x ".") as [->|Hx].
    + destruct Hc as [Hc|[->|Hc]%elem_of_cons]; [|by left|].
      * right. exists (reverse cur). rewrite elem_of_reverse. split; [by left|done].
      * destruct (IH [] c) as [?|(label & Hl & ?)]; [by right|by left|]. right. exists label. split; [by right|done].
    + apply IH. rewrite elem_of_cons in *. naive_solver.
Qed.
Lemma c_str_all s : (∀ c, c ∈ String.list_ascii_of_string s → c ≠ Ascii.zero) → c_str s = s.
Proof.
  induction s as [|c s IH]; cbn; intros Hc; [done|]. rewrite bool_decide_eq_false_2 by (apply Hc; by left).
  f_equal. apply IH. intros d Hd. apply Hc. by right.
Qed.
(** An account name that validates has a wire format. *)
Lemma valid_name_fits s : is_valid_account_name s = true → wire_ok account_name s = true.
Proof.
  unfold is_valid_account_name. intros [[_ Hlen]%andb_prop Hl]%andb_prop. apply Nat.leb_le in Hlen.
  assert (length (String.list_ascii_of_string s) = String.length s) as El by (clear; by induction s; cbn; f_equal).
  rewrite El in Hlen. change (ZATTERA_MAX_ACCOUNT_NAME_LENGTH) with 16%nat in Hlen.
  cbn [wire_ok account_name fixed_string char_vector]. rewrite !andb_true_iff, !bool_decide_eq_true, Z.ltb_lt.
  split_and!; [done| |unfold MAX_ARRAY_ALLOC_SIZE; lia].
  apply c_str_all. intros c Hc.
  destruct (split_dots_covers (String.list_ascii_of_string s) [] c) as [->|(label & H1 & H2)]; [by right|done|].
  rewrite forallb_forall in Hl. apply (label_not_nul label); [by apply Hl, list_elem_of_In|done].
Qed.

(** ** A sample *)

Fixpoint chars (n : nat) (c : ascii) : string := match n with O => EmptyString | S n' => String c (chars n' c) end.
Definition sample_abi : Abi := {|
  sizeof_string := 32; sizeof_vector := 24; sizeof_authority := 56; sizeof_beneficiary_route := 24;
  sizeof_extension := 16; sizeof_comment_options_extension := 32; sizeof_block_header_extension := 16;
  sizeof_operation := 320; sizeof_signed_transaction := 96 |}.
Definition wire_sample_transaction : signed_transaction := mk_signed_transaction 7 0xDEADBEEF 1600000000
  [transfer_operation "alice" "bob" (mk_asset 1500 LIQUID_SYMBOL) "thanks";
   vote_operation "alice" "carol" "a-post" (-10000);
   account_update_operation "alice" None (Some (mk_authority 1 [("bob", 1)] [(chars 33 "k", 1)])) None (chars 33 "m") "";
   change_recovery_account_operation "alice" "bob" [tt]] []
  [chars 65 "s"].
Definition wire_sample_block : signed_block := mk_signed_block [1; 2; 3; 4; 5] 1600000003 "genesis" (chars 20 "r")
  [reported_version 65536; hardfork_version_vote 65537 1700000000] (chars 65 "w") [wire_sample_transaction].

Lemma block_round_trip_witness :
  block_fits (H := sample_abi) wire_sample_block = true ∧
  ∃ bytes, pack (block_codec (H := sample_abi)) (block_to_wire wire_sample_block) = Ok bytes ∧ length bytes = 371%nat ∧
    (∀ rest, @unpack_block (wire_packing (H := sample_abi)) (bytes ++ rest) = Some (wire_sample_block, rest)).
Proof.
  split; [vm_compute; reflexivity|].
  destruct (block_round_trip (H := sample_abi) wire_sample_block) as (bytes & E & _ & Hu & _); [vm_compute; reflexivity|].
  exists bytes. split; [exact E|]. split; [|exact Hu]. vm_compute in E. injection E as <-. reflexivity.
Defined.

Lemma signed_bytes_binding_witness :
  ∃ bytes, sig_digest_bytes (H := sample_abi) (chars 32 "z") wire_sample_transaction = Ok bytes ∧
    chars 32 "z" = chars 32 "z" ∧
    (wire_sample_transaction <| trx_signatures := [] |>) <| trx_signatures := trx_signatures wire_sample_transaction |> =
      wire_sample_transaction.
Proof.
  eexists. split; [vm_compute; reflexivity|].
  apply (signed_bytes_binding (H := sample_abi) (chars 32 "z") wire_sample_transaction (chars 32 "z")
    (wire_sample_transaction <| trx_signatures := [] |>)
    (match sig_digest_bytes (H := sample_abi) (chars 32 "z") wire_sample_transaction with Ok l => l | Throw _ => [] end));
    vm_compute; reflexivity.
Defined.

(** A symbol can also be written in four bytes, which [pack] never does. *)
Example short_symbol_accepted :
  unpack asset_codec (le_bytes 8 5 ++ le_bytes 4 DOLLAR_SYMBOL) = Ok (mk_asset 5 DOLLAR_SYMBOL, []) ∧
  pack asset_codec (mk_asset 5 DOLLAR_SYMBOL) ≠ Ok (le_bytes 8 5 ++ le_bytes 4 DOLLAR_SYMBOL).
Proof. split; [vm_compute; reflexivity|]. vm_compute. discriminate. Qed.
