(* ===== verification/Signing.v ===== *)
(** * Choosing the keys that sign a transaction

    [get_required_signatures], [minimize_required_signatures] and
    [verify_authority] of [signed_transaction]
    (src/src/core/protocol/transaction.cpp), the calls of the database API around
    them (src/src/plugins/apis/database_api/database_api.cpp) and the signing loop
    of the wallet (src/src/wallet/wallet.cpp).  The proofs compare two runs of the
    weight check that differ in where the keys come from: keys that could sign
    against signatures that are there.  [chosen_signatures_accepted] is the
    result for a client: what it signs with the chosen keys passes the check of
    the chain. *)
From S2P Require Import Prelude Ints Config Asset Authority Headers Operations State Blocks Store Ledger Balances Vesting Conserve EvalFunds Market EvalAccounts Proxy Reward EvalContent Evaluators Genesis Schedule Chain.

(** ** The authorities a transaction requires *)

Record required := mk_required {
  req_active : list string;
  req_owner : list string;
  req_posting : list string;
  req_other : list authority
}.
Definition operations_required `{Codec} (ops : list operation) : res required :=
  let? other := res_fold (fun acc op => let? a := get_required_authorities op in Ok (acc ++ a)) [] ops in
  Ok (mk_required (flat_set (mjoin (get_required_active_authorities <$> ops)))
        (flat_set (mjoin (get_required_owner_authorities <$> ops)))
        (flat_set (mjoin (get_required_posting_authorities <$> ops))) other).

Section Selection.
Context (g : auth_getters).

Definition verify_keys (d : nat) (membership accounts : Z) (r : required) (keys : list public_key_type) : res unit :=
  verify_authority g d membership accounts (req_active r) (req_owner r) (req_posting r) (req_other r) keys.

(** A check whose outcome is ignored. *)
Definition m_ignore (m : M sign_state bool) : M sign_state unit := m ;; ret tt.

(** The checks mark the keys they ask for; [keys] are those of the signatures the
    transaction already has. *)
Definition required_checks (d : nat) (membership accounts : Z) (available : gset public_key_type) (r : required)
    : M sign_state unit :=
  if negb (Nat.eqb (length (req_posting r)) 0) then
    let e := mk_sign_env (g_posting g) available membership accounts in
    fc_assert (Nat.eqb (length (req_owner r)) 0) "!required_owner.size()" ;;
    fc_assert (Nat.eqb (length (req_active r)) 0) "!required_active.size()" ;;
    for_each (req_posting r) (fun id => m_ignore (check_authority_id e d id))
  else
    let e := mk_sign_env (g_active g) available membership accounts in
    for_each (req_other r) (fun a => m_ignore (check_authority e d a)) ;;
    for_each (req_owner r) (fun id => m_ignore (m_get_check e d (g_owner g) id)) ;;
    for_each (req_active r) (fun id => m_ignore (check_authority_id e d id)).

(** The result is a [std::set]: in the order of the keys. *)
Definition get_required_signatures (d : nat) (membership accounts : Z) (keys available : list public_key_type)
    (r : required) : res (list public_key_type) :=
  let? (_, st) := (required_checks d membership accounts (list_to_set available) r ;; remove_unused_signatures)
                    (init_sign_state keys []) in
  Ok (flat_set (filter (fun k => k ∈ available) (elements (dom (provided_signatures st))))).

(** The exceptions that [minimize_required_signatures] catches. *)
Definition missing_auth (e : exn) : bool :=
  bool_decide (e ∈ assert_exception <$>
    ["Missing Owner Authority"; "Missing Active Authority"; "Missing Posting Authority"; "Missing Authority"]).

(** One round of the loop: [k] stays erased if the rest is enough. *)
Definition minimize_step (d : nat) (membership accounts : Z) (r : required) (result : list public_key_type)
    (k : public_key_type) : res (list public_key_type) :=
  let erased := filter (fun k' => k' ≠ k) result in
  match verify_keys d membership accounts r erased with
  | Ok _ => Ok erased
  | Throw e => if missing_auth e then Ok (flat_set (k :: erased)) else Throw e
  end.

(** The limits for [get_required_signatures] are its defaults. *)
Definition minimize_required_signatures (d : nat) (membership accounts : Z) (keys available : list public_key_type)
    (r : required) : res (list public_key_type) :=
  let? s := get_required_signatures d ZATTERA_MAX_AUTHORITY_MEMBERSHIP (Z.of_nat ZATTERA_MAX_SIG_CHECK_ACCOUNTS)
              keys available r in
  res_fold (minimize_step d membership accounts r) s s.

End Selection.

(** ** The database API and the wallet *)

Section Api.
Context `{Codec, Crypto}.

Definition trx_verify_authority (g : auth_getters) (d : nat) (membership accounts : Z) (trx : signed_transaction)
    : res unit :=
  let? keys := signature_keys trx in
  let? r := operations_required (trx_operations trx) in
  verify_keys g d membership accounts r keys.

(** The value [true] goes to the parameter [max_membership]. *)
Definition api_verify_authority (trx : signed_transaction) (s : database) : res unit :=
  trx_verify_authority (chain_getters s) ZATTERA_MAX_SIG_CHECK_DEPTH 1 (Z.of_nat ZATTERA_MAX_SIG_CHECK_ACCOUNTS) trx.

Definition api_get_required_signatures (available : list public_key_type) (trx : signed_transaction) (s : database)
    : res (list public_key_type) :=
  let? r := operations_required (trx_operations trx) in
  let? keys := signature_keys trx in
  get_required_signatures (chain_getters s) ZATTERA_MAX_SIG_CHECK_DEPTH ZATTERA_MAX_AUTHORITY_MEMBERSHIP
    (Z.of_nat ZATTERA_MAX_SIG_CHECK_ACCOUNTS) keys available r.

(** The getters are passed in the order owner, active, posting, where
    [verify_authority] takes active, owner, posting. *)
Definition verify_signatures (hash : string) (signatures : list string) (r : required) (s : database) : res bool :=
  let? sig_keys := res_fold (add_signature hash) [] signatures in
  let g := mk_getters (account_authority s auth_owner) (account_authority s auth_active)
             (account_authority s auth_posting) in
  let r := mk_required (flat_set (req_active r)) (flat_set (req_owner r)) (flat_set (req_posting r)) (req_other r) in
  Ok match verify_keys g ZATTERA_MAX_SIG_CHECK_DEPTH ZATTERA_MAX_AUTHORITY_MEMBERSHIP
             (Z.of_nat ZATTERA_MAX_SIG_CHECK_ACCOUNTS) r sig_keys with
     | Ok _ => true
     | Throw _ => false
     end.

(** The loop of the wallet over the keys it chose; [private_keys] are the keys it
    holds. *)
Definition sign_with (private_keys : public_key_type → option string) (keys : list public_key_type)
    (trx : signed_transaction) : res signed_transaction :=
  res_fold (fun trx k =>
    let? key := of_option (private_keys k) (assert_exception "it != available_private_keys.end()") in
    Ok (sign key trx)) trx keys.
End Api.

(** ** Two runs of the weight check *)

Definition used (st : sign_state) (k : public_key_type) : Prop := provided_signatures st !! k = Some true.

(** The check only ever marks more keys, and only those that signed or could
    sign. *)
Definition extends (av : gset public_key_type) (st st' : sign_state) : Prop :=
  (∀ k, used st k → used st' k) ∧
  (∀ k, is_Some (provided_signatures st' !! k) → is_Some (provided_signatures st !! k) ∨ k ∈ av).
Definition grows {A} (av : gset public_key_type) (m : M sign_state A) : Prop :=
  ∀ st a st', m st = Ok (a, st') → extends av st st'.

#[export] Instance extends_preorder av : PreOrder (extends av).
Proof.
  split; [split; auto|]. intros s1 s2 s3 [U1 K1] [U2 K2]. split; [auto|].
  intros k Hk. destruct (K2 k Hk); auto.
Qed.
Lemma extends_same av st st' : provided_signatures st' = provided_signatures st → extends av st st'.
Proof. intros E. unfold extends, used. rewrite E. auto. Qed.
Lemma extends_insert av st k : is_Some (provided_signatures st !! k) ∨ k ∈ av →
  extends av st (st <| provided_signatures ::= <[k := true]> |>).
Proof.
  intros Hk. split; intros k'; unfold used; cbn; destruct (decide (k = k')) as [<-|]; simplify_map_eq; auto.
Qed.

Lemma grows_ret {A} av (a : A) : grows av (ret a).
Proof. by intros st b st' [= <- <-]. Qed.
Lemma grows_bind {A B} av (m : M sign_state A) (f : A → M sign_state B) :
  grows av m → (∀ a, grows av (f a)) → grows av (bind m f).
Proof. intros Hm Hf st b st' Hrun. apply bind_ok in Hrun as (a & st1 & H1 & H2). etrans; [by eapply Hm|by eapply Hf]. Qed.
Lemma grows_lift {A} av (r : res A) : grows av (lift r).
Proof. intros st a st' Hrun. by inv_ok. Qed.
Lemma grows_modify av f : (∀ st, provided_signatures (f st) = provided_signatures st) → grows av (modify f).
Proof. intros Hf st a st' [= <- <-]. by apply extends_same. Qed.
Create HintDb grows.
#[export] Hint Resolve grows_ret grows_bind grows_lift grows_modify : grows.

Lemma signed_by_grows e k : grows (available_keys e) (signed_by e k).
Proof.
  unfold signed_by. intros st a st' Hrun. inv_ok.
  destruct (provided_signatures st !! k) eqn:E; [|case_decide]; inv_ok; try done; apply extends_insert; eauto.
Qed.
Lemma check_keys_grows e threshold l : ∀ total m, grows (available_keys e) (check_keys e threshold l total m).
Proof.
  induction l as [|[k w] l IH]; intros total m; cbn [check_keys]; [apply grows_ret|].
  apply grows_bind; [apply signed_by_grows|]. intros s. repeat case_match; auto with grows.
Qed.
Lemma check_accounts_grows e rec threshold l : (∀ check au, rec = Some check → grows (available_keys e) (check au)) →
  ∀ total m, grows (available_keys e) (check_accounts e rec threshold l total m).
Proof.
  intros Hrec. induction l as [|[a w] l IH]; intros total m; cbn [check_accounts]; [apply grows_ret|].
  intros st b st' Hrun. apply bind_ok in Hrun as (st0 & st1 & [= <- <-] & Hrun). case_decide.
  { repeat case_match; try (by inv_ok); by eapply IH. }
  destruct rec as [check|]; [|by eapply IH]. destruct (_ && _); [by inv_ok|].
  apply bind_ok in Hrun as ([] & st1 & [= <-] & Hrun). etrans; [by apply extends_same|].
  refine (grows_bind _ _ _ (grows_lift _ _) _ _ _ _ Hrun).
  intros au. apply grows_bind; [by apply Hrec|]. intros ok. destruct ok; [apply grows_bind; [by apply grows_modify|]; intros _|];
    repeat case_match; auto with grows.
Qed.
Lemma check_authority_impl_grows e d auth : grows (available_keys e) (check_authority_impl e d auth).
Proof.
  revert auth. induction d as [|d IH]; intros auth; cbn [check_authority_impl].
  all: apply grows_bind; [apply check_keys_grows|]; intros [b|t m]; [apply grows_ret|].
  all: apply grows_bind; [apply check_accounts_grows|intros [b|? ?]; apply grows_ret].
  - done.
  - intros check au [= <-]. apply IH.
Qed.
Lemma check_authority_grows e d auth : grows (available_keys e) (check_authority e d auth).
Proof. apply grows_bind; [by apply grows_modify|]. intros _. apply check_authority_impl_grows. Qed.
Lemma check_authority_id_grows e d id : grows (available_keys e) (check_authority_id e d id).
Proof.
  intros st b st' Hrun. unfold check_authority_id in Hrun. inv_ok. case_decide; inv_ok; [done|].
  etrans; [|by eapply check_authority_impl_grows]. by apply extends_same.
Qed.
Lemma m_get_check_grows e d get id : grows (available_keys e) (m_get_check e d get id).
Proof. apply grows_bind; [apply grows_lift|]. intros au. apply check_authority_grows. Qed.

Section Simulation.
(** Two environments that differ only in the keys: in the first run the keys of
    [K1] count as signed, in the second those of [K2]. *)
Context (get_auth : string → res authority) (membership accounts : Z).
Context (av1 av2 : gset public_key_type) (K1 K2 : public_key_type → Prop) (K21 : ∀ k, K2 k → K1 k).
Let e1 := mk_sign_env get_auth av1 membership accounts.
Let e2 := mk_sign_env get_auth av2 membership accounts.

Record similar (st1 st2 : sign_state) : Prop := {
  similar_approved : approved_by st1 = approved_by st2;
  similar_count : account_auth_count st1 = account_auth_count st2;
  similar_used k : used st1 k ↔ used st2 k;
  similar_known1 k : is_Some (provided_signatures st1 !! k) ∨ k ∈ av1 ↔ K1 k;
  similar_known2 k : is_Some (provided_signatures st2 !! k) ∨ k ∈ av2 ↔ K2 k
}.

(** The second run does what the first does, if every key the first uses is in
    [K2]. *)
Definition follows {A} (m1 m2 : M sign_state A) : Prop := ∀ st1 st2 a st1',
  similar st1 st2 → m1 st1 = Ok (a, st1') → (∀ k, used st1' k → K2 k) →
  ∃ st2', m2 st2 = Ok (a, st2') ∧ similar st1' st2'.

Lemma follows_ret {A} (a : A) : follows (ret a) (ret a).
Proof. intros st1 st2 b st1' Hs [= <- <-] _. by exists st2. Qed.
Lemma follows_lift {A} (r : res A) : follows (lift r) (lift r).
Proof. intros st1 st2 b st1' Hs Hrun _. unfold lift in *. destruct r; inv_ok. by exists st2. Qed.
Lemma follows_bind {A B} (m1 m2 : M sign_state A) (k1 k2 : A → M sign_state B) :
  follows m1 m2 → (∀ a, grows av1 (k1 a)) → (∀ a, follows (k1 a) (k2 a)) → follows (bind m1 k1) (bind m2 k2).
Proof.
  intros Hm Hg Hk st1 st2 b st1' Hs Hrun Hu. apply bind_ok in Hrun as (a & st & H1 & H2).
  destruct (Hm _ st2 _ _ Hs H1) as (st2' & H1' & Hs').
  { intros k Hk'. apply Hu. destruct (Hg a _ _ _ H2). auto. }
  destruct (Hk a _ _ _ _ Hs' H2 Hu) as (st2'' & H2' & Hs''). exists st2''. split; [|done].
  apply bind_ok. eauto.
Qed.
(** Reading the state: the continuations may depend on it in a way that similar
    states cannot tell apart. *)
Lemma follows_get {A} (k1 k2 : sign_state → M sign_state A) :
  (∀ st1 st2, similar st1 st2 → ∀ a st1', k1 st1 st1 = Ok (a, st1') → (∀ k, used st1' k → K2 k) →
     ∃ st2', k2 st2 st2 = Ok (a, st2') ∧ similar st1' st2') →
  follows (let* st := get in k1 st) (let* st := get in k2 st).
Proof. intros Hk st1 st2 a st1' Hs Hrun Hu. exact (Hk _ _ Hs a st1' Hrun Hu). Qed.

Lemma similar_insert st1 st2 k : similar st1 st2 → K1 k → K2 k →
  similar (st1 <| provided_signatures ::= <[k := true]> |>) (st2 <| provided_signatures ::= <[k := true]> |>).
Proof.
  intros [E1 E2 E3 E4 E5] H1 H2. split; cbn; [done|done|..]; intros k'; unfold used in *; cbn;
    destruct (decide (k = k')) as [<-|]; rewrite ?lookup_insert_eq, ?lookup_insert_ne by done; [done|apply E3| |apply E4| |apply E5].
  - by split; [|left].
  - by split; [|left].
Qed.
Lemma similar_update f st1 st2 : similar st1 st2 →
  (∀ st, provided_signatures (f st) = provided_signatures st) →
  approved_by (f st1) = approved_by (f st2) → account_auth_count (f st1) = account_auth_count (f st2) →
  similar (f st1) (f st2).
Proof.
  intros [E1 E2 E3 E4 E5] Hf Ha Hc. split; [done|done|..]; intros k; unfold used; rewrite !Hf; [apply E3|apply E4|apply E5].
Qed.

Lemma signed_by_follows k : follows (signed_by e1 k) (signed_by e2 k).
Proof.
  apply follows_get. intros st1 st2 Hs b st1' Hrun Hu.
  destruct (decide (is_Some (provided_signatures st1 !! k) ∨ k ∈ av1)) as [H1|H1].
  - assert (b = true ∧ st1' = st1 <| provided_signatures ::= <[k := true]> |>) as [-> ->].
    { destruct (provided_signatures st1 !! k) eqn:E; [by inv_ok|]. cbn in Hrun. rewrite decide_True in Hrun; [by inv_ok|].
      destruct H1 as [[? ?]|]; [congruence|done]. }
    assert (K2 k) as HK by (apply Hu; unfold used; cbn; by simplify_map_eq).
    exists (st2 <| provided_signatures ::= <[k := true]> |>). split; [|apply similar_insert; [done|by apply (similar_known1 _ _ Hs)|done]].
    destruct (provided_signatures st2 !! k) eqn:E; [done|]. cbn. rewrite decide_True; [done|].
    apply (similar_known2 _ _ Hs) in HK as [[? ?]|]; [congruence|done].
  - assert (¬ K2 k) as HK by (intros HK; by apply H1, (similar_known1 _ _ Hs), K21).
    destruct (provided_signatures st1 !! k) eqn:E; [destruct H1; eauto|]. cbn in Hrun.
    rewrite decide_False in Hrun by tauto. inv_ok. exists st2. split; [|done].
    destruct (provided_signatures st2 !! k) eqn:E2; [destruct HK; apply (similar_known2 _ _ Hs); eauto|]. cbn.
    rewrite decide_False; [done|]. intros Hav. apply HK, (similar_known2 _ _ Hs). by right.
Qed.
Lemma check_keys_follows threshold l : ∀ total m,
  follows (check_keys e1 threshold l total m) (check_keys e2 threshold l total m).
Proof.
  induction l as [|[k w] l IH]; intros total m; cbn [check_keys]; [apply follows_ret|].
  apply follows_bind; [apply signed_by_follows| |].
  - intros s. pose proof (check_keys_grows e1 threshold l). repeat case_match; auto with grows.
  - intros s. cbn. repeat case_match; auto using follows_ret.
Qed.
Lemma check_accounts_follows rec1 rec2 threshold l :
  match rec1, rec2 with
  | None, None => True
  | Some c1, Some c2 => ∀ au, grows av1 (c1 au) ∧ follows (c1 au) (c2 au)
  | _, _ => False
  end → ∀ total m,
  follows (check_accounts e1 rec1 threshold l total m) (check_accounts e2 rec2 threshold l total m).
Proof.
  intros Hrec. assert (∀ check au, rec1 = Some check → grows av1 (check au)) as Hgrow.
  { intros check au ->. destruct rec2; [apply Hrec|done]. }
  induction l as [|[a w] l IH]; intros total m; cbn [check_accounts]; [apply follows_ret|].
  pose proof (check_accounts_grows e1 rec1 threshold l Hgrow) as Hl.
  assert (∀ total, follows
    (if (0 <? max_membership e1) && (max_membership e1 <=? m + 1) then ret (Returned false)
     else check_accounts e1 rec1 threshold l total (m + 1))
    (if (0 <? max_membership e2) && (max_membership e2 <=? m + 1) then ret (Returned false)
     else check_accounts e2 rec2 threshold l total (m + 1))) as Hnext.
  { intros t. cbn. destruct (_ && _); auto using follows_ret. }
  apply follows_get. intros st1 st2 Hs b st1' Hrun Hu. rewrite <-(similar_approved _ _ Hs).
  case_decide.
  { destruct (threshold <=? _); [by eapply follows_ret|by eapply Hnext]. }
  destruct rec1 as [c1|], rec2 as [c2|]; [|done|done|by eapply IH].
  rewrite <-(similar_count _ _ Hs). change (max_account_auths e2) with (max_account_auths e1).
  destruct ((0 <? max_account_auths e1) && _); [by eapply follows_ret|].
  apply bind_ok in Hrun as ([] & st & [= <-] & Hrun).
  refine (follows_bind _ _ _ _ (follows_lift _) _ _ _ _ _ _ _ Hrun Hu).
  - intros au. apply grows_bind; [by apply Hrec|]. intros []; [apply grows_bind; [by apply grows_modify|]; intros _|];
      repeat case_match; auto with grows.
  - intros au. destruct (Hrec au) as [Hg Hf]. apply follows_bind; [exact Hf| |].
    + intros []; [apply grows_bind; [by apply grows_modify|]; intros _|]; repeat case_match; auto with grows.
    + intros []; [|apply Hnext]. apply follows_bind.
      * intros s1 s2 u s1' Hs' [= <- <-] _. eexists. split; [reflexivity|]. apply similar_update; [done|done| |apply Hs'].
        cbn. by rewrite (similar_approved _ _ Hs').
      * intros _. repeat case_match; auto with grows.
      * intros _. destruct (threshold <=? _); [apply follows_ret|apply Hnext].
  - apply (similar_update (fun st => st <| account_auth_count ::= Z.succ |>)); [done|done|apply Hs|cbn; by rewrite (similar_count _ _ Hs)].
Qed.
Lemma check_authority_impl_follows d auth : follows (check_authority_impl e1 d auth) (check_authority_impl e2 d auth).
Proof.
  revert auth. induction d as [|d IH]; intros auth; cbn [check_authority_impl].
  all: apply follows_bind; [apply check_keys_follows| |].
  all: intros [b|t m]; [by auto using grows_ret, follows_ret|].
  1,3: apply grows_bind; [apply check_accounts_grows|intros [b|? ?]; apply grows_ret];
    intros check au [= <-]; apply check_authority_impl_grows.
  all: apply follows_bind; [apply check_accounts_follows|intros [b|? ?]; apply grows_ret|intros [b|? ?]; apply follows_ret].
  - done.
  - intros au. split; [apply check_authority_impl_grows|apply IH].
Qed.
Lemma check_authority_follows d auth : follows (check_authority e1 d auth) (check_authority e2 d auth).
Proof.
  apply follows_bind; [|intros _; apply check_authority_impl_grows|intros _; apply check_authority_impl_follows].
  intros st1 st2 u st1' Hs [= <- <-] _. eexists. split; [reflexivity|].
  by apply (similar_update (fun st => st <| account_auth_count := 0 |>)); [| |apply Hs|].
Qed.
Lemma check_authority_id_follows d id : follows (check_authority_id e1 d id) (check_authority_id e2 d id).
Proof.
  apply follows_get. intros st1 st2 Hs b st1' Hrun Hu. rewrite <-(similar_approved _ _ Hs).
  case_decide; [by eapply follows_ret|]. apply bind_ok in Hrun as ([] & st & [= <-] & Hrun). cbn [bind put].
  refine (follows_bind _ _ _ _ (follows_lift _) _ _ _ _ _ _ _ Hrun Hu).
  - intros au. apply check_authority_impl_grows.
  - intros au. apply check_authority_impl_follows.
  - by apply (similar_update (fun st => st <| account_auth_count := 1 |>)); [| |apply Hs|].
Qed.
Lemma m_get_check_follows d get_other id : follows (m_get_check e1 d get_other id) (m_get_check e2 d get_other id).
Proof.
  apply follows_bind; [apply follows_lift|intros au; apply check_authority_grows|intros au; apply check_authority_follows].
Qed.
End Simulation.

(** A single check marks only keys of its environment. *)
Ltac grow := first [apply check_authority_id_grows | apply check_authority_grows | apply m_get_check_grows].

(** ** Loops over the required authorities *)

Section Loops.
Context (get_auth : string → res authority) (membership accounts : Z).
Context (av1 av2 : gset public_key_type) (K1 K2 : public_key_type → Prop).
Abbreviation sim := (similar av1 av2 K1 K2).
Abbreviation fol := (follows av1 av2 K1 K2).

Lemma for_each_grows {A} (l : list A) av f : (∀ x, grows av (f x)) → grows av (for_each l f).
Proof. intros Hf. induction l as [|x l IH]; cbn; auto with grows. Qed.
Lemma for_each_follows {A} (l : list A) f1 f2 : (∀ x, grows av1 (f1 x)) → (∀ x, fol (f1 x) (f2 x)) →
  fol (for_each l f1) (for_each l f2).
Proof.
  intros Hg Hf. induction l as [|x l IH]; cbn [for_each]; [apply follows_ret|].
  apply follows_bind; [apply Hf|intros _; by apply for_each_grows|intros _; exact IH].
Qed.

Lemma verify_required_grows av c msg : grows av c → grows av (verify_required c msg).
Proof. intros Hc. apply grows_bind; [done|]. intros b. apply grows_lift. Qed.

(** A check that must succeed is followed by one that is ignored, and by one with
    an alternative. *)
Lemma required_ignore c1 c2 msg : fol c1 c2 → fol (verify_required c1 msg) (m_ignore c2).
Proof.
  intros Hc st1 st2 [] st1' Hs Hrun Hu. unfold verify_required in Hrun. inv_ok.
  destruct (Hc _ _ _ _ Hs ltac:(eassumption) Hu) as (st2' & H2 & Hs'). exists st2'. split; [|done].
  unfold m_ignore. apply bind_ok. eauto.
Qed.
Lemma required_required c1 c2 msg : fol c1 c2 → fol (verify_required c1 msg) (verify_required c2 msg).
Proof. intros Hc. apply follows_bind; [done|intros b; apply grows_lift|intros b; apply follows_lift]. Qed.
Lemma required_or c1 c2 k2 msg : fol c1 c2 → fol (verify_required c1 msg) (verify_required (m_or c2 k2) msg).
Proof.
  intros Hc st1 st2 [] st1' Hs Hrun Hu. unfold verify_required in Hrun. inv_ok.
  destruct (Hc _ _ _ _ Hs ltac:(eassumption) Hu) as (st2' & H2 & Hs'). exists st2'. split; [|done].
  apply bind_ok. exists true, st2'. split; [|done]. apply bind_ok. eauto.
Qed.
End Loops.

(** ** The chosen keys *)

(** Every required authority is carried by the signatures at its own level: an
    active authority by active keys, not by the owner's. *)
Definition carried (g : auth_getters) (d : nat) (membership accounts : Z) (r : required) : M sign_state unit :=
  if negb (Nat.eqb (length (req_posting r)) 0) then
    let e := mk_sign_env (g_posting g) ∅ membership accounts in
    fc_assert (Nat.eqb (length (req_active r)) 0) "required_active.size() == 0" ;;
    fc_assert (Nat.eqb (length (req_owner r)) 0) "required_owner.size() == 0" ;;
    fc_assert (Nat.eqb (length (req_other r)) 0) "other.size() == 0" ;;
    for_each (req_posting r) (fun id => verify_required (check_authority_id e d id) "Missing Posting Authority")
  else
    let e := mk_sign_env (g_active g) ∅ membership accounts in
    for_each (req_other r) (fun a => verify_required (check_authority e d a) "Missing Authority") ;;
    for_each (req_owner r) (fun id => verify_required (m_get_check e d (g_owner g) id) "Missing Owner Authority") ;;
    for_each (req_active r) (fun id => verify_required (check_authority_id e d id) "Missing Active Authority").

(** What [verify_authority] checks before it looks for unused signatures. *)
Definition verify_checks (g : auth_getters) (d : nat) (membership accounts : Z) (r : required) : M sign_state unit :=
  if negb (Nat.eqb (length (req_posting r)) 0) then
    let e := mk_sign_env (g_posting g) ∅ membership accounts in
    fc_assert (Nat.eqb (length (req_active r)) 0) "required_active.size() == 0" ;;
    fc_assert (Nat.eqb (length (req_owner r)) 0) "required_owner.size() == 0" ;;
    fc_assert (Nat.eqb (length (req_other r)) 0) "other.size() == 0" ;;
    for_each (req_posting r) (fun id =>
      verify_required (m_or (check_authority_id e d id)
        (m_or (m_get_check e d (g_active g) id) (m_get_check e d (g_owner g) id))) "Missing Posting Authority")
  else
    let e := mk_sign_env (g_active g) ∅ membership accounts in
    for_each (req_other r) (fun a => verify_required (check_authority e d a) "Missing Authority") ;;
    for_each (req_active r) (fun id =>
      verify_required (m_or (check_authority_id e d id) (m_get_check e d (g_owner g) id)) "Missing Active Authority") ;;
    for_each (req_owner r) (fun id => verify_required (m_get_check e d (g_owner g) id) "Missing Owner Authority").

Lemma verify_keys_checks g d membership accounts r keys : verify_keys g d membership accounts r keys =
  let? _ := (verify_checks g d membership accounts r ;;
             let* unused := remove_unused_signatures in
             fc_assert (negb unused) "Unnecessary signature(s) detected") (init_sign_state keys []) in Ok tt.
Proof.
  unfold verify_keys, verify_authority, verify_authority_run, verify_checks. f_equal. destruct (negb _).
  - destruct (Nat.eqb (length (req_active r)) 0), (Nat.eqb (length (req_owner r)) 0), (Nat.eqb (length (req_other r)) 0); reflexivity.
  - unfold bind, put. cbn beta iota. repeat case_match; by simplify_eq.
Qed.

Lemma init_provided keys k : provided_signatures (init_sign_state keys []) !! k =
  if decide (k ∈ keys) then Some false else None.
Proof.
  cbn. case_decide as Hk.
  - induction keys as [|k' l IH]; [by apply elem_of_nil in Hk|]. cbn. destruct (decide (k = k')) as [->|Hne]; simplify_map_eq; [done|].
    apply IH. set_solver.
  - apply not_elem_of_list_to_map_1. rewrite <-list_fmap_compose. intros Hin. apply Hk.
    by apply list_elem_of_fmap in Hin as (? & -> & ?).
Qed.
Lemma init_not_used keys k : ¬ used (init_sign_state keys []) k.
Proof. unfold used. rewrite init_provided. by case_decide. Qed.
Lemma init_known keys k : is_Some (provided_signatures (init_sign_state keys []) !! k) ↔ k ∈ keys.
Proof. rewrite init_provided. case_decide; split; [done|by eexists|by intros [? ?]|done]. Qed.

Lemma init_similar keys1 keys2 (av1 av2 : gset public_key_type) (K1 K2 : public_key_type → Prop) :
  (∀ k, k ∈ keys1 ∨ k ∈ av1 ↔ K1 k) → (∀ k, k ∈ keys2 ∨ k ∈ av2 ↔ K2 k) →
  similar av1 av2 K1 K2 (init_sign_state keys1 []) (init_sign_state keys2 []).
Proof.
  intros H1 H2. split; [done|done|..]; intros k; rewrite ?init_known; [|done|done].
  split; intros Hu; by apply init_not_used in Hu.
Qed.

Lemma no_unused st msg : (∀ k, is_Some (provided_signatures st !! k) → used st k) →
  ∃ st', (let* unused := remove_unused_signatures in fc_assert (negb unused) msg) st = Ok (tt, st').
Proof.
  intros Hu. eexists. apply bind_ok. unfold remove_unused_signatures. do 2 eexists. split; [reflexivity|]. cbn beta.
  replace (filter _ (map_to_list _)) with (@nil (public_key_type * bool)); [reflexivity|].
  symmetry. apply elem_of_nil_inv. intros [k b]. rewrite list_elem_of_filter, elem_of_map_to_list. cbn. intros [-> Hk].
  specialize (Hu k (ex_intro _ _ Hk)). unfold used in Hu. congruence.
Qed.

Section Chosen.
Context (g : auth_getters) (d : nat) (membership accounts : Z) (r : required).

Lemma carried_grows : grows ∅ (carried g d membership accounts r).
Proof.
  unfold carried. destruct (negb _); repeat (apply grows_bind; [|intros _]); try apply grows_lift;
    apply for_each_grows; intros x; apply verify_required_grows;
    grow.
Qed.

Section Follow.
Context (av2 : gset public_key_type) (K1 K2 : public_key_type → Prop) (K21 : ∀ k, K2 k → K1 k).
Abbreviation fol := (follows ∅ av2 K1 K2).

Lemma follows_bind' {A B} (m1 m2 : M sign_state A) (k1 k2 : A → M sign_state B) :
  fol m1 m2 → (∀ a, grows ∅ (k1 a) ∧ fol (k1 a) (k2 a)) → fol (bind m1 k1) (bind m2 k2).
Proof. intros Hm Hk. apply follows_bind; [done|apply Hk|apply Hk]. Qed.
Lemma follows_throw {A} (e : exn) (m : M sign_state A) : fol (throw e) m.
Proof. by intros st1 st2 a st1' _ Hrun. Qed.
Lemma for_each_both {A} (l : list A) c1 f2 msg : (∀ x, grows ∅ (c1 x)) →
  (∀ x, fol (verify_required (c1 x) msg) (f2 x)) →
  grows ∅ (for_each l (fun x => verify_required (c1 x) msg)) ∧ fol (for_each l (fun x => verify_required (c1 x) msg)) (for_each l f2).
Proof.
  intros Hg Hf. assert (∀ x, grows ∅ (verify_required (c1 x) msg)) by auto using verify_required_grows.
  split; [by apply for_each_grows|by apply for_each_follows].
Qed.

(** The search for keys follows the check of all of them. *)
Lemma checks_follow : fol (carried g d membership accounts r) (required_checks g d membership accounts av2 r).
Proof.
  unfold carried, required_checks. destruct (negb _).
  - destruct (Nat.eqb (length (req_active r)) 0), (Nat.eqb (length (req_owner r)) 0), (Nat.eqb (length (req_other r)) 0);
      try apply follows_throw. cbn.
    apply (for_each_both _ (check_authority_id _ d)); intros id; [apply check_authority_id_grows|].
    by apply required_ignore, check_authority_id_follows.
  - apply follows_bind'; [apply for_each_both|intros _; split].
    + intros a. apply check_authority_grows.
    + intros a. by apply required_ignore, check_authority_follows.
    + apply grows_bind; [|intros _]; apply for_each_grows; intros x; apply verify_required_grows;
        grow.
    + apply follows_bind'; [apply for_each_both|intros _; apply for_each_both].
      * intros id. apply m_get_check_grows.
      * intros id. by apply required_ignore, m_get_check_follows.
      * intros id. apply check_authority_id_grows.
      * intros id. by apply required_ignore, check_authority_id_follows.
Qed.

End Follow.

(** So does [verify_authority], if the transaction does not need both active and
    owner authority: the search asks for the owners first. *)
Lemma verify_follow (K1 K2 : public_key_type → Prop) : (∀ k, K2 k → K1 k) → req_active r = [] ∨ req_owner r = [] →
  follows ∅ ∅ K1 K2 (carried g d membership accounts r) (verify_checks g d membership accounts r).
Proof.
  intros K21 Hone. unfold carried, verify_checks. destruct (negb _).
  - destruct (Nat.eqb (length (req_active r)) 0), (Nat.eqb (length (req_owner r)) 0), (Nat.eqb (length (req_other r)) 0);
      try apply follows_throw. cbn.
    apply (for_each_both ∅ K1 K2 _ (check_authority_id _ d)); intros id; [apply check_authority_id_grows|].
    by apply required_or, check_authority_id_follows.
  - apply follows_bind'; [apply (for_each_both ∅ K1 K2 _ (check_authority _ d))|intros _; split].
    + intros a. apply check_authority_grows.
    + intros a. by apply required_required, check_authority_follows.
    + apply grows_bind; [|intros _]; apply for_each_grows; intros x; apply verify_required_grows;
        grow.
    + assert (∀ l, follows ∅ ∅ K1 K2 (for_each l (fun id => verify_required (check_authority_id (mk_sign_env (g_active g) ∅ membership accounts) d id) "Missing Active Authority"))
        (for_each l (fun id => verify_required (m_or (check_authority_id (mk_sign_env (g_active g) ∅ membership accounts) d id)
           (m_get_check (mk_sign_env (g_active g) ∅ membership accounts) d (g_owner g) id)) "Missing Active Authority"))) as Hactive.
      { intros l. apply (for_each_both ∅ K1 K2 _ (check_authority_id _ d)); intros id; [apply check_authority_id_grows|].
        by apply required_or, check_authority_id_follows. }
      assert (∀ l, follows ∅ ∅ K1 K2 (for_each l (fun id => verify_required (m_get_check (mk_sign_env (g_active g) ∅ membership accounts) d (g_owner g) id) "Missing Owner Authority"))
        (for_each l (fun id => verify_required (m_get_check (mk_sign_env (g_active g) ∅ membership accounts) d (g_owner g) id) "Missing Owner Authority"))) as Howner.
      { intros l. apply (for_each_both ∅ K1 K2 _ (m_get_check _ d _)); intros id; [apply m_get_check_grows|].
        by apply required_required, m_get_check_follows. }
      destruct Hone as [-> | ->].
      * intros st1 st2 [] st1' Hs Hrun Hu. apply bind_ok in Hrun as ([] & sa & Ha & [= <-]).
        destruct (Howner _ _ _ _ _ Hs Ha Hu) as (st2' & H2 & Hs'). by exists st2'.
      * intros st1 st2 [] st1' Hs Hrun Hu. destruct (Hactive _ _ _ _ _ Hs Hrun Hu) as (st2' & H2 & Hs').
        exists st2'. split; [|done]. apply bind_ok. eauto.
Qed.

(** The keys that are chosen are those the checks use; with them the transaction
    verifies. *)
Lemma chosen_keys available st : req_active r = [] ∨ req_owner r = [] →
  carried g d membership accounts r (init_sign_state available []) = Ok (tt, st) →
  ∃ keys, get_required_signatures g d membership accounts [] available r = Ok keys ∧
    (∀ k, k ∈ keys → k ∈ available) ∧ NoDup keys ∧ verify_keys g d membership accounts r keys = Ok tt.
Proof.
  intros Hone Hrun. set (A k := k ∈ available).
  assert (∀ k, used st k → A k) as Hused.
  { intros k Hk. destruct (carried_grows _ _ _ Hrun) as [_ Hknown].
    destruct (Hknown k) as [Hin|Hin]; [eexists; exact Hk|by apply init_known|set_solver]. }
  destruct (checks_follow (list_to_set available) A A (fun _ H => H) (init_sign_state available []) (init_sign_state [] []) _ _
    ltac:(apply init_similar; unfold A; set_solver) Hrun Hused) as (st2 & H2 & Hs2).
  unfold get_required_signatures. rewrite (proj2 (bind_ok _ _ _ _ _) (ex_intro _ tt (ex_intro _ st2 (conj H2 eq_refl)))).
  cbn [res_bind]. eexists. split; [reflexivity|]. set (keys := flat_set _).
  assert (∀ k, k ∈ keys ↔ used st k) as Hkeys.
  { intros k. unfold keys. rewrite elem_of_flat_set, list_elem_of_filter, elem_of_elements, elem_of_dom. cbn.
    rewrite (similar_used _ _ _ _ _ _ Hs2 k). unfold used, is_Some. setoid_rewrite map_lookup_filter_Some. cbn. split.
    - intros [_ (b & Hb & ->)]. done.
    - intros Hk. split; [|by exists true]. apply Hused, (similar_used _ _ _ _ _ _ Hs2), Hk. }
  split; [intros k Hk; by apply Hused, Hkeys|]. split; [apply flat_set_NoDup|].
  assert (∀ k, k ∈ keys → A k) as HA by (intros k Hk; by apply Hused, Hkeys).
  destruct (verify_follow A (fun k => k ∈ keys) HA Hone (init_sign_state available []) (init_sign_state keys []) _ _
    ltac:(apply init_similar; unfold A; set_solver) Hrun (fun k => proj2 (Hkeys k))) as (st3 & H3 & Hs3).
  rewrite verify_keys_checks. destruct (no_unused st3 "Unnecessary signature(s) detected") as (st4 & H4).
  { intros k Hk. apply (similar_used _ _ _ _ _ _ Hs3), Hkeys, (similar_known2 _ _ _ _ _ _ Hs3). by left. }
  by rewrite (proj2 (bind_ok _ _ _ _ _) (ex_intro _ tt (ex_intro _ st3 (conj H3 H4)))).
Qed.

(** ** Leaving keys out *)

Lemma init_sign_state_same l l' : (∀ k, k ∈ l ↔ k ∈ l') → init_sign_state l [] = init_sign_state l' [].
Proof.
  intros Hl. unfold init_sign_state. f_equal. apply map_eq. intros k.
  pose proof (init_provided l k) as E. pose proof (init_provided l' k) as E'. cbn in E, E'. rewrite E, E'.
  repeat case_decide; naive_solver.
Qed.
Lemma verify_keys_same l l' : (∀ k, k ∈ l ↔ k ∈ l') →
  verify_keys g d membership accounts r l = verify_keys g d membership accounts r l'.
Proof. intros Hl. by rewrite !verify_keys_checks, (init_sign_state_same l l' Hl). Qed.

(** [k] was needed: without it, one of the authorities was missing. *)
Definition needed (result : list public_key_type) (k : public_key_type) : Prop :=
  ∃ others e, (∀ k', k' ∈ result → k' = k ∨ k' ∈ others) ∧ k ∉ others ∧
    verify_keys g d membership accounts r others = Throw e ∧ missing_auth e = true.

Lemma minimize_loop l : ∀ result result', NoDup l → (∀ k, k ∈ l → k ∈ result) →
  verify_keys g d membership accounts r result = Ok tt →
  res_fold (minimize_step g d membership accounts r) result l = Ok result' →
  verify_keys g d membership accounts r result' = Ok tt ∧ (∀ k, k ∈ result' → k ∈ result) ∧
  (∀ k, k ∈ result' → k ∈ l → needed result' k).
Proof.
  induction l as [|k l IH]; intros result result' Hnd Hl Hv Hrun; cbn in Hrun.
  { inv_ok. split; [done|]. split; [done|]. set_solver. }
  inversion Hnd as [|? ? Hk Hnd']; subst. clear Hnd. rename Hnd' into Hnd. destruct (minimize_step _ _ _ _ _ _ _) as [next|] eqn:Estep; [|done]. cbn in Hrun.
  unfold minimize_step in Estep. set (erased := filter (fun k' => k' ≠ k) result) in *.
  assert (∀ k', k' ∈ erased ↔ k' ≠ k ∧ k' ∈ result) as He by (intros k'; unfold erased; by rewrite list_elem_of_filter).
  destruct (verify_keys g d membership accounts r erased) as [[]|e] eqn:Ev.
  - injection Estep as <-. destruct (IH erased result') as (Hv' & Hsub & Hneed); [done| |done|done|].
    { intros k' Hk'. apply He. split; [by intros ->|]. apply Hl. by right. }
    split; [done|]. split; [intros k' Hk'; by apply He, Hsub|]. intros k' Hk' Hin. apply Hneed; [done|].
    apply elem_of_cons in Hin as [->|]; [|done]. apply Hsub, He in Hk'. tauto.
  - destruct (missing_auth e) eqn:Em; [|done]. injection Estep as <-.
    assert (∀ k', k' ∈ flat_set (k :: erased) ↔ k' ∈ result) as Hsame.
    { intros k'. rewrite elem_of_flat_set, elem_of_cons, He. destruct (decide (k' = k)) as [->|]; [|tauto].
      split; [intros _; apply Hl; by left|by left]. }
    destruct (IH (flat_set (k :: erased)) result' Hnd) as (Hv' & Hsub & Hneed); [| |exact Hrun|].
    { intros k' Hk'. apply Hsame, Hl. by right. }
    { rewrite <-Hv. by apply verify_keys_same. }
    split; [done|]. split; [intros k' Hk'; by apply Hsame, Hsub|]. intros k' Hk' Hin.
    apply elem_of_cons in Hin as [->|]; [|by apply Hneed]. exists erased, e. split_and!; [|by rewrite He; intros []|done|done].
    intros k' Hk''. apply Hsub, elem_of_flat_set, elem_of_cons in Hk''. done.
Qed.
End Chosen.

Section Client.
Context `{Codec, Crypto}.

Lemma chain_authority trx s : transaction_authority trx s =
  trx_verify_authority (chain_getters s) ZATTERA_MAX_SIG_CHECK_DEPTH ZATTERA_MAX_AUTHORITY_MEMBERSHIP
    (Z.of_nat ZATTERA_MAX_SIG_CHECK_ACCOUNTS) trx.
Proof.
  unfold transaction_authority, trx_verify_authority, operations_required. destruct (signature_keys trx); [|done]. cbn.
  by destruct (res_fold _ _ _).
Qed.

(** A signature is checked by recovering its key. *)
Definition keys_recover : Prop := ∀ key digest, recover_key (sign_compact key digest) digest = Ok (get_public_key key).

Lemma sign_with_keys (private_keys : public_key_type → option string) keys : keys_recover →
  ∀ trx before, signature_keys trx = Ok before → NoDup (before ++ keys) →
  (∀ k, k ∈ keys → ∃ key, private_keys k = Some key ∧ get_public_key key = k) →
  ∃ trx', sign_with private_keys keys trx = Ok trx' ∧ signature_keys trx' = Ok (before ++ keys) ∧
    trx_operations trx' = trx_operations trx.
Proof.
  intros Hrec. induction keys as [|k keys IH]; intros trx before Hb Hnd Hkeys.
  { exists trx. by rewrite app_nil_r. }
  destruct (Hkeys k) as (key & Ek & Epub); [by left|].
  assert (signature_keys (sign key trx) = Ok (before ++ [k])) as Hsig.
  { unfold signature_keys in *. change (sig_digest (sign key trx)) with (sig_digest trx).
    change (trx_signatures (sign key trx)) with (trx_signatures trx ++ [sign_compact key (sig_digest trx)]).
    rewrite (res_fold_app _ _ _ _ _ Hb). cbn. unfold add_signature. rewrite Hrec, Epub. cbn.
    rewrite bool_decide_eq_false_2; [done|]. intros Hin.
    apply list.NoDup_app in Hnd as (_ & Hnd & _). apply (Hnd k Hin). by left. }
  destruct (IH (sign key trx) (before ++ [k])) as (trx' & Hrun & Hs & Ho); [done|by rewrite <-app_assoc|set_solver|].
  exists trx'. unfold sign_with. cbn. rewrite Ek. cbn. rewrite Hs, <-app_assoc. auto.
Qed.

(** C23: a client that asks which keys to sign with is told enough of them.  If the
    keys it has carry every authority an unsigned transaction requires, as the
    chain counts them, then [get_required_signatures] returns some of these keys,
    and the transaction signed with just them passes the check of the chain: no
    authority is missing and no signature is unnecessary.  The transaction may
    need active or owner authorities but not both. *)
Theorem chosen_signatures_accepted s trx r available private_keys st :
  keys_recover → trx_signatures trx = [] → operations_required (trx_operations trx) = Ok r →
  req_active r = [] ∨ req_owner r = [] →
  carried (chain_getters s) ZATTERA_MAX_SIG_CHECK_DEPTH ZATTERA_MAX_AUTHORITY_MEMBERSHIP
    (Z.of_nat ZATTERA_MAX_SIG_CHECK_ACCOUNTS) r (init_sign_state available []) = Ok (tt, st) →
  (∀ k, k ∈ available → ∃ key, private_keys k = Some key ∧ get_public_key key = k) →
  ∃ keys trx', api_get_required_signatures available trx s = Ok keys ∧ (∀ k, k ∈ keys → k ∈ available) ∧
    sign_with private_keys keys trx = Ok trx' ∧ transaction_authority trx' s = Ok tt.
Proof.
  intros Hrec Hsig Hr Hone Hcar Hpriv.
  destruct (chosen_keys _ _ _ _ _ _ _ Hone Hcar) as (keys & Hget & Hsub & Hnd & Hver).
  assert (signature_keys trx = Ok []) as Hbefore by (unfold signature_keys; by rewrite Hsig).
  destruct (sign_with_keys private_keys keys Hrec trx [] Hbefore Hnd) as (trx' & Hsign & Hkeys & Hops); [auto|].
  exists keys, trx'. split; [unfold api_get_required_signatures; rewrite Hr; cbn; by rewrite Hbefore|].
  split; [done|]. split; [done|].
  rewrite chain_authority. unfold trx_verify_authority. rewrite Hkeys. cbn. by rewrite Hops, Hr.
Qed.

(** Leaving keys out never loses an authority: what
    [minimize_required_signatures] returns is part of what
    [get_required_signatures] does, it still verifies if that did, and every key
    that is left was found to be needed. *)
Theorem minimize_keeps_authority g d membership accounts keys available r s result :
  get_required_signatures g d ZATTERA_MAX_AUTHORITY_MEMBERSHIP (Z.of_nat ZATTERA_MAX_SIG_CHECK_ACCOUNTS) keys available r = Ok s →
  verify_keys g d membership accounts r s = Ok tt →
  minimize_required_signatures g d membership accounts keys available r = Ok result →
  verify_keys g d membership accounts r result = Ok tt ∧ (∀ k, k ∈ result → k ∈ s ∧ k ∈ available) ∧
  (∀ k, k ∈ result → needed g d membership accounts r result k).
Proof.
  intros Hs Hv Hrun. unfold minimize_required_signatures in Hrun. rewrite Hs in Hrun. cbn in Hrun.
  assert (NoDup s ∧ ∀ k, k ∈ s → k ∈ available) as [Hnd Hav].
  { unfold get_required_signatures in Hs. inv_ok. destruct x as [b st']. inv_ok. split; [apply flat_set_NoDup|].
    intros k. rewrite elem_of_flat_set, list_elem_of_filter. tauto. }
  destruct (minimize_loop _ _ _ _ _ s s result Hnd (fun _ H => H) Hv Hrun) as (Hv' & Hsub & Hneed). split; [done|]. split; auto.
Qed.

(** ** The limit of one entry *)

(** The first key of the authority is not enough alone. *)
Definition needs_more_keys (au : authority) : Prop :=
  ∃ k w rest, key_auths au = (k, w) :: rest ∧ 0 ≤ w < weight_threshold au ∧ w < 2 ^ 16.

Lemma one_entry_fails get_auth av accounts d au st : needs_more_keys au →
  ∃ st', check_authority_impl (mk_sign_env get_auth av 1 accounts) d au st = Ok (false, st').
Proof.
  intros (k & w & rest & Ek & Hw & Hb).
  assert (∃ b st', signed_by (mk_sign_env get_auth av 1 accounts) k st = Ok (b, st')) as (b & st' & Hs).
  { unfold signed_by, bind, get. destruct (provided_signatures st !! k); [|case_decide]; do 2 eexists; reflexivity. }
  exists st'. destruct d; cbn [check_authority_impl]; rewrite Ek; cbn [check_keys];
    unfold bind; rewrite Hs; (destruct b; [|reflexivity]); cbn [andb];
    unfold wrap_u32; rewrite Z.mod_small by lia; by rewrite (proj2 (Z.leb_gt (weight_threshold au) (0 + w))) by lia.
Qed.

(** [verify_authority] of the database API refuses transactions the chain
    accepts.  It passes [true] where the limit of entries per authority is
    expected, so only the first key of an authority counts: when an account needs
    more than its first key, the API reports a missing authority whatever the
    transaction is signed with. *)
Theorem api_refuses_multisig s trx keys a au ow :
  signature_keys trx = Ok keys → operations_required (trx_operations trx) = Ok (mk_required [a] [] [] []) → a ≠ "temp" →
  account_authority s auth_active a = Ok au → account_authority s auth_owner a = Ok ow →
  needs_more_keys au → needs_more_keys ow →
  api_verify_authority trx s = Throw tx_missing_active_auth.
Proof.
  intros Hk Hr Ha Hau How Hnau Hnow. unfold api_verify_authority, trx_verify_authority. rewrite Hk, Hr. cbn [res_bind].
  rewrite verify_keys_checks. unfold verify_checks. cbn [req_posting req_other req_active req_owner length Nat.eqb negb for_each].
  set (st := init_sign_state keys []). set (e := mk_sign_env _ _ _ _).
  destruct (one_entry_fails (account_authority s auth_active) ∅ (Z.of_nat ZATTERA_MAX_SIG_CHECK_ACCOUNTS)
    ZATTERA_MAX_SIG_CHECK_DEPTH au (st <| account_auth_count := 1 |>) Hnau) as (st1 & H1).
  destruct (one_entry_fails (account_authority s auth_active) ∅ (Z.of_nat ZATTERA_MAX_SIG_CHECK_ACCOUNTS)
    ZATTERA_MAX_SIG_CHECK_DEPTH ow (st1 <| account_auth_count := 0 |>) Hnow) as (st2 & H2).
  assert (check_authority_id e ZATTERA_MAX_SIG_CHECK_DEPTH a st = Ok (false, st1)) as Hactive.
  { unfold check_authority_id, bind, get, put, lift. rewrite decide_False by (cbn; set_solver).
    change (get_active e a) with (account_authority s auth_active a). by rewrite Hau. }
  assert (m_get_check e ZATTERA_MAX_SIG_CHECK_DEPTH (g_owner (chain_getters s)) a st1 = Ok (false, st2)) as Howner.
  { unfold m_get_check, bind, lift. change (g_owner (chain_getters s) a) with (account_authority s auth_owner a).
    by rewrite How. }
  unfold verify_required, m_or, bind, ret. cbn beta iota. by rewrite Hactive, Howner.
Qed.

(** [verify_signatures] of the API mixes up the getters: one active key passes for
    the owner's authority. *)
Lemma verify_signatures_takes_active_key s hash sig a k :
  recover_key sig hash = Ok k → account_authority s auth_active a = Ok (mk_authority 1 [] [(k, 1)]) →
  verify_signatures hash [sig] (mk_required [] [a] [] []) s = Ok true.
Proof.
  intros Hk Ha. unfold verify_signatures. cbn [res_fold]. unfold add_signature. rewrite Hk. cbn [res_bind].
  change (res_assert (negb (bool_decide (k ∈ []))) "Duplicate Signature detected") with (Ok tt). cbn [res_bind app].
  change (mk_required (flat_set _) (flat_set _) (flat_set _) _) with (mk_required [] [a] [] []). rewrite verify_keys_checks.
  set (g := mk_getters _ _ _). set (e := mk_sign_env (g_active g) ∅ ZATTERA_MAX_AUTHORITY_MEMBERSHIP
    (Z.of_nat ZATTERA_MAX_SIG_CHECK_ACCOUNTS)).
  set (st := init_sign_state [k] []). set (st1 := st <| account_auth_count := 0 |> <| provided_signatures ::= <[k := true]> |>).
  assert (m_get_check e ZATTERA_MAX_SIG_CHECK_DEPTH (g_owner g) a st = Ok (true, st1)) as Hcheck.
  { unfold m_get_check, bind, lift. change (g_owner g a) with (account_authority s auth_active a). rewrite Ha.
    unfold check_authority, check_authority_impl, ZATTERA_MAX_SIG_CHECK_DEPTH, bind, modify. cbn [key_auths weight_threshold check_keys].
    unfold signed_by, bind, get, put, ret. cbn. by rewrite lookup_insert_eq. }
  destruct (no_unused st1 "Unnecessary signature(s) detected") as (st2 & Hunused).
  { intros k' Hk'. unfold used. cbn in *. destruct (decide (k = k')) as [<-|]; [by rewrite lookup_insert_eq|].
    rewrite !lookup_insert_ne, lookup_empty in Hk' by done. by destruct Hk'. }
  unfold verify_checks. cbn [req_posting req_other req_active req_owner length Nat.eqb negb for_each].
  unfold verify_required, bind, ret in *. cbn beta iota. fold e. rewrite Hcheck. cbn beta iota.
  change (fc_assert true _ st1) with (Ok (tt, st1)). cbn beta iota. by rewrite Hunused.
Qed.
End Client.

(** ** Examples *)

(** An account whose authorities need two of its keys. *)
Definition two_keys : authority := mk_authority 2 [] [("first", 1); ("second", 1)].
Definition multisig_state : database := run_state (
  let* r := find_by (fun a => bool_decide (auth_account a = "genesis")) in
  match r with
  | Some r => modify_row r (fun a => a <| auth_active := two_keys |> <| auth_owner := two_keys |>)
  | None => ret tt
  end) sample_genesis.

Lemma chosen_signatures_accepted_witness :
  let _ := sample_codec in let _ := sample_crypto in
  ∃ keys trx', api_get_required_signatures ["other"; "second"; "first"] (sample_transfer []) multisig_state = Ok keys ∧
    (∀ k, k ∈ keys → k ∈ ["other"; "second"; "first"]) ∧
    sign_with Some keys (sample_transfer []) = Ok trx' ∧ transaction_authority trx' multisig_state = Ok tt.
Proof.
  intros C K. eapply (chosen_signatures_accepted (H := C) (H0 := K)).
  - done.
  - done.
  - reflexivity.
  - by right.
  - vm_compute. reflexivity.
  - intros k _. by exists k.
Defined.

Lemma api_refuses_multisig_witness :
  let _ := sample_codec in let _ := sample_crypto in
  transaction_authority (sample_transfer ["first"; "second"]) multisig_state = Ok tt ∧
  api_verify_authority (sample_transfer ["first"; "second"]) multisig_state = Throw tx_missing_active_auth.
Proof.
  intros C K. split; [vm_compute; reflexivity|].
  apply (api_refuses_multisig (H := C) (H0 := K) _ _ ["first"; "second"] "genesis" two_keys two_keys);
    first [vm_compute; reflexivity | discriminate | by do 3 eexists].
Defined.

(** Three keys, of which the last one is enough: the first two are left out. *)
Definition sample_getters : auth_getters :=
  let g := fun _ => Ok (mk_authority 3 [] [("a", 1); ("b", 1); ("c", 3)]) in mk_getters g g g.
Lemma minimize_keeps_authority_witness :
  let r := mk_required ["alice"] [] [] [] in
  ∃ s result, get_required_signatures sample_getters 2 40 125 [] ["a"; "b"; "c"] r = Ok s ∧ s = ["a"; "b"; "c"] ∧
    minimize_required_signatures sample_getters 2 40 125 [] ["a"; "b"; "c"] r = Ok result ∧ result = ["c"] ∧
    verify_keys sample_getters 2 40 125 r result = Ok tt.
Proof.
  intros r. exists ["a"; "b"; "c"], ["c"].
  destruct (minimize_keeps_authority sample_getters 2 40 125 [] ["a"; "b"; "c"] r ["a"; "b"; "c"] ["c"]) as (Hv & _ & _);
    [vm_compute; reflexivity..|]. split_and!; first [exact Hv | vm_compute; reflexivity].
Defined.

(** [get_required_signatures] returns the keys it met on the way, not a minimal set:
    the last of these three is enough. *)
Example not_the_minimal_subset :
  let r := mk_required ["alice"] [] [] [] in
  get_required_signatures sample_getters 2 40 125 [] ["a"; "b"; "c"] r = Ok ["a"; "b"; "c"] ∧
  verify_keys sample_getters 2 40 125 r ["c"] = Ok tt.
Proof. split; vm_compute; reflexivity. Qed.

(** An additional signature can take an authority away.  Accounts that were found
    to be approved are remembered, whatever the depth they were found at, and a
    check that succeeds early remembers less: [alice] may sign with her key or by
    [carol], and [bob] reaches [carol] only beyond the maximal depth. *)
Definition deep_getters : auth_getters :=
  let key k := mk_authority 1 [] [(k, 1)] in
  let via a := mk_authority 1 [(a, 1)] [] in
  let active name :=
    if String.eqb name "alice" then mk_authority 1 [("carol", 1)] [("alice key", 1)]
    else if String.eqb name "bob" then via "bob1"
    else if String.eqb name "bob1" then via "bob2"
    else if String.eqb name "bob2" then via "carol"
    else key "carol key" in
  mk_getters (fun name => Ok (active name)) (fun _ => Ok (key "owner key")) (fun _ => Ok (key "posting key")).
Lemma extra_signature_refused :
  let r := mk_required ["alice"; "bob"] [] [] [] in
  verify_keys deep_getters 2 40 125 r ["carol key"] = Ok tt ∧
  verify_keys deep_getters 2 40 125 r ["alice key"; "carol key"] = Throw tx_missing_active_auth.
Proof. split; vm_compute; reflexivity. Qed.
