(* ===== verification/History.v ===== *)
(** * Account histories

    The plugin that records, for every tracked account, the operations that concern
    it (src/src/plugins/account_history/account_history_plugin.cpp), the objects it
    keeps (src/src/core/chain/include/zattera/chain/history_object.hpp) and the
    calls that serve them
    (src/src/plugins/apis/account_history_api/account_history_api.cpp).  The
    operations are stored in their wire format.  [account_history_served] says what
    a client is told about an account: the operations that concern it, as they were
    applied, numbered without gaps, of which only old ones may be missing. *)
From S2P Require Import Prelude Ints Config Asset Authority Headers Operations State Blocks BlockLog Raw Wire Impacted.

(** ** Objects *)

Record operation_notification := mk_notification {
  note_trx_id : string;
  note_block : Z;
  note_trx_in_block : Z;
  note_op_in_trx : Z;
  note_virtual_op : Z;
  note_op : wire_operation
}.
Record operation_object := mk_operation_object {
  oo_trx_id : string;
  oo_block : Z;
  oo_trx_in_block : Z;
  oo_op_in_trx : Z;
  oo_virtual_op : Z;
  oo_timestamp : time;
  oo_serialized_op : list Z
}.
(** Operations are never removed, so an id is a position; entries are keyed by
    the unique index of account and sequence. *)
Record history := mk_history {
  operation_index : list operation_object;
  account_history_index : gmap (account_name_type * Z) Z
}.

(** The order of [by_account]: by name, and the latest entry of an account first. *)
Definition history_le (x y : account_name_type * Z) : Prop := x.1 ≠ y.1 ∧ String.le x.1 y.1 ∨ x.1 = y.1 ∧ y.2 ≤ x.2.
#[export] Instance history_le_dec x y : Decision (history_le x y).
Proof. unfold history_le. apply _. Defined.
(** What an iterator at [lower_bound( k )] visits, forwards and, from the
    position before it, backwards. *)
Definition history_from (k : account_name_type * Z) (m : gmap (account_name_type * Z) Z) : list (account_name_type * Z) :=
  merge_sort history_le (elements (filter (history_le k) (dom m))).
Definition history_before (k : account_name_type * Z) (m : gmap (account_name_type * Z) Z) : list (account_name_type * Z) :=
  reverse (merge_sort history_le (elements (filter (fun x => ¬ history_le k x) (dom m)))).

(** ** What is recorded *)

(** The settings of the plugin; the ranges are a [flat_map]. *)
Record account_history_plugin := mk_account_history_plugin {
  _tracked_accounts : list (account_name_type * account_name_type);
  _filter_content : bool;
  _blacklist : bool;
  _op_list : list string;
  _prune : bool
}.

(** The range that is looked at: that of [lower_bound( item )], or the one before
    it unless it starts at the item. *)
Definition range_of (l : list (account_name_type * account_name_type)) (item : account_name_type)
    : option (account_name_type * account_name_type) :=
  let before := filter (fun r => ¬ String.le item r.1) l in
  let from := filter (fun r => String.le item r.1) l in
  match list.last before, from with
  | Some r, [] => Some r
  | Some r, f :: _ => if bool_decide (f.1 = item) then Some f else Some r
  | None, f :: _ => Some f
  | None, [] => None
  end.
Definition is_tracked (p : account_history_plugin) (item : account_name_type) : bool :=
  bool_decide (_tracked_accounts p = []) ||
  match range_of (_tracked_accounts p) item with
  | Some (lower, upper) => bool_decide (String.le lower item) && bool_decide (String.le item upper)
  | None => false
  end.

Section History.
Context `{Abi}.

(** The names of the types of [operation], by tag. *)
Definition operation_names : list string :=
  ["vote_operation"; "comment_operation"; "transfer_operation"; "transfer_to_vesting_operation";
   "withdraw_vesting_operation"; "limit_order_create_operation"; "limit_order_cancel_operation";
   "feed_publish_operation"; "convert_operation"; "account_create_operation"; "account_update_operation";
   "witness_update_operation"; "account_witness_vote_operation"; "account_witness_proxy_operation";
   "custom_operation"; "report_over_production_operation"; "delete_comment_operation";
   "custom_json_operation"; "comment_options_operation"; "set_withdraw_vesting_route_operation";
   "limit_order_create2_operation"; "claim_account_operation"; "create_claimed_account_operation";
   "request_account_recovery_operation"; "recover_account_operation"; "change_recovery_account_operation";
   "escrow_transfer_operation"; "escrow_dispute_operation"; "escrow_release_operation";
   "escrow_approve_operation"; "transfer_to_savings_operation"; "transfer_from_savings_operation";
   "cancel_transfer_from_savings_operation"; "custom_binary_operation"; "decline_voting_rights_operation";
   "reset_account_operation"; "set_reset_account_operation"; "claim_reward_balance_operation";
   "delegate_vesting_shares_operation"; "account_create_with_delegation_operation";
   "witness_set_properties_operation"; "fill_convert_request_operation"; "author_reward_operation";
   "curation_reward_operation"; "comment_reward_operation"; "liquidity_reward_operation";
   "interest_operation"; "fill_vesting_withdraw_operation"; "fill_order_operation";
   "shutdown_witness_operation"; "fill_transfer_from_savings_operation"; "hardfork_operation";
   "comment_payout_update_operation"; "return_vesting_delegation_operation";
   "comment_benefactor_reward_operation"; "producer_reward_operation"].
Definition get_typename (op : wire_operation) : string :=
  match list_find (fun a => is_Some (alt_get a op)) operations with
  | Some (which, _) => String.append "zattera::protocol::" (default "" (operation_names !! which))
  | None => ""
  end.
(** [operation_visitor_filter]. *)
Definition is_selected (p : account_history_plugin) (op : wire_operation) : bool :=
  if _filter_content p then
    if bool_decide (get_typename op ∈ _op_list p) then negb (_blacklist p) else _blacklist p
  else true.

(** The visitor over the whole variant. *)
Definition get_impacted_accounts (op : wire_operation) : gset account_name_type :=
  match op with
  | user_operation op => operation_get_impacted_accounts op
  | chain_operation op => virtual_get_impacted_accounts op
  end.

(** ** The visitor *)

Definition days (n : Z) : Z := n * 24 * 60 * 60.

(** The loop over the oldest entries of [item].  Going back from the first entry of
    the index is an error here. *)
Fixpoint to_remove (ops : list operation_object) (m : gmap (account_name_type * Z) Z) (now : time)
    (item : account_name_type) (sequence : Z) (itr : list (account_name_type * Z)) : res (list (account_name_type * Z)) :=
  match itr with
  | [] => Throw (key_not_found "--begin()")
  | k :: itr' =>
      if bool_decide (k.1 = item) && (wrap_u32 (sequence - k.2) >? 30) then
        let? id := of_option (m !! k) (key_not_found "account_history_object") in
        let? op := of_option (ops !! Z.to_nat id) (key_not_found "operation_object") in
        if now - oo_timestamp op >? days 30
        then let? l := to_remove ops m now item sequence itr' in Ok (k :: l)
        else Ok []
      else Ok []
  end.

(** [operation_visitor]: an entry for [item].  The object of the operation is
    created with the first one. *)
Definition visit (prune : bool) (now : time) (note : operation_notification) (item : account_name_type)
    (st : option Z * history) : res (option Z * history) :=
  let '(new_obj, h) := st in
  let? (id, ops) :=
    match new_obj with
    | Some id => Ok (id, operation_index h)
    | None =>
        let? bytes := pack operation_codec (note_op note) in
        Ok (Z.of_nat (length (operation_index h)),
            operation_index h ++ [mk_operation_object (note_trx_id note) (note_block note) (note_trx_in_block note)
                                    (note_op_in_trx note) (note_virtual_op note) now bytes])
    end in
  let m := account_history_index h in
  let sequence :=
    match history_from (item, 2 ^ 32 - 1) m with
    | k :: _ => if bool_decide (k.1 = item) then wrap_u32 (k.2 + 1) else 1
    | [] => 1
    end in
  match m !! (item, sequence) with
  | Some _ => Throw (uniqueness_violated "account_history_object")
  | None =>
      let m := <[(item, sequence) := id]> m in
      let? removed :=
        (if prune then
           match history_before (item, 0) m with
           | [] => Ok []
           | itr => to_remove ops m now item sequence itr
           end
         else Ok []) in
      Ok (Some id, mk_history ops (foldl (fun m k => delete k m) m removed))
  end.

Definition on_pre_apply_operation (p : account_history_plugin) (now : time) (note : operation_notification)
    (h : history) : res history :=
  let? (_, h) := res_fold (fun st item =>
      if is_tracked p item && is_selected p (note_op note) then visit (_prune p) now note item st else Ok st)
    (None, h) (merge_sort String.le (elements (get_impacted_accounts (note_op note)))) in
  Ok h.

(** ** The calls *)

Record api_operation_object := mk_api_operation {
  api_trx_id : string;
  api_block : Z;
  api_trx_in_block : Z;
  api_op_in_trx : Z;
  api_virtual_op : Z;
  api_timestamp : time;
  api_op : wire_operation
}.
(** The constructor leaves out [op_in_trx]. *)
Definition to_api (o : operation_object) : res api_operation_object :=
  let? (op, _) := unpack operation_codec (oo_serialized_op o) in
  Ok (mk_api_operation (oo_trx_id o) (oo_block o) (oo_trx_in_block o) 0 (oo_virtual_op o) (oo_timestamp o) op).

Fixpoint history_loop (h : history) (account : account_name_type) (limit : nat) (itr : list (account_name_type * Z))
    : res (list (Z * api_operation_object)) :=
  match limit, itr with
  | S limit', k :: itr' =>
      if bool_decide (k.1 = account) then
        let? id := of_option (account_history_index h !! k) (key_not_found "account_history_object") in
        let? o := of_option (operation_index h !! Z.to_nat id) (key_not_found "operation_object") in
        let? x := to_api o in
        let? l := history_loop h account limit' itr' in
        Ok ((k.2, x) :: l)
      else Ok []
  | _, _ => Ok []
  end.
(** [start] has 64 bits but is compared with sequences of 32.  The result is a map by
    sequence, listed here from the latest. *)
Definition get_account_history (h : history) (account : account_name_type) (start limit : Z)
    : res (list (Z * api_operation_object)) :=
  let? _ := res_assert (limit <=? 10000) "limit is greater than maxmimum allowed" in
  let? _ := res_assert (start >=? limit) "start must be greater than limit" in
  history_loop h account (Z.to_nat limit) (history_from (account, wrap_u32 start) (account_history_index h)).

Definition is_virtual_operation (op : wire_operation) : bool :=
  match op with chain_operation _ => true | _ => false end.
(** Insertion into the [std::multiset], after the elements that are not greater. *)
Definition api_before (x y : api_operation_object) : bool :=
  if api_block x =? api_block y then
    if api_trx_in_block x =? api_trx_in_block y then
      if api_op_in_trx x =? api_op_in_trx y then api_virtual_op x <? api_virtual_op y
      else api_op_in_trx x <? api_op_in_trx y
    else api_trx_in_block x <? api_trx_in_block y
  else api_block x <? api_block y.
Fixpoint multiset_insert (x : api_operation_object) (l : list api_operation_object) : list api_operation_object :=
  match l with
  | [] => [x]
  | y :: l' => if api_before x y then x :: l else y :: multiset_insert x l'
  end.
(** The operations of a block, in the order they were stored. *)
Definition get_ops_in_block (h : history) (block_num : Z) (only_virtual : bool) : res (list api_operation_object) :=
  res_fold (fun ops o =>
      let? temp := to_api o in
      Ok (if negb only_virtual || is_virtual_operation (api_op temp) then multiset_insert temp ops else ops))
    [] (filter (fun o => oo_block o = block_num) (operation_index h)).

End History.

(** ** The index *)

#[export] Instance history_le_trans : Transitive history_le.
Proof.
  intros [a q] [b r] [c s]. unfold history_le. cbn. intros [[N1 L1]|[-> L1]] [[N2 L2]|[-> L2]].
  - left. split; [|by etrans]. intros ->. by apply N1, (anti_symm String.le).
  - by left.
  - by left.
  - right. split; [done|lia].
Qed.
#[export] Instance history_le_antisymm : AntiSymm (=) history_le.
Proof.
  intros [a q] [b r]. unfold history_le. cbn. intros [[N1 L1]|[-> L1]] [[N2 L2]|[E L2]]; try done.
  - destruct N1. by apply (anti_symm String.le).
  - f_equal. lia.
Qed.
#[export] Instance history_le_total : Total history_le.
Proof.
  intros [a q] [b r]. unfold history_le. cbn. destruct (decide (a = b)) as [->|N].
  - destruct (Z.le_ge_cases r q); auto with lia.
  - destruct (total String.le a b); auto.
Qed.

(** The entries of [a] are those from [lo] to [n]. *)
Definition entries_of (m : gmap (account_name_type * Z) Z) (a : account_name_type) (lo n : Z) : Prop :=
  ∀ q, is_Some (m !! (a, q)) ↔ lo ≤ q ≤ n.

(** A sorted list that has the right elements is the sorted list. *)
Lemma sorted_elements (S : gset (account_name_type * Z)) l :
  StronglySorted history_le l → NoDup l → (∀ k, k ∈ l ↔ k ∈ S) → merge_sort history_le (elements S) = l.
Proof.
  intros Hs Hnd Hl. apply (StronglySorted_unique history_le); [apply StronglySorted_merge_sort; apply _|done|].
  rewrite merge_sort_Permutation. apply NoDup_Permutation; [apply NoDup_elements|done|].
  intros k. by rewrite elem_of_elements, Hl.
Qed.

(** The entries [lo] to [hi] of [a], latest first. *)
Definition own_entries (a : account_name_type) (lo hi : Z) : list (account_name_type * Z) :=
  reverse ((a,.) <$> seqZ lo (hi - lo + 1)).
Lemma elem_of_own a lo hi k : k ∈ own_entries a lo hi ↔ k.1 = a ∧ lo ≤ k.2 ≤ hi.
Proof.
  unfold own_entries. rewrite elem_of_reverse, list_elem_of_fmap. setoid_rewrite elem_of_seqZ. split.
  - intros (q & -> & Hq). cbn. split; [done|lia].
  - destruct k as [b q]. cbn. intros [-> Hq]. exists q. split; [done|lia].
Qed.
Lemma own_sorted a lo hi : StronglySorted history_le (own_entries a lo hi) ∧ NoDup (own_entries a lo hi).
Proof.
  unfold own_entries. split.
  - remember (hi - lo + 1) as c. clear Heqc hi. destruct (Z.le_gt_cases c 0) as [Hc|Hc].
    { rewrite seqZ_nil by done. constructor. }
    rewrite <-(Z2Nat.id c) by lia. generalize (Z.to_nat c). clear c Hc. intros c. revert lo. induction c as [|c IH]; intros lo; [constructor|].
    rewrite seqZ_cons by lia. rewrite Nat2Z.inj_succ, Z.pred_succ, fmap_cons, reverse_cons. apply StronglySorted_app_2; [|apply IH|by repeat constructor].
    intros x y Hx Hy. apply elem_of_reverse, list_elem_of_fmap in Hx as (q & -> & Hq%elem_of_seqZ). apply list_elem_of_singleton in Hy as ->.
    right. cbn. split; [done|lia].
  - rewrite reverse_Permutation. apply (NoDup_fmap_2 _), NoDup_seqZ.
Qed.

(** From a sequence of [a] on, the index lists the entries of [a] back to the
    oldest, and then others. *)
Lemma history_from_entries m a lo n s : entries_of m a lo n →
  ∃ rest, history_from (a, s) m = own_entries a lo (Z.min s n) ++ rest ∧ (∀ k, k ∈ rest → k.1 ≠ a).
Proof.
  intros Hm. set (others := filter (fun k => k.1 ≠ a ∧ history_le (a, s) k) (dom m)).
  exists (merge_sort history_le (elements others)). split.
  - assert (∀ k, k ∈ merge_sort history_le (elements others) ↔ k ∈ others) as Ho.
    { intros k. by rewrite merge_sort_Permutation, elem_of_elements. }
    apply sorted_elements.
    + apply StronglySorted_app_2; [|apply own_sorted|apply StronglySorted_merge_sort; apply _].
      intros [b q] y Hx%elem_of_own [[Hy Hle] _]%Ho%elem_of_filter. cbn in Hx. destruct Hx as [-> Hx].
      destruct Hle as [[? ?]|[? ?]]; [by left|]. cbn in *. congruence.
    + apply list.NoDup_app. split; [apply own_sorted|]. split; [|rewrite merge_sort_Permutation; apply NoDup_elements].
      intros k [Hk _]%elem_of_own [[Hy _] _]%Ho%elem_of_filter. done.
    + intros [b q]. rewrite elem_of_app, Ho, elem_of_own, !elem_of_filter, elem_of_dom. unfold others.
      rewrite elem_of_filter, elem_of_dom. cbn. unfold history_le. cbn. destruct (decide (b = a)) as [->|Hb].
      * rewrite (Hm q). split; [intros [?|?]|intros ?]; intuition lia.
      * intuition congruence.
  - intros k. rewrite merge_sort_Permutation, elem_of_elements. unfold others. rewrite elem_of_filter. tauto.
Qed.

(** Before them, backwards: the entries of [a] from the oldest, and then others. *)
Lemma history_before_entries m a lo n : entries_of m a lo n → 1 ≤ lo →
  ∃ rest, history_before (a, 0) m = ((a,.) <$> seqZ lo (n - lo + 1)) ++ rest ∧ (∀ k, k ∈ rest → k.1 ≠ a).
Proof.
  intros Hm Hlo. set (others := filter (fun k => k.1 ≠ a ∧ ¬ history_le (a, 0) k) (dom m)).
  exists (reverse (merge_sort history_le (elements others))).
  assert (∀ k, k ∈ merge_sort history_le (elements others) ↔ k ∈ others) as Ho.
  { intros k. by rewrite merge_sort_Permutation, elem_of_elements. }
  split; [|intros k; rewrite elem_of_reverse, Ho; unfold others; rewrite elem_of_filter; tauto].
  unfold history_before. rewrite <-(reverse_involutive (_ <$> _)), <-reverse_app. f_equal.
  fold (own_entries a lo n). apply sorted_elements.
  - apply StronglySorted_app_2; [|apply StronglySorted_merge_sort; apply _|apply (own_sorted a lo n)].
    intros x [b q] [[Hx Hle] _]%Ho%elem_of_filter Hy%elem_of_own. cbn in Hy. destruct Hy as [-> Hy].
    left. split; [done|]. cbn. destruct (total String.le x.1 a) as [?|Hax]; [done|]. destruct Hle. left. cbn. auto.
  - apply list.NoDup_app. split; [rewrite merge_sort_Permutation; apply NoDup_elements|]. split; [|apply own_sorted].
    intros k [[Hy _] _]%Ho%elem_of_filter [Hk _]%elem_of_own. done.
  - intros [b q]. rewrite elem_of_app, Ho, elem_of_own, !elem_of_filter, elem_of_dom. unfold others.
    rewrite elem_of_filter, elem_of_dom. cbn. unfold history_le. cbn. destruct (decide (b = a)) as [->|Hb].
    + rewrite (Hm q). split; [intros [?|?]|intros ?]; intuition lia.
    + intuition congruence.
Qed.

(** ** One entry *)

Section Visit.
Context `{Abi}.

Lemma seqZ_head lo c : 0 < c → seqZ lo c = lo :: seqZ (lo + 1) (c - 1).
Proof. intros Hc. rewrite seqZ_cons by done. f_equal; f_equal; lia. Qed.

(** The loop takes the oldest entries while they are old enough, and leaves the
    latest 31. *)
Lemma to_remove_spec ops m now a seq rest : 
  (∀ q, is_Some (m !! (a, q)) → ∃ id o, m !! (a, q) = Some id ∧ ops !! Z.to_nat id = Some o) →
  ∀ lo, entries_of m a lo seq → 1 ≤ lo ≤ seq → seq < 2 ^ 32 →
  ∃ c, to_remove ops m now a seq (((a,.) <$> seqZ lo (seq - lo + 1)) ++ rest) = Ok ((a,.) <$> seqZ lo c) ∧
    0 ≤ c ∧ lo + c ≤ seq ∧
    (∀ q, lo ≤ q < lo + c → 30 < seq - q ∧ ∃ id o, m !! (a, q) = Some id ∧ ops !! Z.to_nat id = Some o ∧ days 30 < now - oo_timestamp o) ∧
    (30 < seq - (lo + c) → ∃ id o, m !! (a, lo + c) = Some id ∧ ops !! Z.to_nat id = Some o ∧ now - oo_timestamp o ≤ days 30).
Proof.
  intros Hops lo Hm Hlo Hseq. remember (Z.to_nat (seq - lo)) as n eqn:En.
  assert (∀ q, lo ≤ q ≤ seq → is_Some (m !! (a, q))) as Hin by (intros; by apply Hm). clear Hm.
  revert lo Hlo En Hin. induction n as [|n IH]; intros lo Hlo En Hin; rewrite seqZ_head by lia;
    rewrite fmap_cons; cbn [app to_remove fst snd]; rewrite bool_decide_eq_true_2 by done; cbn [andb].
  - assert (lo = seq) as -> by lia. rewrite Z.sub_diag. exists 0. rewrite seqZ_nil by lia. split_and!; [reflexivity|lia|lia|lia|lia].
  - unfold wrap_u32. rewrite Z.mod_small, Z.gtb_ltb by lia. destruct (Z.ltb_spec 30 (seq - lo)).
    2:{ exists 0. rewrite seqZ_nil by lia. split_and!; [reflexivity|lia|lia|lia|lia]. }
    destruct (Hops lo) as (id & o & Ei & Eo); [apply Hin; lia|]. rewrite Ei. cbn [of_option res_bind]. rewrite Eo. cbn [of_option res_bind].
    rewrite Z.gtb_ltb. destruct (Z.ltb_spec (days 30) (now - oo_timestamp o)).
    2:{ exists 0. rewrite seqZ_nil by lia. split_and!; [reflexivity|lia|lia|lia|]. intros _. rewrite Z.add_0_r. eauto. }
    destruct (IH (lo + 1)) as (c & Hrun & Hc & Hle & Hold & Hkeep); [lia|lia|intros; apply Hin; lia|].
    replace (seq - lo + 1 - 1) with (seq - (lo + 1) + 1) by lia. rewrite Hrun. cbn [res_bind].
    exists (c + 1). rewrite (seqZ_head lo) by lia. replace (c + 1 - 1) with c by lia. split_and!; [reflexivity|lia|lia| |].
    + intros q Hq. destruct (decide (q = lo)) as [->|]; [split; [done|eauto]|]. apply Hold. lia.
    + replace (lo + (c + 1)) with (lo + 1 + c) by lia. exact Hkeep.
Qed.

Lemma delete_own m a lo c k : foldl (fun m k => delete k m) m ((a,.) <$> seqZ lo c) !! k =
  if decide (k.1 = a ∧ lo ≤ k.2 < lo + c) then None else (m : gmap (account_name_type * Z) Z) !! k.
Proof.
  assert (∀ l, foldl (fun m k => delete k m) m l !! k = if decide (k ∈ l) then None else m !! k) as Hl.
  { intros l. revert m. induction l as [|x l IH]; intros m; cbn [foldl]; [done|]. rewrite IH.
    destruct (decide (k ∈ l)) as [Hk|Hk]; [rewrite decide_True by (by right); done|].
    destruct (decide (k = x)) as [->|Hx]; [rewrite lookup_delete_eq, decide_True by left; done|].
    rewrite lookup_delete_ne, decide_False by set_solver. done. }
  rewrite Hl. apply decide_ext. rewrite list_elem_of_fmap. setoid_rewrite elem_of_seqZ. destruct k as [b q]. cbn.
  split; [by intros (? & [= -> ->] & ?)|intros [-> ?]; eauto].
Qed.
End Visit.

(** ** A run of the plugin *)

Section Run.
Context `{Abi} (p : account_history_plugin).

(** An event is an operation that is about to be applied, with the time. *)
Abbreviation event := (time * operation_notification)%type.

Definition recorded (a : account_name_type) (e : event) : Prop :=
  a ∈ get_impacted_accounts (note_op e.2) ∧ is_tracked p a = true ∧ is_selected p (note_op e.2) = true.
#[export] Instance recorded_dec a e : Decision (recorded a e).
Proof. unfold recorded. apply _. Defined.
(** The operations that concern [a], in order. *)
Definition log (a : account_name_type) (events : list event) : list event := filter (recorded a) events.

Definition object (e : event) : operation_object :=
  mk_operation_object (note_trx_id e.2) (note_block e.2) (note_trx_in_block e.2) (note_op_in_trx e.2) (note_virtual_op e.2) e.1
    (match pack operation_codec (note_op e.2) with Ok bytes => bytes | Throw _ => [] end).

(** The entries of [a] are the operations [l], numbered from 1, but for those
    before [lo], which are old. *)
Record account_ok (h : history) (l : list event) (a : account_name_type) (lo : Z) : Prop := {
  own_lo : 1 ≤ lo ≤ Z.max 1 (Z.of_nat (length l));
  own_range : entries_of (account_history_index h) a lo (Z.of_nat (length l));
  own_op q id : account_history_index h !! (a, q) = Some id →
    ∃ e, l !! Z.to_nat (q - 1) = Some e ∧ operation_index h !! Z.to_nat id = Some (object e);
  own_old q : 1 ≤ q < lo → _prune p = true ∧ q + 30 < Z.of_nat (length l) ∧
    ∃ e e', l !! Z.to_nat (q - 1) = Some e ∧ e' ∈ l ∧ days 30 < e'.1 - e.1;
  own_recent : _prune p = true → ∀ e, list.last l = Some e → Z.of_nat (length l) ≤ lo + 30 ∨
    ∃ e', l !! Z.to_nat (lo - 1) = Some e' ∧ e.1 - e'.1 ≤ days 30
}.

(** Entries of other accounts and new operations do not matter. *)
Lemma account_ok_frame h h' l a lo : account_ok h l a lo →
  (∀ q, account_history_index h' !! (a, q) = account_history_index h !! (a, q)) →
  operation_index h `prefix_of` operation_index h' → account_ok h' l a lo.
Proof.
  intros [Hlo Hr Hop Hold Hrec] Hm Hp. split; [done| | |done|done].
  - intros q. rewrite Hm. apply Hr.
  - intros q id. rewrite Hm. intros Hq. destruct (Hop q id Hq) as (e & He & Ho). exists e. split; [done|].
    by eapply prefix_lookup_Some.
Qed.

(** The next number of [a]. *)
Lemma next_sequence h l a lo : account_ok h l a lo → Z.of_nat (length l) < 2 ^ 32 - 1 →
  match history_from (a, 2 ^ 32 - 1) (account_history_index h) with
  | k :: _ => if bool_decide (k.1 = a) then wrap_u32 (k.2 + 1) else 1
  | [] => 1
  end = Z.of_nat (length l) + 1.
Proof.
  intros [Hlo Hr _ _ _] Hn. destruct (history_from_entries _ _ _ _ (2 ^ 32 - 1) Hr) as (rest & -> & Hrest).
  rewrite Z.min_r by lia. unfold own_entries. destruct (decide (l = [])) as [->|Hl].
  - cbn in *. rewrite seqZ_nil by lia. cbn. destruct rest as [|k rest]; [done|].
    rewrite bool_decide_eq_false_2; [done|]. apply Hrest. by left.
  - assert (0 < Z.of_nat (length l)) by (destruct l; [done|cbn; lia]).
    replace (Z.of_nat (length l) - lo + 1) with ((Z.of_nat (length l) - lo) + 1) by lia.
    rewrite seqZ_app, fmap_app, reverse_app by lia. rewrite (seqZ_head _ 1), (seqZ_nil _ (1 - 1)) by lia. cbn. rewrite bool_decide_eq_true_2 by done.
    unfold wrap_u32. rewrite Z.mod_small; lia.
Qed.

(** What the loop removes, whether there is pruning or not. *)
Definition removal (ops : list operation_object) (m : gmap (account_name_type * Z) Z) (e : event)
    (a : account_name_type) (sequence : Z) : res (list (account_name_type * Z)) :=
  if _prune p then
    match history_before (a, 0) m with
    | [] => Ok []
    | itr => to_remove ops m e.1 a sequence itr
    end
  else Ok [].

Lemma removal_spec ops m e a lo seq : entries_of m a lo seq → 1 ≤ lo ≤ seq → seq < 2 ^ 32 →
  (∀ q, is_Some (m !! (a, q)) → ∃ id o, m !! (a, q) = Some id ∧ ops !! Z.to_nat id = Some o) →
  ∃ c, removal ops m e a seq = Ok ((a,.) <$> seqZ lo c) ∧ 0 ≤ c ∧ lo + c ≤ seq ∧
    (∀ q, lo ≤ q < lo + c → _prune p = true ∧ 30 < seq - q ∧
       ∃ id o, m !! (a, q) = Some id ∧ ops !! Z.to_nat id = Some o ∧ days 30 < e.1 - oo_timestamp o) ∧
    (_prune p = true → 30 < seq - (lo + c) →
       ∃ id o, m !! (a, lo + c) = Some id ∧ ops !! Z.to_nat id = Some o ∧ e.1 - oo_timestamp o ≤ days 30).
Proof.
  intros Hm Hlo Hseq Hops. unfold removal. destruct (_prune p).
  - destruct (history_before_entries _ _ _ _ Hm ltac:(lia)) as (rest & -> & _).
    destruct (to_remove_spec ops m e.1 a seq rest Hops lo Hm Hlo Hseq) as (c & Hrun & Hc & Hle & Hold & Hkeep).
    exists c. rewrite <-Hrun. split_and!; [|done|done| |auto].
    + by rewrite (seqZ_head lo) by lia.
    + intros q Hq. destruct (Hold q Hq). auto.
  - exists 0. rewrite seqZ_nil by lia. split_and!; [done|lia|lia|lia|done].
Qed.

(** The object of an operation is created once. *)
Lemma operation_created h e new_obj : wire_ok operation_codec (note_op e.2) = true →
  match new_obj with None => True | Some id => operation_index h !! Z.to_nat id = Some (object e) end →
  ∃ id ops, match new_obj with
    | Some id => Ok (id, operation_index h)
    | None =>
        let? bytes := pack operation_codec (note_op e.2) in
        Ok (Z.of_nat (length (operation_index h)),
            operation_index h ++ [mk_operation_object (note_trx_id e.2) (note_block e.2) (note_trx_in_block e.2)
                                    (note_op_in_trx e.2) (note_virtual_op e.2) e.1 bytes])
    end = Ok (id, ops) ∧ ops !! Z.to_nat id = Some (object e) ∧ operation_index h `prefix_of` ops.
Proof.
  intros Hw Hobj. destruct new_obj as [id|]; [by exists id, (operation_index h)|].
  destruct (unpack_pack (note_op e.2) Hw) as (bytes & Hb & _). rewrite Hb. do 2 eexists. split; [reflexivity|].
  rewrite Nat2Z.id, lookup_app_r, Nat.sub_diag by lia. cbn. unfold object. rewrite Hb. split; [done|]. by apply prefix_app_r.
Qed.

Lemma visit_ok h l a lo e new_obj : account_ok h l a lo → Z.of_nat (length l) < 2 ^ 32 - 1 →
  wire_ok operation_codec (note_op e.2) = true →
  match new_obj with None => True | Some id => operation_index h !! Z.to_nat id = Some (object e) end →
  ∃ id h' lo', visit (_prune p) e.1 e.2 a (new_obj, h) = Ok (Some id, h') ∧
    operation_index h' !! Z.to_nat id = Some (object e) ∧ operation_index h `prefix_of` operation_index h' ∧
    account_ok h' (l ++ [e]) a lo' ∧
    (∀ b q, b ≠ a → account_history_index h' !! (b, q) = account_history_index h !! (b, q)).
Proof.
  intros Hok Hn Hw Hobj. destruct (operation_created h e new_obj Hw Hobj) as (id & ops & Hcreate & Hid & Hpre).
  unfold visit. rewrite Hcreate. cbn [res_bind]. rewrite (next_sequence h l a lo Hok Hn).
  destruct Hok as [Hlo Hr Hop Hold Hrec]. set (n := Z.of_nat (length l)) in *. set (m := account_history_index h) in *.
  assert (m !! (a, n + 1) = None) as Hfresh.
  { destruct (m !! (a, n + 1)) eqn:E; [|done]. assert (is_Some (m !! (a, n + 1))) as Hs%Hr by eauto. lia. }
  rewrite Hfresh. set (m1 := <[(a, n + 1) := id]> m).
  assert (entries_of m1 a lo (n + 1)) as Hr1.
  { intros q. unfold m1. destruct (decide (q = n + 1)) as [->|Hq].
    - rewrite lookup_insert_eq. split; [lia|eauto].
    - rewrite lookup_insert_ne by congruence. rewrite (Hr q). lia. }
  assert (∀ q i, m1 !! (a, q) = Some i → ∃ e', (l ++ [e]) !! Z.to_nat (q - 1) = Some e' ∧ ops !! Z.to_nat i = Some (object e')) as Hop1.
  { intros q i Hq. unfold m1 in Hq. destruct (decide (q = n + 1)) as [->|Hne].
    - rewrite lookup_insert_eq in Hq. injection Hq as <-. exists e. split; [|done].
      rewrite lookup_app_r by lia. replace (Z.to_nat (n + 1 - 1) - length l)%nat with 0%nat by lia. done.
    - rewrite lookup_insert_ne in Hq by congruence. destruct (Hop q i Hq) as (e' & He' & Ho'). exists e'.
      split; [by apply lookup_app_l_Some|by eapply prefix_lookup_Some]. }
  destruct (removal_spec ops m1 e a lo (n + 1) Hr1) as (c & Hrun & Hc & Hle & Hremoved & Hkeep); [lia|lia| |].
  { intros q [i Hq]. destruct (Hop1 q i Hq) as (e' & _ & Ho'). eauto. }
  unfold removal in Hrun. rewrite Hrun. cbn [res_bind]. do 2 eexists. exists (lo + c). split; [reflexivity|]. cbn [operation_index account_history_index].
  split; [done|]. split; [done|]. split; [split|].
  - rewrite length_app. cbn. lia.
  - intros q. cbn. rewrite delete_own, length_app. cbn. case_decide as Hd; cbn in Hd.
    + split; [by intros [? ?]|lia].
    + assert (¬ (lo ≤ q < lo + c)) by tauto. rewrite (Hr1 q). lia.
  - intros q i. cbn. rewrite delete_own. case_decide; [done|]. apply Hop1.
  - intros q Hq. rewrite length_app. cbn. destruct (decide (q < lo)) as [Hlt|Hge].
    + destruct (Hold q ltac:(lia)) as (Hp & H30 & e1 & e2 & He1 & He2 & Hdays). split; [done|]. split; [lia|].
      exists e1, e2. split; [by apply lookup_app_l_Some|]. split; [apply elem_of_app; by left|done].
    + destruct (Hremoved q ltac:(lia)) as (Hp & H30 & i & o & Hi & Ho & Hdays). split; [done|]. split; [lia|].
      destruct (Hop1 q i Hi) as (e' & He' & Ho'). assert (o = object e') as -> by congruence.
      exists e', e. split; [done|]. split; [apply elem_of_app; right; by left|exact Hdays].
  - intros Hp e'. rewrite last_snoc, length_app. cbn. intros [= <-]. destruct (decide (30 < n + 1 - (lo + c))) as [H30|H30]; [|left; lia].
    right. destruct (Hkeep Hp H30) as (i & o & Hi & Ho & Hdays). destruct (Hop1 _ i Hi) as (e' & He' & Ho').
    assert (o = object e') as -> by congruence. eauto.
  - intros b q Hb. rewrite delete_own. rewrite decide_False by (cbn; tauto). apply lookup_insert_ne. congruence.
Qed.

Lemma log_snoc a events e : log a (events ++ [e]) = log a events ++ (if decide (recorded a e) then [e] else []).
Proof. unfold log. rewrite list.filter_app. f_equal; cbn; by case_decide. Qed.
Lemma log_length a events : (length (log a events) ≤ length events)%nat.
Proof. apply list.length_filter. Qed.

(** The accounts of [items] are still to be visited for [e]. *)
Definition pending (events : list event) (e : event) (items : list account_name_type) (a : account_name_type) : list event :=
  if decide (a ∈ items) then log a events else log a (events ++ [e]).

Lemma visit_items events e items : Z.of_nat (length events) < 2 ^ 32 - 1 →
  wire_ok operation_codec (note_op e.2) = true → NoDup items → (∀ a, a ∈ items → a ∈ get_impacted_accounts (note_op e.2)) →
  ∀ new_obj h, match new_obj with None => True | Some id => operation_index h !! Z.to_nat id = Some (object e) end →
  (∀ a, ∃ lo, account_ok h (pending events e items a) a lo) →
  ∃ st h', res_fold (fun st item =>
      if is_tracked p item && is_selected p (note_op e.2) then visit (_prune p) e.1 e.2 item st else Ok st)
    (new_obj, h) items = Ok (st, h') ∧ ∀ a, ∃ lo, account_ok h' (log a (events ++ [e])) a lo.
Proof.
  intros Hn Hw. induction items as [|x items IH]; intros Hnd Himp new_obj h Hobj Hok; cbn [res_fold].
  { do 2 eexists. split; [reflexivity|]. intros a. destruct (Hok a) as (lo & Ha). exists lo.
    unfold pending in Ha. by rewrite decide_False in Ha by apply not_elem_of_nil. }
  inversion Hnd as [|? ? Hx Hnd']; subst.
  assert (∀ a, a ≠ x → pending events e (x :: items) a = pending events e items a) as Hother.
  { intros a Ha. unfold pending. apply decide_ext. rewrite elem_of_cons. tauto. }
  destruct (Hok x) as (lo & Hxok). unfold pending in Hxok. rewrite decide_True in Hxok by left.
  destruct (is_tracked p x && is_selected p (note_op e.2)) eqn:Et.
  - apply andb_prop in Et as [Et Es]. assert (recorded x e) as Hrec by (split_and!; [apply Himp; left|done|done]).
    pose proof (log_length x events). destruct (visit_ok h _ x lo e new_obj Hxok) as (id & h1 & lo1 & Hv & Hid & Hpre & Hx1 & Hframe); [lia|done|done|].
    rewrite Hv. cbn [res_bind]. apply IH; [done|intros; apply Himp; by right|done|]. intros a. destruct (decide (a = x)) as [->|Ha].
    + exists lo1. unfold pending. by rewrite decide_False, log_snoc, decide_True by done.
    + destruct (Hok a) as (loa & Ha'). rewrite (Hother a Ha) in Ha'. exists loa. eapply account_ok_frame; [exact Ha'| |done]. intros q. by apply Hframe.
  - cbn [res_bind]. apply IH; [done|intros; apply Himp; by right|done|]. intros a. destruct (decide (a = x)) as [->|Ha].
    + exists lo. unfold pending. rewrite decide_False, log_snoc, decide_False by (done || (intros (_ & E1 & E2); by rewrite E1, E2 in Et)).
      by rewrite app_nil_r.
    + destruct (Hok a) as (loa & Ha'). rewrite (Hother a Ha) in Ha'. eauto.
Qed.

Definition run (events : list event) (h : history) : res history :=
  res_fold (fun h e => on_pre_apply_operation p e.1 e.2 h) h events.

Lemma step_ok h events e : Z.of_nat (length events) < 2 ^ 32 - 1 → wire_ok operation_codec (note_op e.2) = true →
  (∀ a, ∃ lo, account_ok h (log a events) a lo) →
  ∃ h', on_pre_apply_operation p e.1 e.2 h = Ok h' ∧ ∀ a, ∃ lo, account_ok h' (log a (events ++ [e])) a lo.
Proof.
  intros Hn Hw Hok. unfold on_pre_apply_operation. set (items := merge_sort _ _).
  assert (∀ a, a ∈ items ↔ a ∈ get_impacted_accounts (note_op e.2)) as Hitems.
  { intros a. unfold items. by rewrite merge_sort_Permutation, elem_of_elements. }
  destruct (visit_items events e items Hn Hw) with (new_obj := @None Z) (h := h) as (st & h' & Hrun & Hok').
  - unfold items. rewrite merge_sort_Permutation. apply NoDup_elements.
  - intros a. apply Hitems.
  - done.
  - intros a. destruct (Hok a) as (lo & Ha). exists lo. unfold pending. case_decide as Hin; [done|].
    rewrite log_snoc, decide_False, app_nil_r by (intros (? & _); by apply Hin, Hitems). done.
  - rewrite Hrun. cbn. eauto.
Qed.

Lemma run_ok events : Z.of_nat (length events) < 2 ^ 32 →
  Forall (fun e => wire_ok operation_codec (note_op e.2) = true) events →
  ∃ h, run events (mk_history [] ∅) = Ok h ∧ ∀ a, ∃ lo, account_ok h (log a events) a lo.
Proof.
  induction events as [|e events IH] using rev_ind; intros Hn Hw.
  - exists (mk_history [] ∅). split; [done|]. intros a. exists 1. split; cbn; [lia| |done|lia|done].
    intros q. cbn. rewrite lookup_empty. split; [by intros [? ?]|lia].
  - rewrite length_app in Hn. cbn in Hn. apply Forall_app in Hw as [Hw He]. rewrite Forall_singleton in He.
    destruct IH as (h & Hrun & Hok); [lia|done|]. destruct (step_ok h events e) as (h' & Hstep & Hok'); [lia|exact He|exact Hok|].
    exists h'. split; [|done]. unfold run in *. rewrite (res_fold_app _ _ _ _ _ Hrun). cbn. by rewrite Hstep.
Qed.

(** ** What is served *)

Definition api_of (e : event) : api_operation_object :=
  mk_api_operation (note_trx_id e.2) (note_block e.2) (note_trx_in_block e.2) 0 (note_virtual_op e.2) e.1 (note_op e.2).
(** Entry number [q] of the log [l]. *)
Definition numbered (l : list event) (q : Z) : option (Z * api_operation_object) :=
  (fun e => (q, api_of e)) <$> l !! Z.to_nat (q - 1).

Lemma to_api_object e : wire_ok operation_codec (note_op e.2) = true → to_api (object e) = Ok (api_of e).
Proof.
  intros Hw. destruct (unpack_pack (note_op e.2) Hw) as (bytes & Hb & Hu). unfold to_api, object. rewrite Hb.
  cbn [oo_serialized_op oo_trx_id oo_block oo_trx_in_block oo_virtual_op oo_timestamp].
  specialize (Hu []). rewrite app_nil_r in Hu. by rewrite Hu.
Qed.

Lemma history_loop_entries h l a lo rest qs : account_ok h l a lo →
  Forall (fun e => wire_ok operation_codec (note_op e.2) = true) l →
  (∀ k, k ∈ rest → k.1 ≠ a) → ∀ limit, (∀ q, q ∈ qs → lo ≤ q ≤ Z.of_nat (length l)) →
  history_loop h a limit (((a,.) <$> qs) ++ rest) = Ok (omap (numbered l) (take limit qs)).
Proof.
  intros Hok Hw Hrest. induction qs as [|q qs IH]; intros limit Hqs; destruct limit as [|limit]; try done.
  { destruct rest as [|k rest]; [done|]. cbn. rewrite bool_decide_eq_false_2; [done|]. apply Hrest. by left. }
  destruct (proj2 (own_range _ _ _ _ Hok q) (Hqs q ltac:(by left))) as [id Hid].
  destruct (own_op _ _ _ _ Hok q id Hid) as (e & He & Ho). cbn [app fmap list_fmap history_loop fst snd take omap list_omap].
  rewrite bool_decide_eq_true_2 by done. rewrite Hid. cbn [of_option res_bind]. rewrite Ho. cbn [of_option res_bind].
  assert (wire_ok operation_codec (note_op e.2) = true) as Hwe by (by eapply Forall_lookup_1 in Hw).
  rewrite (to_api_object e Hwe). cbn [res_bind]. rewrite IH by (intros; apply Hqs; by right). cbn. unfold numbered at 2. by rewrite He.
Qed.

Lemma take_reverse_seqZ k lo c : 0 ≤ k → take (Z.to_nat k) (reverse (seqZ lo c)) = reverse (seqZ (lo + Z.max 0 (c - k)) (Z.min c k)).
Proof.
  intros Hk. destruct (Z.le_ge_cases c k) as [Hc|Hc].
  - rewrite Z.max_l, Z.add_0_r, Z.min_l by lia. apply take_ge. rewrite length_reverse, length_seqZ. lia.
  - rewrite Z.max_r, Z.min_r by lia. replace c with ((c - k) + k) at 1 by lia. rewrite seqZ_app, reverse_app by lia.
    apply take_app_length'. rewrite length_reverse, length_seqZ. done.
Qed.

(** C35: the history of an account is complete and true.  Over any run of applied
    operations the plugin never fails; it records exactly the operations that
    concern a tracked account and pass the filter, numbered from 1 without gaps.
    With pruning an entry is dropped only when it is more than 30 days older than a
    later one and 30 newer ones exist, and the oldest one kept is not so; without
    pruning nothing is dropped.  A query returns the entries down from the given
    number, at most as many as the limit, each with the operation that was
    applied, read back from its bytes. *)
Theorem account_history_served events : Z.of_nat (length events) < 2 ^ 32 →
  Forall (fun e => wire_ok operation_codec (note_op e.2) = true) events →
  ∃ h, run events (mk_history [] ∅) = Ok h ∧ ∀ a, let l := log a events in
    ∃ lo, account_ok h l a lo ∧ ∀ start limit, 0 ≤ limit ≤ 10000 → limit ≤ start < 2 ^ 32 →
      let last := Z.min start (Z.of_nat (length l)) in
      let first := Z.max lo (last - limit + 1) in
      get_account_history h a start limit = Ok (omap (numbered l) (reverse (seqZ first (last - first + 1)))).
Proof.
  intros Hn Hw. destruct (run_ok events Hn Hw) as (h & Hrun & Hok). exists h. split; [done|]. intros a l.
  destruct (Hok a) as (lo & Ha). exists lo. split; [done|]. intros start limit Hlimit Hstart last first.
  unfold get_account_history. rewrite (proj2 (Z.leb_le limit 10000)) by lia. rewrite Z.geb_leb, (proj2 (Z.leb_le limit start)) by lia.
  cbn [res_assert res_bind]. unfold wrap_u32. rewrite Z.mod_small by lia.
  destruct (history_from_entries _ _ _ _ start (own_range _ _ _ _ Ha)) as (rest & -> & Hrest).
  unfold own_entries. rewrite <-fmap_reverse. fold l. fold last.
  rewrite (history_loop_entries h l a lo rest _ Ha); [| |done|].
  2:{ eapply List.incl_Forall; [|exact Hw]. intros e He%list_elem_of_In. apply list_elem_of_In.
      by apply list_elem_of_filter in He as [_ ?]. }
  - rewrite take_reverse_seqZ by lia. destruct (Z.le_gt_cases (last - lo + 1) 0) as [He|He].
    + rewrite !seqZ_nil by lia. done.
    + do 3 f_equal. f_equal; lia.
  - intros q. rewrite elem_of_reverse, elem_of_seqZ. lia.
Qed.
End Run.

(** ** Ranges of accounts *)

Lemma filter_all {A} (P : A → Prop) `{∀ x, Decision (P x)} (l : list A) : (∀ x, x ∈ l → P x) → filter P l = l.
Proof.
  intros Hl. induction l as [|x l IH]; [done|]. rewrite list.filter_cons, decide_True by (apply Hl; by left).
  f_equal. apply IH. intros y Hy. apply Hl. by right.
Qed.
Lemma filter_none {A} (P : A → Prop) `{∀ x, Decision (P x)} (l : list A) : (∀ x, x ∈ l → ¬ P x) → filter P l = [].
Proof.
  intros Hl. induction l as [|x l IH]; [done|]. rewrite list.filter_cons, decide_False by (apply Hl; by left).
  apply IH. intros y Hy. apply Hl. by right.
Qed.

Lemma range_of_elem l item r : range_of l item = Some r → r ∈ l.
Proof.
  unfold range_of. set (before := filter _ l). set (from := filter _ l).
  assert (∀ x, list.last before = Some x → x ∈ l) as Hb.
  { intros x [l' E]%last_Some. assert (x ∈ before) as Hx by (rewrite E; apply elem_of_app; right; by left).
    by apply list_elem_of_filter in Hx as [_ ?]. }
  assert (∀ x, x ∈ from → x ∈ l) as Hf by (intros x Hx; by apply list_elem_of_filter in Hx as [_ ?]).
  destruct (list.last before) as [b|], from as [|f rest]; intros E; try case_match; simplify_eq; auto; apply Hf; by left.
Qed.

(** As the comment in the source says, looking at one range is enough when the
    ranges do not intersect: an account is tracked just when it is in one of
    them. *)
Lemma tracked_in_a_range p item :
  (∀ r, r ∈ _tracked_accounts p → String.le r.1 r.2) →
  StronglySorted (fun r r' => ¬ String.le r'.1 r.2) (_tracked_accounts p) →
  is_tracked p item = true ↔
    _tracked_accounts p = [] ∨ ∃ r, r ∈ _tracked_accounts p ∧ String.le r.1 item ∧ String.le item r.2.
Proof.
  unfold is_tracked. generalize (_tracked_accounts p). intros l Hle Hs.
  rewrite orb_true_iff, bool_decide_eq_true. apply or_iff_compat_l. split.
  - destruct (range_of l item) as [[lower upper]|] eqn:E; [|done]. intros [H1 H2]%andb_prop.
    exists (lower, upper). split; [by eapply range_of_elem|]. split; by eapply bool_decide_eq_true.
  - intros (r & Hr & H1 & H2). apply list_elem_of_split in Hr as (l1 & l2 & ->).
    assert (∀ x, x ∈ l1 → ¬ String.le item x.1) as Hl1.
    { intros x Hx Hix. apply (StronglySorted_app_1_elem_of _ _ _ x r Hs Hx); [by left|]. etrans; [exact H1|].
      etrans; [exact Hix|]. apply Hle, elem_of_app. by left. }
    assert (∀ x, x ∈ l2 → ¬ String.le x.1 item) as Hl2.
    { intros x Hx Hix. apply StronglySorted_app_1_r in Hs. apply (StronglySorted_app_1_elem_of _ [r] l2 r x Hs); [by left|done|].
      by etrans. }
    assert (∀ x, x ∈ l2 → String.le item x.1) as Hl2'.
    { intros x Hx. destruct (total String.le item x.1) as [?|Hx']; [done|]. by destruct (Hl2 x Hx). }
    assert (range_of (l1 ++ r :: l2) item = Some r) as ->.
    2:{ destruct r. by rewrite !bool_decide_eq_true_2. }
    unfold range_of. rewrite !list.filter_app, !list.filter_cons.
    rewrite (filter_all (fun r => ¬ _) l1), (filter_none (fun r => String.le _ _) l1) by done.
    rewrite (filter_none (fun r => ¬ _) l2), (filter_all (fun r => String.le _ _) l2) by (intros x Hx; auto).
    destruct (decide (String.le item r.1)) as [Hir|Hir].
    + rewrite decide_False, app_nil_r by tauto. rewrite !decide_True by exact Hir. cbn [app].
      case_match; [|done]. by rewrite bool_decide_eq_true_2 by (by apply (anti_symm String.le)).
    + rewrite decide_True, last_snoc, decide_False by tauto. cbn. destruct l2 as [|f l2]; [done|].
      rewrite bool_decide_eq_false_2; [done|]. intros <-. by apply (Hl2 f); [left|].
Qed.

(** The calls report every operation as the first one of its transaction. *)
Lemma op_in_trx_lost `{Abi} o x : to_api o = Ok x → api_op_in_trx x = 0.
Proof. unfold to_api. intros Hx. inv_ok. destruct x0. by inv_ok. Qed.

(** ** Example *)

Definition history_sample_plugin : account_history_plugin := mk_account_history_plugin [("alice", "carol")] false false [] true.
Definition history_sample_events : list (time * operation_notification) :=
  let transfer from to memo := user_operation (transfer_operation from to (mk_asset 1 LIQUID_SYMBOL) memo) in
  [(1000, mk_notification "t1" 5 0 0 0 (transfer "alice" "bob" "first"));
   (1003, mk_notification "t2" 6 0 0 0 (transfer "alice" "zoe" "other"));
   (1003, mk_notification "t2" 6 0 1 0 (transfer "zoe" "bob" "second"))].

Lemma account_history_served_witness :
  let _ := sample_abi in
  ∃ h, run history_sample_plugin history_sample_events (mk_history [] ∅) = Ok h ∧
    get_account_history h "bob" 100 10 =
      Ok (omap (numbered (log history_sample_plugin "bob" history_sample_events)) [2; 1]) ∧
    length (log history_sample_plugin "bob" history_sample_events) = 2%nat ∧
    log history_sample_plugin "zoe" history_sample_events = [].
Proof.
  intros K. destruct (account_history_served (H := K) history_sample_plugin history_sample_events) as (h & Hrun & Hserved).
  - vm_compute. reflexivity.
  - repeat constructor.
  - exists h. split; [exact Hrun|]. destruct (Hserved "bob") as (lo & Hok & Hget).
    assert (length (log history_sample_plugin "bob" history_sample_events) = 2%nat) as Hlen by (vm_compute; reflexivity).
    assert (lo = 1) as ->.
    { pose proof (own_lo _ _ _ _ _ Hok) as Hlo. pose proof (own_old _ _ _ _ _ Hok 1) as Hold. rewrite Hlen in *.
      destruct (decide (lo = 1)); [done|]. destruct Hold as (_ & ? & _); lia. }
    split; [|split; [exact Hlen|vm_compute; reflexivity]]. rewrite (Hget 100 10) by lia. rewrite Hlen. reflexivity.
Defined.
