(* ===== verification/Independent.v ===== *)
(** * What does not depend on the recorded transactions

    The table of recorded transactions only serves to refuse duplicates.
    [independent m]: [m] neither reads nor writes it: on states that differ in that
    table alone it has the same outcome, and leaves them differing in it alone.
    Every operation and every periodic step but the clean-up of the table is
    independent.  Replay.v uses this to show that applying blocks without
    their checks reproduces the state. *)
From S2P Require Import Prelude Ints Config Asset Authority Headers Operations State Blocks Store Ledger Balances Vesting Conserve Frames Drain EvalFunds Market EvalAccounts Proxy Reward EvalContent Evaluators Invariants Genesis BlockProc Withdrawals Expiry Payout Schedule Chain Loops.

(** [s] with the recorded transactions [T]. *)
Definition forget (T : table transaction_object) (s : database) : database := s <| transaction_index := T |>.

Definition independent {A} (m : C A) : Prop := ∀ T s, m (forget T s) = (let? (a, s') := m s in Ok (a, forget T s')).

(** A table other than that of the transactions. *)
Class Apart (A : Type) `{Table A} := {
  apart_tbl T s : tbl (forget T s) = tbl (A := A) s;
  apart_set t T s : set_tbl (A := A) t (forget T s) = forget T (set_tbl t s)
}.
#[export] Hint Extern 0 (Apart _) => (split; reflexivity) : typeclass_instances.

Section Combinators.
Lemma independent_bind {A B} (m : C A) (k : A → C B) :
  independent m → (∀ a, independent (k a)) → independent (bind m k).
Proof. intros Hm Hk T s. unfold bind. rewrite Hm. destruct (m s) as [[a s']|e]; cbn; [apply Hk|done]. Qed.
Lemma independent_ret {A} (a : A) : independent (ret a).
Proof. done. Qed.
Lemma independent_lift {A} (r : res A) : independent (lift r).
Proof. intros T s. by destruct r. Qed.
Lemma independent_throw {A} e : independent (throw (A := A) e).
Proof. done. Qed.
Lemma independent_gets {A} (f : database → A) : (∀ T s, f (forget T s) = f s) → independent (gets f).
Proof. intros Hf T s. unfold gets. by rewrite Hf. Qed.
Lemma independent_assert c msg : independent (fc_assert c msg).
Proof. apply independent_lift. Qed.
Lemma independent_when c m : independent m → independent (when c m).
Proof. intros Hm. destruct c; [done|apply independent_ret]. Qed.
Lemma independent_for_each {A} (l : list A) f : (∀ x, independent (f x)) → independent (for_each l f).
Proof. intros Hf. induction l; cbn; [apply independent_ret|]. by apply independent_bind. Qed.
Lemma independent_fold_m {A B} (f : B → A → C B) b l : (∀ b x, independent (f b x)) → independent (fold_m f b l).
Proof. intros Hf. revert b. induction l; intros b; cbn; [apply independent_ret|]. by apply independent_bind. Qed.
Lemma independent_modify (f : database → database) : (∀ T s, f (forget T s) = forget T (f s)) → independent (modify f).
Proof. intros Hf T s. unfold modify. cbn. by rewrite Hf. Qed.
Lemma independent_modify_gpo f : independent (modify_gpo f).
Proof.
  apply independent_bind; [by apply independent_gets|]. intros g. apply independent_bind; [apply independent_lift|].
  intros g'. by apply independent_modify.
Qed.

Section Rows.
Context {A : Type} `{Apart A}.
Implicit Types r : ref A.

Lemma row_forget r T s : row r (forget T s) = row r s.
Proof. unfold row. by rewrite apart_tbl. Qed.
Lemma independent_load r : independent (load r).
Proof. intros T s. unfold load. rewrite row_forget. by destruct (row r s). Qed.
Lemma independent_find_by p : independent (find_by (A := A) p).
Proof. apply independent_gets. intros T s. unfold find_row, row_ids. by rewrite apart_tbl. Qed.
Lemma independent_get_by p : independent (get_by (A := A) p).
Proof. apply independent_bind; [apply independent_find_by|]. intros o. apply independent_lift. Qed.
Lemma set_row_forget r o T s : set_row r o (forget T s) = forget T (set_row r o s).
Proof. unfold set_row. by rewrite apart_tbl, apart_set. Qed.
Lemma independent_modify_with r f : (∀ o, independent (f o)) → independent (modify_with r f).
Proof.
  intros Hf. apply independent_bind; [apply independent_load|]. intros o. apply independent_bind; [apply Hf|]. intros o'.
  apply independent_bind; [apply independent_gets; intros T s; by rewrite apart_tbl|]. intros others.
  destruct (existsb _ _); [apply independent_throw|]. apply independent_modify. intros T s. apply set_row_forget.
Qed.
Lemma independent_modify_res r f : independent (modify_res r f).
Proof. apply independent_modify_with. intros o. apply independent_lift. Qed.
Lemma independent_modify_row r f : independent (modify_row r f).
Proof. apply independent_modify_with. intros o. apply independent_ret. Qed.
Lemma independent_create (o : A) : independent (create o).
Proof. intros T s. unfold create, add_row. rewrite apart_tbl, apart_set. by destruct (_ || _). Qed.
Lemma independent_remove r : independent (remove r).
Proof.
  apply independent_bind; [apply independent_load|]. intros o. apply independent_modify. intros T s.
  unfold delete_row. by rewrite apart_tbl, apart_set.
Qed.
Lemma index_rows_forget key T s : index_rows (A := A) key (forget T s) = index_rows key s.
Proof. unfold index_rows. by rewrite apart_tbl. Qed.
Lemma independent_index key : independent (index (A := A) key).
Proof. apply independent_gets. intros T s. by rewrite index_rows_forget. Qed.
Lemma independent_index_where key p : independent (index_where (A := A) key p).
Proof. apply independent_gets. intros T s. by rewrite index_rows_forget. Qed.
Lemma independent_table_size : independent (table_size (A := A)).
Proof. apply independent_gets. intros T s. by rewrite apart_tbl. Qed.
Lemma independent_drain key due (f : ref A → C unit) : (∀ r, independent (f r)) → independent (drain key due f).
Proof.
  intros Hf. apply independent_bind; [apply independent_table_size|]. intros n. generalize (S n). clear n.
  intros n. induction n as [|n IH]; cbn; [apply independent_throw|].
  apply independent_bind; [apply independent_bind; [apply independent_index|]; intros l; apply independent_ret|].
  intros [r|]; [|apply independent_ret]. apply independent_bind; [apply independent_load|]. intros o.
  case_match; [|apply independent_ret]. by apply independent_bind.
Qed.
End Rows.
End Combinators.

Create HintDb independent.
Ltac independent_unfold :=
  lazymatch goal with
  | |- independent ?m => let m' := eval red in m in change (independent m')
  end.
Ltac independent_step :=
  lazymatch goal with
  | |- forall _, _ => intro
  | |- independent (bind _ _) => apply independent_bind
  | |- independent (ret _) => apply independent_ret
  | |- independent (lift _) => apply independent_lift
  | |- independent (throw _) => apply independent_throw
  | |- independent (fc_assert _ _) => apply independent_assert
  | |- independent (when _ _) => apply independent_when
  | |- independent (for_each _ _) => apply independent_for_each
  | |- independent (fold_m _ _ _) => apply independent_fold_m
  | |- independent (load _) => apply independent_load; exact _
  | |- independent (find_by _) => apply independent_find_by; exact _
  | |- independent (get_by _) => apply independent_get_by; exact _
  | |- independent (index _) => apply independent_index; exact _
  | |- independent (index_where _ _) => apply independent_index_where; exact _
  | |- independent table_size => apply independent_table_size; exact _
  | |- independent (drain _ _ _) => apply independent_drain
  | |- independent (create _) => apply independent_create; exact _
  | |- independent (modify_with _ _) => apply independent_modify_with
  | |- independent (modify_res _ _) => apply independent_modify_res; exact _
  | |- independent (modify_row _ _) => apply independent_modify_row; exact _
  | |- independent (remove _) => apply independent_remove; exact _
  | |- independent (modify_gpo _) => apply independent_modify_gpo
  | |- independent (gets _) => first [solve [auto with independent nocore] | apply independent_gets; intros; reflexivity]
  | |- independent (modify _) => first [solve [auto with independent nocore] | apply independent_modify; intros; reflexivity]
  | |- independent (match ?x with _ => _ end) => destruct x
  | |- independent (match ?x with _ => _ end _) => destruct x
  | |- independent (let _ := _ in _) => cbv zeta
  | |- independent _ => first [solve [auto with independent nocore] | independent_unfold]
  end.
Ltac independent_run := repeat independent_step.

(** ** The loops *)

Lemma independent_adjust_proxied_from n a d : independent (adjust_proxied_from n a d).
Proof.
  revert a. induction n as [|n IH]; intros a; cbn -[ZATTERA_MAX_PROXY_RECURSION_DEPTH]; repeat first [apply IH | independent_step].
Qed.
Lemma independent_adjust_proxied_array_from n a d : independent (adjust_proxied_array_from n a d).
Proof.
  revert a. induction n as [|n IH]; intros a; cbn -[ZATTERA_MAX_PROXY_RECURSION_DEPTH take seq rev];
    repeat first [apply IH | independent_step].
Qed.
Lemma independent_check_proxy_chain n p l : independent (check_proxy_chain n p l).
Proof. revert p l. induction n as [|n IH]; intros p l; cbn; repeat first [apply IH | independent_step]. Qed.
Lemma independent_match_all r l : independent (match_all r l).
Proof. induction l as [|o l IH]; cbn; repeat first [apply IH | independent_step]. Qed.
Lemma independent_walk_parents n f p : independent (walk_parents n f p).
Proof. revert p. induction n as [|n IH]; intros p; cbn; repeat first [apply IH | independent_step]. Qed.
Lemma independent_convert_due n now p net : independent (convert_due n now p net).
Proof. revert net. induction n as [|n IH]; intros net; cbn; repeat first [apply IH | independent_step]. Qed.
Lemma independent_walk `{Apart A} fuel key due (f : ref A → C unit) cur :
  (∀ r, independent (f r)) → independent (walk fuel key due f cur).
Proof. intros Hf. revert cur. induction fuel as [|fuel IH]; intros cur; cbn; repeat first [apply Hf | apply IH | independent_step]. Qed.
Lemma independent_advance_virtual t l : independent (advance_virtual t l).
Proof. induction l as [|w l IH]; cbn; repeat first [apply IH | independent_step]. Qed.
#[export] Hint Resolve independent_adjust_proxied_from independent_adjust_proxied_array_from independent_check_proxy_chain
  independent_match_all independent_walk_parents independent_convert_due independent_advance_virtual : independent.
#[export] Hint Extern 1 (independent (walk _ _ _ _ _)) => (apply independent_walk; independent_run) : independent.

(** ** The operations *)

Lemma independent_create_vesting a x r : independent (create_vesting a x r).
Proof. independent_run. Qed.
#[export] Hint Resolve independent_create_vesting : independent.

Section Block.
Context `{Codec, DiffPatch, Crypto}.

Lemma independent_apply_operation op : independent (apply_operation op).
Proof. destruct op; cbn [apply_operation]; independent_run. Qed.

(** ** The end of a block *)

Lemma independent_cashout_comment_helper ctx r b : independent (cashout_comment_helper ctx r b).
Proof. independent_run. Qed.
#[local] Hint Resolve independent_cashout_comment_helper : independent.
Lemma independent_cashout_due n now p l : independent (cashout_due n now p l).
Proof. revert l. induction n as [|n IH]; intros l; cbn; repeat first [apply IH | independent_step]. Qed.
#[local] Hint Resolve independent_cashout_due : independent.
Lemma independent_process_hardforks : independent process_hardforks.
Proof.
  cbv delta [process_hardforks]. generalize (S (Z.to_nat ZATTERA_NUM_HARDFORKS)). intros n. cbv zeta.
  induction n as [|n IH]; repeat first [apply IH | independent_step].
Qed.
Lemma independent_process_comment_cashout : independent process_comment_cashout.
Proof. independent_run. Qed.
Lemma independent_update_witness_schedule : independent update_witness_schedule.
Proof. independent_run. Qed.
Lemma independent_process_vesting_withdrawals : independent process_vesting_withdrawals.
Proof. independent_run. Qed.
#[local] Hint Resolve independent_process_hardforks independent_process_comment_cashout independent_update_witness_schedule
  independent_process_vesting_withdrawals : independent.

(** What follows the clean-up of the recorded transactions. *)
Definition close_rest : C unit :=
  clear_expired_orders ;;
  clear_expired_delegations ;;
  update_witness_schedule ;;
  update_median_feed ;;
  update_virtual_supply ;;
  clear_null_account_balance ;;
  process_funds ;;
  process_conversions ;;
  process_comment_cashout ;;
  process_vesting_withdrawals ;;
  process_savings_withdraws ;;
  update_virtual_supply ;;
  account_recovery_processing ;;
  expire_escrow_ratification ;;
  process_decline_voting_rights ;;
  process_hardforks.
Lemma independent_close_rest : independent close_rest.
Proof. unfold close_rest. independent_run. Qed.
End Block.
