(* ===== verification/Replay.v ===== *)
(** * Applying blocks again, without their checks

    A node that replays its block log applies every block with most checks left
    out ([database::reindex]).  [simulates m1 m2]: wherever [m1] succeeds, [m2]
    succeeds with the same outcome on every state that differs in the recorded
    transactions alone, and again leaves such a state.  The checks change
    nothing, so a block applied with more of them skipped simulates the block
    applied with fewer. *)
From S2P Require Import Prelude Ints Config Asset Authority Headers Operations State Blocks Store Ledger Balances Vesting Conserve Frames Drain EvalFunds Market EvalAccounts Proxy Reward EvalContent Evaluators Invariants Genesis BlockProc Withdrawals Expiry Payout Schedule Chain Loops Heads Independent.

Definition simulates {A} (m1 m2 : C A) : Prop :=
  ∀ s a s' T, m1 s = Ok (a, s') → ∃ T', m2 (forget T s) = Ok (a, forget T' s').

(** [skip'] skips what [skip] skips, and does not record transactions. *)
Definition fewer_checks (skip skip' : Z) : Prop :=
  skips skip' skip_transaction_dupe_check = true ∧ ∀ flag, skips skip flag = true → skips skip' flag = true.

(** ** Rules *)

Lemma simulates_bind {A B} (m1 m2 : C A) (k1 k2 : A → C B) :
  simulates m1 m2 → (∀ a, simulates (k1 a) (k2 a)) → simulates (bind m1 k1) (bind m2 k2).
Proof.
  intros Hm Hk s b s' T (a & s1 & H1 & H2)%bind_ok.
  destruct (Hm _ _ _ T H1) as [T1 E1]. destruct (Hk _ _ _ _ T1 H2) as [T2 E2].
  exists T2. by rewrite (bind_run _ _ _ _ _ E1).
Qed.
Lemma simulates_self {A} (m : C A) : independent m → simulates m m.
Proof. intros Hm s a s' T Hr. exists T. rewrite Hm, Hr. done. Qed.
Lemma simulates_for_each {A} (l : list A) f1 f2 : (∀ x, simulates (f1 x) (f2 x)) → simulates (for_each l f1) (for_each l f2).
Proof. intros Hf. induction l; cbn; [by apply simulates_self|]. by apply simulates_bind. Qed.
Lemma simulates_when c m1 m2 : simulates m1 m2 → simulates (when c m1) (when c m2).
Proof. intros Hm. destruct c; [done|]. by apply simulates_self. Qed.
(** A check that changes nothing may be left out. *)
Lemma simulates_check c c' m :
  (c' = true → c = true) → independent m → respects eq m → simulates (when c m) (when c' m).
Proof.
  intros Hc Hi Hp. destruct c'; cbn [when]; [rewrite Hc by done; by apply simulates_self|].
  intros s [] s' T Hr. exists T. destruct c; cbn [when] in Hr; [|by inv_ok].
  by apply Hp in Hr as ->.
Qed.
Lemma unless_fewer skip skip' flag : fewer_checks skip skip' →
  negb (skips skip' flag) = true → negb (skips skip flag) = true.
Proof. intros [_ Hf]. rewrite !negb_true_iff, <- !not_true_iff_false. auto. Qed.
#[export] Hint Resolve unless_fewer : core.

(** ** The clean-up of the recorded transactions *)

Section CleanUp.
(** It always succeeds, and changes nothing but the records. *)
Lemma forget_forget T T' s : forget T (forget T' s) = forget T s.
Proof. done. Qed.
Lemma clear_transactions_only s s' : clear_expired_transactions s = Ok (tt, s') → s' = forget (transaction_index s') s.
Proof.
  unfold clear_expired_transactions, head_block_time. intros (now & s1 & [-> ->]%gets_ok & H)%bind_ok.
  eapply (drain_pres _ _ _ (fun s1 => s1 = forget (transaction_index s1) s)) in H; [done| |by destruct s].
  intros r o s1 u s2 _ _ Hs (o' & -> & _)%remove_gap. rewrite Hs. done.
Qed.
Lemma drain_remove_runs n (due : transaction_object → bool) key s : 
  (size (rows (transaction_index s)) < n)%nat → ∃ s', drain_fuel n key due remove s = Ok (tt, s').
Proof.
  revert s. induction n as [|n IH]; intros s Hn; [lia|]. cbn [drain_fuel].
  destruct (index_begin (A := transaction_object) key s) as [[r s1]|e] eqn:Hb; [|done].
  rewrite (bind_run _ _ _ _ _ Hb). apply index_begin_spec in Hb as [-> Hb]. destruct r as [r|]; [|by eexists].
  destruct Hb as (o & Ho & _). assert (load r s = Ok (o, s)) as Hl by (unfold load; by rewrite Ho).
  rewrite (bind_run _ _ _ _ _ Hl). destruct (due o); [|by eexists].
  assert (remove r s = Ok (tt, delete_row r s)) as Hr by (unfold remove; by rewrite (bind_run _ _ _ _ _ Hl)).
  rewrite (bind_run _ _ _ _ _ Hr). apply IH. cbn. rewrite map_size_delete_Some by (by exists o). cbn in Ho.
  enough (size (rows (transaction_index s)) ≠ 0%nat) by lia. intros Hz%map_size_empty_inv. unfold row in Ho. cbn in Ho. by rewrite Hz in Ho.
Qed.
Lemma clear_transactions_runs s : ∃ s', clear_expired_transactions s = Ok (tt, s').
Proof.
  unfold clear_expired_transactions, head_block_time. erewrite bind_run by reflexivity. unfold drain.
  erewrite bind_run by reflexivity. apply drain_remove_runs. cbn. lia.
Qed.
Lemma simulates_clear_transactions : simulates clear_expired_transactions clear_expired_transactions.
Proof.
  intros s [] s' T ->%clear_transactions_only. destruct (clear_transactions_runs (forget T s)) as [s2 H2].
  exists (transaction_index s2). rewrite H2. apply clear_transactions_only in H2. by rewrite H2 at 1.
Qed.
End CleanUp.

(** ** Transactions and blocks *)

Section Blocks.
Context `{Codec, DiffPatch, Crypto}.

Lemma simulates_dupe_check {A} skip skip' id (k1 k2 : C A) : fewer_checks skip skip' → simulates k1 k2 →
  simulates
    (let* dup := find_by (fun t => bool_decide (txo_trx_id t = id)) in
     fc_assert (skips skip skip_transaction_dupe_check || bool_decide (dup = None)) "Duplicate transaction check failed" ;; k1)
    (let* dup := find_by (fun t => bool_decide (txo_trx_id t = id)) in
     fc_assert (skips skip' skip_transaction_dupe_check || bool_decide (dup = None)) "Duplicate transaction check failed" ;; k2).
Proof.
  intros [Hd _] Hk s a s' T Hr. unfold find_by in Hr. inv_ok.
  unfold find_by. erewrite bind_run by reflexivity. rewrite Hd. cbn [orb]. erewrite bind_run by reflexivity. by apply Hk.
Qed.
Lemma simulates_record skip skip' (o : transaction_object) : fewer_checks skip skip' →
  simulates (when (negb (skips skip skip_transaction_dupe_check)) (create o ;; ret tt))
            (when (negb (skips skip' skip_transaction_dupe_check)) (create o ;; ret tt)).
Proof.
  intros [-> _] s [] s' T Hr. exists T. unfold when in *. cbn [negb]. destruct (skips _ _); cbn [negb] in *; inv_ok; [done|].
  inv_store. by subst.
Qed.
Lemma independent_chain_getters which T s name : account_authority (forget T s) which name = account_authority s which name.
Proof. done. Qed.
Lemma independent_verify_transaction trx : independent (verify_transaction trx).
Proof.
  intros T s. unfold verify_transaction.
  change (transaction_authority trx (forget T s)) with (transaction_authority trx s).
  destruct (transaction_authority trx s); [done|]. change (gpo (forget T s)) with (gpo s). by destruct (_ && _).
Qed.

Lemma pure_verify trx : respects eq (verify_transaction trx).
Proof. intros s a s' Hr. symmetry. by apply (verify_transaction_pure true trx s a s'). Qed.
Lemma pure_tapos trx : respects eq (check_reference_block trx).
Proof. respects. Qed.
Lemma pure_merkle b : respects eq (check_merkle_root b).
Proof. respects. Qed.

Lemma simulates_apply_transaction skip skip' trx : fewer_checks skip skip' →
  simulates (_apply_transaction skip trx) (_apply_transaction skip' trx).
Proof.
  intros Hs. unfold _apply_transaction.
  apply simulates_bind; [apply simulates_check; [eauto|apply independent_lift|apply respects_lift; exact _]|intros _].
  apply simulates_dupe_check; [done|].
  apply simulates_bind; [apply simulates_check; [eauto|apply independent_verify_transaction|apply pure_verify]|intros _].
  apply simulates_bind; [apply simulates_self; independent_run|intros num].
  apply simulates_bind.
  { apply simulates_when, simulates_bind; [|intros _; apply simulates_self; independent_run].
    apply simulates_check; [eauto|independent_run|apply pure_tapos]. }
  intros _. apply simulates_bind; [by apply simulates_record|intros _].
  apply simulates_for_each. intros op. apply simulates_self, independent_apply_operation.
Qed.

Lemma simulates_validate_header skip skip' b : fewer_checks skip skip' →
  simulates (validate_block_header skip b) (validate_block_header skip' b).
Proof.
  intros Hs. unfold validate_block_header.
  repeat (apply simulates_bind; [apply simulates_self; independent_run|intros ?]).
  apply simulates_bind; [apply simulates_check; [eauto|independent_run|respects]|intros _].
  apply simulates_bind; [apply simulates_check; [eauto|independent_run|respects]|intros _].
  by apply simulates_self.
Qed.
Lemma simulates_global_data skip skip' b : fewer_checks skip skip' →
  simulates (update_global_dynamic_data skip b) (update_global_dynamic_data skip' b).
Proof.
  intros Hs. unfold update_global_dynamic_data.
  repeat (apply simulates_bind; [apply simulates_self; independent_run|intros ?]).
  apply simulates_check; [eauto|independent_run|respects].
Qed.
Lemma simulates_open_block skip skip' b : fewer_checks skip skip' → simulates (open_block skip b) (open_block skip' b).
Proof.
  intros Hs. unfold open_block.
  apply simulates_bind; [apply simulates_check; [eauto|independent_run|apply pure_merkle]|intros _].
  apply simulates_bind; [by apply simulates_validate_header|intros w].
  do 8 (apply simulates_bind; [apply simulates_self; independent_run|intros ?]).
  apply simulates_bind; [apply simulates_for_each; intros trx; by apply simulates_apply_transaction|intros _].
  apply simulates_bind; [by apply simulates_global_data|intros _].
  apply simulates_self. independent_run.
Qed.
Lemma simulates_close_block b : simulates (close_block b) (close_block b).
Proof.
  change (close_block b) with (create_block_summary b ;; clear_expired_transactions ;; close_rest).
  apply simulates_bind; [apply simulates_self; independent_run|intros _].
  apply simulates_bind; [apply simulates_clear_transactions|intros _]. apply simulates_self, independent_close_rest.
Qed.

(** A block, and a list of blocks, applied again with fewer checks. *)
Lemma simulates_apply_block skip skip' b : fewer_checks skip skip' → simulates (_apply_block skip b) (_apply_block skip' b).
Proof. intros Hs. apply simulates_bind; [by apply simulates_open_block|intros _; apply simulates_close_block]. Qed.
Lemma simulates_chain skip skip' bs : fewer_checks skip skip' →
  simulates (for_each bs (_apply_block skip)) (for_each bs (_apply_block skip')).
Proof. intros Hs. apply simulates_for_each. intros b. by apply simulates_apply_block. Qed.
End Blocks.
