(* ===== verification/Restart.v ===== *)
(** * Opening, closing and replaying the data directory

    [open], [reindex], [wipe] and [close] of src/src/core/chain/database.cpp and
    the start of the chain plugin (src/src/plugins/chain/chain_plugin.cpp).  The
    data directory is what the node's record keeps when it is closed: the shared
    memory (the tables, their undo states and revision) and the two files of the
    block log.  The sizes of the memory file, its locks, the benchmark and the
    notifications change no table and are left out.  After [close] the streams of the
    log no longer throw; the model lets a read that fails throw all the same, and
    the theorems are about logs that can be read. *)
From S2P Require Import Prelude Ints Config Asset Authority Headers Operations State Blocks ForkDb BlockLog Store Ledger Balances Vesting Conserve EvalFunds Market EvalAccounts Proxy Reward EvalContent Evaluators Invariants Genesis Schedule Chain Heads Independent Replay Node.

(** What the chain is called and how its keys are written. *)
Record chain_property_object := mk_chain_property_object {
  cpo_chain_id : string;
  cpo_chain_id_name : string;
  cpo_address_prefix : string
}.

(** The fields of [open_args] that matter here, and the number of block summaries
    of the genesis state (see [init_genesis_with]). *)
Record open_args := mk_open_args {
  liquid_initial_supply : Z;
  dollar_initial_supply : Z;
  block_summaries : nat;
  do_validate_invariants : bool;
  stop_replay_at : Z
}.

(** The database object of a process together with its data directory.  [chn_indexes]:
    the indexes are in [_index_map]; [chn_properties]: the object that
    [init_genesis] puts into a new memory file, with all the others. *)
Record chain := mk_chain {
  chn_node : node;
  chn_indexes : bool;
  chn_properties : option chain_property_object
}.
#[export] Instance eta_chain : Eta chain := fun r => mk_chain (chn_node r) (chn_indexes r) (chn_properties r).
#[export] Instance set_chn_node : Setter chn_node := ltac:(derive_setter chn_node).
#[export] Instance set_chn_indexes : Setter chn_indexes := ltac:(derive_setter chn_indexes).
#[export] Instance set_chn_properties : Setter chn_properties := ltac:(derive_setter chn_properties).

(** ** Computations on a chain *)

Definition D (A : Type) : Type := chain → res A * chain.

Definition d_ret {A} (a : A) : D A := fun c => (Ok a, c).
Definition d_throw {A} (e : exn) : D A := fun c => (Throw e, c).
Definition d_bind {A B} (m : D A) (k : A → D B) : D B := fun c =>
  match m c with
  | (Ok a, c') => k a c'
  | (Throw e, c') => (Throw e, c')
  end.
Definition d_catch {A} (m : D A) (h : exn → D A) : D A := fun c =>
  match m c with
  | (Throw e, c') => h e c'
  | ok => ok
  end.
Definition d_gets {A} (f : chain → A) : D A := fun c => (Ok (f c), c).
Definition d_modify (f : chain → chain) : D unit := fun c => (Ok tt, f c).
Definition d_when (b : bool) (m : D unit) : D unit := if b then m else d_ret tt.
Definition on_node {A} (m : N A) : D A := fun c =>
  let '(r, n) := m (chn_node c) in (r, c <| chn_node := n |>).

Notation "'let^' x ':=' m 'in' k" := (d_bind m (fun x => k))
  (at level 10, x pattern, m at level 200, k at level 200,
   format "'[v' 'let^'  x  ':='  m  'in' '/' k ']'") : chain_scope.
Notation "m ;;^ k" := (d_bind m (fun _ => k))
  (at level 100, k at level 200, right associativity) : chain_scope.

(** [add_index_helper]: a type that has an index gets no second one. *)
Definition type_id_in_use : exn := assert_exception "type_id is already in use".
Definition block_log_exception : exn := assert_exception "No blocks in block log. Cannot reindex an empty chain.".
Definition cannot_set_revision : exn := assert_exception "cannot set revision while there is an existing undo stack".

Definition replay_flags : Z :=
  foldl Z.lor 0 [skip_witness_signature; skip_transaction_signatures; skip_transaction_dupe_check; skip_tapos_check;
    skip_merkle_check; skip_witness_schedule_check; skip_authority_check; skip_validate; skip_validate_invariants;
    skip_block_log].

(** [ZATTERA_BLOCKCHAIN_HARDFORK_VERSION]. *)
Definition blockchain_hardfork_version : Z := 0.
Definition init_hardforks (s : database) : res unit :=
  let? _ := res_assert (hpo_last_hardfork (hardforks s) <=? ZATTERA_NUM_HARDFORKS)
    "Chain knows of more hardforks than configuration" in
  let? v := hardfork_at hardfork_versions (hpo_last_hardfork (hardforks s)) in
  let? _ := res_assert (v <=? blockchain_version) "Blockchain version is older than last applied hardfork" in
  let? _ := res_assert (blockchain_hardfork_version >=? blockchain_version) "" in
  let? v := hardfork_at hardfork_versions ZATTERA_NUM_HARDFORKS in
  res_assert (blockchain_hardfork_version =? v) "".

(** The shared memory without an object; [_is_producing] is no object. *)
Definition new_memory (n : node) : node :=
  n <| nd_db ::= fun s => empty_database <| is_producing := is_producing s |> |> <| nd_undo := [] |> <| nd_revision := 0 |>.
Definition undo_all (n : node) : node := Nat.iter (length (nd_undo n)) undo n.
Definition set_revision (r : Z) : N unit :=
  let+ l := n_gets nd_undo in
  match l with
  | [] => n_modify (fun n => n <| nd_revision := r |>)
  | _ => n_throw cannot_set_revision
  end.

(** [block_log::close]. *)
Definition close_log (l : block_log) : block_log := mk_block_log (block_file l) (index_file l) None null_id.

Definition close : D unit :=
  on_node (
    n_modify clear_pending ;;;
    n_modify (fun n => n <| nd_log ::= close_log |>) ;;;
    on_fork ForkDb.reset).

Definition wipe (include_blocks : bool) : D unit :=
  close ;;^
  d_modify (fun c => c <| chn_node ::= new_memory |> <| chn_indexes := false |> <| chn_properties := None |>) ;;^
  d_when include_blocks (d_modify (fun c => c <| chn_node ::= fun n => n <| nd_log := empty_block_log |> |>)).

Section Restart.
Context `{Codec, DiffPatch, Crypto, Packing}.
(** The chain the node is configured for. *)
Context (config : chain_property_object).

Definition initialize_indexes : D unit :=
  let^ registered := d_gets chn_indexes in
  if registered then d_throw type_id_in_use else d_modify (fun c => c <| chn_indexes := true |>).

Definition open_genesis (args : open_args) : D unit :=
  let^ properties := d_gets chn_properties in
  match properties with
  | Some _ => d_ret tt
  | None =>
      on_node (on_db (init_genesis_with (block_summaries args) (liquid_initial_supply args) (dollar_initial_supply args))) ;;^
      d_modify (fun c => c <| chn_properties := Some config |>)
  end.

Definition open_block_log : N unit :=
  let+ l := n_gets nd_log in
  let+ l := n_lift (open_log (block_file l) (index_file l)) in
  n_modify (fun n => n <| nd_log := l |>).

Definition rewind (args : open_args) : N unit :=
  n_modify undo_all ;;;
  let+ n := n_gets Datatypes.id in
  n_assert (nd_revision n =? head_block_number n) "Chainbase revision does not match head block num" ;;;
  n_when (do_validate_invariants args) (n_lift (validate_invariants (nd_db n))).

Definition start_fork_db : N unit :=
  let+ n := n_gets Datatypes.id in
  let+ head_block := n_lift (read_block_by_num (nd_log n) (head_block_number n)) in
  match head_block with
  | Some b =>
      n_assert (bool_decide (block_id b = head_block_id n)) "Chain state does not match block log. Please reindex blockchain." ;;;
      on_fork (start_block b)
  | None => n_throw (assert_exception "Chain state does not match block log. Please reindex blockchain.")
  end.

Definition verify_chain_properties : D unit :=
  let^ properties := d_gets chn_properties in
  match properties with
  | Some cpo =>
      on_node (
        n_assert (bool_decide (cpo_chain_id cpo = cpo_chain_id config)) "Chain ID mismatch" ;;;
        n_assert (bool_decide (cpo_address_prefix cpo = cpo_address_prefix config)) "Address prefix mismatch")
  | None => d_throw (key_not_found "chain_property_object")
  end.

Definition open (args : open_args) : D unit :=
  initialize_indexes ;;^
  open_genesis args ;;^
  on_node open_block_log ;;^
  on_node (rewind args) ;;^
  let^ head := d_gets (fun c => head_block_number (chn_node c)) in
  d_when (negb (head =? 0)) (on_node start_fork_db ;;^ verify_chain_properties) ;;^
  let^ s := d_gets (fun c => nd_db (chn_node c)) in
  on_node (n_lift (init_hardforks s)).

(** The loop of [reindex].  Every round reads on by at least the eight bytes of a
    position, so the length of the file bounds the rounds. *)
Fixpoint replay_from (fuel : nat) (last_block_num : Z) (itr : signed_block * Z) : N Z :=
  match fuel with
  | O => n_throw out_of_fuel
  | S fuel' =>
      apply_block itr.1 replay_flags ;;;
      if block_num itr.1 =? last_block_num then n_ret (block_num itr.1)
      else
        let+ l := n_gets nd_log in
        let+ itr := n_lift (read_block l itr.2) in
        replay_from fuel' last_block_num itr
  end.

Definition last_to_replay (stop last_block_num : Z) : Z :=
  if (stop >? 0) && (stop <? last_block_num) then stop else last_block_num.

Definition replay_log (args : open_args) (head : signed_block) : N Z :=
  let+ l := n_gets nd_log in
  let+ itr := n_lift (read_block l 0) in
  let+ last_block_number :=
    replay_from (S (length (block_file l))) (last_to_replay (stop_replay_at args) (block_num head)) itr in
  let+ num := n_gets head_block_number in
  set_revision num ;;;
  n_ret last_block_number.

Definition reindex (args : open_args) : D Z :=
  wipe false ;;^
  open args ;;^
  on_node (on_fork ForkDb.reset) ;;^
  let^ head := d_gets (fun c => log_head (nd_log (chn_node c))) in
  match head with
  | None => d_throw block_log_exception
  | Some head =>
      let^ last_block_number := on_node (replay_log args head) in
      d_when (negb (block_num head =? 0)) (on_node (on_fork (start_block head))) ;;^
      d_ret last_block_number
  end.

(** The chain plugin *)

Record plugin_options := mk_plugin_options {
  opt_resync : bool;
  opt_replay : bool;
  loaded_checkpoints : list (Z * block_id_type)
}.

(** Returns whether the node goes on to run. *)
Definition plugin_startup (options : plugin_options) (args : open_args) : D bool :=
  d_when (opt_resync options) (wipe true) ;;^
  on_node (add_checkpoints (loaded_checkpoints options)) ;;^
  if opt_replay options then
    let^ last_block_number := reindex args in
    d_ret (negb ((stop_replay_at args >? 0) && (stop_replay_at args =? last_block_number)))
  else
    d_catch (open args) (fun _ =>
      d_catch (reindex args ;;^ d_ret tt) (fun e =>
        if bool_decide (e = block_log_exception) then open args else d_throw e)) ;;^
    d_ret true.
End Restart.

(** A new process on the data directory of [c], left by [close] or in any other
    state in which no block is being applied. *)
Definition restarted (c : chain) : chain :=
  let n := chn_node c in
  mk_chain (mk_node ((nd_db n) <| is_producing := false |>) (nd_undo n) (nd_revision n) empty_fork_database
    (close_log (nd_log n)) [] false [] 0 []) false (chn_properties c).

(** ** Steps that succeed *)

Lemma d_bind_run {A B} (m : D A) (k : A → D B) c a c1 : m c = (Ok a, c1) → d_bind m k c = k a c1.
Proof. unfold d_bind. by intros ->. Qed.
Lemma n_bind_run {A B} (m : N A) (k : A → N B) n a n1 : m n = (Ok a, n1) → n_bind m k n = k a n1.
Proof. unfold n_bind. by intros ->. Qed.
Lemma on_node_run {A} (m : N A) c r n : m (chn_node c) = (r, n) → on_node m c = (r, c <| chn_node := n |>).
Proof. unfold on_node. by intros ->. Qed.

(** ** Replaying *)

(** The blocks that [reindex] applies. *)
Definition replayed (stop : Z) (bs : list signed_block) : list signed_block :=
  take (Z.to_nat (last_to_replay stop (Z.of_nat (length bs)))) bs.

(** A node between the blocks of a replay. *)
Record idle (log : block_log) (n : node) : Prop := {
  idle_undo : nd_undo n = [];
  idle_revision : nd_revision n = 0;
  idle_fork : _head (nd_fork n) = None;
  idle_log : nd_log n = log;
  idle_checkpoints : nd_checkpoints n = []
}.

Section Replay.
Context `{Codec, DiffPatch, Crypto, Packing}.

Lemma set_max_size_idle m (f : fork_database) : _head f = None → ∃ f', set_max_size m f = Ok (tt, f') ∧ _head f' = None.
Proof.
  intros Hf. unfold set_max_size. erewrite bind_run by reflexivity. erewrite bind_run by reflexivity.
  unfold upd at 1. cbn [_head]. rewrite Hf. by eexists.
Qed.

Lemma apply_block_idle log b n s : idle log n → Chain._apply_block replay_flags b (nd_db n) = Ok (tt, s) →
  ∃ n', apply_block b replay_flags n = (Ok tt, n') ∧ idle log n' ∧ nd_db n' = s.
Proof.
  intros [Hu Hr Hf Hl Hc] ([] & s1 & Ho & Hs)%bind_ok. destruct n as [db un rev fk lg ptx ps pop sk cp]. cbn in Hu, Hr, Hf, Hl, Hc, Ho, Hs. subst un rev lg cp.
  destruct (set_max_size_idle (wrap_u32 (gpo_head_block_number (gpo s1) - gpo_last_irreversible_block_num (gpo s1) + 1)) fk Hf)
    as (fk' & Hm & Hf').
  eexists. split.
  - unfold apply_block. erewrite n_bind_run by reflexivity. erewrite n_bind_run by reflexivity.
    unfold with_skip_flags, n_finally, _apply_block. cbv beta zeta. erewrite n_bind_run by reflexivity.
    erewrite n_bind_run by (unfold on_db; cbn; rewrite Ho; reflexivity).
    erewrite n_bind_run.
    2:{ unfold settle_irreversible. erewrite n_bind_run by reflexivity. erewrite n_bind_run by reflexivity.
        erewrite n_bind_run by reflexivity. erewrite n_bind_run by reflexivity.
        unfold on_fork, upd. cbn. rewrite Hm. reflexivity. }
    unfold on_db, upd. cbn. rewrite Hs. reflexivity.
  - cbn. by split.
Qed.

Lemma last_to_replay_bounds stop n : 0 < n → 0 < last_to_replay stop n ≤ n.
Proof. intros Hn. unfold last_to_replay. destruct (Z.gtb_spec stop 0); [destruct (Z.ltb_spec stop n)|]; cbn; lia. Qed.
Lemma replayed_length stop bs : bs ≠ [] →
  Z.of_nat (length (replayed stop bs)) = last_to_replay stop (Z.of_nat (length bs)).
Proof.
  intros Hb. destruct (last_to_replay_bounds stop (Z.of_nat (length bs))) as [Hl Hu]; [destruct bs; cbn; [done|lia]|].
  unfold replayed. rewrite length_take. lia.
Qed.
Lemma entries_length pos bs : (length bs ≤ length (entries pos bs))%nat.
Proof.
  revert pos. induction bs as [|b bs IH]; intros pos; cbn [entries length]; [lia|].
  rewrite !length_app. unfold write_pos. rewrite le_bytes_length. specialize (IH (pos + Z.of_nat (length (pack_block b)) + 8)). lia.
Qed.
Lemma number_of_middle l b r : storable (l ++ b :: r) → block_num b = Z.of_nat (length l) + 1.
Proof. intros Hs. apply (numbered _ Hs (length l)). by rewrite lookup_app_r, Nat.sub_diag by lia. Qed.

(** The loop applies the blocks one after the other, up to the last one asked for. *)
Lemma replay_from_run r l b rest fuel n s :
  storable (l ++ b :: r ++ rest) → idle (log_of (l ++ b :: r ++ rest)) n → (length r < fuel)%nat →
  for_each (b :: r) (Chain._apply_block replay_flags) (nd_db n) = Ok (tt, s) →
  ∃ n', replay_from fuel (Z.of_nat (length (l ++ b :: r))) (b, file_size (entries 0 (l ++ [b]))) n
        = (Ok (Z.of_nat (length (l ++ b :: r))), n') ∧
    idle (log_of (l ++ b :: r ++ rest)) n' ∧ nd_db n' = s.
Proof.
  revert l b fuel n. induction r as [|c r IH]; intros l b [|fuel] n Hs Hi Hf ([] & s1 & Hb & Hr)%bind_ok; cbn [length] in *; try lia.
  all: destruct (apply_block_idle _ _ _ _ Hi Hb) as (n1 & Ha & Hi1 & Hd); cbn [replay_from fst snd].
  all: rewrite (n_bind_run _ _ _ _ _ Ha), (number_of_middle _ _ _ Hs), length_app; cbn [length].
  - rewrite (proj2 (Z.eqb_eq _ _)) by lia. injection Hr as <-. exists n1. split_and!; [|done..].
    unfold n_ret. do 2 f_equal. lia.
  - rewrite (proj2 (Z.eqb_neq _ _)) by lia. erewrite n_bind_run by reflexivity. rewrite (idle_log _ _ Hi1).
    assert (l ++ b :: (c :: r) ++ rest = (l ++ [b]) ++ c :: r ++ rest) as E by by rewrite <- app_assoc.
    rewrite E in *. unfold read_block, log_of at 1. erewrite n_bind_run.
    2:{ unfold n_lift. by rewrite read_block_at. }
    destruct (IH (l ++ [b]) c fuel n1) as (n' & Hn & ?); [done..|lia|by rewrite Hd|].
    exists n'. split; [|done]. rewrite length_app in Hn. cbn [length] in Hn. rewrite length_app in Hn. cbn [length] in Hn.
    replace (Z.of_nat (length l + S (S (length r)))) with (Z.of_nat (length l + 1 + S (length r))) by lia. exact Hn.
Qed.

Lemma replay_log_run args bs z n s : storable (bs ++ [z]) → idle (log_of (bs ++ [z])) n →
  for_each (replayed (stop_replay_at args) (bs ++ [z])) (Chain._apply_block replay_flags) (nd_db n) = Ok (tt, s) →
  ∃ n', replay_log args z n = (Ok (Z.of_nat (length (replayed (stop_replay_at args) (bs ++ [z])))), n') ∧
    idle (log_of (bs ++ [z])) (n' <| nd_revision := 0 |>) ∧ nd_db n' = s ∧ nd_revision n' = gpo_head_block_number (gpo s).
Proof.
  intros Hs Hi. pose proof (replayed_length (stop_replay_at args) (bs ++ [z])) as Hn. unfold replayed in *.
  set (k := Z.to_nat _) in *. pose proof (take_drop k (bs ++ [z])) as Hsplit.
  assert (block_num z = Z.of_nat (length (bs ++ [z]))) as Hz by (rewrite (number_of_middle _ _ _ Hs), length_app; cbn; lia).
  set (all := bs ++ [z]) in *. intros Hr.
  destruct (take k all) as [|b r] eqn:Et.
  { exfalso. assert (all ≠ []) as Ha by (unfold all; by destruct bs). specialize (Hn Ha).
    pose proof (last_to_replay_bounds (stop_replay_at args) (Z.of_nat (length all))) as Hb.
    unfold all in *. rewrite length_app in *. cbn in *. lia. }
  rewrite <- Hsplit in Hs, Hi. destruct (replay_from_run r [] b (drop k all) (S (length (entries 0 all))) n s) as (n' & Hrun & Hi' & Hd); [done..| |done|].
  { pose proof (entries_length 0 all). apply (f_equal length) in Hsplit as Hlen. rewrite length_app in Hlen. cbn in Hlen. lia. }
  cbn [app] in *. rewrite Hsplit in Hi'. exists (n' <| nd_revision := gpo_head_block_number (gpo s) |>). split_and!; [|by destruct Hi'; split|done..].
  unfold replay_log. erewrite n_bind_run by reflexivity. rewrite (idle_log _ _ Hi).
  unfold read_block, log_of at 1. erewrite n_bind_run.
  2:{ unfold n_lift. rewrite (read_block_at [] b (r ++ drop k all)) by done. reflexivity. }
  rewrite Hz, <- Hn by (unfold all; by destruct bs).
  cbn [block_file log_of]. rewrite Hsplit. erewrite n_bind_run by exact Hrun.
  erewrite n_bind_run by reflexivity. erewrite n_bind_run; [reflexivity|].
  unfold set_revision. erewrite n_bind_run by reflexivity. rewrite (idle_undo _ _ Hi'). unfold n_modify, head_block_number. by rewrite Hd.
Qed.

(** ** Opening a new directory *)

Lemma genesis_opens k liquid dollar s : init_genesis_with k liquid dollar empty_database = Ok (tt, s) →
  gpo_head_block_number (gpo s) = 0 ∧ init_hardforks s = Ok tt ∧ is_producing s = false.
Proof.
  unfold init_genesis_with, init_properties. cbn [for_each seq ZATTERA_NUM_GENESIS_WITNESSES]. unfold init_witness.
  rewrite bool_decide_eq_true_2 by done. generalize (wrap_i64 liquid) (wrap_i64 dollar). intros L D0.
  erewrite bind_run; [|vm_compute; reflexivity].
  erewrite bind_run; [|vm_compute; reflexivity].
  erewrite bind_run; [|vm_compute; reflexivity].
  match goal with |- context [bind (init_block_summaries _) _ ?s] =>
    destruct (init_block_summaries_ok k s) as (t & Ht); [intros i [? [=]]|] end.
  erewrite bind_run; [|exact Ht]. vm_compute. intros [= <-]. split_and!; reflexivity.
Qed.

Context (config : chain_property_object).

(** [open] on a memory file without objects. *)
Lemma open_new_memory args c s0 log :
  chn_indexes c = false → chn_properties c = None →
  nd_db (chn_node c) = empty_database → nd_undo (chn_node c) = [] → nd_revision (chn_node c) = 0 →
  init_genesis_with (block_summaries args) (liquid_initial_supply args) (dollar_initial_supply args) empty_database = Ok (tt, s0) →
  open_log (block_file (nd_log (chn_node c))) (index_file (nd_log (chn_node c))) = Ok log →
  (do_validate_invariants args = true → validate_invariants s0 = Ok tt) →
  open config args c = (Ok tt, mk_chain ((chn_node c) <| nd_db := s0 |> <| nd_log := log |>) true (Some config)).
Proof.
  intros Hx Hp Hd Hu Hr Hg Hl Hv. pose proof (genesis_opens _ _ _ _ Hg) as (Hh & Hf & _).
  destruct c as [[db un rev fk lg ptx ps pop sk cp] x p]. cbn in Hx, Hp, Hd, Hu, Hr, Hl. subst x p db un rev.
  unfold open. erewrite d_bind_run by reflexivity.
  erewrite d_bind_run.
  2:{ unfold open_genesis, d_bind, on_node, on_db. cbn -[init_genesis_with]. rewrite Hg. reflexivity. }
  erewrite d_bind_run.
  2:{ apply on_node_run. unfold open_block_log. erewrite n_bind_run by reflexivity.
      erewrite n_bind_run; [reflexivity|]. unfold n_lift. by f_equal. }
  erewrite d_bind_run.
  2:{ apply on_node_run. unfold rewind, undo_all. erewrite n_bind_run by reflexivity. erewrite n_bind_run by reflexivity.
      erewrite n_bind_run.
      2:{ unfold n_assert, n_lift, head_block_number. cbn. rewrite Hh. reflexivity. }
      unfold n_when, n_lift, n_ret. cbn -[validate_invariants]. destruct (do_validate_invariants args); [by rewrite Hv|done]. }
  erewrite d_bind_run by reflexivity. unfold head_block_number. cbn [chn_node nd_db upd].
  erewrite d_bind_run.
  2:{ cbn -[d_when]. rewrite Hh. reflexivity. }
  erewrite d_bind_run by reflexivity. unfold on_node, n_lift. cbn -[init_hardforks]. by rewrite Hf.
Qed.

Lemma clear_pending_keeps n : nd_log (clear_pending n) = nd_log n ∧ nd_checkpoints (clear_pending n) = nd_checkpoints n ∧
  is_producing (nd_db (clear_pending n)) = is_producing (nd_db n).
Proof.
  unfold clear_pending, reset_pending_session, undo. destruct n as [db un rev fk lg ptx ps pop sk cp]. cbn.
  destruct ps; [|done]. by destruct un as [|[r s] un].
Qed.
Lemma wipe_run c : is_producing (nd_db (chn_node c)) = false → ∃ n, wipe false c = (Ok tt, mk_chain n false None) ∧
  nd_db n = empty_database ∧ nd_undo n = [] ∧ nd_revision n = 0 ∧ nd_log n = close_log (nd_log (chn_node c)) ∧
  nd_checkpoints n = nd_checkpoints (chn_node c).
Proof.
  intros Hp. destruct c as [n x p]. cbn [chn_node] in *. destruct (clear_pending_keeps n) as (Hl & Hc & Hf).
  eexists. split; [reflexivity|]. unfold on_fork, new_memory. cbn -[clear_pending]. rewrite Hf, Hp, Hc, Hl. done.
Qed.

(** C10: replaying the block log ends in the state that the blocks led to when they
    were first applied, with every check: the tables are the same but for the
    records of transactions, which only the duplicate check reads; the undo
    stack is empty, the revision the number of the head block, and the last block
    of the log the head of the fork database. *)
Theorem reindex_reproduces args c bs z skip s0 s :
  storable (bs ++ [z]) →
  open_log (block_file (nd_log (chn_node c))) (index_file (nd_log (chn_node c))) = Ok (log_of (bs ++ [z])) →
  is_producing (nd_db (chn_node c)) = false → nd_checkpoints (chn_node c) = [] →
  init_genesis_with (block_summaries args) (liquid_initial_supply args) (dollar_initial_supply args) empty_database = Ok (tt, s0) →
  (do_validate_invariants args = true → validate_invariants s0 = Ok tt) →
  fewer_checks skip replay_flags →
  for_each (replayed (stop_replay_at args) (bs ++ [z])) (Chain._apply_block skip) s0 = Ok (tt, s) →
  ∃ c' T p, let n' := chn_node c' in
    reindex config args c = (Ok (Z.of_nat (length (replayed (stop_replay_at args) (bs ++ [z])))), c') ∧
    nd_db n' = forget T s ∧ nd_undo n' = [] ∧ nd_revision n' = gpo_head_block_number (gpo s) ∧
    nd_log n' = log_of (bs ++ [z]) ∧ _head (nd_fork n') = Some p ∧ fdb_heap (nd_fork n') !! p = Some (make_fork_item z) ∧
    chn_properties c' = Some config.
Proof.
  intros Hs Hl Hp Hc Hg Hv Hf Hr. destruct (wipe_run c Hp) as (n & Hw & Hd & Hu & Hrev & Hlog & Hcp).
  pose proof (open_new_memory args (mk_chain n false None) s0 (log_of (bs ++ [z])) eq_refl eq_refl Hd Hu Hrev Hg) as Ho.
  cbn [chn_node] in Ho. rewrite Hlog in Ho. specialize (Ho Hl Hv).
  destruct (simulates_chain skip replay_flags _ Hf _ _ _ (transaction_index s0) Hr) as [T Ht].
  set (n0 := n <| nd_db := s0 |> <| nd_log := log_of (bs ++ [z]) |> <| nd_fork ::= fun f => f <| _head := None |> <| _index := [] |> |>).
  destruct (replay_log_run args bs z n0 (forget T s)) as (n1 & Hrun & Hi & Hdb & Hrev1); [done| | |].
  { split; cbn; congruence. }
  { assert (forget (transaction_index s0) s0 = s0) as E by by destruct s0. by rewrite E in Ht. }
  assert (block_num z ≠ 0) as Hz by (rewrite (number_of_middle _ _ _ Hs); lia).
  exists (mk_chain (n1 <| nd_fork ::= fun f => f <| fdb_heap ::= <[fdb_next f := make_fork_item z]> |> <| fdb_next := S (fdb_next f) |>
    |> <| nd_fork ::= fun f => f <| _index := insert_item f (fdb_next (nd_fork n1)) (_index f) |> <| _head := Some (fdb_next (nd_fork n1)) |> |>)
    true (Some config)), T, (fdb_next (nd_fork n1)). destruct Hi as [Hu1 _ _ Hl1 _].
  split_and!; [|done..|cbn; by rewrite lookup_insert_eq|done].
  unfold reindex. rewrite (d_bind_run _ _ _ _ _ Hw), (d_bind_run _ _ _ _ _ Ho).
  erewrite d_bind_run by reflexivity. erewrite d_bind_run by reflexivity. cbn [chn_node nd_log upd log_of log_head].
  change (log_head (nd_log _)) with (list.last (bs ++ [z])). rewrite last_snoc.
  erewrite d_bind_run by exact (on_node_run _ (mk_chain n0 true (Some config)) _ _ Hrun).
  rewrite (proj2 (Z.eqb_neq _ _) Hz). reflexivity.
Qed.

(** ** Opening what an earlier process left *)

(** The state below every undo state: that of the last irreversible block. *)
Definition base (n : node) : database := from_option snd (nd_db n) (list.last (nd_undo n)).

Lemma undo_all_base n : undo_all n =
  n <| nd_db := (base n) <| is_producing := is_producing (nd_db n) |> |> <| nd_undo := [] |>
    <| nd_revision := nd_revision n - Z.of_nat (length (nd_undo n)) |>.
Proof.
  unfold undo_all, base. destruct n as [db un rev fk lg ptx ps pop sk cp]. cbn [nd_undo nd_db nd_revision upd].
  revert db rev. induction un as [|[r s] un IH]; intros db rev; cbn [length].
  - cbn [Nat.iter]. unfold upd. cbn. rewrite Z.sub_0_r. by destruct db.
  - rewrite Nat.iter_succ_r. unfold undo at 2, upd. cbn [nd_undo nd_db nd_revision]. etrans; [apply IH|].
    assert (∀ s', from_option snd s' (list.last un) = from_option snd db (list.last ((r, s) :: un)) ∨ un = []) as Hl.
    { intros s'. destruct un as [|q un]; [by right|left]. change (list.last ((r, s) :: q :: un)) with (list.last (q :: un)).
      destruct (list.last (q :: un)) eqn:E; [done|]. by apply last_None in E. }
    unfold upd, set_nd_undo, set_nd_db, set_nd_revision. cbn [nd_undo nd_db nd_revision]. f_equal; [|cbn [length]; lia].
    match goal with |- context [from_option snd ?s' (list.last un)] => destruct (Hl s') as [-> | ->] end; done.
Qed.

(** A memory file with objects, opened by a new process, up to the fork database. *)
Lemma open_existing args c cpo log : let n := chn_node c in let s := (base n) <| is_producing := false |> in
  chn_properties c = Some cpo →
  open_log (block_file (nd_log n)) (index_file (nd_log n)) = Ok log →
  nd_revision n - Z.of_nat (length (nd_undo n)) = gpo_head_block_number (gpo s) →
  (do_validate_invariants args = true → validate_invariants s = Ok tt) →
  open config args (restarted c) =
    (d_when (negb (gpo_head_block_number (gpo s) =? 0)) (on_node start_fork_db ;;^ verify_chain_properties config) ;;^
     let^ s := d_gets (fun c => nd_db (chn_node c)) in on_node (n_lift (init_hardforks s)))
    (mk_chain (mk_node s [] (gpo_head_block_number (gpo s)) empty_fork_database log [] false [] 0 []) true (Some cpo)).
Proof.
  intros n s Hp Hl Hr Hv. destruct c as [[db un rev fk lg ptx ps pop sk cp] x p]. cbn in Hp, Hl, Hr. subst p n.
  assert (∀ lg', undo_all (mk_node (db <| is_producing := false |>) un rev empty_fork_database lg' [] false [] 0 []) =
    mk_node s [] (gpo_head_block_number (gpo s)) empty_fork_database lg' [] false [] 0 []) as Hu.
  { intros lg'. rewrite undo_all_base. assert (∀ n : node, base n = from_option snd (nd_db n) (list.last (nd_undo n))) as Eb by done.
    unfold upd, set_nd_undo, set_nd_db, set_nd_revision. cbn [nd_undo nd_db nd_revision]. rewrite Hr.
    f_equal. unfold s. rewrite !Eb. cbn [nd_db nd_undo chn_node]. by destruct (list.last un). }
  unfold open, restarted. erewrite d_bind_run by reflexivity. erewrite d_bind_run by reflexivity.
  erewrite d_bind_run.
  2:{ apply on_node_run. unfold open_block_log. erewrite n_bind_run by reflexivity.
      erewrite n_bind_run; [reflexivity|]. unfold n_lift. by f_equal. }
  erewrite d_bind_run.
  2:{ apply on_node_run. unfold rewind. erewrite n_bind_run by reflexivity.
      match goal with |- context [undo_all ?m] =>
        change m with (mk_node (db <| is_producing := false |>) un rev empty_fork_database log [] false [] 0 []) end. rewrite Hu.
      erewrite n_bind_run by reflexivity. erewrite n_bind_run.
      2:{ unfold n_assert, n_lift, head_block_number, Datatypes.id. cbn [nd_revision nd_db]. rewrite Z.eqb_refl. reflexivity. }
      unfold n_when, n_lift, n_ret. cbn -[validate_invariants s]. destruct (do_validate_invariants args); [by rewrite Hv|done]. }
  erewrite d_bind_run by reflexivity. reflexivity.
Qed.

(** What a process finds on the disk when the log ends in the block [z] up to which
    the memory keeps no undo state. *)
Record consistent (c : chain) (bs : list signed_block) (z : signed_block) : Prop := {
  stored_log : open_log (block_file (nd_log (chn_node c))) (index_file (nd_log (chn_node c))) = Ok (log_of (bs ++ [z]));
  stored_revision : nd_revision (chn_node c) - Z.of_nat (length (nd_undo (chn_node c))) =
    gpo_head_block_number (gpo (base (chn_node c)));
  stored_number : gpo_head_block_number (gpo (base (chn_node c))) = Z.of_nat (length (bs ++ [z]));
  stored_id : gpo_head_block_id (gpo (base (chn_node c))) = block_id z;
  stored_hardforks : init_hardforks (base (chn_node c)) = Ok tt
}.

Lemma start_fork_db_run bs z s rev : storable (bs ++ [z]) → Z.of_nat (length (bs ++ [z])) < 2 ^ 32 →
  gpo_head_block_number (gpo s) = Z.of_nat (length (bs ++ [z])) → gpo_head_block_id (gpo s) = block_id z →
  ∃ f, start_fork_db (mk_node s [] rev empty_fork_database (log_of (bs ++ [z])) [] false [] 0 []) =
    (Ok tt, mk_node s [] rev f (log_of (bs ++ [z])) [] false [] 0 []) ∧
    _head f = Some 0%nat ∧ fdb_heap f !! 0%nat = Some (make_fork_item z).
Proof.
  intros Hs Hb Hn Hi. eexists. split.
  - unfold start_fork_db. erewrite n_bind_run by reflexivity. erewrite n_bind_run.
    2:{ unfold n_lift, head_block_number, Datatypes.id. cbn [nd_log nd_db]. rewrite Hn, read_at by (done || lia).
        rewrite length_app in *. cbn [length] in *. rewrite (proj2 (Z.eqb_neq _ _)) by lia.
        rewrite (list_lookup_middle bs [] z) by lia. reflexivity. }
    cbv beta iota. unfold head_block_id, Datatypes.id. cbn [nd_db]. rewrite Hi, bool_decide_eq_true_2 by done.
    erewrite n_bind_run by reflexivity. reflexivity.
  - by split.
Qed.

(** C11: a process that is started on the data directory of another one goes back to the
    last irreversible block: [open] undoes every undo state, also when the other
    process was not closed, and takes the last block of the log as the head of the
    fork database. *)
Theorem restart_rewinds args c cpo bs z : consistent c bs z → storable (bs ++ [z]) → Z.of_nat (length (bs ++ [z])) < 2 ^ 32 →
  chn_properties c = Some cpo → cpo_chain_id cpo = cpo_chain_id config → cpo_address_prefix cpo = cpo_address_prefix config →
  (do_validate_invariants args = true → validate_invariants (base (chn_node c)) = Ok tt) →
  ∃ c' p, let n' := chn_node c' in
    open config args (restarted c) = (Ok tt, c') ∧
    nd_db n' = (base (chn_node c)) <| is_producing := false |> ∧ nd_undo n' = [] ∧ nd_pending_tx n' = [] ∧
    nd_revision n' = Z.of_nat (length (bs ++ [z])) ∧ nd_log n' = log_of (bs ++ [z]) ∧
    _head (nd_fork n') = Some p ∧ fdb_heap (nd_fork n') !! p = Some (make_fork_item z).
Proof.
  intros [Hl Hr Hn Hi Hf] Hs Hb Hp Hid Hpre Hv.
  set (s := (base (chn_node c)) <| is_producing := false |>).
  destruct (start_fork_db_run bs z s (gpo_head_block_number (gpo s)) Hs Hb Hn Hi) as (f & Hst & Hhead & Hheap).
  exists (mk_chain (mk_node s [] (gpo_head_block_number (gpo s)) f (log_of (bs ++ [z])) [] false [] 0 []) true (Some cpo)), 0%nat.
  split_and!; try done. rewrite (open_existing args c cpo _ Hp Hl Hr Hv). fold s.
  change (gpo_head_block_number (gpo s)) with (gpo_head_block_number (gpo (base (chn_node c)))) at 1. rewrite Hn.
  rewrite (proj2 (Z.eqb_neq _ _)) by (rewrite length_app; cbn; lia). cbn [negb d_when].
  erewrite d_bind_run.
  2:{ erewrite d_bind_run by (apply on_node_run; exact Hst).
      unfold verify_chain_properties. erewrite d_bind_run by reflexivity. cbn -[d_bind n_bind].
      apply on_node_run. unfold n_assert. rewrite Hid, Hpre, !bool_decide_eq_true_2 by done. reflexivity. }
  erewrite d_bind_run by reflexivity. apply on_node_run. unfold n_lift. f_equal. exact Hf.
Qed.

(** C27: the chain plugin means to start an empty chain when the memory does not fit and
    there is no block log to replay.  It cannot: [reindex] has opened the new
    memory before it finds the log empty, and opening it a second time fails,
    because the indexes are registered already.  The process ends; the next one
    starts, on the memory that this one has left. *)
Theorem resync_fallback_fails options args c e c1 s0 :
  opt_resync options = false → opt_replay options = false →
  open config args (c <| chn_node ::= fun n => (add_checkpoints (loaded_checkpoints options) n).2 |>) = (Throw e, c1) →
  block_file (nd_log (chn_node c1)) = [] → is_producing (nd_db (chn_node c1)) = false →
  init_genesis_with (block_summaries args) (liquid_initial_supply args) (dollar_initial_supply args) empty_database = Ok (tt, s0) →
  (do_validate_invariants args = true → validate_invariants s0 = Ok tt) →
  ∃ c2 c3, plugin_startup config options args c = (Throw type_id_in_use, c2) ∧
    open config args (restarted c2) = (Ok tt, c3) ∧ nd_db (chn_node c3) = s0.
Proof.
  intros Hrs Hrp Ho Hb Hp Hg Hv. destruct (wipe_run c1 Hp) as (n & Hw & Hd & Hu & Hrev & Hlog & _).
  assert (∀ i : list Z, open_log [] i = Ok empty_block_log) as Hempty by done.
  pose proof (open_new_memory args (mk_chain n false None) s0 empty_block_log eq_refl eq_refl Hd Hu Hrev Hg) as Ho2.
  cbn [chn_node] in Ho2. rewrite Hlog in Ho2. cbn [close_log block_file index_file] in Ho2. rewrite Hb in Ho2. specialize (Ho2 (Hempty _) Hv).
  set (c2 := mk_chain (n <| nd_db := s0 |> <| nd_log := empty_block_log |> <| nd_fork ::= fun f => f <| _head := None |> <| _index := [] |> |>) true (Some config)).
  assert (reindex config args c1 = (Throw block_log_exception, c2)) as Hre.
  { unfold reindex. rewrite (d_bind_run _ _ _ _ _ Hw), (d_bind_run _ _ _ _ _ Ho2).
    erewrite d_bind_run by reflexivity. reflexivity. }
  pose proof (genesis_opens _ _ _ _ Hg) as (Hh0 & Hf0 & Hp0).
  assert (s0 <| is_producing := false |> = s0) as Es by (destruct s0; cbn in Hp0; by subst).
  exists c2. eexists. split_and!.
  - unfold plugin_startup. rewrite Hrs, Hrp. erewrite d_bind_run by reflexivity. erewrite d_bind_run by reflexivity.
    unfold d_bind at 1, d_catch at 1. change (c <| chn_node ::= _ |>) with (c <| chn_node ::= fun n => (add_checkpoints (loaded_checkpoints options) n).2 |>) in Ho.
    match goal with |- context [open config args ?c0] => change (open config args c0) with
      (open config args (c <| chn_node ::= fun n => (add_checkpoints (loaded_checkpoints options) n).2 |>)) end. rewrite Ho.
    unfold d_catch, d_bind at 1. rewrite Hre. rewrite bool_decide_eq_true_2 by done. reflexivity.
  - rewrite (open_existing args c2 config empty_block_log); [|done|done| |].
    + unfold base, c2. cbn -[init_hardforks]. rewrite Hu. cbn -[init_hardforks]. rewrite Hh0.
      erewrite d_bind_run by reflexivity. erewrite d_bind_run by reflexivity.
      apply on_node_run. unfold n_lift. f_equal. exact Hf0.
    + unfold base, c2. cbn. rewrite Hu, Hrev. cbn. by rewrite Hh0.
    + unfold base, c2. cbn -[validate_invariants]. rewrite Hu. cbn -[validate_invariants]. intros Hvi. exact (Hv Hvi).
  - exact Es.
Qed.
End Replay.

(** ** A chain of two blocks *)

Lemma fewer_checks_none : fewer_checks 0 replay_flags.
Proof. split; [reflexivity|]. intros flag. by rewrite (eq_refl : skips 0 flag = false). Qed.

Section Runs.
#[local] Existing Instance sample_codec.
#[local] Existing Instance sample_patch.
#[local] Existing Instance sample_crypto.

Let trx := sample_transfer [ZATTERA_GENESIS_PUBLIC_KEY].
Definition logged_block (prev : block_id_type) (seconds : Z) (txs : list signed_transaction) : signed_block :=
  mk_signed_block prev (ZATTERA_GENESIS_TIME + seconds) "genesis" (calculate_merkle_root txs) [] ZATTERA_GENESIS_PUBLIC_KEY txs.
Let b1 := logged_block null_id 3 [trx].
Let b2 := logged_block (block_id b1) 6 [].
Let b3 := logged_block (block_id b2) 9 [].
(** A block is packed as its slot. *)
#[local] Instance slot_packing : Packing := {|
  pack_block b := [(blk_timestamp b - ZATTERA_GENESIS_TIME) / 3];
  unpack_block l :=
    match l with
    | t :: rest => (fun b => (b, rest)) <$> [b1; b2] !! Z.to_nat (t - 1)
    | [] => None
    end |}.

Let args := mk_open_args 1000000000 0 5 true 0.
Let config := mk_chain_property_object "chain" "main" "ZTR".
Definition small_genesis : database := run_state (init_genesis_with 5 1000000000 0) empty_database.
Definition after_blocks (l : list signed_block) : database := run_state (for_each l (Chain._apply_block 0)) small_genesis.
(** The third block is reversible. *)
Definition small_chain : chain :=
  mk_chain (mk_node (after_blocks [b1; b2; b3]) [(3, after_blocks [b1; b2])] 3 empty_fork_database
    (log_of [b1; b2]) [] false [] 0 []) true (Some config).

Lemma two_blocks_storable : storable [b1; b2].
Proof.
  split.
  - intros [|[|i]] b Hb; [| |done]; injection Hb as <-; vm_compute; reflexivity.
  - intros b rest Hb. repeat (apply elem_of_cons in Hb as [->|Hb]; [reflexivity|]). by inversion Hb.
  - intros b _. discriminate.
  - vm_compute. reflexivity.
Qed.

Lemma reindex_reproduces_witness : ∃ c' T,
  reindex config args small_chain = (Ok 2, c') ∧ nd_db (chn_node c') = forget T (after_blocks [b1; b2]) ∧
  acc_liquid_balance <$> row (Ref 1) (nd_db (chn_node c')) = Some (mk_asset 1000 LIQUID_SYMBOL).
Proof.
  destruct (reindex_reproduces config args small_chain [b1] b2 0 small_genesis (after_blocks [b1; b2]))
    as (c' & T & p & Hr & Hd & _).
  - exact two_blocks_storable.
  - vm_compute. reflexivity.
  - vm_compute. reflexivity.
  - vm_compute. reflexivity.
  - vm_compute. reflexivity.
  - intros _. vm_compute. reflexivity.
  - exact fewer_checks_none.
  - vm_compute. reflexivity.
  - exists c', T. split; [exact Hr|]. split; [exact Hd|]. rewrite Hd. vm_compute. reflexivity.
Defined.

Lemma restart_rewinds_witness : ∃ c', open config args (restarted small_chain) = (Ok tt, c') ∧
  nd_db (chn_node c') = after_blocks [b1; b2].
Proof.
  destruct (restart_rewinds config args small_chain config [b1] b2) as (c' & p & Ho & Hd & _).
  - split; vm_compute; reflexivity.
  - exact two_blocks_storable.
  - vm_compute. reflexivity.
  - reflexivity.
  - reflexivity.
  - reflexivity.
  - intros _. vm_compute. reflexivity.
  - exists c'. split; [exact Ho|]. rewrite Hd. vm_compute. reflexivity.
Defined.

(** The block log of the chain has been deleted. *)
Lemma resync_fallback_fails_witness :
  let c := restarted (small_chain <| chn_node ::= fun n => n <| nd_log := empty_block_log |> |>) in
  ∃ c2 c3, plugin_startup config (mk_plugin_options false false []) args c = (Throw type_id_in_use, c2) ∧
    open config args (restarted c2) = (Ok tt, c3) ∧ nd_db (chn_node c3) = small_genesis.
Proof.
  intros c.
  apply (resync_fallback_fails config (mk_plugin_options false false []) args c
    (assert_exception "Chain state does not match block log. Please reindex blockchain.")
    (snd (open config args (c <| chn_node ::= fun n => (add_checkpoints [] n).2 |>)))).
  - reflexivity.
  - reflexivity.
  - vm_compute. reflexivity.
  - vm_compute. reflexivity.
  - vm_compute. reflexivity.
  - vm_compute. reflexivity.
  - intros _. vm_compute. reflexivity.
Defined.
End Runs.
